(** * Zone filler and interactive router of KiCad's pcbnew: a shallow embedding

    The development follows [zone_filler.cpp] (class [ZONE_FILLER]),
    [zone_filler_tool.cpp] (class [ZONE_FILLER_TOOL]) and [pns_router.cpp]
    (class [PNS::ROUTER]).  Functions of those files are translated
    statement by statement; classes declared elsewhere ([SHAPE_POLY_SET],
    [ZONE_CONTAINER], [D_PAD], [NODE], the placers, ...) appear through the
    accessors the translated code calls, and their algorithms are fields of
    a record of collaborators. *)

From Stdlib Require Import ZArith QArith List Bool Lia.
From stdpp Require Import base option list gmap strings sorting.

Local Open Scope Z_scope.

(** ** Geometry: data layout of [SHAPE_LINE_CHAIN] and [SHAPE_POLY_SET] *)

Module Geometry.

Abbreviation VECTOR2I := (Z * Z)%type (only parsing).

(** A chain of points; thermal spokes are closed chains. *)
Abbreviation SHAPE_LINE_CHAIN := (list VECTOR2I).

(** [POLYGON]: the outline first ([front()]), then the holes. *)
Abbreviation POLYGON := (list SHAPE_LINE_CHAIN).

(** [SHAPE_POLY_SET::m_polys]. *)
Abbreviation SHAPE_POLY_SET := (list POLYGON).

Inductive POLYGON_MODE := PM_FAST | PM_STRICTLY_SIMPLE.

Inductive CORNER_STRATEGY :=
    | ALLOW_ACUTE_CORNERS | CHAMFER_ACUTE_CORNERS | ROUND_ACUTE_CORNERS
    | CHAMFER_ALL_CORNERS | ROUND_ALL_CORNERS.

Record BOX2I := { box_pos : VECTOR2I; box_size : VECTOR2I }.

Definition GetLeft (b : BOX2I) : Z := fst (box_pos b).
Definition GetTop (b : BOX2I) : Z := snd (box_pos b).
Definition GetRight (b : BOX2I) : Z := fst (box_pos b) + fst (box_size b).
Definition GetBottom (b : BOX2I) : Z := snd (box_pos b) + snd (box_size b).

(** [SHAPE_LINE_CHAIN::CPoint( i )] for an index inside the chain. *)
Definition CPoint (c : SHAPE_LINE_CHAIN) (i : nat) : VECTOR2I :=
    nth i c (0, 0).

(** [SHAPE_LINE_CHAIN::Move]: translation of every point. *)
Definition Move (c : SHAPE_LINE_CHAIN) (v : VECTOR2I) : SHAPE_LINE_CHAIN :=
    map (fun p => (fst p + fst v, snd p + snd v)) c.

(** [SHAPE_POLY_SET::AddOutline]: a new polygon without holes, at the end. *)
Definition AddOutline (s : SHAPE_POLY_SET) (c : SHAPE_LINE_CHAIN) : SHAPE_POLY_SET :=
    s ++ [[c]].

(** [SHAPE_POLY_SET::Polygon( idx ).front()], written [Outline( idx )] too. *)
Definition Outline (s : SHAPE_POLY_SET) (idx : nat) : SHAPE_LINE_CHAIN :=
    match s !! idx with
    | Some (o :: _) => o
    | _ => []
    end.

(** [SHAPE_POLY_SET::DeletePolygon( idx )]: [m_polys.erase( begin + idx )]. *)
Definition DeletePolygon (s : SHAPE_POLY_SET) (idx : nat) : SHAPE_POLY_SET :=
    delete idx s.

Definition OutlineCount (s : SHAPE_POLY_SET) : nat := length s.

End Geometry.
Export Geometry.

(** ** Board items the filler reads *)

Module Board.

Abbreviation PCB_LAYER_ID := nat (only parsing).

Inductive PAD_SHAPE_T :=
    | PAD_SHAPE_CIRCLE | PAD_SHAPE_RECT | PAD_SHAPE_OVAL | PAD_SHAPE_TRAPEZOID
    | PAD_SHAPE_ROUNDRECT | PAD_SHAPE_CHAMFERED_RECT | PAD_SHAPE_CUSTOM.

Inductive PAD_DRILL_SHAPE_T := PAD_DRILL_SHAPE_CIRCLE | PAD_DRILL_SHAPE_OBLONG.

Inductive PAD_ATTR_T :=
    | PAD_ATTRIB_STANDARD | PAD_ATTRIB_SMD | PAD_ATTRIB_CONN
    | PAD_ATTRIB_HOLE_NOT_PLATED.

Inductive CUST_PAD_SHAPE_IN_ZONE :=
    | CUST_PAD_SHAPE_IN_ZONE_OUTLINE | CUST_PAD_SHAPE_IN_ZONE_CONVEXHULL.

Inductive ZONE_CONNECTION :=
    | ZC_INHERITED | ZC_NONE | ZC_THERMAL | ZC_FULL | ZC_THT_THERMAL.

Inductive ZONE_FILL_MODE := POLYGONS | HATCH_PATTERN.

Inductive ISLAND_REMOVAL_MODE := IRM_ALWAYS | IRM_NEVER | IRM_AREA.

(** [D_PAD], by the getters the filler calls.  Angles are in tenths of a
      degree, as [GetOrientation] returns them. *)
Record D_PAD := {
    pad_NetCode : Z;
    pad_Size : VECTOR2I;
    pad_DrillSize : VECTOR2I;
    pad_Orientation : Z;
    pad_Shape : PAD_SHAPE_T;
    pad_DrillShape : PAD_DRILL_SHAPE_T;
    pad_Position : VECTOR2I;
    pad_Attribute : PAD_ATTR_T;
    pad_Layers : list PCB_LAYER_ID;
    pad_CustomShapeInZoneOpt : CUST_PAD_SHAPE_IN_ZONE;
    pad_RoundRectRadiusRatio : Q
  }.

Definition pad_IsOnLayer (p : D_PAD) (l : PCB_LAYER_ID) : bool :=
    bool_decide (l ∈ pad_Layers p).

Definition SetOrientation (p : D_PAD) (a : Z) : D_PAD :=
    {| pad_NetCode := pad_NetCode p; pad_Size := pad_Size p;
       pad_DrillSize := pad_DrillSize p; pad_Orientation := a;
       pad_Shape := pad_Shape p; pad_DrillShape := pad_DrillShape p;
       pad_Position := pad_Position p; pad_Attribute := pad_Attribute p;
       pad_Layers := pad_Layers p;
       pad_CustomShapeInZoneOpt := pad_CustomShapeInZoneOpt p;
       pad_RoundRectRadiusRatio := pad_RoundRectRadiusRatio p |}.

Definition SetPosition (p : D_PAD) (v : VECTOR2I) : D_PAD :=
    {| pad_NetCode := pad_NetCode p; pad_Size := pad_Size p;
       pad_DrillSize := pad_DrillSize p; pad_Orientation := pad_Orientation p;
       pad_Shape := pad_Shape p; pad_DrillShape := pad_DrillShape p;
       pad_Position := v; pad_Attribute := pad_Attribute p;
       pad_Layers := pad_Layers p;
       pad_CustomShapeInZoneOpt := pad_CustomShapeInZoneOpt p;
       pad_RoundRectRadiusRatio := pad_RoundRectRadiusRatio p |}.

(** [setupDummyPadForHole]: the dummy pad takes net, size (the drill
      size), orientation, shape (oval for an oblong drill, else circle) and
      position of the pad; its other fields stay as they were. *)
Definition setupDummyPadForHole (aPad aDummyPad : D_PAD) : D_PAD :=
    {| pad_NetCode := pad_NetCode aPad;
       pad_Size := pad_DrillSize aPad;
       pad_DrillSize := pad_DrillSize aDummyPad;
       pad_Orientation := pad_Orientation aPad;
       pad_Shape := match pad_DrillShape aPad with
                    | PAD_DRILL_SHAPE_OBLONG => PAD_SHAPE_OVAL
                    | PAD_DRILL_SHAPE_CIRCLE => PAD_SHAPE_CIRCLE
                    end;
       pad_DrillShape := pad_DrillShape aDummyPad;
       pad_Position := pad_Position aPad;
       pad_Attribute := pad_Attribute aDummyPad;
       pad_Layers := pad_Layers aDummyPad;
       pad_CustomShapeInZoneOpt := pad_CustomShapeInZoneOpt aDummyPad;
       pad_RoundRectRadiusRatio := pad_RoundRectRadiusRatio aDummyPad |}.

Record MODULE := { Pads : list D_PAD }.

(** The [BOARD] as the filler sees it: footprints with their pads, the
      design settings it reads, and what [GetBoardPolygonOutlines] yields
      (the outline and whether it is valid). *)
Record BOARD := {
    Modules : list MODULE;
    m_MaxError : Z;
    m_ZoneUseNoOutlineInFill : bool;
    BiggestClearanceValue : Z;
    BoardPolygonOutlines : SHAPE_POLY_SET * bool
  }.

End Board.
Export Board.

(** ** Zones *)

Module Zone.

(** What a fill leaves in a [ZONE_CONTAINER]: per-layer filled and raw
      polygons, the per-layer hash of the filled polygons, the outlines
      flagged as islands, and the flags and caches the filler sets. *)
Record ZONE_FILL_STATE := {
    m_FilledPolysList : gmap PCB_LAYER_ID SHAPE_POLY_SET;
    m_RawPolysList : gmap PCB_LAYER_ID SHAPE_POLY_SET;
    m_filledPolysHash : gmap PCB_LAYER_ID Z;
    m_insulatedIslands : gmap PCB_LAYER_ID (gset nat);
    m_IsFilled : bool;
    m_needRefill : bool;
    m_fillFlags : bool;
    m_area : Q;
    m_triangulationValid : bool
  }.

(** [ZONE_CONTAINER]: the settings the filler reads, by getter, and the
      fill state it writes. *)
Record ZONE_CONTAINER := {
    GetIsKeepout : bool;
    GetLayerSet : list PCB_LAYER_ID;
    GetNetCode : Z;
    IsOnCopperLayer : bool;
    GetMinThickness : Z;
    GetZoneClearance : Z;
    GetCornerRadius : Z;
    GetFillMode : ZONE_FILL_MODE;
    GetIslandRemovalMode : ISLAND_REMOVAL_MODE;
    GetMinIslandArea : Z;
    GetBoundingBox : BOX2I;
    fill : ZONE_FILL_STATE
  }.

Definition with_fill (z : ZONE_CONTAINER) (f : ZONE_FILL_STATE) : ZONE_CONTAINER :=
    {| GetIsKeepout := GetIsKeepout z; GetLayerSet := GetLayerSet z;
       GetNetCode := GetNetCode z; IsOnCopperLayer := IsOnCopperLayer z;
       GetMinThickness := GetMinThickness z;
       GetZoneClearance := GetZoneClearance z;
       GetCornerRadius := GetCornerRadius z; GetFillMode := GetFillMode z;
       GetIslandRemovalMode := GetIslandRemovalMode z;
       GetMinIslandArea := GetMinIslandArea z;
       GetBoundingBox := GetBoundingBox z; fill := f |}.

Section Setters.
Variable z : ZONE_CONTAINER.
Let f := fill z.

Definition SetFilledPolysList (l : PCB_LAYER_ID) (p : SHAPE_POLY_SET) :=
      with_fill z
        {| m_FilledPolysList := <[l := p]> (m_FilledPolysList f);
           m_RawPolysList := m_RawPolysList f;
           m_filledPolysHash := m_filledPolysHash f;
           m_insulatedIslands := m_insulatedIslands f;
           m_IsFilled := m_IsFilled f; m_needRefill := m_needRefill f;
           m_fillFlags := m_fillFlags f; m_area := m_area f;
           m_triangulationValid := m_triangulationValid f |}.

Definition SetRawPolysList (l : PCB_LAYER_ID) (p : SHAPE_POLY_SET) :=
      with_fill z
        {| m_FilledPolysList := m_FilledPolysList f;
           m_RawPolysList := <[l := p]> (m_RawPolysList f);
           m_filledPolysHash := m_filledPolysHash f;
           m_insulatedIslands := m_insulatedIslands f;
           m_IsFilled := m_IsFilled f; m_needRefill := m_needRefill f;
           m_fillFlags := m_fillFlags f; m_area := m_area f;
           m_triangulationValid := m_triangulationValid f |}.

Definition SetHashValue (l : PCB_LAYER_ID) (h : Z) :=
      with_fill z
        {| m_FilledPolysList := m_FilledPolysList f;
           m_RawPolysList := m_RawPolysList f;
           m_filledPolysHash := <[l := h]> (m_filledPolysHash f);
           m_insulatedIslands := m_insulatedIslands f;
           m_IsFilled := m_IsFilled f; m_needRefill := m_needRefill f;
           m_fillFlags := m_fillFlags f; m_area := m_area f;
           m_triangulationValid := m_triangulationValid f |}.

(** [SetIsIsland( layer, idx )]: [m_insulatedIslands[layer].insert( idx )]. *)
Definition SetIsIsland (l : PCB_LAYER_ID) (idx : nat) :=
      with_fill z
        {| m_FilledPolysList := m_FilledPolysList f;
           m_RawPolysList := m_RawPolysList f;
           m_filledPolysHash := m_filledPolysHash f;
           m_insulatedIslands :=
             <[l := {[idx]} ∪ default ∅ (m_insulatedIslands f !! l)]>
               (m_insulatedIslands f);
           m_IsFilled := m_IsFilled f; m_needRefill := m_needRefill f;
           m_fillFlags := m_fillFlags f; m_area := m_area f;
           m_triangulationValid := m_triangulationValid f |}.

Definition SetIsFilled (b : bool) :=
      with_fill z
        {| m_FilledPolysList := m_FilledPolysList f;
           m_RawPolysList := m_RawPolysList f;
           m_filledPolysHash := m_filledPolysHash f;
           m_insulatedIslands := m_insulatedIslands f;
           m_IsFilled := b; m_needRefill := m_needRefill f;
           m_fillFlags := m_fillFlags f; m_area := m_area f;
           m_triangulationValid := m_triangulationValid f |}.

Definition SetNeedRefill (b : bool) :=
      with_fill z
        {| m_FilledPolysList := m_FilledPolysList f;
           m_RawPolysList := m_RawPolysList f;
           m_filledPolysHash := m_filledPolysHash f;
           m_insulatedIslands := m_insulatedIslands f;
           m_IsFilled := m_IsFilled f; m_needRefill := b;
           m_fillFlags := m_fillFlags f; m_area := m_area f;
           m_triangulationValid := m_triangulationValid f |}.

Definition SetFilledPolysUseThickness (b : bool) :=
      with_fill z
        {| m_FilledPolysList := m_FilledPolysList f;
           m_RawPolysList := m_RawPolysList f;
           m_filledPolysHash := m_filledPolysHash f;
           m_insulatedIslands := m_insulatedIslands f;
           m_IsFilled := m_IsFilled f; m_needRefill := m_needRefill f;
           m_fillFlags := b; m_area := m_area f;
           m_triangulationValid := m_triangulationValid f |}.

Definition SetFilledArea (a : Q) :=
      with_fill z
        {| m_FilledPolysList := m_FilledPolysList f;
           m_RawPolysList := m_RawPolysList f;
           m_filledPolysHash := m_filledPolysHash f;
           m_insulatedIslands := m_insulatedIslands f;
           m_IsFilled := m_IsFilled f; m_needRefill := m_needRefill f;
           m_fillFlags := m_fillFlags f; m_area := a;
           m_triangulationValid := m_triangulationValid f |}.

(** [CacheTriangulation]: the triangulation of the filled polygons is
        rebuilt; the polygons themselves stay. *)
Definition CacheTriangulation :=
      with_fill z
        {| m_FilledPolysList := m_FilledPolysList f;
           m_RawPolysList := m_RawPolysList f;
           m_filledPolysHash := m_filledPolysHash f;
           m_insulatedIslands := m_insulatedIslands f;
           m_IsFilled := m_IsFilled f; m_needRefill := m_needRefill f;
           m_fillFlags := m_fillFlags f; m_area := m_area f;
           m_triangulationValid := true |}.

(** [UnFill]: every stored filled polygon set is emptied and the zone is
        marked not filled. *)
Definition UnFill :=
      with_fill z
        {| m_FilledPolysList := (fun _ => []) <$> m_FilledPolysList f;
           m_RawPolysList := m_RawPolysList f;
           m_filledPolysHash := m_filledPolysHash f;
           m_insulatedIslands := m_insulatedIslands f;
           m_IsFilled := false; m_needRefill := m_needRefill f;
           m_fillFlags := m_fillFlags f; m_area := m_area f;
           m_triangulationValid := m_triangulationValid f |}.

Definition GetFilledPolysUseThickness : bool := m_fillFlags f.

(** [GetHashValue( layer )]: the stored hash, a fresh (zero) digest when
        none was stored. *)
Definition GetHashValue (l : PCB_LAYER_ID) : Z :=
      default 0 (m_filledPolysHash f !! l).

End Setters.

End Zone.
Export Zone.

(** ** Collaborators

    The operations of classes that the translated files only call.  Each
    field carries the name of the C++ function it stands for. *)

Record COLLABORATORS := {
(** [SHAPE_POLY_SET] *)
  BooleanSubtract : SHAPE_POLY_SET -> SHAPE_POLY_SET -> POLYGON_MODE -> SHAPE_POLY_SET;
  BooleanIntersection : SHAPE_POLY_SET -> SHAPE_POLY_SET -> POLYGON_MODE -> SHAPE_POLY_SET;
  Simplify : SHAPE_POLY_SET -> POLYGON_MODE -> SHAPE_POLY_SET;
  Inflate : SHAPE_POLY_SET -> Z -> Z -> CORNER_STRATEGY -> SHAPE_POLY_SET;
  Deflate : SHAPE_POLY_SET -> Z -> Z -> CORNER_STRATEGY -> SHAPE_POLY_SET;
  Fracture : SHAPE_POLY_SET -> POLYGON_MODE -> SHAPE_POLY_SET;
  (** the corner strategy of [Deflate( amount, segments )] and the accuracy
      of [Contains( point )], when the call leaves them to the default *)
  DefaultCornerStrategy : CORNER_STRATEGY;
  DefaultAccuracy : Z;
(** [Contains( point, -1, accuracy )] *)
  Contains : SHAPE_POLY_SET -> VECTOR2I -> Z -> bool;
  GetHash : SHAPE_POLY_SET -> Z;
(** [SHAPE_LINE_CHAIN] *)
  PointInside : SHAPE_LINE_CHAIN -> VECTOR2I -> Z -> bool;
  Area : SHAPE_LINE_CHAIN -> Q;
(** [Rotate( -DECIDEG2RAD( angle ) )], the angle in tenths of a degree *)
  RotateDeciDeg : SHAPE_LINE_CHAIN -> Z -> SHAPE_LINE_CHAIN;
(** [BOX2I] and [EDA_RECT] *)
  BoxInflate : BOX2I -> Z -> BOX2I;
  BoxIntersects : BOX2I -> BOX2I -> bool;
(** geometry helpers and unit conversion *)
  GetArcToSegmentCount : Z -> Z -> Z;
  BuildConvexHull : SHAPE_POLY_SET -> SHAPE_LINE_CHAIN;
  ARC_LOW_DEF : Z;
(** [Millimeter2iu( 0.001 )] and [KiROUND( IU_PER_MM * 0.04 )] *)
  iu_0_001 : Z;
  iu_0_04 : Z;
(** [D_PAD]; [new_D_PAD] is a pad as its constructor leaves it *)
  new_D_PAD : D_PAD;
  pad_GetBoundingBox : D_PAD -> BOX2I;
  pad_ShapePos : D_PAD -> VECTOR2I;
  pad_TransformShapeWithClearanceToPolygon :
    D_PAD -> SHAPE_POLY_SET -> Z -> Z -> SHAPE_POLY_SET;
(** [ZONE_CONTAINER] *)
  BuildSmoothedPoly : ZONE_CONTAINER -> PCB_LAYER_ID -> bool * SHAPE_POLY_SET;
  GetPadConnection : ZONE_CONTAINER -> D_PAD -> ZONE_CONNECTION;
  GetThermalReliefGap : ZONE_CONTAINER -> D_PAD -> Z;
  GetThermalReliefCopperBridge : ZONE_CONTAINER -> D_PAD -> Z;
  CalculateFilledArea : ZONE_CONTAINER -> Q;
(** [ZONE_FILLER::buildCopperItemClearances] and
      [ZONE_FILLER::addHatchFillTypeOnZone], which read the board and the
      filler's two arc-approximation settings ([m_high_def], [m_low_def]).
      Both are translated further down ([Clearances], [Hatch]); here the
      fill takes what they give back as it comes.  The field for the hatch
      step is what that step returns when it returns: the function has
      loops without a bound of their own and does not return for every
      zone ([Hatch]), so that a fill is said to run to its end only for
      zones that are not hatched, where the step is not taken. *)
  buildCopperItemClearances :
    BOARD -> Z -> Z -> ZONE_CONTAINER -> PCB_LAYER_ID -> SHAPE_POLY_SET -> SHAPE_POLY_SET;
  addHatchFillTypeOnZone :
    BOARD -> Z -> Z -> ZONE_CONTAINER -> PCB_LAYER_ID -> SHAPE_POLY_SET -> SHAPE_POLY_SET;
(** [CONNECTIVITY_DATA::FindIsolatedCopperIslands]: for the zones handed
      over, the island indices it found, per layer *)
  FindIsolatedCopperIslands :
    gmap nat ZONE_CONTAINER -> list nat -> nat -> gmap PCB_LAYER_ID (list nat);
(** [std::thread::hardware_concurrency()], and whether the user leaves the
    "Zone fills are out-of-date. Refill?" dialog by its cancel button
    ([dlg.ShowModal() == wxID_CANCEL]) *)
  hardware_concurrency : nat;
  refillDialogCancelled : bool
}.

#[global] Instance PAD_SHAPE_T_eq_dec : EqDecision PAD_SHAPE_T.
Proof. solve_decision. Defined.
#[global] Instance PAD_ATTR_T_eq_dec : EqDecision PAD_ATTR_T.
Proof. solve_decision. Defined.
#[global] Instance CUST_PAD_SHAPE_IN_ZONE_eq_dec : EqDecision CUST_PAD_SHAPE_IN_ZONE.
Proof. solve_decision. Defined.
#[global] Instance ZONE_CONNECTION_eq_dec : EqDecision ZONE_CONNECTION.
Proof. solve_decision. Defined.
#[global] Instance ZONE_FILL_MODE_eq_dec : EqDecision ZONE_FILL_MODE.
Proof. solve_decision. Defined.
#[global] Instance ISLAND_REMOVAL_MODE_eq_dec : EqDecision ISLAND_REMOVAL_MODE.
Proof. solve_decision. Defined.

(** ** The progress reporter

    [IsCancelled] reads a flag that the user interface sets at a moment of
    its own choosing.  The reporter is therefore a script that answers each
    poll, and the count of polls made so far; a null reporter is [None].
    [Report], [AdvancePhase], [SetMaxProgress], [AdvanceProgress] and
    [KeepRefreshing] only drive the dialog and leave no trace here. *)

Module Reporter.

Record PROGRESS_REPORTER := {
  cancelScript : nat -> bool;
  polls : nat
}.

Definition IsCancelled (r : PROGRESS_REPORTER) : bool * PROGRESS_REPORTER :=
  (cancelScript r (polls r),
   {| cancelScript := cancelScript r; polls := S (polls r) |}).

(** [m_progressReporter && m_progressReporter->IsCancelled()] *)
Definition cancelled (r : option PROGRESS_REPORTER)
  : bool * option PROGRESS_REPORTER :=
  match r with
  | None => (false, None)
  | Some p => let '(c, p') := IsCancelled p in (c, Some p')
  end.

(** A reporter whose user never cancels. *)
Definition neverCancelled (r : option PROGRESS_REPORTER) : Prop :=
  match r with
  | None => True
  | Some p => forall n, cancelScript p n = false
  end.

End Reporter.
Export Reporter.

(** ** [ZONE_FILLER] *)

Module Filler.

Record ZONE_FILLER := {
  m_boardOutline : SHAPE_POLY_SET;
  m_brdOutlinesValid : bool;
  m_progressReporter : option PROGRESS_REPORTER;
  m_high_def : Z;
  m_low_def : Z
}.

(** The constructor: [m_brdOutlinesValid( false )], no reporter,
    [m_high_def( 9 )], [m_low_def( 6 )]. *)
Definition new_ZONE_FILLER : ZONE_FILLER :=
  {| m_boardOutline := []; m_brdOutlinesValid := false;
     m_progressReporter := None; m_high_def := 9; m_low_def := 6 |}.

Definition with_reporter (F : ZONE_FILLER) (r : option PROGRESS_REPORTER) :=
  {| m_boardOutline := m_boardOutline F;
     m_brdOutlinesValid := m_brdOutlinesValid F;
     m_progressReporter := r;
     m_high_def := m_high_def F; m_low_def := m_low_def F |}.

Definition with_defs (F : ZONE_FILLER) (hi lo : Z) :=
  {| m_boardOutline := m_boardOutline F;
     m_brdOutlinesValid := m_brdOutlinesValid F;
     m_progressReporter := m_progressReporter F;
     m_high_def := hi; m_low_def := lo |}.

Definition with_outline (F : ZONE_FILLER) (o : SHAPE_POLY_SET * bool) :=
  {| m_boardOutline := fst o;
     m_brdOutlinesValid := snd o;
     m_progressReporter := m_progressReporter F;
     m_high_def := m_high_def F; m_low_def := m_low_def F |}.

Section WithCollaborators.

Variable E : COLLABORATORS.
Variable B : BOARD.

(** [hasThermalConnection( pad, aZone )] *)
Definition hasThermalConnection (pad : D_PAD) (aZone : ZONE_CONTAINER) : bool :=
  if bool_decide (GetPadConnection E aZone pad = ZC_THT_THERMAL)
     && negb (bool_decide (pad_Attribute pad = PAD_ATTRIB_STANDARD))
  then false
  else if negb (bool_decide (GetPadConnection E aZone pad = ZC_THERMAL))
          && negb (bool_decide (GetPadConnection E aZone pad = ZC_THT_THERMAL))
  then false
  else if negb (pad_NetCode pad =? GetNetCode aZone) || (pad_NetCode pad <=? 0)
  then false
  else
    let item_boundingbox := pad_GetBoundingBox E pad in
    let thermalGap := GetThermalReliefGap E aZone pad in
    let item_boundingbox := BoxInflate E item_boundingbox thermalGap in
    BoxIntersects E item_boundingbox (GetBoundingBox aZone).

(** [addKnockout( aPad, aGap, aHoles )] with the filler's current
    [m_high_def] and [m_low_def]. *)
Definition addKnockout (hi lo : Z) (aPad : D_PAD) (aGap : Z)
    (aHoles : SHAPE_POLY_SET) : SHAPE_POLY_SET :=
  if bool_decide (pad_Shape aPad = PAD_SHAPE_CUSTOM) then
    let poly := pad_TransformShapeWithClearanceToPolygon E aPad [] aGap hi in
    if bool_decide (pad_CustomShapeInZoneOpt aPad = CUST_PAD_SHAPE_IN_ZONE_CONVEXHULL)
    then aHoles ++ [[BuildConvexHull E poly]]
    else aHoles ++ poly
  else
    if bool_decide (pad_Shape aPad = PAD_SHAPE_CIRCLE)
       || bool_decide (pad_Shape aPad = PAD_SHAPE_OVAL)
       || (bool_decide (pad_Shape aPad = PAD_SHAPE_ROUNDRECT)
           && negb (Qle_bool (pad_RoundRectRadiusRatio aPad) (4 # 10)))
    then pad_TransformShapeWithClearanceToPolygon E aPad aHoles aGap hi
    else pad_TransformShapeWithClearanceToPolygon E aPad aHoles aGap lo.

(** The body of the pad loop of [knockoutThermalReliefs]; the state is the
    dummy pad and the holes gathered so far. *)
Definition knockoutPad (hi lo : Z) (aZone : ZONE_CONTAINER) (aLayer : PCB_LAYER_ID)
    (st : D_PAD * SHAPE_POLY_SET) (pad : D_PAD) : D_PAD * SHAPE_POLY_SET :=
  let '(dummypad, holes) := st in
  if negb (hasThermalConnection pad aZone) then st
  else if negb (pad_IsOnLayer pad aLayer) then
    if (fst (pad_DrillSize pad) =? 0) && (snd (pad_DrillSize pad) =? 0) then st
    else
      let dummypad := setupDummyPadForHole pad dummypad in
      (dummypad,
       addKnockout hi lo dummypad (GetThermalReliefGap E aZone dummypad) holes)
  else (dummypad, addKnockout hi lo pad (GetThermalReliefGap E aZone pad) holes).

Definition allPads : list D_PAD := concat (map Pads (Modules B)).

(** [knockoutThermalReliefs( aZone, aLayer, aFill )]; the loop starts from
    the freshly constructed [D_PAD dummypad( &dummymodule )]. *)
Definition knockoutThermalReliefs (hi lo : Z)
    (aZone : ZONE_CONTAINER) (aLayer : PCB_LAYER_ID)
    (aFill : SHAPE_POLY_SET) : SHAPE_POLY_SET :=
  let holes :=
    snd (foldl (knockoutPad hi lo aZone aLayer) (new_D_PAD E, []) allPads) in
  let holes := Simplify E holes PM_FAST in
  BooleanSubtract E aFill holes PM_FAST.

Definition s_RoundPadThermalSpokeAngle : Z := 450.

(** The four stubs of one pad, in the pad's own frame: lower, upper, right
    and left, as the [switch] of [buildThermalSpokes] appends them.  The
    fourth point of each is the test point. *)
Definition spokeChains (spoke_half_w : Z) (reliefBB : BOX2I)
  : list SHAPE_LINE_CHAIN :=
  [ [ (spoke_half_w, - spoke_half_w); (- spoke_half_w, - spoke_half_w);
      (- spoke_half_w, GetBottom reliefBB); (0, GetBottom reliefBB);
      (spoke_half_w, GetBottom reliefBB) ];
    [ (spoke_half_w, spoke_half_w); (- spoke_half_w, spoke_half_w);
      (- spoke_half_w, GetTop reliefBB); (0, GetTop reliefBB);
      (spoke_half_w, GetTop reliefBB) ];
    [ (- spoke_half_w, spoke_half_w); (- spoke_half_w, - spoke_half_w);
      (GetRight reliefBB, - spoke_half_w); (GetRight reliefBB, 0);
      (GetRight reliefBB, spoke_half_w) ];
    [ (spoke_half_w, spoke_half_w); (spoke_half_w, - spoke_half_w);
      (GetLeft reliefBB, - spoke_half_w); (GetLeft reliefBB, 0);
      (GetLeft reliefBB, spoke_half_w) ] ].

(** The clamped bridge width of [buildThermalSpokes]. *)
Definition spokeWidth (aZone : ZONE_CONTAINER) (pad : D_PAD) : Z :=
  let spoke_w := GetThermalReliefCopperBridge E aZone pad in
  let spoke_w := Z.min spoke_w (fst (pad_Size pad)) in
  Z.min spoke_w (snd (pad_Size pad)).

(** The zone's bounding box as [buildThermalSpokes] inflates it. *)
Definition spokeZoneBB (aZone : ZONE_CONTAINER) : BOX2I :=
  let zoneBB := GetBoundingBox aZone in
  let zone_clearance := GetZoneClearance aZone in
  let biggest_clearance := BiggestClearanceValue B in
  let biggest_clearance := Z.max biggest_clearance zone_clearance in
  BoxInflate E zoneBB biggest_clearance.

(** The angle the spokes of a pad are rotated by. *)
Definition spokeAngle (pad : D_PAD) : Z :=
  if bool_decide (pad_Shape pad = PAD_SHAPE_CIRCLE)
  then s_RoundPadThermalSpokeAngle
  else pad_Orientation pad.

(** The body of the pad loop of [buildThermalSpokes]: the spokes one pad
    contributes. *)
Definition padSpokes (aZone : ZONE_CONTAINER) (aLayer : PCB_LAYER_ID)
    (pad : D_PAD) : list SHAPE_LINE_CHAIN :=
  let zoneBB := spokeZoneBB aZone in
  let epsilon := iu_0_04 E in
  if negb (hasThermalConnection pad aZone) then []
  else if negb (pad_IsOnLayer pad aLayer) then []
  else
    let thermalReliefGap := GetThermalReliefGap E aZone pad in
    let spoke_w := spokeWidth aZone pad in
    if spoke_w <=? GetMinThickness aZone then []
    else
      let spoke_half_w := spoke_w ÷ 2 in
      let itemBB := BoxInflate E (pad_GetBoundingBox E pad) (thermalReliefGap + epsilon) in
      if negb (BoxIntersects E itemBB zoneBB) then []
      else
        let shapePos := pad_ShapePos E pad in
        let dummy_pad := SetPosition (SetOrientation pad 0) (0, 0) in
        let reliefBB :=
          BoxInflate E (pad_GetBoundingBox E dummy_pad) (thermalReliefGap + epsilon) in
        let padAngle := spokeAngle pad in
        map (fun spoke => Move (RotateDeciDeg E spoke padAngle) shapePos)
            (spokeChains spoke_half_w reliefBB).

(** [buildThermalSpokes( aZone, aLayer, aSpokesList )] *)
Definition buildThermalSpokes (aZone : ZONE_CONTAINER) (aLayer : PCB_LAYER_ID)
    (aSpokesList : list SHAPE_LINE_CHAIN) : list SHAPE_LINE_CHAIN :=
  aSpokesList ++ flat_map (padSpokes aZone aLayer) allPads.

(** Hit-test of a spoke's test point against the other spokes:
    [&other != &spoke && other.PointInside( testPt, 1 )] for some [other];
    spokes are told apart by their place in the deque. *)
Definition hitsOtherSpoke (thermalSpokes : list SHAPE_LINE_CHAIN) (i : nat)
    (testPt : VECTOR2I) : bool :=
  existsb (fun jo => negb (Nat.eqb (fst jo) i) && PointInside E (snd jo) testPt 1)
          (imap pair thermalSpokes).

(** The spoke loop of [computeRawFilledArea], from spoke number [i] on.
    The result says whether the loop left the function ([return] on
    cancellation), and gives the reporter and the raw polygons. *)
Fixpoint spokeLoop (testAreas : SHAPE_POLY_SET)
    (thermalSpokes : list SHAPE_LINE_CHAIN) (i : nat)
    (rest : list SHAPE_LINE_CHAIN) (interval : Z)
    (r : option PROGRESS_REPORTER) (aRawPolys : SHAPE_POLY_SET)
  : bool * option PROGRESS_REPORTER * SHAPE_POLY_SET :=
  match rest with
  | [] => (false, r, aRawPolys)
  | spoke :: rest' =>
    let testPt := CPoint spoke 3 in
    if Contains E testAreas testPt 1 then
      spokeLoop testAreas thermalSpokes (S i) rest' interval r
                (AddOutline aRawPolys spoke)
    else
      let fire := interval >? 400 in
      let interval := interval + 1 in
      let '(c, r) := if fire then cancelled r else (false, r) in
      if c then (true, r, aRawPolys)
      else
        let interval := if fire then 0 else interval in
        let aRawPolys :=
          if hitsOtherSpoke thermalSpokes i testPt
          then AddOutline aRawPolys spoke else aRawPolys in
        spokeLoop testAreas thermalSpokes (S i) rest' interval r aRawPolys
  end.

(** The area the spokes are tested against, from the raw polygons as they
    stand once the thermal reliefs are knocked out. *)
Definition spokeTestAreas (aZone : ZONE_CONTAINER) (numSegs : Z)
    (aRawPolys clearanceHoles : SHAPE_POLY_SET) : SHAPE_POLY_SET :=
  let half_min_width := GetMinThickness aZone ÷ 2 in
  let epsilon := iu_0_001 E in
  let testAreas := BooleanSubtract E aRawPolys clearanceHoles PM_FAST in
  if half_min_width - epsilon >? epsilon then
    let testAreas :=
      Deflate E testAreas (half_min_width - epsilon) numSegs CHAMFER_ALL_CORNERS in
    Inflate E testAreas (half_min_width - epsilon) numSegs CHAMFER_ALL_CORNERS
  else testAreas.

(** [computeRawFilledArea( aZone, aLayer, aSmoothedOutline, aRawPolys,
    aFinalPolys )].  The function returns nothing; what it leaves are the
    filler (its two arc settings and the reporter) and the two polygon
    sets.  Each [return] on cancellation leaves them as they stand. *)
Definition computeRawFilledArea (F : ZONE_FILLER) (aZone : ZONE_CONTAINER)
    (aLayer : PCB_LAYER_ID) (aSmoothedOutline aRawPolys aFinalPolys : SHAPE_POLY_SET)
  : ZONE_FILLER * SHAPE_POLY_SET * SHAPE_POLY_SET :=
  let hi := m_MaxError B in
  let lo := Z.min (ARC_LOW_DEF E) ((hi * 3) ÷ 2) in
  let F := with_defs F hi lo in
  let half_min_width := GetMinThickness aZone ÷ 2 in
  let epsilon := iu_0_001 E in
  let numSegs := Z.max (GetArcToSegmentCount E half_min_width hi) 6 in
  let aRawPolys := aSmoothedOutline in
  let '(c, r) := cancelled (m_progressReporter F) in
  if c then (with_reporter F r, aRawPolys, aFinalPolys) else
  let aRawPolys := knockoutThermalReliefs hi lo aZone aLayer aRawPolys in
  let '(c, r) := cancelled r in
  if c then (with_reporter F r, aRawPolys, aFinalPolys) else
  let clearanceHoles := buildCopperItemClearances E B hi lo aZone aLayer [] in
  let '(c, r) := cancelled r in
  if c then (with_reporter F r, aRawPolys, aFinalPolys) else
  let thermalSpokes := buildThermalSpokes aZone aLayer [] in
  let '(c, r) := cancelled r in
  if c then (with_reporter F r, aRawPolys, aFinalPolys) else
  let testAreas := spokeTestAreas aZone numSegs aRawPolys clearanceHoles in
  let '(c, r) := cancelled r in
  if c then (with_reporter F r, aRawPolys, aFinalPolys) else
  let '(returned, r, aRawPolys) :=
    spokeLoop testAreas thermalSpokes 0 thermalSpokes 0 r aRawPolys in
  if returned then (with_reporter F r, aRawPolys, aFinalPolys) else
  let '(c, r) := cancelled r in
  if c then (with_reporter F r, aRawPolys, aFinalPolys) else
  let aRawPolys := BooleanIntersection E aRawPolys aSmoothedOutline PM_FAST in
  let aRawPolys := Simplify E aRawPolys PM_FAST in
  let '(c, r) := cancelled r in
  if c then (with_reporter F r, aRawPolys, aFinalPolys) else
  let aRawPolys := BooleanSubtract E aRawPolys clearanceHoles PM_FAST in
  let aRawPolys :=
    if half_min_width - epsilon >? epsilon
    then Deflate E aRawPolys (half_min_width - epsilon) numSegs CHAMFER_ALL_CORNERS
    else aRawPolys in
  let '(c, r) := cancelled r in
  if c then (with_reporter F r, aRawPolys, aFinalPolys) else
  let aRawPolys :=
    if bool_decide (GetFillMode aZone = HATCH_PATTERN)
    then addHatchFillTypeOnZone E B hi lo aZone aLayer aRawPolys
    else aRawPolys in
  let '(c, r) := cancelled r in
  if c then (with_reporter F r, aRawPolys, aFinalPolys) else
  let aRawPolys :=
    if GetFilledPolysUseThickness aZone then aRawPolys
    else if half_min_width - epsilon >? epsilon then
      let aRawPolys := Simplify E aRawPolys PM_FAST in
      let aRawPolys :=
        Inflate E aRawPolys (half_min_width - epsilon) numSegs ROUND_ALL_CORNERS in
      if GetMinThickness aZone >? GetCornerRadius aZone
      then BooleanIntersection E aRawPolys aSmoothedOutline PM_FAST
      else aRawPolys
    else aRawPolys in
  let aRawPolys := Fracture E aRawPolys PM_FAST in
  let aFinalPolys := aRawPolys in
  (with_reporter F r, aRawPolys, aFinalPolys).

(** The non-copper branch of [fillSingleZone], on the smoothed outline:
    the raw and the final polygons. *)
Definition fillNonCopper (F : ZONE_FILLER) (aZone : ZONE_CONTAINER)
    (aLayer : PCB_LAYER_ID) (smoothedPoly : SHAPE_POLY_SET)
  : SHAPE_POLY_SET * SHAPE_POLY_SET :=
  let half_min_width := GetMinThickness aZone ÷ 2 in
  let epsilon := iu_0_001 E in
  let numSegs := Z.max (GetArcToSegmentCount E half_min_width (m_high_def F)) 6 in
  let smoothedPoly :=
    if m_brdOutlinesValid F
    then BooleanIntersection E smoothedPoly (m_boardOutline F) PM_STRICTLY_SIMPLE
    else smoothedPoly in
  let smoothedPoly :=
    Deflate E smoothedPoly half_min_width numSegs (DefaultCornerStrategy E) in
  let smoothedPoly :=
    if bool_decide (GetFillMode aZone = HATCH_PATTERN)
    then addHatchFillTypeOnZone E B (m_high_def F) (m_low_def F) aZone aLayer smoothedPoly
    else smoothedPoly in
  let smoothedPoly :=
    if GetFilledPolysUseThickness aZone then smoothedPoly
    else if half_min_width - epsilon >? epsilon
    then Deflate E smoothedPoly (- (half_min_width - epsilon)) numSegs
                 (DefaultCornerStrategy E)
    else smoothedPoly in
  let aRawPolys := smoothedPoly in
  let aFinalPolys := smoothedPoly in
  (aRawPolys, Fracture E aFinalPolys PM_STRICTLY_SIMPLE).

(** [fillSingleZone( aZone, aLayer, aRawPolys, aFinalPolys )]: the value
    returned, the filler, the zone ([SetNeedRefill]) and the two polygon
    sets. *)
Definition fillSingleZone (F : ZONE_FILLER) (aZone : ZONE_CONTAINER)
    (aLayer : PCB_LAYER_ID) (aRawPolys aFinalPolys : SHAPE_POLY_SET)
  : bool * ZONE_FILLER * ZONE_CONTAINER * SHAPE_POLY_SET * SHAPE_POLY_SET :=
  let '(ok, smoothedPoly) := BuildSmoothedPoly E aZone aLayer in
  if negb ok then (false, F, aZone, aRawPolys, aFinalPolys) else
  let '(c, r) := cancelled (m_progressReporter F) in
  let F := with_reporter F r in
  if c then (false, F, aZone, aRawPolys, aFinalPolys) else
  let '(F, aRawPolys, aFinalPolys) :=
    if IsOnCopperLayer aZone
    then computeRawFilledArea F aZone aLayer smoothedPoly aRawPolys aFinalPolys
    else
      let '(raw, final) := fillNonCopper F aZone aLayer smoothedPoly in
      (F, raw, final) in
  (true, F, SetNeedRefill aZone false, aRawPolys, aFinalPolys).

End WithCollaborators.

End Filler.
Export Filler.

(** ** The commit collaborator *)

Module Commit.

(** Zones live on the board and are reached through pointers: a store from
    addresses to zones. *)
Abbreviation ZONES := (gmap nat ZONE_CONTAINER).

(** Modelled from the spec: the [COMMIT] class ([BOARD_COMMIT]) is not among
    the translated files.  The spec gives it as the transactional-edit
    collaborator with [Modify(item)], [Push(description)] and [Revert()]:
    [Modify] is called before a change so that the change can be reverted.
    A commit is the copies it holds, one per item, made when [Modify] first
    sees the item. *)
Definition Modify (zone : nat) (zs : ZONES) (staged : ZONES) : ZONES :=
  match staged !! zone with
  | Some _ => staged
  | None =>
    match zs !! zone with
    | Some z => <[zone := z]> staged
    | None => staged
    end
  end.

(** Modelled from the spec: [Revert()] puts every held copy back. *)
Definition Revert (zs : ZONES) (staged : ZONES) : ZONES := staged ∪ zs.

(** Modelled from the spec: [Push(description)] ends the transaction and
    keeps the zones as they are.  The calls of the translated files hand it
    a second argument as well, [commit.Push( _( "Fill Zone(s)" ), false )];
    what [BOARD_COMMIT] makes of it is not in those files, and the spec is
    silent about it.  A push is therefore recorded as it was called, with
    its description and that argument: [pushes] are the calls made so far,
    the latest first, and nothing is said of what a push leaves behind. *)
Definition Push (description : string) (second : bool)
    (pushes : list (string * bool)) : list (string * bool) :=
  (description, second) :: pushes.

End Commit.
Export Commit.

(** ** [ZONE_FILLER::Fill] *)

Module FillOp.

Inductive outcome :=
  | Returns (b : bool)
  (** [std::map::at] on a missing layer, or a null reporter dereferenced *)
  | Throws.

(** Loops that a [return] can leave. *)
Inductive flow (S : Type) :=
  | Continue (s : S)
  | Leave (o : outcome) (s : S).
Arguments Continue {S} s.
Arguments Leave {S} o s.

Fixpoint forEach {A S : Type} (body : S -> A -> flow S) (l : list A) (s : S)
  : flow S :=
  match l with
  | [] => Continue s
  | a :: l' =>
    match body s a with
    | Continue s' => forEach body l' s'
    | Leave o s' => Leave o s'
    end
  end.

Record CN_ZONE_ISOLATED_ISLAND_LIST := {
  m_zone : nat;
  m_islands : gmap PCB_LAYER_ID (list nat)
}.

(** [std::sort( begin, end, std::greater<int>() )] *)
Definition sortDescending (l : list nat) : list nat :=
  merge_sort (flip Nat.le) l.

(** [std::min<size_t>( hardware_concurrency(), aZones.size() )] *)
Definition parallelThreadCount (hw : nat) (aZones : list nat) : nat :=
  Nat.min hw (length aZones).

(** How many times the worker function runs: once in place when
    [parallelThreadCount <= 1], else once per [std::async]. *)
Definition workerRuns (threads : nat) : nat :=
  if (threads <=? 1)%nat then 1%nat else threads.

Section WithCollaborators.

Variable E : COLLABORATORS.
Variable B : BOARD.

(** [ZONE_CONTAINER::BuildHashValue( layer )]: the hash of the filled
    polygons the zone holds for the layer, when it holds some. *)
Definition BuildHashValue (z : ZONE_CONTAINER) (layer : PCB_LAYER_ID)
  : ZONE_CONTAINER :=
  match m_FilledPolysList (fill z) !! layer with
  | None => z
  | Some p => SetHashValue z layer (GetHash E p)
  end.

(** The body of the first loop of [Fill]. *)
Definition collectZone
    (st : ZONES * ZONES * list (nat * PCB_LAYER_ID) * list CN_ZONE_ISOLATED_ISLAND_LIST)
    (zone : nat)
  : ZONES * ZONES * list (nat * PCB_LAYER_ID) * list CN_ZONE_ISOLATED_ISLAND_LIST :=
  let '(zs, staged, toFill, islandsList) := st in
  match zs !! zone with
  | None => st
  | Some z =>
    if GetIsKeepout z then st
    else
      let staged := Modify zone zs staged in
      let layers := GetLayerSet z in
      let z := foldl BuildHashValue z layers in
      let toFill := toFill ++ map (fun layer => (zone, layer)) layers in
      let islandsList := islandsList ++ [ {| m_zone := zone; m_islands := ∅ |} ] in
      let z := UnFill z in
      (<[zone := z]> zs, staged, toFill, islandsList)
  end.

(** [fill_lambda]: one worker, taking the work items that are left one by
    one; it gives back the items it did not take. *)
Fixpoint fill_lambda (filledPolyWithOutline : bool)
    (items : list (nat * PCB_LAYER_ID)) (st : ZONE_FILLER * ZONES)
  : list (nat * PCB_LAYER_ID) * (ZONE_FILLER * ZONES) :=
  match items with
  | [] => ([], st)
  | (zone, layer) :: rest =>
    let '(F, zs) := st in
    match zs !! zone with
    | None => fill_lambda filledPolyWithOutline rest st
    | Some z =>
      let z := SetFilledPolysUseThickness z filledPolyWithOutline in
      let '(_, F, z, rawPolys, finalPolys) := fillSingleZone E B F z layer [] [] in
      let z := SetRawPolysList z layer rawPolys in
      let z := SetFilledPolysList z layer finalPolys in
      let z := SetIsFilled z true in
      let zs := <[zone := z]> zs in
      let '(c, r) := cancelled (m_progressReporter F) in
      let F := with_reporter F r in
      if c then (rest, (F, zs))
      else fill_lambda filledPolyWithOutline rest (F, zs)
    end
  end.

(** [tri_lambda]: one worker of the triangulation phase. *)
Fixpoint tri_lambda (items : list CN_ZONE_ISOLATED_ISLAND_LIST)
    (st : ZONE_FILLER * ZONES)
  : list CN_ZONE_ISOLATED_ISLAND_LIST * (ZONE_FILLER * ZONES) :=
  match items with
  | [] => ([], st)
  | il :: rest =>
    let '(F, zs) := st in
    let zs := alter CacheTriangulation (m_zone il) zs in
    let '(c, r) := cancelled (m_progressReporter F) in
    let F := with_reporter F r in
    if c then (rest, (F, zs))
    else tri_lambda rest (F, zs)
  end.

(** The workers of a phase, under the schedule in which they run one after
    the other: each takes its items from where the shared counter stands. *)
Fixpoint runWorkers {A S : Type} (worker : list A -> S -> list A * S)
    (runs : nat) (items : list A) (s : S) : S :=
  match runs with
  | O => s
  | S runs' =>
    let '(items', s') := worker items s in
    runWorkers worker runs' items' s'
  end.

(** The test of the island loop: delete the polygon at [idx]? *)
Definition deleteIsland (F : ZONE_FILLER) (mode : ISLAND_REMOVAL_MODE)
    (minArea : Z) (poly : SHAPE_POLY_SET) (idx : nat) : bool :=
  bool_decide (mode = IRM_ALWAYS)
  || (bool_decide (mode = IRM_AREA)
      && negb (Qle_bool (inject_Z minArea) (Area E (Outline poly idx))))
  || negb (Contains E (m_boardOutline F) (CPoint (Outline poly idx) 0)
                    (DefaultAccuracy E)).

(** The body of the island loop, for a zone with a net. *)
Definition removeIsland (F : ZONE_FILLER) (layer : PCB_LAYER_ID)
    (mode : ISLAND_REMOVAL_MODE) (minArea : Z)
    (st : ZONE_CONTAINER * SHAPE_POLY_SET) (idx : nat)
  : ZONE_CONTAINER * SHAPE_POLY_SET :=
  let '(z, poly) := st in
  if deleteIsland F mode minArea poly idx
  then (z, DeletePolygon poly idx)
  else (SetIsIsland z layer idx, poly).

(** The loop over the polygons of a zone without net:
    [for( idx = 0; idx < OutlineCount(); )], deleting at [idx] or stepping
    to [idx + 1]; the polygon at an index that is deleted hands its place
    to its successor. *)
Fixpoint removeOutside (F : ZONE_FILLER) (poly : SHAPE_POLY_SET)
  : SHAPE_POLY_SET :=
  match poly with
  | [] => []
  | p :: rest =>
    if match p with
       | [] => true
       | front :: _ =>
         negb (Contains E (m_boardOutline F) (CPoint front 0) (DefaultAccuracy E))
       end
    then removeOutside F rest
    else p :: removeOutside F rest
  end.

(** What the post-processing does to the filled polygons of one layer, once
    the island list has an entry for the layer. *)
Definition pruneLayer (F : ZONE_FILLER) (layer : PCB_LAYER_ID)
    (islands : list nat) (z : ZONE_CONTAINER) (poly : SHAPE_POLY_SET)
  : ZONE_CONTAINER * SHAPE_POLY_SET :=
  let islands := sortDescending islands in
  let minArea := GetMinIslandArea z in
  let mode := GetIslandRemovalMode z in
  if GetNetCode z >? 0 then
    foldl (removeIsland F layer mode minArea) (z, poly) islands
  else if m_brdOutlinesValid F && IsOnCopperLayer z then
    (z, removeOutside F poly)
  else (z, poly).

(** The body of the layer loop of the post-processing, for the entry [il] of
    the island list. *)
Definition postLayer (aCheck : bool) (il : CN_ZONE_ISOLATED_ISLAND_LIST)
    (st : ZONE_FILLER * ZONES * bool) (layer : PCB_LAYER_ID)
  : flow (ZONE_FILLER * ZONES * bool) :=
  let '(F, zs, outOfDate) := st in
  match m_islands il !! layer with
  | None => Continue st
  | Some islands =>
    match zs !! m_zone il with
    | None => Continue st
    | Some z =>
      match m_FilledPolysList (fill z) !! layer with
      | None => Leave Throws st
      | Some poly =>
        let '(z, poly) := pruneLayer F layer islands z poly in
        let z := SetFilledPolysList z layer poly in
        let z := SetFilledArea z (CalculateFilledArea E z) in
        let outOfDate :=
          if aCheck && negb (GetHashValue z layer =? GetHash E poly)
          then true else outOfDate in
        let zs := <[m_zone il := z]> zs in
        let '(c, r) := cancelled (m_progressReporter F) in
        let F := with_reporter F r in
        if c then Leave (Returns false) (F, zs, outOfDate)
        else Continue (F, zs, outOfDate)
      end
    end
  end.

(** The body of the zone loop of the post-processing. *)
Definition postZone (aCheck : bool) (st : ZONE_FILLER * ZONES * bool)
    (il : CN_ZONE_ISOLATED_ISLAND_LIST) : flow (ZONE_FILLER * ZONES * bool) :=
  let '(F, zs, outOfDate) := st in
  match zs !! m_zone il with
  | None => Continue st
  | Some z => forEach (postLayer aCheck il) (GetLayerSet z) st
  end.

(** [ZONE_FILLER::Fill( aZones, aCheck )].  [lockFree] says whether the
    try-lock on the connectivity mutex succeeds; [zs] are the zones of the
    board and [staged] the copies the commit [m_commit] holds.  The result is
    the value returned, the filler, the zones and the commit.  The lock is
    released when the function is left.  The rebuild of the pads' cached
    shapes at the start of the function touches no zone and is left out, and
    the polls of the waiting loops, which only return early on a cancel the
    polls after the loops see as well, are not counted. *)
Definition Fill (lockFree : bool) (F : ZONE_FILLER) (zs staged : ZONES)
    (aZones : list nat) (aCheck : bool)
  : outcome * ZONE_FILLER * ZONES * ZONES :=
  let filledPolyWithOutline := negb (m_ZoneUseNoOutlineInFill B) in
  if negb lockFree then (Returns false, F, zs, staged) else
  let F := with_outline F (BoardPolygonOutlines B) in
  let '(zs, staged, toFill, islandsList) :=
    foldl collectZone (zs, staged, [], []) aZones in
  let threads := parallelThreadCount (hardware_concurrency E) aZones in
  let '(F, zs) :=
    runWorkers (fill_lambda filledPolyWithOutline) (workerRuns threads)
               toFill (F, zs) in
  let '(c, r) := cancelled (m_progressReporter F) in
  let F := with_reporter F r in
  if c then (Returns false, F, zs, staged) else
  let islandsList :=
    imap (fun i il =>
            {| m_zone := m_zone il;
               m_islands :=
                 FindIsolatedCopperIslands E zs (map m_zone islandsList) i |})
         islandsList in
  let '(c, r) := cancelled (m_progressReporter F) in
  let F := with_reporter F r in
  if c then (Returns false, F, zs, staged) else
  match forEach (postZone aCheck) islandsList (F, zs, false) with
  | Leave o (F, zs, _) => (o, F, zs, staged)
  | Continue (F, zs, outOfDate) =>
    match
      (if aCheck && outOfDate then
         match m_progressReporter F with
         | None => Some Throws
         | Some _ =>
           if refillDialogCancelled E then Some (Returns false) else None
         end
       else None)
    with
    | Some o => (o, F, zs, staged)
    | None =>
      let '(F, zs) :=
        runWorkers tri_lambda (workerRuns threads) islandsList (F, zs) in
      let '(c, r) := cancelled (m_progressReporter F) in
      let F := with_reporter F r in
      if c then (Returns false, F, zs, staged)
      else (Returns true, F, zs, staged)
    end
  end.

(** The work list [toFill] and the island list that the first loop of
    [Fill] builds. *)
Definition toFillOf (zs : ZONES) (aZones : list nat) : list (nat * PCB_LAYER_ID) :=
  snd (fst (foldl collectZone (zs, ∅, [], []) aZones)).

Definition islandsListOf (zs : ZONES) (aZones : list nat)
  : list CN_ZONE_ISOLATED_ISLAND_LIST :=
  snd (foldl collectZone (zs, ∅, [], []) aZones).

(** [ZONE_FILLER_TOOL::ZoneFill]: a fresh commit, a fresh filler with a
    newly installed reporter (whose user follows [script]), [Fill], then
    [Push] or [Revert].  The result is the zones of the board and the
    pushes made on commits so far. *)
Definition ZoneFill (lockFree : bool) (script : nat -> bool) (zs : ZONES)
    (pushes : list (string * bool)) (toFill : list nat)
  : outcome * ZONES * list (string * bool) :=
  let commit : ZONES := ∅ in
  let filler :=
    with_reporter new_ZONE_FILLER
                  (Some {| cancelScript := script; polls := 0 |}) in
  let '(o, _, zs, commit) := Fill lockFree filler zs commit toFill false in
  match o with
  | Returns true => (o, zs, Push "Fill Zone(s)" false pushes)
  | Returns false => (o, Revert zs commit, pushes)
  | Throws => (o, zs, pushes)
  end.

End WithCollaborators.

End FillOp.
Export FillOp.

(** ** The shared work counter

    [std::atomic<size_t> nextItem] and the loop
    [for( i = nextItem++; i < size; i = nextItem++ )] that every worker
    runs.  A step is one worker's atomic fetch-and-increment together with
    the work on the item it obtained; a schedule is the order in which the
    workers take their steps. *)

Module WorkerPool.

Record POOL := {
  nextItem : nat;
  (** who was given which index, in the order of the fetches *)
  taken : list (nat * nat);
  (** the workers that have left their loop *)
  finished : list nat
}.

Definition start : POOL := {| nextItem := 0; taken := []; finished := [] |}.

(** One step of worker [w] on a work list of [size] items; [stops i] says
    whether the worker sees the cancellation after item [i] ([break]). *)
Definition fetch (size : nat) (stops : nat -> bool) (p : POOL) (w : nat) : POOL :=
  if bool_decide (w ∈ finished p) then p
  else
    let i := nextItem p in
    if (i <? size)%nat then
      {| nextItem := S i;
         taken := taken p ++ [(w, i)];
         finished := if stops i then w :: finished p else finished p |}
    else
      {| nextItem := S i; taken := taken p; finished := w :: finished p |}.

Definition run (size : nat) (stops : nat -> bool) (schedule : list nat) : POOL :=
  foldl (fetch size stops) start schedule.

(** Every index handed out lies below the counter and inside the work list
    of [size] items, and no index was handed out twice. *)
Definition poolInvariant (size : nat) (p : POOL) : Prop :=
  NoDup (map snd (taken p))
  /\ (forall i, i ∈ map snd (taken p) -> (i < nextItem p)%nat /\ (i < size)%nat).

End WorkerPool.
Export WorkerPool.

(** ** [PNS::ROUTER] *)

Module Router.

Inductive RouterState := IDLE | DRAG_SEGMENT | ROUTE_TRACK.

(** [ROUTER_MODE]; [PNS_MODE_OTHER] stands for a value outside the five
    enumerators, which the [default:] of [StartRouting] answers. *)
Inductive ROUTER_MODE :=
  | PNS_MODE_ROUTE_SINGLE | PNS_MODE_ROUTE_DIFF_PAIR | PNS_MODE_TUNE_SINGLE
  | PNS_MODE_TUNE_DIFF_PAIR | PNS_MODE_TUNE_DIFF_PAIR_SKEW
  | PNS_MODE_OTHER (v : Z).

Inductive PNS_MODE := RM_MarkObstacles | RM_Shove | RM_Walkaround | RM_Smart.

Inductive PLACER_KIND :=
  | LINE_PLACER | DIFF_PAIR_PLACER | MEANDER_PLACER | DP_MEANDER_PLACER
  | MEANDER_SKEW_PLACER.

#[global] Instance RouterState_eq_dec : EqDecision RouterState.
Proof. solve_decision. Defined.
#[global] Instance PNS_MODE_eq_dec : EqDecision PNS_MODE.
Proof. solve_decision. Defined.

(** [ITEM], by the getters [isStartingPointRoutable] calls; [Layers] is the
    [LAYER_RANGE] from its start to its end. *)
Record ITEM := {
  IsRoutable : bool;
  Layers : Z * Z;
  Net : Z;
  Anchor0 : VECTOR2I
}.

(** [LAYER_RANGE::Overlaps( aLayer )] *)
Definition Overlaps (r : Z * Z) (aLayer : Z) : bool :=
  (fst r <=? aLayer) && (aLayer <=? snd r).

(** The zero-length [SEGMENT] that [isStartingPointRoutable] builds. *)
Record SEGMENT := {
  seg_A : VECTOR2I; seg_B : VECTOR2I; seg_Net : Z;
  seg_Width : Z; seg_Layer : Z
}.

Definition NODE : Type := list ITEM.

(** A placer as [StartRouting] sets it up: [UpdateSizes], [SetLayer]. *)
Record PLACER := {
  placer_kind : PLACER_KIND;
  placer_TrackWidth : Z;
  placer_Layer : Z
}.

Inductive LOG_EVENT :=
  | EVT_START_ROUTE (p : VECTOR2I) (item : option ITEM).

Record ROUTER := {
  m_state : RouterState;
  m_mode : ROUTER_MODE;
  m_world : NODE;
  m_placer : option PLACER;
  m_failureReason : string;
  m_forceMarkObstaclesMode : bool;
  m_currentEnd : VECTOR2I;
  m_logger : option (list LOG_EVENT);
  (** [Settings().CanViolateDRC()], [Settings().Mode()], [m_sizes.TrackWidth()] *)
  CanViolateDRC : bool;
  Mode : PNS_MODE;
  TrackWidth : Z
}.

(** The classes the router calls: [NODE::HitTest], [NODE::CheckColliding]
    with [ITEM::ANY_T], the placer's [CurrentNode()] and its
    [Start( aP, aStartItem )].  A placer holds the router and may call
    [SetFailureReason] on it: [placer_Start] gives the value returned and
    the reason set, if one was. *)
Record ROUTER_COLLABORATORS := {
  HitTest : NODE -> VECTOR2I -> list ITEM;
  CheckColliding : NODE -> SEGMENT -> bool;
  placer_CurrentNode : PLACER -> NODE -> NODE;
  placer_Start : PLACER -> NODE -> VECTOR2I -> option ITEM -> bool * option string
}.

Definition SetFailureReason (r : ROUTER) (reason : string) : ROUTER :=
  {| m_state := m_state r; m_mode := m_mode r; m_world := m_world r;
     m_placer := m_placer r; m_failureReason := reason;
     m_forceMarkObstaclesMode := m_forceMarkObstaclesMode r;
     m_currentEnd := m_currentEnd r; m_logger := m_logger r;
     CanViolateDRC := CanViolateDRC r; Mode := Mode r;
     TrackWidth := TrackWidth r |}.

Definition set_forceMarkObstaclesMode (r : ROUTER) (b : bool) : ROUTER :=
  {| m_state := m_state r; m_mode := m_mode r; m_world := m_world r;
     m_placer := m_placer r; m_failureReason := m_failureReason r;
     m_forceMarkObstaclesMode := b;
     m_currentEnd := m_currentEnd r; m_logger := m_logger r;
     CanViolateDRC := CanViolateDRC r; Mode := Mode r;
     TrackWidth := TrackWidth r |}.

Definition set_placer (r : ROUTER) (p : PLACER) : ROUTER :=
  {| m_state := m_state r; m_mode := m_mode r; m_world := m_world r;
     m_placer := Some p; m_failureReason := m_failureReason r;
     m_forceMarkObstaclesMode := m_forceMarkObstaclesMode r;
     m_currentEnd := m_currentEnd r; m_logger := m_logger r;
     CanViolateDRC := CanViolateDRC r; Mode := Mode r;
     TrackWidth := TrackWidth r |}.

Definition Log (r : ROUTER) (e : LOG_EVENT) : ROUTER :=
  {| m_state := m_state r; m_mode := m_mode r; m_world := m_world r;
     m_placer := m_placer r; m_failureReason := m_failureReason r;
     m_forceMarkObstaclesMode := m_forceMarkObstaclesMode r;
     m_currentEnd := m_currentEnd r;
     m_logger := (fun l => l ++ [e]) <$> m_logger r;
     CanViolateDRC := CanViolateDRC r; Mode := Mode r;
     TrackWidth := TrackWidth r |}.

Definition routeTrackAt (r : ROUTER) (aP : VECTOR2I) : ROUTER :=
  {| m_state := ROUTE_TRACK; m_mode := m_mode r; m_world := m_world r;
     m_placer := m_placer r; m_failureReason := m_failureReason r;
     m_forceMarkObstaclesMode := m_forceMarkObstaclesMode r;
     m_currentEnd := aP; m_logger := m_logger r;
     CanViolateDRC := CanViolateDRC r; Mode := Mode r;
     TrackWidth := TrackWidth r |}.

(** The router as its constructor leaves it, in a synchronised world and
    with settings installed. *)
Definition new_ROUTER (world : NODE) (canViolate : bool) (mode : PNS_MODE)
    (width : Z) : ROUTER :=
  {| m_state := IDLE; m_mode := PNS_MODE_ROUTE_SINGLE; m_world := world;
     m_placer := None; m_failureReason := ""%string;
     m_forceMarkObstaclesMode := false; m_currentEnd := (0, 0);
     m_logger := Some [];
     CanViolateDRC := canViolate; Mode := mode; TrackWidth := width |}.

Definition SetMode (r : ROUTER) (aMode : ROUTER_MODE) : ROUTER :=
  {| m_state := m_state r; m_mode := aMode; m_world := m_world r;
     m_placer := m_placer r; m_failureReason := m_failureReason r;
     m_forceMarkObstaclesMode := m_forceMarkObstaclesMode r;
     m_currentEnd := m_currentEnd r; m_logger := m_logger r;
     CanViolateDRC := CanViolateDRC r; Mode := Mode r;
     TrackWidth := TrackWidth r |}.

Section WithCollaborators.

Variable C : ROUTER_COLLABORATORS.

(** [ROUTER::QueryHoverItems( aP )] *)
Definition QueryHoverItems (r : ROUTER) (aP : VECTOR2I) : list ITEM :=
  match m_placer r with
  | Some placer =>
    if bool_decide (m_state r = IDLE) then HitTest C (m_world r) aP
    else HitTest C (placer_CurrentNode C placer (m_world r)) aP
  | None => HitTest C (m_world r) aP
  end.

(** [ROUTER::isStartingPointRoutable( aWhere, aStartItem, aLayer )] *)
Definition isStartingPointRoutable (r : ROUTER) (aWhere : VECTOR2I)
    (aStartItem : option ITEM) (aLayer : Z) : bool :=
  if CanViolateDRC r && bool_decide (Mode r = RM_MarkObstacles) then true
  else
    let candidates := QueryHoverItems r aWhere in
    if existsb (fun item => negb (IsRoutable item) && Overlaps (Layers item) aLayer)
               candidates
    then false
    else
      match m_mode r, aStartItem with
      | PNS_MODE_ROUTE_SINGLE, Some startItem =>
        let startPoint := Anchor0 startItem in
        let dummyStartSeg :=
          {| seg_A := startPoint; seg_B := startPoint; seg_Net := Net startItem;
             seg_Width := TrackWidth r; seg_Layer := aLayer |} in
        if CheckColliding C (m_world r) dummyStartSeg then false else true
      | _, _ => true
      end.

Definition drcReason : string := "The routing start point violates DRC."%string.

(** The placer [StartRouting] makes for the mode, if the mode has one. *)
Definition placerFor (mode : ROUTER_MODE) : option PLACER_KIND :=
  match mode with
  | PNS_MODE_ROUTE_SINGLE => Some LINE_PLACER
  | PNS_MODE_ROUTE_DIFF_PAIR => Some DIFF_PAIR_PLACER
  | PNS_MODE_TUNE_SINGLE => Some MEANDER_PLACER
  | PNS_MODE_TUNE_DIFF_PAIR => Some DP_MEANDER_PLACER
  | PNS_MODE_TUNE_DIFF_PAIR_SKEW => Some MEANDER_SKEW_PLACER
  | PNS_MODE_OTHER _ => None
  end.

(** [ROUTER::StartRouting( aP, aStartItem, aLayer )] *)
Definition StartRouting (r : ROUTER) (aP : VECTOR2I) (aStartItem : option ITEM)
    (aLayer : Z) : bool * ROUTER :=
  if negb (isStartingPointRoutable r aP aStartItem aLayer) then
    (false, SetFailureReason r drcReason)
  else
    let r := set_forceMarkObstaclesMode r false in
    match placerFor (m_mode r) with
    | None => (false, r)
    | Some kind =>
      let placer :=
        {| placer_kind := kind; placer_TrackWidth := TrackWidth r;
           placer_Layer := aLayer |} in
      let r := set_placer r placer in
      let r := Log r (EVT_START_ROUTE aP aStartItem) in
      let '(rv, reason) := placer_Start C placer (m_world r) aP aStartItem in
      let r := match reason with
               | Some why => SetFailureReason r why
               | None => r
               end in
      if negb rv then (false, r)
      else (rv, routeTrackAt r aP)
    end.

End WithCollaborators.

(** The settings tolerate a start point that violates the rules. *)
Definition toleratesViolations (r : ROUTER) : Prop :=
  CanViolateDRC r = true /\ Mode r = RM_MarkObstacles.

(** Whether the placer made for the router's mode starts. *)
Definition placerStarts (C : ROUTER_COLLABORATORS) (r : ROUTER) (aP : VECTOR2I)
    (aStartItem : option ITEM) (aLayer : Z) : bool :=
  match placerFor (m_mode r) with
  | Some kind =>
    fst (placer_Start C {| placer_kind := kind; placer_TrackWidth := TrackWidth r;
                           placer_Layer := aLayer |}
                      (m_world r) aP aStartItem)
  | None => false
  end.

(** The failure reason that placer reports from its [Start], if it reports
    one. *)
Definition placerReason (C : ROUTER_COLLABORATORS) (r : ROUTER) (aP : VECTOR2I)
    (aStartItem : option ITEM) (aLayer : Z) : option string :=
  match placerFor (m_mode r) with
  | Some kind =>
    snd (placer_Start C {| placer_kind := kind; placer_TrackWidth := TrackWidth r;
                           placer_Layer := aLayer |}
                      (m_world r) aP aStartItem)
  | None => None
  end.

(** Modelled from the spec: the placers ([LINE_PLACER], [DIFF_PAIR_PLACER],
    the meander placers) are not among the translated files.  The spec has
    the router stay idle and report a failure reason when no placer
    strategy is successfully started, and has a route that is started on
    empty space succeed.  [StartRouting] sets no reason of its own once the
    pre-check has passed, so the report is the placer's: a [Start] that
    returns false has called [SetFailureReason]; and a [Start] without a
    start item, at a point where the world holds no item, returns true. *)
Definition placersAsSpecified (C : ROUTER_COLLABORATORS) : Prop :=
  (forall placer world aP aStartItem,
      fst (placer_Start C placer world aP aStartItem) = false ->
      is_Some (snd (placer_Start C placer world aP aStartItem)))
  /\ (forall placer world aP,
         HitTest C world aP = [] ->
         fst (placer_Start C placer world aP None) = true).

End Router.

(** ** A rectilinear geometry kernel

    A small, executable implementation of the collaborators, for running
    the translated code on concrete boards: every chain is read as the
    axis-aligned box that bounds it, a polygon is its outline box less its
    hole boxes, zones are rectangles, and offsetting moves the four sides.
    Growing a box cuts its four corners; with rounded corners the cut
    carries one vertex per arc segment. *)

Module BoxKernel.

Definition boxChain (b : BOX2I) : SHAPE_LINE_CHAIN :=
  [ (GetLeft b, GetTop b); (GetRight b, GetTop b);
    (GetRight b, GetBottom b); (GetLeft b, GetBottom b) ].

(** Left, top, right and bottom of the box that bounds a chain. *)
Definition chainBox (c : SHAPE_LINE_CHAIN) : option (Z * Z * Z * Z) :=
  match c with
  | [] => None
  | p :: ps =>
    Some (foldl (fun b q =>
                   let '(x0, y0, x1, y1) := b in
                   (Z.min x0 (fst q), Z.min y0 (snd q),
                    Z.max x1 (fst q), Z.max y1 (snd q)))
                (fst p, snd p, fst p, snd p) ps)
  end.

Definition rect (x0 y0 x1 y1 : Z) : SHAPE_LINE_CHAIN :=
  [ (x0, y0); (x1, y0); (x1, y1); (x0, y1) ].

Definition inside (c : SHAPE_LINE_CHAIN) (p : VECTOR2I) (acc : Z) : bool :=
  match chainBox c with
  | None => false
  | Some (x0, y0, x1, y1) =>
    (x0 - acc <=? fst p) && (fst p <=? x1 + acc)
    && (y0 - acc <=? snd p) && (snd p <=? y1 + acc)
  end.

Definition strictlyInside (c : SHAPE_LINE_CHAIN) (p : VECTOR2I) : bool :=
  match chainBox c with
  | None => false
  | Some (x0, y0, x1, y1) =>
    (x0 <? fst p) && (fst p <? x1) && (y0 <? snd p) && (snd p <? y1)
  end.

Definition polygonContains (poly : POLYGON) (p : VECTOR2I) (acc : Z) : bool :=
  match poly with
  | [] => false
  | outline :: holes =>
    inside outline p acc && forallb (fun h => negb (strictlyInside h p)) holes
  end.

Definition contains (s : SHAPE_POLY_SET) (p : VECTOR2I) (acc : Z) : bool :=
  existsb (fun poly => polygonContains poly p acc) s.

Definition outlines (s : SHAPE_POLY_SET) : list SHAPE_LINE_CHAIN :=
  flat_map (fun poly => match poly with [] => [] | o :: _ => [o] end) s.

(** [a] less [b]: the outlines of [b] become holes of every polygon of [a]. *)
Definition subtract (a b : SHAPE_POLY_SET) (_ : POLYGON_MODE) : SHAPE_POLY_SET :=
  map (fun poly => poly ++ outlines b) a.

Definition intersectPolygons (pa pb : POLYGON) : list POLYGON :=
  match pa, pb with
  | oa :: ha, ob :: hb =>
    match chainBox oa, chainBox ob with
    | Some (a0, b0, a1, b1), Some (c0, d0, c1, d1) =>
      let x0 := Z.max a0 c0 in
      let y0 := Z.max b0 d0 in
      let x1 := Z.min a1 c1 in
      let y1 := Z.min b1 d1 in
      if (x0 <? x1) && (y0 <? y1) then [ rect x0 y0 x1 y1 :: ha ++ hb ] else []
    | _, _ => []
    end
  | _, _ => []
  end.

Definition intersect (a b : SHAPE_POLY_SET) (_ : POLYGON_MODE) : SHAPE_POLY_SET :=
  flat_map (fun pa => flat_map (intersectPolygons pa) b) a.

(** The points of one cut corner, from [p] to [q], the ends included: with
    [k] segments, [k - 1] vertices in between. *)
Definition cornerPoints (k : Z) (p q : VECTOR2I) : list VECTOR2I :=
  let k := Z.max k 1 in
  map (fun j => let j := Z.of_nat j in
                (fst p + (fst q - fst p) * j / k, snd p + (snd q - snd p) * j / k))
      (seq 0 (S (Z.to_nat k))).

(** The box grown by [d > 0]; its corners are sharp, cut once, or cut with
    a vertex per arc segment. *)
Definition grownChain (x0 y0 x1 y1 d numSegs : Z) (strategy : CORNER_STRATEGY)
  : SHAPE_LINE_CHAIN :=
  match strategy with
  | ALLOW_ACUTE_CORNERS | CHAMFER_ACUTE_CORNERS | ROUND_ACUTE_CORNERS =>
    rect (x0 - d) (y0 - d) (x1 + d) (y1 + d)
  | CHAMFER_ALL_CORNERS | ROUND_ALL_CORNERS =>
    let k := match strategy with
             | ROUND_ALL_CORNERS => numSegs / 4
             | _ => 1
             end in
    cornerPoints k (x0 - d, y0) (x0, y0 - d)
    ++ cornerPoints k (x1, y0 - d) (x1 + d, y0)
    ++ cornerPoints k (x1 + d, y1) (x1, y1 + d)
    ++ cornerPoints k (x0, y1 + d) (x0 - d, y1)
  end.

(** Offsetting one chain inwards by [d]: a box that has no width or height
    left is gone. *)
Definition offsetChain (d numSegs : Z) (strategy : CORNER_STRATEGY)
    (c : SHAPE_LINE_CHAIN) : option SHAPE_LINE_CHAIN :=
  match chainBox c with
  | None => None
  | Some (x0, y0, x1, y1) =>
    if 0 <=? d then
      if (x0 + d <? x1 - d) && (y0 + d <? y1 - d)
      then Some (rect (x0 + d) (y0 + d) (x1 - d) (y1 - d))
      else None
    else Some (grownChain x0 y0 x1 y1 (- d) numSegs strategy)
  end.

Definition deflate (s : SHAPE_POLY_SET) (d numSegs : Z)
    (strategy : CORNER_STRATEGY) : SHAPE_POLY_SET :=
  omap (fun poly =>
          match poly with
          | [] => None
          | o :: holes =>
            o' ← offsetChain d numSegs strategy o;
            Some (o' :: omap (offsetChain (- d) numSegs strategy) holes)
          end) s.

Definition inflate (s : SHAPE_POLY_SET) (d numSegs : Z)
    (strategy : CORNER_STRATEGY) : SHAPE_POLY_SET :=
  deflate s (- d) numSegs strategy.

(** A digest of all coordinates, in order. *)
Definition hash (s : SHAPE_POLY_SET) : Z :=
  foldl (fun h p => (((h * 1000003 + fst p) * 1000003 + snd p) mod 2 ^ 128))
        7 (concat (concat s)).

(** The shoelace sum of a chain, halved. *)
Definition area (c : SHAPE_LINE_CHAIN) : Q :=
  match c with
  | [] => 0%Q
  | p0 :: _ =>
    let twice :=
      foldl (fun acc pq => acc + fst (fst pq) * snd (snd pq)
                               - snd (fst pq) * fst (snd pq))
            0 (zip c (tail c ++ [p0])) in
    (Z.abs twice # 2)%Q
  end.

(** Rotation by a multiple of 45 degrees about the origin, the sine and
    cosine to eight digits. *)
Definition rotate (c : SHAPE_LINE_CHAIN) (decideg : Z) : SHAPE_LINE_CHAIN :=
  let '(co, si) :=
    match (decideg / 450) mod 8 with
    | 0 => (100000000, 0)
    | 1 => (70710678, 70710678)
    | 2 => (0, 100000000)
    | 3 => (-70710678, 70710678)
    | 4 => (-100000000, 0)
    | 5 => (-70710678, -70710678)
    | 6 => (0, -100000000)
    | _ => (70710678, -70710678)
    end in
  let round v := (2 * v + 100000000) / 200000000 in
  map (fun p => (round (fst p * co + snd p * si),
                 round (snd p * co - fst p * si))) c.

(** [BOX2::Inflate]: each side moves out by [d]; a box cannot lose more
    than its size. *)
Definition boxInflate (b : BOX2I) (d : Z) : BOX2I :=
  let side pos size :=
    if size <? - 2 * d then (pos + size / 2, 0) else (pos - d, size + 2 * d) in
  let '(x, w) := side (fst (box_pos b)) (fst (box_size b)) in
  let '(y, h) := side (snd (box_pos b)) (snd (box_size b)) in
  {| box_pos := (x, y); box_size := (w, h) |}.

(** [BOX2::Intersects]: the common area may be empty, not negative. *)
Definition boxIntersects (a b : BOX2I) : bool :=
  (Z.max (GetLeft a) (GetLeft b) <=? Z.min (GetRight a) (GetRight b))
  && (Z.max (GetTop a) (GetTop b) <=? Z.min (GetBottom a) (GetBottom b)).

(** The pad's box: its size about its position, the sides swapped at a
    quarter turn. *)
Definition padBox (p : D_PAD) : BOX2I :=
  let '(w, h) :=
    if (pad_Orientation p / 900) mod 2 =? 1
    then (snd (pad_Size p), fst (pad_Size p))
    else pad_Size p in
  {| box_pos := (fst (pad_Position p) - w / 2, snd (pad_Position p) - h / 2);
     box_size := (w, h) |}.

(** An integer reading of [GetArcToSegmentCount]: for a small error [e] on
    radius [r], a full circle takes about [pi * sqrt( r / (2 e) )] segments. *)
Definition arcToSegmentCount (r e : Z) : Z :=
  if (e <=? 0) || (r <=? 0) then 2
  else Z.max 2 (355 * Z.sqrt (r * 10000 / (2 * e)) / 11300).

Record CONFIG := {
  cfg_thermalGap : Z;
  cfg_copperBridge : Z;
  cfg_islands : nat -> gmap PCB_LAYER_ID (list nat);
  cfg_threads : nat;
  cfg_dialogCancelled : bool
}.

(** Pads connect by a thermal relief when through-hole or surface-mount,
    solidly when edge connectors, not at all when unplated; the board
    carries no copper foreign to the zone and the zones are not hatched. *)
Definition kernel (cfg : CONFIG) : COLLABORATORS :=
  {| BooleanSubtract := subtract;
     BooleanIntersection := intersect;
     Simplify := fun s _ => s;
     Inflate := inflate;
     Deflate := deflate;
     Fracture := fun s _ => s;
     DefaultCornerStrategy := ROUND_ALL_CORNERS;
     DefaultAccuracy := 0;
     Contains := contains;
     GetHash := hash;
     PointInside := inside;
     Area := area;
     RotateDeciDeg := rotate;
     BoxInflate := boxInflate;
     BoxIntersects := boxIntersects;
     GetArcToSegmentCount := arcToSegmentCount;
     BuildConvexHull := fun s =>
       match outlines s with
       | [] => []
       | o :: _ => o
       end;
     ARC_LOW_DEF := 20000;
     iu_0_001 := 1000;
     iu_0_04 := 40000;
     new_D_PAD :=
       {| pad_NetCode := 0; pad_Size := (0, 0); pad_DrillSize := (0, 0);
          pad_Orientation := 0; pad_Shape := PAD_SHAPE_CIRCLE;
          pad_DrillShape := PAD_DRILL_SHAPE_CIRCLE; pad_Position := (0, 0);
          pad_Attribute := PAD_ATTRIB_STANDARD; pad_Layers := [];
          pad_CustomShapeInZoneOpt := CUST_PAD_SHAPE_IN_ZONE_OUTLINE;
          pad_RoundRectRadiusRatio := 0%Q |};
     pad_GetBoundingBox := padBox;
     pad_ShapePos := pad_Position;
     pad_TransformShapeWithClearanceToPolygon := fun p holes gap _ =>
       holes ++ [[boxChain (boxInflate (padBox p) gap)]];
     BuildSmoothedPoly := fun z _ => (true, [[boxChain (GetBoundingBox z)]]);
     GetPadConnection := fun _ p =>
       match pad_Attribute p with
       | PAD_ATTRIB_STANDARD => ZC_THT_THERMAL
       | PAD_ATTRIB_SMD => ZC_THERMAL
       | PAD_ATTRIB_CONN => ZC_FULL
       | PAD_ATTRIB_HOLE_NOT_PLATED => ZC_NONE
       end;
     GetThermalReliefGap := fun _ _ => cfg_thermalGap cfg;
     GetThermalReliefCopperBridge := fun _ _ => cfg_copperBridge cfg;
     CalculateFilledArea := fun z =>
       map_fold (fun _ s acc =>
                   foldr (fun o a => Qred (area o + a)) acc (outlines s))
                0%Q (m_FilledPolysList (fill z));
     buildCopperItemClearances := fun _ _ _ _ _ holes => holes;
     addHatchFillTypeOnZone := fun _ _ _ _ _ s => s;
     FindIsolatedCopperIslands := fun _ _ i => cfg_islands cfg i;
     hardware_concurrency := cfg_threads cfg;
     refillDialogCancelled := cfg_dialogCancelled cfg |}.

End BoxKernel.

(** ** Vocabulary of the statements *)

Module Vocabulary.

(** The zones at the addresses outside [ids] are the same in both stores. *)
Definition onlyTouches (ids : list nat) (zs zs' : ZONES) : Prop :=
  forall id, id ∉ ids -> zs' !! id = zs !! id.

(** The commit holds a copy of every zone in [ids]. *)
Definition covered (staged : ZONES) (ids : list nat) : Prop :=
  forall id, id ∈ ids -> is_Some (staged !! id).

(** The state a loop is in when it ends or is left. *)
Definition flowState {S : Type} (f : flow S) : S :=
  match f with
  | Continue s => s
  | Leave _ s => s
  end.

(** The parts of what [Fill] gives. *)
Definition outcomeOf (r : outcome * ZONE_FILLER * ZONES * ZONES) : outcome :=
  fst (fst (fst r)).
Definition fillerOf (r : outcome * ZONE_FILLER * ZONES * ZONES) : ZONE_FILLER :=
  snd (fst (fst r)).
Definition zonesOf (r : outcome * ZONE_FILLER * ZONES * ZONES) : ZONES :=
  snd (fst r).
Definition commitOf (r : outcome * ZONE_FILLER * ZONES * ZONES) : ZONES :=
  snd r.

(** What the first loop of [Fill] has established, against the zones [zs0]
    and the commit [staged0] it started from: only zones on the island list
    were changed, the commit holds a copy of each of them and is otherwise
    as it was, reverting gives the initial zones, every work item belongs to
    a zone on the island list, and the zones on the island list are zones
    of the board that are no keepouts. *)
Definition collected (zs0 staged0 : ZONES)
    (st : ZONES * ZONES * list (nat * PCB_LAYER_ID) * list CN_ZONE_ISOLATED_ISLAND_LIST)
  : Prop :=
  let '(zs, staged, toFill, islandsList) := st in
  let ids := map m_zone islandsList in
  onlyTouches ids zs0 zs
  /\ covered staged ids
  /\ (forall id, id ∉ ids -> staged !! id = staged0 !! id)
  /\ Revert zs staged = Revert zs0 staged0
  /\ (forall id, id ∈ map fst toFill -> id ∈ ids)
  /\ (forall id, id ∈ ids -> exists z, zs0 !! id = Some z /\ GetIsKeepout z = false).

(** The polygons of [poly], numbered from [j] on, whose number [keep]
    accepts, in their order. *)
Fixpoint keptPolygons (keep : nat -> bool) (j : nat) (poly : SHAPE_POLY_SET)
  : SHAPE_POLY_SET :=
  match poly with
  | [] => []
  | p :: rest =>
    if keep j then p :: keptPolygons keep (S j) rest
    else keptPolygons keep (S j) rest
  end.

(** [BOX2I] and [EDA_RECT] are not among the translated files.  What the
    quick test of [buildThermalSpokes] relies on: two boxes that meet when
    the first is inflated still meet when the first is inflated by more
    and the second is inflated as well, neither by a negative amount. *)
Definition inflationKeepsContact (E : COLLABORATORS) : Prop :=
  forall (a b : BOX2I) (gap epsilon clearance : Z),
    0 <= epsilon -> 0 <= clearance ->
    BoxIntersects E (BoxInflate E a gap) b = true ->
    BoxIntersects E (BoxInflate E a (gap + epsilon)) (BoxInflate E b clearance)
    = true.

(** The four stubs [buildThermalSpokes] lays for a pad that gets spokes:
    the chains of [spokeChains] for half the clamped bridge width and the
    relief box of the pad taken at the origin without rotation, each
    rotated by the spoke angle of the pad and moved to the pad. *)
Definition padStubs (E : COLLABORATORS) (aZone : ZONE_CONTAINER) (pad : D_PAD)
  : list SHAPE_LINE_CHAIN :=
  map (fun spoke =>
         Move (RotateDeciDeg E spoke (spokeAngle pad)) (pad_ShapePos E pad))
      (spokeChains (spokeWidth E aZone pad ÷ 2)
         (BoxInflate E
            (pad_GetBoundingBox E (SetPosition (SetOrientation pad 0) (0, 0)))
            (GetThermalReliefGap E aZone pad + iu_0_04 E))).

Section CopperPipeline.

Variable E : COLLABORATORS.
Variable B : BOARD.

(** Spoke number [i] passes the hit-test of the spoke loop: its test point,
    the fourth point of its outline, is inside the test area or inside
    another spoke. *)
Definition spokeSurvives (testAreas : SHAPE_POLY_SET)
    (thermalSpokes : list SHAPE_LINE_CHAIN) (i : nat) (spoke : SHAPE_LINE_CHAIN)
  : bool :=
  Contains E testAreas (CPoint spoke 3) 1
  || hitsOtherSpoke E thermalSpokes i (CPoint spoke 3).

(** The spokes among [rest], which are the spokes from number [i] on, that
    pass the hit-test, in their order. *)
Fixpoint survivorsFrom (testAreas : SHAPE_POLY_SET)
    (thermalSpokes : list SHAPE_LINE_CHAIN) (i : nat)
    (rest : list SHAPE_LINE_CHAIN) : list SHAPE_LINE_CHAIN :=
  match rest with
  | [] => []
  | spoke :: rest' =>
    if spokeSurvives testAreas thermalSpokes i spoke
    then spoke :: survivorsFrom testAreas thermalSpokes (S i) rest'
    else survivorsFrom testAreas thermalSpokes (S i) rest'
  end.

Definition survivingSpokes (testAreas : SHAPE_POLY_SET)
    (thermalSpokes : list SHAPE_LINE_CHAIN) : list SHAPE_LINE_CHAIN :=
  survivorsFrom testAreas thermalSpokes 0 thermalSpokes.

(** The arc settings and the segment count [computeRawFilledArea] works
    with. *)
Definition copperHighDef : Z := m_MaxError B.
Definition copperLowDef : Z := Z.min (ARC_LOW_DEF E) ((m_MaxError B * 3) ÷ 2).
Definition copperNumSegs (aZone : ZONE_CONTAINER) : Z :=
  Z.max (GetArcToSegmentCount E (GetMinThickness aZone ÷ 2) copperHighDef) 6.

(** The outline with the thermal reliefs knocked out, the clearance holes,
    the candidate spokes and the area they are tested against, as
    [computeRawFilledArea] computes them. *)
Definition copperKnockedOut (aZone : ZONE_CONTAINER) (aLayer : PCB_LAYER_ID)
    (aSmoothedOutline : SHAPE_POLY_SET) : SHAPE_POLY_SET :=
  knockoutThermalReliefs E B copperHighDef copperLowDef aZone aLayer aSmoothedOutline.

Definition copperClearanceHoles (aZone : ZONE_CONTAINER) (aLayer : PCB_LAYER_ID)
  : SHAPE_POLY_SET :=
  buildCopperItemClearances E B copperHighDef copperLowDef aZone aLayer [].

Definition copperSpokes (aZone : ZONE_CONTAINER) (aLayer : PCB_LAYER_ID)
  : list SHAPE_LINE_CHAIN :=
  buildThermalSpokes E B aZone aLayer [].

Definition copperTestAreas (aZone : ZONE_CONTAINER) (aLayer : PCB_LAYER_ID)
    (aSmoothedOutline : SHAPE_POLY_SET) : SHAPE_POLY_SET :=
  spokeTestAreas E aZone (copperNumSegs aZone)
                 (copperKnockedOut aZone aLayer aSmoothedOutline)
                 (copperClearanceHoles aZone aLayer).

(** The test area as the claim about the spokes words it: the smoothed
    outline less the clearance holes, pruned. *)
Definition claimedTestAreas (aZone : ZONE_CONTAINER) (aLayer : PCB_LAYER_ID)
    (aSmoothedOutline : SHAPE_POLY_SET) : SHAPE_POLY_SET :=
  spokeTestAreas E aZone (copperNumSegs aZone) aSmoothedOutline
                 (copperClearanceHoles aZone aLayer).

(** What [computeRawFilledArea] makes of the raw polygons once the spokes
    are in: clip to the outline, take the clearance holes out, prune,
    hatch, grow again, fracture. *)
Definition finishCopperFill (aZone : ZONE_CONTAINER) (aLayer : PCB_LAYER_ID)
    (aSmoothedOutline aRawPolys : SHAPE_POLY_SET) : SHAPE_POLY_SET :=
  let half_min_width := GetMinThickness aZone ÷ 2 in
  let epsilon := iu_0_001 E in
  let numSegs := copperNumSegs aZone in
  let aRawPolys := BooleanIntersection E aRawPolys aSmoothedOutline PM_FAST in
  let aRawPolys := Simplify E aRawPolys PM_FAST in
  let aRawPolys :=
    BooleanSubtract E aRawPolys (copperClearanceHoles aZone aLayer) PM_FAST in
  let aRawPolys :=
    if half_min_width - epsilon >? epsilon
    then Deflate E aRawPolys (half_min_width - epsilon) numSegs CHAMFER_ALL_CORNERS
    else aRawPolys in
  let aRawPolys :=
    if bool_decide (GetFillMode aZone = HATCH_PATTERN)
    then addHatchFillTypeOnZone E B copperHighDef copperLowDef aZone aLayer aRawPolys
    else aRawPolys in
  let aRawPolys :=
    if GetFilledPolysUseThickness aZone then aRawPolys
    else if half_min_width - epsilon >? epsilon then
      let aRawPolys := Simplify E aRawPolys PM_FAST in
      let aRawPolys :=
        Inflate E aRawPolys (half_min_width - epsilon) numSegs ROUND_ALL_CORNERS in
      if GetMinThickness aZone >? GetCornerRadius aZone
      then BooleanIntersection E aRawPolys aSmoothedOutline PM_FAST
      else aRawPolys
    else aRawPolys in
  Fracture E aRawPolys PM_FAST.

(** The copper fill of a zone on a layer, as a function of the zone, the
    layer, the board and the smoothed outline alone. *)
Definition copperFill (aZone : ZONE_CONTAINER) (aLayer : PCB_LAYER_ID)
    (aSmoothedOutline : SHAPE_POLY_SET) : SHAPE_POLY_SET :=
  finishCopperFill aZone aLayer aSmoothedOutline
    (foldl AddOutline (copperKnockedOut aZone aLayer aSmoothedOutline)
           (survivingSpokes (copperTestAreas aZone aLayer aSmoothedOutline)
                            (copperSpokes aZone aLayer))).

(** The final polygons of a zone on a non-copper layer as the claim about
    that branch words them: clip to the board outline when it is valid,
    deflate by half the minimum thickness less epsilon, hatch if asked,
    grow again by the same amount, fracture. *)
Definition nonCopperAsClaimed (F : ZONE_FILLER) (aZone : ZONE_CONTAINER)
    (aLayer : PCB_LAYER_ID) (smoothedPoly : SHAPE_POLY_SET) : SHAPE_POLY_SET :=
  let half_min_width := GetMinThickness aZone ÷ 2 in
  let epsilon := iu_0_001 E in
  let numSegs := Z.max (GetArcToSegmentCount E half_min_width (m_high_def F)) 6 in
  let poly :=
    if m_brdOutlinesValid F
    then BooleanIntersection E smoothedPoly (m_boardOutline F) PM_STRICTLY_SIMPLE
    else smoothedPoly in
  let poly :=
    Deflate E poly (half_min_width - epsilon) numSegs (DefaultCornerStrategy E) in
  let poly :=
    if bool_decide (GetFillMode aZone = HATCH_PATTERN)
    then addHatchFillTypeOnZone E B (m_high_def F) (m_low_def F) aZone aLayer poly
    else poly in
  let poly :=
    Deflate E poly (- (half_min_width - epsilon)) numSegs (DefaultCornerStrategy E) in
  Fracture E poly PM_STRICTLY_SIMPLE.

End CopperPipeline.

End Vocabulary.
Export Vocabulary.

(** ** Concrete boards

    Lengths are in nanometres, as in pcbnew.  The zones are 10 mm squares,
    with a minimum thickness of 0.25 mm; the pads are 1 mm squares whose
    thermal relief has a gap and a bridge of 0.5 mm. *)

Module Examples.

Import BoxKernel.

Definition config (islands : nat -> gmap PCB_LAYER_ID (list nat)) : CONFIG :=
  {| cfg_thermalGap := 500000; cfg_copperBridge := 500000;
     cfg_islands := islands; cfg_threads := 4; cfg_dialogCancelled := false |}.

(** The kernel when the connectivity search finds no island. *)
Definition K : COLLABORATORS := kernel (config (fun _ => ∅)).

Definition F_Cu : PCB_LAYER_ID := 0%nat.
Definition B_Cu : PCB_LAYER_ID := 31%nat.
Definition F_SilkS : PCB_LAYER_ID := 37%nat.

Definition notFilled : ZONE_FILL_STATE :=
  {| m_FilledPolysList := ∅; m_RawPolysList := ∅; m_filledPolysHash := ∅;
     m_insulatedIslands := ∅; m_IsFilled := false; m_needRefill := true;
     m_fillFlags := false; m_area := 0%Q; m_triangulationValid := false |}.

(** A fill from an earlier run: one polygon on the front copper layer. *)
Definition filledBefore : ZONE_FILL_STATE :=
  {| m_FilledPolysList := {[ F_Cu := [[rect 0 0 9000000 9000000]] ]};
     m_RawPolysList := {[ F_Cu := [[rect 0 0 9000000 9000000]] ]};
     m_filledPolysHash := ∅; m_insulatedIslands := ∅;
     m_IsFilled := true; m_needRefill := false; m_fillFlags := false;
     m_area := 81000000000000%Q; m_triangulationValid := true |}.

Definition square10mm : BOX2I :=
  {| box_pos := (0, 0); box_size := (10000000, 10000000) |}.

(** A copper zone of net 1 on the front layer. *)
Definition copperZone : ZONE_CONTAINER :=
  {| GetIsKeepout := false; GetLayerSet := [F_Cu]; GetNetCode := 1;
     IsOnCopperLayer := true; GetMinThickness := 250000;
     GetZoneClearance := 200000; GetCornerRadius := 0;
     GetFillMode := POLYGONS; GetIslandRemovalMode := IRM_ALWAYS;
     GetMinIslandArea := 0; GetBoundingBox := square10mm;
     fill := filledBefore |}.

(** The same zone on both outer copper layers. *)
Definition twoLayerZone : ZONE_CONTAINER :=
  {| GetIsKeepout := false; GetLayerSet := [F_Cu; B_Cu]; GetNetCode := 1;
     IsOnCopperLayer := true; GetMinThickness := 250000;
     GetZoneClearance := 200000; GetCornerRadius := 0;
     GetFillMode := POLYGONS; GetIslandRemovalMode := IRM_ALWAYS;
     GetMinIslandArea := 0; GetBoundingBox := square10mm;
     fill := notFilled |}.

(** A keepout area that still carries polygons. *)
Definition keepoutZone : ZONE_CONTAINER :=
  {| GetIsKeepout := true; GetLayerSet := [F_Cu]; GetNetCode := 0;
     IsOnCopperLayer := true; GetMinThickness := 250000;
     GetZoneClearance := 200000; GetCornerRadius := 0;
     GetFillMode := POLYGONS; GetIslandRemovalMode := IRM_ALWAYS;
     GetMinIslandArea := 0; GetBoundingBox := square10mm;
     fill := filledBefore |}.

(** A zone on the front silkscreen, drawn with or without outline
    thickness. *)
Definition silkZone (useThickness : bool) (box : BOX2I) : ZONE_CONTAINER :=
  {| GetIsKeepout := false; GetLayerSet := [F_SilkS]; GetNetCode := 0;
     IsOnCopperLayer := false; GetMinThickness := 250000;
     GetZoneClearance := 200000; GetCornerRadius := 0;
     GetFillMode := POLYGONS; GetIslandRemovalMode := IRM_ALWAYS;
     GetMinIslandArea := 0; GetBoundingBox := box;
     fill :=
       {| m_FilledPolysList := ∅; m_RawPolysList := ∅; m_filledPolysHash := ∅;
          m_insulatedIslands := ∅; m_IsFilled := false; m_needRefill := true;
          m_fillFlags := useThickness; m_area := 0%Q;
          m_triangulationValid := false |} |}.

(** A copper zone without net that lies outside the board outline of the
    example boards, which is the square from the origin to 20 mm. *)
Definition netlessZone : ZONE_CONTAINER :=
  {| GetIsKeepout := false; GetLayerSet := [F_Cu]; GetNetCode := 0;
     IsOnCopperLayer := true; GetMinThickness := 250000;
     GetZoneClearance := 200000; GetCornerRadius := 0;
     GetFillMode := POLYGONS; GetIslandRemovalMode := IRM_NEVER;
     GetMinIslandArea := 0;
     GetBoundingBox :=
       {| box_pos := (30000000, 30000000); box_size := (10000000, 10000000) |};
     fill := notFilled |}.

(** The kernel when the connectivity search gives every zone an entry for
    the front copper layer that lists [islands]. *)
Definition KwithIslands (islands : list nat) : COLLABORATORS :=
  kernel (config (fun _ => {[ F_Cu := islands ]})).

(** The filled polygons of the zone at [address] on [layer], once [Fill]
    has given [r]. *)
Definition filledPolys (r : outcome * ZONE_FILLER * ZONES * ZONES)
    (address : nat) (layer : PCB_LAYER_ID) : option SHAPE_POLY_SET :=
  z ← zonesOf r !! address; m_FilledPolysList (fill z) !! layer.

(** A surface-mount pad of net 1 on the front layer. *)
Definition smdPad (position size : VECTOR2I) (shape : PAD_SHAPE_T)
    (orientation : Z) : D_PAD :=
  {| pad_NetCode := 1; pad_Size := size; pad_DrillSize := (0, 0);
     pad_Orientation := orientation; pad_Shape := shape;
     pad_DrillShape := PAD_DRILL_SHAPE_CIRCLE; pad_Position := position;
     pad_Attribute := PAD_ATTRIB_SMD; pad_Layers := [F_Cu];
     pad_CustomShapeInZoneOpt := CUST_PAD_SHAPE_IN_ZONE_OUTLINE;
     pad_RoundRectRadiusRatio := 0%Q |}.

(** A strip as wide as the minimum thickness of the zones, 0.25 mm. *)
Definition strip : BOX2I :=
  {| box_pos := (0, 0); box_size := (10000000, 250000) |}.

Definition centrePad : D_PAD :=
  smdPad (5000000, 5000000) (1000000, 1000000) PAD_SHAPE_RECT 0.

Definition boardWith (pads : list D_PAD) : BOARD :=
  {| Modules := [ {| Pads := pads |} ]; m_MaxError := 5000;
     m_ZoneUseNoOutlineInFill := true; BiggestClearanceValue := 200000;
     BoardPolygonOutlines := ([[rect 0 0 20000000 20000000]], true) |}.

Definition board : BOARD := boardWith [centrePad].

(** The zones of the board, by address. *)
Definition zones : ZONES := {[ 1%nat := copperZone; 2%nat := keepoutZone ]}.

(** A filler whose user cancels once [n] polls have been answered. *)
Definition fillerCancelledAfter (n : nat) : ZONE_FILLER :=
  with_reporter new_ZONE_FILLER
    (Some {| cancelScript := fun k => (n <=? k)%nat; polls := 0 |}).

(** Router collaborators over a world given as a list of items: an item is
    hit at its anchor, a segment collides with the items of another net
    that sit on its start point and share its layer, and the placer is a
    double that starts everywhere but on an item without a net, where it
    fails and says why. *)
Definition routerDouble : Router.ROUTER_COLLABORATORS :=
  {| Router.HitTest := fun node p =>
       filter (fun item => Router.Anchor0 item = p) node;
     Router.CheckColliding := fun node seg =>
       existsb (fun item =>
                  negb (Router.Net item =? Router.seg_Net seg)
                  && bool_decide (Router.Anchor0 item = Router.seg_A seg)
                  && Router.Overlaps (Router.Layers item) (Router.seg_Layer seg))
               node;
     Router.placer_CurrentNode := fun _ world => world;
     Router.placer_Start := fun _ _ _ startItem =>
       match startItem with
       | Some item =>
         if Router.Net item <=? 0
         then (false, Some "The start item has no net."%string)
         else (true, None)
       | None => (true, None)
       end |}.

(** A pad of net 5 on the front layer, and a track end of net 2 that lies
    on the pad. *)
Definition padOfNet5 : Router.ITEM :=
  {| Router.IsRoutable := true; Router.Layers := (0, 0); Router.Net := 5;
     Router.Anchor0 := (1000000, 1000000) |}.

Definition trackOfNet2 : Router.ITEM :=
  {| Router.IsRoutable := true; Router.Layers := (0, 0); Router.Net := 2;
     Router.Anchor0 := (1000000, 1000000) |}.

(** A pad that belongs to no net. *)
Definition padWithoutNet : Router.ITEM :=
  {| Router.IsRoutable := true; Router.Layers := (0, 0); Router.Net := 0;
     Router.Anchor0 := (4000000, 4000000) |}.

(** A router in its default settings (shove mode, no violations allowed). *)
Definition router (world : Router.NODE) : Router.ROUTER :=
  Router.new_ROUTER world false Router.RM_Shove 250000.

End Examples.
(** ** What a fill may change in a zone *)

Module Refill.

(** [z'] is [z] with another fill state: every setting is the same. *)
Definition refilled (z z' : ZONE_CONTAINER) : Prop := z' = with_fill z (fill z').

(** The zones of [zs'] are the zones of [zs], at the same addresses and with
    the same settings; only what a fill writes may differ. *)
Definition refills (zs zs' : ZONES) : Prop :=
  forall id,
    match zs !! id, zs' !! id with
    | Some z, Some z' => refilled z z'
    | None, None => True
    | _, _ => False
    end.

(** From [z] to [z'] no stored polygon set is lost and neither the filled
    flag nor the triangulation is taken back. *)
Definition keepsFill (z z' : ZONE_CONTAINER) : Prop :=
  (forall l, is_Some (m_FilledPolysList (fill z) !! l) ->
             is_Some (m_FilledPolysList (fill z') !! l))
  /\ (forall l, is_Some (m_RawPolysList (fill z) !! l) ->
                is_Some (m_RawPolysList (fill z') !! l))
  /\ (m_IsFilled (fill z) = true -> m_IsFilled (fill z') = true)
  /\ (m_triangulationValid (fill z) = true ->
      m_triangulationValid (fill z') = true).

Definition grows (zs zs' : ZONES) : Prop :=
  refills zs zs'
  /\ forall id z z', zs !! id = Some z -> zs' !! id = Some z' -> keepsFill z z'.

(** The zone holds raw and filled polygons for every layer of [layers]. *)
Definition filledOn (layers : list PCB_LAYER_ID) (z : ZONE_CONTAINER) : Prop :=
  forall l, l ∈ layers ->
            is_Some (m_FilledPolysList (fill z) !! l)
            /\ is_Some (m_RawPolysList (fill z) !! l).

(** What the first loop of [Fill] has put on its lists: every zone on the
    island list is on the board, and each of its layers is on the work
    list. *)
Definition itemised
    (st : ZONES * ZONES * list (nat * PCB_LAYER_ID) * list CN_ZONE_ISOLATED_ISLAND_LIST)
  : Prop :=
  let '(zs, staged, toFill, islandsList) := st in
  forall id, id ∈ map m_zone islandsList ->
             exists z, zs !! id = Some z
                       /\ forall l, l ∈ GetLayerSet z -> (id, l) ∈ toFill.

(** The connectivity search names, as islands, only polygons that the zone
    holds on the layer. *)
Definition islandsInRange (E : COLLABORATORS) : Prop :=
  forall (zs : ZONES) (ids : list nat) (i : nat) (id : nat) (z : ZONE_CONTAINER)
         (layer : PCB_LAYER_ID) (islands : list nat) (idx : nat),
    ids !! i = Some id -> zs !! id = Some z ->
    FindIsolatedCopperIslands E zs ids i !! layer = Some islands ->
    idx ∈ islands ->
    (idx < length (default [] (m_FilledPolysList (fill z) !! layer)))%nat.

(** How many of the [n] numbers from [j] on [P] accepts. *)
Fixpoint countFrom (P : nat -> bool) (j n : nat) : nat :=
  match n with
  | O => O
  | S n' => ((if P j then 1 else 0) + countFrom P (S j) n')%nat
  end.

(** [SetIsIsland( layer, idx )] for each index of a list, in turn. *)
Definition flagIslands (z : ZONE_CONTAINER) (layer : PCB_LAYER_ID)
    (kept : list nat) : ZONE_CONTAINER :=
  foldl (fun z idx => SetIsIsland z layer idx) z kept.

(** The island flags a zone carries for a layer ([IsIsland( layer, idx )]). *)
Definition islandFlags (z : ZONE_CONTAINER) (layer : PCB_LAYER_ID) : gset nat :=
  default ∅ (m_insulatedIslands (fill z) !! layer).

(** The collaborators with another hatch step. *)
Definition withHatch (E : COLLABORATORS)
    (hatch : BOARD -> Z -> Z -> ZONE_CONTAINER -> PCB_LAYER_ID -> SHAPE_POLY_SET
             -> SHAPE_POLY_SET) : COLLABORATORS :=
  {| BooleanSubtract := BooleanSubtract E;
     BooleanIntersection := BooleanIntersection E;
     Simplify := Simplify E;
     Inflate := Inflate E;
     Deflate := Deflate E;
     Fracture := Fracture E;
     DefaultCornerStrategy := DefaultCornerStrategy E;
     DefaultAccuracy := DefaultAccuracy E;
     Contains := Contains E;
     GetHash := GetHash E;
     PointInside := PointInside E;
     Area := Area E;
     RotateDeciDeg := RotateDeciDeg E;
     BoxInflate := BoxInflate E;
     BoxIntersects := BoxIntersects E;
     GetArcToSegmentCount := GetArcToSegmentCount E;
     BuildConvexHull := BuildConvexHull E;
     ARC_LOW_DEF := ARC_LOW_DEF E;
     iu_0_001 := iu_0_001 E;
     iu_0_04 := iu_0_04 E;
     new_D_PAD := new_D_PAD E;
     pad_GetBoundingBox := pad_GetBoundingBox E;
     pad_ShapePos := pad_ShapePos E;
     pad_TransformShapeWithClearanceToPolygon :=
       pad_TransformShapeWithClearanceToPolygon E;
     BuildSmoothedPoly := BuildSmoothedPoly E;
     GetPadConnection := GetPadConnection E;
     GetThermalReliefGap := GetThermalReliefGap E;
     GetThermalReliefCopperBridge := GetThermalReliefCopperBridge E;
     CalculateFilledArea := CalculateFilledArea E;
     buildCopperItemClearances := buildCopperItemClearances E;
     addHatchFillTypeOnZone := hatch;
     FindIsolatedCopperIslands := FindIsolatedCopperIslands E;
     hardware_concurrency := hardware_concurrency E;
     refillDialogCancelled := refillDialogCancelled E |}.

(** None of the zones at the addresses [ids] is filled with a hatch
    pattern. *)
Definition plainOn (ids : list nat) (zs : ZONES) : Prop :=
  forall id z, id ∈ ids -> zs !! id = Some z -> GetFillMode z <> HATCH_PATTERN.

End Refill.
Export Refill.

(** ** [ZONE_FILLER_TOOL]: the other actions

    The frame is seen through the zones of the board ([board()->Zones()],
    in the board's order, over the store of zone objects), the pushes made
    on commits so far ([Commit.Push]), and the flag [m_ZoneFillsDirty].  The
    info bar, the canvas refresh and the focus handling only drive the
    user interface and leave no trace here. *)

Module Tool.

Record PCB_EDIT_FRAME := {
  Zones : list nat;
  zoneStore : ZONES;
  pushes : list (string * bool);
  m_ZoneFillsDirty : bool
}.

(** Item types, as far as [ZoneFill] tells them apart. *)
Inductive KICAD_T := PCB_ZONE_AREA_T | PCB_OTHER_T.

#[global] Instance KICAD_T_eq_dec : EqDecision KICAD_T.
Proof. solve_decision. Defined.

Definition with_zones (fr : PCB_EDIT_FRAME) (zs : ZONES) : PCB_EDIT_FRAME :=
  {| Zones := Zones fr; zoneStore := zs; pushes := pushes fr;
     m_ZoneFillsDirty := m_ZoneFillsDirty fr |}.

(** [commit.Push( description, second )] followed by
    [m_ZoneFillsDirty = dirty]. *)
Definition pushed (fr : PCB_EDIT_FRAME) (zs : ZONES) (description : string)
    (second : bool) (dirty : bool) : PCB_EDIT_FRAME :=
  {| Zones := Zones fr; zoneStore := zs;
     pushes := Push description second (pushes fr);
     m_ZoneFillsDirty := dirty |}.

(** [filler.SetProgressReporter( aReporter )] when a reporter is handed in,
    else [filler.InstallNewProgressReporter( ... )], whose user follows
    [script]. *)
Definition fillerFor (aReporter : option PROGRESS_REPORTER)
    (script : nat -> bool) : ZONE_FILLER :=
  with_reporter new_ZONE_FILLER
    (match aReporter with
     | Some r => Some r
     | None => Some {| cancelScript := script; polls := 0 |}
     end).

Section WithCollaborators.

Variable E : COLLABORATORS.
Variable B : BOARD.

(** [ZONE_FILLER_TOOL::CheckAllZones( aCaller, aReporter )].  The action
    returns nothing; given here are what [Fill] returned, if it was called,
    and the frame.  [Fill] is called with [aCheck] true (the caller it is
    handed as well only parents the dialog). *)
Definition CheckAllZones (lockFree : bool) (script : nat -> bool)
    (aReporter : option PROGRESS_REPORTER) (fr : PCB_EDIT_FRAME)
  : option outcome * PCB_EDIT_FRAME :=
  if negb (m_ZoneFillsDirty fr) then (None, fr) else
  let toFill := Zones fr in
  let commit : ZONES := ∅ in
  let filler := fillerFor aReporter script in
  let '(o, _, zs, commit) := Fill E B lockFree filler (zoneStore fr) commit toFill true in
  match o with
  | Returns true => (Some o, pushed fr zs "Fill Zone(s)" false false)
  | Returns false => (Some o, with_zones fr (Revert zs commit))
  | Throws => (Some o, with_zones fr zs)
  end.

(** [ZONE_FILLER_TOOL::FillAllZones( aCaller, aReporter )]; the warning
    it shows when the DRC rules do not parse, the refresh of the canvas and
    the refocus only drive the user interface and leave no trace here. *)
Definition FillAllZones (lockFree : bool) (script : nat -> bool)
    (aReporter : option PROGRESS_REPORTER) (fr : PCB_EDIT_FRAME)
  : option outcome * PCB_EDIT_FRAME :=
  let commit : ZONES := ∅ in
  let toFill := Zones fr in
  let filler := fillerFor aReporter script in
  let '(o, _, zs, commit) := Fill E B lockFree filler (zoneStore fr) commit toFill false in
  match o with
  | Returns true => (Some o, pushed fr zs "Fill Zone(s)" false false)
  | Returns false => (Some o, with_zones fr (Revert zs commit))
  | Throws => (Some o, with_zones fr zs)
  end.

(** [ZONE_FILLER_TOOL::ZoneFillAll]: [FillAllZones( frame() )]. *)
Definition ZoneFillAll (lockFree : bool) (script : nat -> bool)
    (fr : PCB_EDIT_FRAME) : option outcome * PCB_EDIT_FRAME :=
  FillAllZones lockFree script None fr.

(** The zones [ZONE_FILLER_TOOL::ZoneFill] hands to [Fill]: the item the
    event carries, if it carries one and its type is [PCB_ZONE_AREA_T];
    with no item in the event, the selected items that
    [dyn_cast<ZONE_CONTAINER*>] accepts (the flag each selected item comes
    with). *)
Definition zoneFillList (passedZone : option (nat * KICAD_T))
    (selection : list (nat * bool)) : list nat :=
  match passedZone with
  | Some (zone, type) =>
    if bool_decide (type = PCB_ZONE_AREA_T) then [zone] else []
  | None =>
    omap (fun item : nat * bool => if snd item then Some (fst item) else None)
         selection
  end.

(** [ZONE_FILLER_TOOL::ZoneFill( aEvent )], from the event on. *)
Definition ZoneFillEvent (lockFree : bool) (script : nat -> bool)
    (passedZone : option (nat * KICAD_T)) (selection : list (nat * bool))
    (fr : PCB_EDIT_FRAME) : outcome * PCB_EDIT_FRAME :=
  let '(o, zs, pushes') :=
    ZoneFill E B lockFree script (zoneStore fr) (pushes fr)
             (zoneFillList passedZone selection) in
  (o, {| Zones := Zones fr; zoneStore := zs; pushes := pushes';
         m_ZoneFillsDirty := m_ZoneFillsDirty fr |}).

End WithCollaborators.

End Tool.

(** ** [PNS::ROUTER]: the whole session

    [Router] above is the slice of the class that [StartRouting] needs.
    Here the router is taken with all the members [pns_router.cpp] reads and
    writes: the world may be missing (before [SyncWorld], after
    [ClearWorld]), as may the placer, the dragger, the interface and the
    settings, and a call through a null pointer ends the run ([None]).

    The placement and dragging algorithms ([PLACEMENT_ALGO], [DRAG_ALGO])
    are interfaces; their states are the types [P] and [D].  An operation
    of an algorithm gives its result, its next state and what it does to
    the router it holds: the world it leaves behind, the calls it makes on
    the interface and the failure reason it sets.  The ordering members the
    constructor also initialises ([m_lastNode], [m_iterLimit],
    [m_showInterSteps], [m_snapshotIter], [m_violation]) are not used by
    the functions of the file and are left out. *)

Module PNS.

Inductive PnsKind :=
  | SOLID_T | LINE_T | JOINT_T | SEGMENT_T | ARC_T | VIA_T | DIFF_PAIR_T.

#[global] Instance PnsKind_eq_dec : EqDecision PnsKind.
Proof. solve_decision. Defined.

(** An item of a node: what [Router.ITEM] has, its kind, its marker, and
    for a via its drill and diameter. *)
Record ITEM := {
  base : Router.ITEM;
  Kind : PnsKind;
  Marker : Z;
  Drill : Z;
  Diameter : Z
}.

(** An item of the set an algorithm hands out as its traces; for a [LINE]
    ([Kind] is [LINE_T]) also whether it ends with a via, the via, and the
    obstacle that blocks it. *)
Record TRACE := {
  trace_item : ITEM;
  EndsWithVia : bool;
  Via : ITEM;
  GetBlockingObstacle : option ITEM
}.

Abbreviation NODE := (list ITEM).

Inductive DRAGGER_KIND := COMPONENT_DRAGGER | DRAGGER.

(** [CORNER_MODE]; [CORNER_MODE_OTHER] stands for the enumerators that
    [ToggleRounded] does not name. *)
Inductive CORNER_MODE := MITERED_45 | ROUNDED_45 | CORNER_MODE_OTHER (v : Z).

Record ROUTING_SETTINGS := {
  CanViolateDRC : bool;
  Mode : Router.PNS_MODE;
  GetCornerMode : CORNER_MODE
}.

Definition SetCornerMode (s : ROUTING_SETTINGS) (m : CORNER_MODE) : ROUTING_SETTINGS :=
  {| CanViolateDRC := CanViolateDRC s; Mode := Mode s; GetCornerMode := m |}.

(** [SIZES_SETTINGS], of which the file reads [TrackWidth()]. *)
Record SIZES_SETTINGS := { TrackWidth : Z; otherSizes : list Z }.

Inductive LOG_EVENT :=
  | EVT_START_ROUTE (p : VECTOR2I) (item : option ITEM)
  | EVT_MOVE (p : VECTOR2I) (item : option ITEM)
  | EVT_FIX (p : VECTOR2I) (item : option ITEM).

(** The calls on [ROUTER_IFACE], in the order they are made. *)
Inductive IFACE_CALL :=
  | SyncWorldCall
  | EraseView
  | DisplayItem (item : ITEM) (clearance : Z) (edit : bool)
  | HideItem (item : ITEM)
  | RemoveItem (item : ITEM)
  | AddItem (item : ITEM)
  | Commit
  | UpdateNet (net : Z).

(** What an operation of an algorithm does to the router. *)
Record EFFECT := {
  eff_world : NODE -> NODE;
  eff_calls : list IFACE_CALL;
  eff_reason : option string
}.

Section Session.

Variables P D : Type.

Record ROUTER := {
  m_state : Router.RouterState;
  m_mode : Router.ROUTER_MODE;
  m_world : option NODE;
  m_placer : option P;
  m_dragger : option D;
  m_iface : option (list IFACE_CALL);
  m_settings : option ROUTING_SETTINGS;
  m_sizes : SIZES_SETTINGS;
  m_logger : option (list LOG_EVENT);
  m_currentEnd : VECTOR2I;
  m_forceMarkObstaclesMode : bool;
  m_failureReason : string
}.

(** The classes the router calls. *)
Record COLLABORATORS := {
  (** [NODE] *)
  HitTest : NODE -> VECTOR2I -> list ITEM;
  CheckColliding : NODE -> Router.SEGMENT -> bool;
  QueryColliding : NODE -> TRACE -> list ITEM;
  QueryCollidingVia : NODE -> ITEM -> list ITEM;
  GetClearance : NODE -> TRACE -> ITEM -> Z;
  GetHoleClearance : NODE -> TRACE -> ITEM -> Z;
  (** [GetUpdatedItems( removed, added )]: the items it appends to each *)
  GetUpdatedItems : NODE -> list ITEM * list ITEM;
  KillChildren : NODE -> NODE;
  ClearRanks : NODE -> NODE;
  NodeCommit : NODE -> NODE -> NODE;
  Branch : NODE -> NODE;
  (** [ROUTER_IFACE::SyncWorld]: the world the interface loads *)
  iface_SyncWorld : NODE -> NODE;
  (** [RULE_RESOLVER] *)
  Clearance : ITEM -> Z;
  HoleClearance : ITEM -> Z;
  (** marker bits and drag modes *)
  MK_VIOLATION : Z;
  MK_HOLE : Z;
  DM_FREE_ANGLE : Z;
  (** [PLACEMENT_ALGO]; [new_placer] is the placer as [StartRouting] has
      it before [Start]: made, sizes and layer set *)
  new_placer : Router.PLACER_KIND -> SIZES_SETTINGS -> Z -> P;
  placer_Start : P -> option NODE -> VECTOR2I -> option ITEM -> bool * P * EFFECT;
  placer_Move : P -> option NODE -> VECTOR2I -> option ITEM -> bool * P * EFFECT;
  placer_FixRoute : P -> option NODE -> VECTOR2I -> option ITEM -> bool -> bool * P * EFFECT;
  placer_UnfixRoute : P -> option NODE -> bool * P * EFFECT;
  placer_CommitPlacement : P -> option NODE -> bool * P * EFFECT;
  placer_UpdateSizes : P -> SIZES_SETTINGS -> P;
  placer_SetLayer : P -> Z -> bool * P;
  placer_FlipPosture : P -> P;
  placer_ToggleVia : P -> bool -> P;
  placer_SetOrthoMode : P -> bool -> P;
  placer_Traces : P -> list TRACE;
  placer_CurrentNode : P -> bool -> option NODE;
  placer_HasPlacedAnything : P -> bool;
  placer_GetModifiedNets : P -> list Z;
  placer_CurrentNets : P -> list Z;
  placer_CurrentLayer : P -> Z;
  placer_IsPlacingVia : P -> bool;
  (** [LINE_PLACER::SplitAdjacentSegments] of a placer made for the call:
      whether it split, and the node it worked on *)
  SplitAdjacentSegments : NODE -> ITEM -> VECTOR2I -> bool * NODE;
  (** [DRAG_ALGO]; [new_dragger] is the dragger as [StartDragging] has it
      before [Start]: made, mode and world set *)
  new_dragger : DRAGGER_KIND -> Z -> option NODE -> D;
  dragger_Start : D -> option NODE -> VECTOR2I -> list ITEM -> bool * D * EFFECT;
  dragger_Drag : D -> option NODE -> VECTOR2I -> bool * D * EFFECT;
  dragger_FixRoute : D -> option NODE -> bool * D * EFFECT;
  dragger_Traces : D -> list TRACE;
  dragger_CurrentNode : D -> option NODE;
  dragger_CurrentNets : D -> list Z;
  dragger_CurrentLayer : D -> Z
}.

Variable C : COLLABORATORS.

Definition set_state (r : ROUTER) (s : Router.RouterState) : ROUTER :=
  {| m_state := s; m_mode := m_mode r; m_world := m_world r;
     m_placer := m_placer r; m_dragger := m_dragger r; m_iface := m_iface r;
     m_settings := m_settings r; m_sizes := m_sizes r; m_logger := m_logger r;
     m_currentEnd := m_currentEnd r;
     m_forceMarkObstaclesMode := m_forceMarkObstaclesMode r;
     m_failureReason := m_failureReason r |}.

Definition set_mode (r : ROUTER) (m : Router.ROUTER_MODE) : ROUTER :=
  {| m_state := m_state r; m_mode := m; m_world := m_world r;
     m_placer := m_placer r; m_dragger := m_dragger r; m_iface := m_iface r;
     m_settings := m_settings r; m_sizes := m_sizes r; m_logger := m_logger r;
     m_currentEnd := m_currentEnd r;
     m_forceMarkObstaclesMode := m_forceMarkObstaclesMode r;
     m_failureReason := m_failureReason r |}.

Definition set_world (r : ROUTER) (w : option NODE) : ROUTER :=
  {| m_state := m_state r; m_mode := m_mode r; m_world := w;
     m_placer := m_placer r; m_dragger := m_dragger r; m_iface := m_iface r;
     m_settings := m_settings r; m_sizes := m_sizes r; m_logger := m_logger r;
     m_currentEnd := m_currentEnd r;
     m_forceMarkObstaclesMode := m_forceMarkObstaclesMode r;
     m_failureReason := m_failureReason r |}.

Definition set_placer (r : ROUTER) (p : option P) : ROUTER :=
  {| m_state := m_state r; m_mode := m_mode r; m_world := m_world r;
     m_placer := p; m_dragger := m_dragger r; m_iface := m_iface r;
     m_settings := m_settings r; m_sizes := m_sizes r; m_logger := m_logger r;
     m_currentEnd := m_currentEnd r;
     m_forceMarkObstaclesMode := m_forceMarkObstaclesMode r;
     m_failureReason := m_failureReason r |}.

Definition set_dragger (r : ROUTER) (d : option D) : ROUTER :=
  {| m_state := m_state r; m_mode := m_mode r; m_world := m_world r;
     m_placer := m_placer r; m_dragger := d; m_iface := m_iface r;
     m_settings := m_settings r; m_sizes := m_sizes r; m_logger := m_logger r;
     m_currentEnd := m_currentEnd r;
     m_forceMarkObstaclesMode := m_forceMarkObstaclesMode r;
     m_failureReason := m_failureReason r |}.

Definition set_iface (r : ROUTER) (i : option (list IFACE_CALL)) : ROUTER :=
  {| m_state := m_state r; m_mode := m_mode r; m_world := m_world r;
     m_placer := m_placer r; m_dragger := m_dragger r; m_iface := i;
     m_settings := m_settings r; m_sizes := m_sizes r; m_logger := m_logger r;
     m_currentEnd := m_currentEnd r;
     m_forceMarkObstaclesMode := m_forceMarkObstaclesMode r;
     m_failureReason := m_failureReason r |}.

Definition set_settings (r : ROUTER) (s : option ROUTING_SETTINGS) : ROUTER :=
  {| m_state := m_state r; m_mode := m_mode r; m_world := m_world r;
     m_placer := m_placer r; m_dragger := m_dragger r; m_iface := m_iface r;
     m_settings := s; m_sizes := m_sizes r; m_logger := m_logger r;
     m_currentEnd := m_currentEnd r;
     m_forceMarkObstaclesMode := m_forceMarkObstaclesMode r;
     m_failureReason := m_failureReason r |}.

Definition set_sizes (r : ROUTER) (s : SIZES_SETTINGS) : ROUTER :=
  {| m_state := m_state r; m_mode := m_mode r; m_world := m_world r;
     m_placer := m_placer r; m_dragger := m_dragger r; m_iface := m_iface r;
     m_settings := m_settings r; m_sizes := s; m_logger := m_logger r;
     m_currentEnd := m_currentEnd r;
     m_forceMarkObstaclesMode := m_forceMarkObstaclesMode r;
     m_failureReason := m_failureReason r |}.

Definition set_logger (r : ROUTER) (l : option (list LOG_EVENT)) : ROUTER :=
  {| m_state := m_state r; m_mode := m_mode r; m_world := m_world r;
     m_placer := m_placer r; m_dragger := m_dragger r; m_iface := m_iface r;
     m_settings := m_settings r; m_sizes := m_sizes r; m_logger := l;
     m_currentEnd := m_currentEnd r;
     m_forceMarkObstaclesMode := m_forceMarkObstaclesMode r;
     m_failureReason := m_failureReason r |}.

Definition set_currentEnd (r : ROUTER) (p : VECTOR2I) : ROUTER :=
  {| m_state := m_state r; m_mode := m_mode r; m_world := m_world r;
     m_placer := m_placer r; m_dragger := m_dragger r; m_iface := m_iface r;
     m_settings := m_settings r; m_sizes := m_sizes r; m_logger := m_logger r;
     m_currentEnd := p;
     m_forceMarkObstaclesMode := m_forceMarkObstaclesMode r;
     m_failureReason := m_failureReason r |}.

Definition set_forceMarkObstaclesMode (r : ROUTER) (b : bool) : ROUTER :=
  {| m_state := m_state r; m_mode := m_mode r; m_world := m_world r;
     m_placer := m_placer r; m_dragger := m_dragger r; m_iface := m_iface r;
     m_settings := m_settings r; m_sizes := m_sizes r; m_logger := m_logger r;
     m_currentEnd := m_currentEnd r;
     m_forceMarkObstaclesMode := b;
     m_failureReason := m_failureReason r |}.

Definition SetFailureReason (r : ROUTER) (reason : string) : ROUTER :=
  {| m_state := m_state r; m_mode := m_mode r; m_world := m_world r;
     m_placer := m_placer r; m_dragger := m_dragger r; m_iface := m_iface r;
     m_settings := m_settings r; m_sizes := m_sizes r; m_logger := m_logger r;
     m_currentEnd := m_currentEnd r;
     m_forceMarkObstaclesMode := m_forceMarkObstaclesMode r;
     m_failureReason := reason |}.

(** [ROUTER::ROUTER()] *)
Definition new_ROUTER (sizes : SIZES_SETTINGS) : ROUTER :=
  {| m_state := Router.IDLE; m_mode := Router.PNS_MODE_ROUTE_SINGLE;
     m_world := None; m_placer := None; m_dragger := None; m_iface := None;
     m_settings := None; m_sizes := sizes; m_logger := Some [];
     m_currentEnd := (0, 0); m_forceMarkObstaclesMode := false;
     m_failureReason := ""%string |}.

(** Calls on [m_iface]: they need the interface. *)
Definition call (r : ROUTER) (calls : list IFACE_CALL) : option ROUTER :=
  match m_iface r with
  | Some trace => Some (set_iface r (Some (trace ++ calls)))
  | None => None
  end.

(** The calls a loop makes on [m_iface], one per turn: with no turn there
    is no call and the interface is not needed. *)
Definition callEach (r : ROUTER) (calls : list IFACE_CALL) : option ROUTER :=
  match calls with
  | [] => Some r
  | _ => call r calls
  end.

(** [m_logger->Log( ... )] under [if( m_logger )]. *)
Definition Log (r : ROUTER) (e : LOG_EVENT) : ROUTER :=
  set_logger r ((fun l => l ++ [e]) <$> m_logger r).

(** What an operation of an algorithm leaves in the router; interface
    calls without an interface end the run. *)
Definition absorb (r : ROUTER) (e : EFFECT) : option ROUTER :=
  let r := set_world r (eff_world e <$> m_world r) in
  let r := match eff_reason e with
           | Some why => SetFailureReason r why
           | None => r
           end in
  callEach r (eff_calls e).

(** [ROUTER::ClearWorld()] *)
Definition ClearWorld (r : ROUTER) : ROUTER :=
  let r := match m_world r with
           | Some _ => set_world r None
           | None => r
           end in
  set_placer r None.

(** [ROUTER::SyncWorld()] *)
Definition SyncWorld (r : ROUTER) : option ROUTER :=
  let r := ClearWorld r in
  let r := set_world r (Some []) in
  r ← call r [SyncWorldCall];
  Some (set_world r (Some (iface_SyncWorld C []))).

(** [ROUTER::RoutingInProgress()] *)
Definition RoutingInProgress (r : ROUTER) : bool :=
  negb (bool_decide (m_state r = Router.IDLE)).

(** [ROUTER::QueryHoverItems( aP )] *)
Definition QueryHoverItems (r : ROUTER) (aP : VECTOR2I) : option (list ITEM) :=
  match m_placer r with
  | Some placer =>
    if bool_decide (m_state r = Router.IDLE)
    then world ← m_world r; Some (HitTest C world aP)
    else node ← placer_CurrentNode C placer false; Some (HitTest C node aP)
  | None => world ← m_world r; Some (HitTest C world aP)
  end.

(** [ROUTER::StartDragging( aP, aStartItems, aDragMode )] *)
Definition StartDragging (r : ROUTER) (aP : VECTOR2I) (aStartItems : list ITEM)
    (aDragMode : Z) : option (bool * ROUTER) :=
  match aStartItems with
  | [] => Some (false, r)
  | _ :: _ =>
    let solids :=
      length (List.filter (fun i => bool_decide (Kind i = SOLID_T)) aStartItems) in
    let '(kind, r) :=
      if (solids =? length aStartItems)%nat
      then (COMPONENT_DRAGGER, set_forceMarkObstaclesMode r true)
      else (DRAGGER,
            set_forceMarkObstaclesMode r
              (negb (Z.land aDragMode (DM_FREE_ANGLE C) =? 0))) in
    (** [SetDebugDecorator( m_iface->GetDebugDecorator() )] *)
    _ ← m_iface r;
    let dragger := new_dragger C kind aDragMode (m_world r) in
    let '(ok, dragger, e) := dragger_Start C dragger (m_world r) aP aStartItems in
    r ← absorb r e;
    if ok
    then Some (true, set_state (set_dragger r (Some dragger)) Router.DRAG_SEGMENT)
    else Some (false, set_state (set_dragger r None) Router.IDLE)
  end.

(** [ROUTER::StartDragging( aP, aItem, aDragMode )]: [ITEM_SET( aItem )]
    holds the item unless it is null. *)
Definition StartDraggingItem (r : ROUTER) (aP : VECTOR2I) (aItem : option ITEM)
    (aDragMode : Z) : option (bool * ROUTER) :=
  StartDragging r aP (match aItem with Some i => [i] | None => [] end) aDragMode.

(** [ROUTER::isStartingPointRoutable( aWhere, aStartItem, aLayer )] *)
Definition isStartingPointRoutable (r : ROUTER) (aWhere : VECTOR2I)
    (aStartItem : option ITEM) (aLayer : Z) : option bool :=
  settings ← m_settings r;
  if CanViolateDRC settings && bool_decide (Mode settings = Router.RM_MarkObstacles)
  then Some true
  else
    candidates ← QueryHoverItems r aWhere;
    if existsb (fun item => negb (Router.IsRoutable (base item))
                            && Router.Overlaps (Router.Layers (base item)) aLayer)
               candidates
    then Some false
    else
      match m_mode r, aStartItem with
      | Router.PNS_MODE_ROUTE_SINGLE, Some startItem =>
        let startPoint := Router.Anchor0 (base startItem) in
        let dummyStartSeg :=
          {| Router.seg_A := startPoint; Router.seg_B := startPoint;
             Router.seg_Net := Router.Net (base startItem);
             Router.seg_Width := TrackWidth (m_sizes r);
             Router.seg_Layer := aLayer |} in
        world ← m_world r;
        Some (negb (CheckColliding C world dummyStartSeg))
      | _, _ => Some true
      end.

(** [ROUTER::StartRouting( aP, aStartItem, aLayer )] *)
Definition StartRouting (r : ROUTER) (aP : VECTOR2I) (aStartItem : option ITEM)
    (aLayer : Z) : option (bool * ROUTER) :=
  routable ← isStartingPointRoutable r aP aStartItem aLayer;
  if negb routable then Some (false, SetFailureReason r Router.drcReason)
  else
    let r := set_forceMarkObstaclesMode r false in
    match Router.placerFor (m_mode r) with
    | None => Some (false, r)
    | Some kind =>
      let placer := new_placer C kind (m_sizes r) aLayer in
      let r := set_placer r (Some placer) in
      (** [SetDebugDecorator( m_iface->GetDebugDecorator() )] *)
      _ ← m_iface r;
      let r := Log r (EVT_START_ROUTE aP aStartItem) in
      let '(rv, placer, e) := placer_Start C placer (m_world r) aP aStartItem in
      let r := set_placer r (Some placer) in
      r ← absorb r e;
      if negb rv then Some (false, r)
      else Some (rv, set_state (set_currentEnd r aP) Router.ROUTE_TRACK)
    end.

(** The lambda [updateItem] of [markViolations]: the calls it makes and
    what it appends to [aRemoved]. *)
Definition updateItem (aNode : NODE) (currentItem : TRACE) (itemToMark : ITEM)
  : list IFACE_CALL * list ITEM :=
  let tmp := itemToMark in
  let holed := negb (Z.land (Marker itemToMark) (MK_HOLE C) =? 0) in
  let clearance :=
    if holed then GetHoleClearance C aNode currentItem itemToMark
    else GetClearance C aNode currentItem itemToMark in
  ([DisplayItem tmp clearance false], if holed then [] else [itemToMark]).

(** [Mark( Marker() | MK_VIOLATION )] *)
Definition markViolation (i : ITEM) : ITEM :=
  {| base := base i; Kind := Kind i;
     Marker := Z.lor (Marker i) (MK_VIOLATION C);
     Drill := Drill i; Diameter := Diameter i |}.

(** The body of the loop of [markViolations] for one current item. *)
Definition markItem (aNode : NODE) (item : TRACE) : list IFACE_CALL * list ITEM :=
  let obstacles := QueryColliding C aNode item in
  let obstacles :=
    if bool_decide (Kind (trace_item item) = LINE_T) && EndsWithVia item
    then obstacles ++ QueryCollidingVia C aNode (Via item)
    else obstacles in
  let marked := map (fun obs => updateItem aNode item (markViolation obs)) obstacles in
  let blocking :=
    if bool_decide (Kind (trace_item item) = LINE_T) then
      match GetBlockingObstacle item with
      | Some obstacle => [updateItem aNode item obstacle]
      | None => []
      end
    else [] in
  (concat (map fst (marked ++ blocking)), concat (map snd (marked ++ blocking))).

(** [ROUTER::markViolations( aNode, aCurrent, aRemoved )]: the calls made
    and the items appended to [aRemoved].  The marks are left on the items
    the node holds; here they show on the items displayed and removed. *)
Definition markViolations (aNode : NODE) (aCurrent : list TRACE)
  : list IFACE_CALL * list ITEM :=
  (concat (map (fun item => fst (markItem aNode item)) aCurrent),
   concat (map (fun item => snd (markItem aNode item)) aCurrent)).

(** [ROUTER::updateView( aNode, aCurrent, aDragging )] *)
Definition updateView (r : ROUTER) (aNode : option NODE) (aCurrent : list TRACE)
    (aDragging : bool) : option ROUTER :=
  match aNode with
  | None => Some r
  | Some node =>
    settings ← m_settings r;
    let '(calls, removed) :=
      if bool_decide (Mode settings = Router.RM_MarkObstacles)
         || m_forceMarkObstaclesMode r
      then markViolations node aCurrent
      else ([], []) in
    r ← callEach r calls;
    let '(removed', added) := GetUpdatedItems C node in
    let removed := removed ++ removed' in
    r ← callEach r (map (fun item => DisplayItem item (Clearance C item) aDragging)
                        added);
    callEach r (map HideItem removed)
  end.

(** The clearance [movePlacing] shows around the via a line ends with. *)
Definition shownViaClearance (via : ITEM) : Z :=
  let viaClearance := Clearance C via in
  let holeClearance := HoleClearance C via in
  if holeClearance + Drill via ÷ 2 >? viaClearance + Diameter via ÷ 2
  then holeClearance + Drill via ÷ 2 - Diameter via ÷ 2
  else viaClearance.

(** The body of the loop of [movePlacing]: the calls for one item. *)
Definition showTrace (item : TRACE) : list IFACE_CALL :=
  if negb (bool_decide (Kind (trace_item item) = LINE_T)) then []
  else
    DisplayItem (trace_item item) (Clearance C (trace_item item)) false
    :: (if EndsWithVia item
        then [DisplayItem (Via item) (shownViaClearance (Via item)) false]
        else []).

(** [ROUTER::movePlacing( aP, aEndItem )] *)
Definition movePlacing (r : ROUTER) (aP : VECTOR2I) (aEndItem : option ITEM)
  : option ROUTER :=
  r ← call r [EraseView];
  placer ← m_placer r;
  let '(_, placer, e) := placer_Move C placer (m_world r) aP aEndItem in
  let r := set_placer r (Some placer) in
  r ← absorb r e;
  let current := placer_Traces C placer in
  r ← callEach r (concat (map showTrace current));
  updateView r (placer_CurrentNode C placer true) current false.

(** [ROUTER::moveDragging( aP, aEndItem )] *)
Definition moveDragging (r : ROUTER) (aP : VECTOR2I) (aEndItem : option ITEM)
  : option ROUTER :=
  r ← call r [EraseView];
  dragger ← m_dragger r;
  let '(_, dragger, e) := dragger_Drag C dragger (m_world r) aP in
  let r := set_dragger r (Some dragger) in
  r ← absorb r e;
  let dragged := dragger_Traces C dragger in
  updateView r (dragger_CurrentNode C dragger) dragged true.

(** [ROUTER::Move( aP, endItem )] *)
Definition Move (r : ROUTER) (aP : VECTOR2I) (endItem : option ITEM)
  : option ROUTER :=
  let r := set_currentEnd r aP in
  let r := Log r (EVT_MOVE aP endItem) in
  match m_state r with
  | Router.ROUTE_TRACK => movePlacing r aP endItem
  | Router.DRAG_SEGMENT => moveDragging r aP endItem
  | Router.IDLE => Some r
  end.

(** [ROUTER::UpdateSizes( aSizes )] *)
Definition UpdateSizes (r : ROUTER) (aSizes : SIZES_SETTINGS) : option ROUTER :=
  let r := set_sizes r aSizes in
  if bool_decide (m_state r = Router.ROUTE_TRACK) then
    placer ← m_placer r;
    Some (set_placer r (Some (placer_UpdateSizes C placer (m_sizes r))))
  else Some r.

(** [ROUTER::CommitRouting( aNode )] *)
Definition CommitRoutingNode (r : ROUTER) (aNode : NODE) : option ROUTER :=
  skip ← (if bool_decide (m_state r = Router.ROUTE_TRACK)
          then placer ← m_placer r; Some (negb (placer_HasPlacedAnything C placer))
          else Some false);
  if skip : bool then Some r
  else
    let '(removed, added) := GetUpdatedItems C aNode in
    r ← call r (map RemoveItem removed ++ map AddItem added ++ [Commit]);
    world ← m_world r;
    Some (set_world r (Some (NodeCommit C world aNode))).

(** [ROUTER::FixRoute( aP, aEndItem, aForceFinish )] *)
Definition FixRoute (r : ROUTER) (aP : VECTOR2I) (aEndItem : option ITEM)
    (aForceFinish : bool) : option (bool * ROUTER) :=
  let r := Log r (EVT_FIX aP aEndItem) in
  match m_state r with
  | Router.ROUTE_TRACK =>
    placer ← m_placer r;
    let '(rv, placer, e) :=
      placer_FixRoute C placer (m_world r) aP aEndItem aForceFinish in
    r ← absorb (set_placer r (Some placer)) e;
    Some (rv, r)
  | Router.DRAG_SEGMENT =>
    dragger ← m_dragger r;
    let '(rv, dragger, e) := dragger_FixRoute C dragger (m_world r) in
    r ← absorb (set_dragger r (Some dragger)) e;
    Some (rv, r)
  | Router.IDLE => Some (false, r)
  end.

(** [ROUTER::UndoLastSegment()] *)
Definition UndoLastSegment (r : ROUTER) : option ROUTER :=
  if negb (RoutingInProgress r) then Some r
  else
    placer ← m_placer r;
    let '(_, placer, e) := placer_UnfixRoute C placer (m_world r) in
    absorb (set_placer r (Some placer)) e.

(** [ROUTER::StopRouting()] *)
Definition StopRouting (r : ROUTER) : option ROUTER :=
  r ← (match m_placer r with
       | Some placer => callEach r (map UpdateNet (placer_GetModifiedNets C placer))
       | None => Some r
       end);
  if negb (RoutingInProgress r) then Some r
  else
    let r := set_placer r None in
    let r := set_dragger r None in
    r ← call r [EraseView];
    let r := set_state r Router.IDLE in
    world ← m_world r;
    Some (set_world r (Some (ClearRanks C (KillChildren C world)))).

(** [ROUTER::CommitRouting()] *)
Definition CommitRouting (r : ROUTER) : option ROUTER :=
  r ← (if bool_decide (m_state r = Router.ROUTE_TRACK) then
         placer ← m_placer r;
         let '(_, placer, e) := placer_CommitPlacement C placer (m_world r) in
         absorb (set_placer r (Some placer)) e
       else Some r);
  StopRouting r.

(** [ROUTER::FlipPosture()] *)
Definition FlipPosture (r : ROUTER) : option ROUTER :=
  if bool_decide (m_state r = Router.ROUTE_TRACK) then
    placer ← m_placer r;
    Some (set_placer r (Some (placer_FlipPosture C placer)))
  else Some r.

(** [ROUTER::SwitchLayer( aLayer )] *)
Definition SwitchLayer (r : ROUTER) (aLayer : Z) : option (bool * ROUTER) :=
  if bool_decide (m_state r = Router.ROUTE_TRACK) then
    placer ← m_placer r;
    let '(ok, placer) := placer_SetLayer C placer aLayer in
    Some (ok, set_placer r (Some placer))
  else Some (false, r).

(** [ROUTER::ToggleViaPlacement()] *)
Definition ToggleViaPlacement (r : ROUTER) : option ROUTER :=
  if bool_decide (m_state r = Router.ROUTE_TRACK) then
    placer ← m_placer r;
    let toggle := negb (placer_IsPlacingVia C placer) in
    Some (set_placer r (Some (placer_ToggleVia C placer toggle)))
  else Some r.

(** [ROUTER::GetCurrentNets()] *)
Definition GetCurrentNets (r : ROUTER) : list Z :=
  match m_placer r, m_dragger r with
  | Some placer, _ => placer_CurrentNets C placer
  | None, Some dragger => dragger_CurrentNets C dragger
  | None, None => []
  end.

(** [ROUTER::GetCurrentLayer()] *)
Definition GetCurrentLayer (r : ROUTER) : Z :=
  match m_placer r, m_dragger r with
  | Some placer, _ => placer_CurrentLayer C placer
  | None, Some dragger => dragger_CurrentLayer C dragger
  | None, None => -1
  end.

(** [ROUTER::IsPlacingVia()] *)
Definition IsPlacingVia (r : ROUTER) : bool :=
  match m_placer r with
  | None => false
  | Some placer => placer_IsPlacingVia C placer
  end.

(** [ROUTER::ToggleRounded()] *)
Definition ToggleRounded (r : ROUTER) : option ROUTER :=
  settings ← m_settings r;
  let newMode :=
    match GetCornerMode settings with
    | MITERED_45 => ROUNDED_45
    | _ => MITERED_45
    end in
  Some (set_settings r (Some (SetCornerMode settings newMode))).

(** [ROUTER::SetOrthoMode( aEnable )] *)
Definition SetOrthoMode (r : ROUTER) (aEnable : bool) : ROUTER :=
  match m_placer r with
  | None => r
  | Some placer => set_placer r (Some (placer_SetOrthoMode C placer aEnable))
  end.

(** [ROUTER::SetMode( aMode )] *)
Definition SetMode (r : ROUTER) (aMode : Router.ROUTER_MODE) : ROUTER :=
  set_mode r aMode.

(** [ROUTER::SetInterface( aIface )] *)
Definition SetInterface (r : ROUTER) (aIface : option (list IFACE_CALL)) : ROUTER :=
  set_iface r aIface.

(** [ROUTER::BreakSegment( aItem, aP )] *)
Definition BreakSegment (r : ROUTER) (aItem : ITEM) (aP : VECTOR2I) : option ROUTER :=
  world ← m_world r;
  let node := Branch C world in
  let '(split, node) := SplitAdjacentSegments C node aItem aP in
  if split then CommitRoutingNode r node else Some r.

(** *** A session: the operations of the class, one after the other

    The calls are the member functions that [pns_router.cpp] defines for
    use from outside; the constructor, the destructor and the static
    [GetInstance] are not calls of a session, and the helpers the file
    defines for its own use ([isStartingPointRoutable], [movePlacing],
    [moveDragging], [markViolations], [updateView]) are reached through the
    calls.  A query leaves the router as it is; what it returns is not kept
    here. *)

Inductive CALL :=
  | CallStartRouting (aP : VECTOR2I) (aStartItem : option ITEM) (aLayer : Z)
  | CallStartDragging (aP : VECTOR2I) (aStartItems : list ITEM) (aDragMode : Z)
  | CallMove (aP : VECTOR2I) (endItem : option ITEM)
  | CallFixRoute (aP : VECTOR2I) (aEndItem : option ITEM) (aForceFinish : bool)
  | CallUndoLastSegment
  | CallCommitRouting
  | CallStopRouting
  | CallFlipPosture
  | CallSwitchLayer (aLayer : Z)
  | CallToggleViaPlacement
  | CallToggleRounded
  | CallUpdateSizes (aSizes : SIZES_SETTINGS)
  | CallSetOrthoMode (aEnable : bool)
  | CallSetMode (aMode : Router.ROUTER_MODE)
  | CallBreakSegment (aItem : ITEM) (aP : VECTOR2I)
  | CallSyncWorld
  | CallClearWorld
  | CallSetInterface (aIface : option (list IFACE_CALL))
  | CallQueryHoverItems (aP : VECTOR2I)
  | CallStartDraggingItem (aP : VECTOR2I) (aItem : option ITEM) (aDragMode : Z)
  | CallCommitRoutingNode (aNode : NODE)
  | CallRoutingInProgress
  | CallGetCurrentNets
  | CallGetCurrentLayer
  | CallIsPlacingVia
  | CallLogger.

Definition perform (c : CALL) (r : ROUTER) : option ROUTER :=
  match c with
  | CallStartRouting aP aStartItem aLayer =>
    snd <$> StartRouting r aP aStartItem aLayer
  | CallStartDragging aP aStartItems aDragMode =>
    snd <$> StartDragging r aP aStartItems aDragMode
  | CallMove aP endItem => Move r aP endItem
  | CallFixRoute aP aEndItem aForceFinish =>
    snd <$> FixRoute r aP aEndItem aForceFinish
  | CallUndoLastSegment => UndoLastSegment r
  | CallCommitRouting => CommitRouting r
  | CallStopRouting => StopRouting r
  | CallFlipPosture => FlipPosture r
  | CallSwitchLayer aLayer => snd <$> SwitchLayer r aLayer
  | CallToggleViaPlacement => ToggleViaPlacement r
  | CallToggleRounded => ToggleRounded r
  | CallUpdateSizes aSizes => UpdateSizes r aSizes
  | CallSetOrthoMode aEnable => Some (SetOrthoMode r aEnable)
  | CallSetMode aMode => Some (SetMode r aMode)
  | CallBreakSegment aItem aP => BreakSegment r aItem aP
  | CallSyncWorld => SyncWorld r
  | CallClearWorld => Some (ClearWorld r)
  | CallSetInterface aIface => Some (SetInterface r aIface)
  | CallQueryHoverItems aP => _ ← QueryHoverItems r aP; Some r
  | CallStartDraggingItem aP aItem aDragMode =>
    snd <$> StartDraggingItem r aP aItem aDragMode
  | CallCommitRoutingNode aNode => CommitRoutingNode r aNode
  | CallRoutingInProgress => Some r
  | CallGetCurrentNets => Some r
  | CallGetCurrentLayer => Some r
  | CallIsPlacingVia => Some r
  | CallLogger => Some r
  end.

Fixpoint session (calls : list CALL) (r : ROUTER) : option ROUTER :=
  match calls with
  | [] => Some r
  | c :: calls' => r' ← perform c r; session calls' r'
  end.

(** The router has a world, an interface and settings, a placer while it
    routes and a dragger while it drags. *)
Definition wellFormed (r : ROUTER) : Prop :=
  is_Some (m_world r) /\ is_Some (m_iface r) /\ is_Some (m_settings r)
  /\ (m_state r = Router.ROUTE_TRACK -> is_Some (m_placer r))
  /\ (m_state r = Router.DRAG_SEGMENT -> is_Some (m_dragger r)).

(** The same, but for the world, which an idle router may be without
    (after [ClearWorld], until the next [SyncWorld]). *)
Definition wired (r : ROUTER) : Prop :=
  is_Some (m_iface r) /\ is_Some (m_settings r)
  /\ (m_state r <> Router.IDLE -> is_Some (m_world r))
  /\ (m_state r = Router.ROUTE_TRACK -> is_Some (m_placer r))
  /\ (m_state r = Router.DRAG_SEGMENT -> is_Some (m_dragger r)).

(** How the tools use the router.  The world is cleared and synchronised
    only while the router is idle, and the interface handed over is not
    null.  What works on the world (starting a route or a drag, breaking a
    segment, committing a node, asking for the items under the cursor) is
    called once the world is there, and a new route is started from the
    idle state.  The last segment is taken back only while a placer is at
    work.  Asking for the items under the cursor while a route or a drag
    is on, the placer that is there has a current node. *)
Definition asTheToolsCall (c : CALL) (r : ROUTER) : Prop :=
  match c with
  | CallStartRouting _ _ _ => m_state r = Router.IDLE /\ is_Some (m_world r)
  | CallStartDragging _ _ _ => is_Some (m_world r)
  | CallStartDraggingItem _ _ _ => is_Some (m_world r)
  | CallBreakSegment _ _ => is_Some (m_world r)
  | CallCommitRoutingNode _ => is_Some (m_world r)
  | CallQueryHoverItems _ =>
    is_Some (m_world r)
    /\ (m_state r <> Router.IDLE ->
        forall placer, m_placer r = Some placer ->
                       is_Some (placer_CurrentNode C placer false))
  | CallUndoLastSegment => m_state r <> Router.DRAG_SEGMENT
  | CallSyncWorld => m_state r = Router.IDLE
  | CallClearWorld => m_state r = Router.IDLE
  | CallSetInterface aIface => is_Some aIface
  | _ => True
  end.

Fixpoint usedAsTheToolsDo (calls : list CALL) (r : ROUTER) : Prop :=
  match calls with
  | [] => True
  | c :: calls' =>
    asTheToolsCall c r
    /\ match perform c r with
       | Some r' => usedAsTheToolsDo calls' r'
       | None => True
       end
  end.

(** The nets [StopRouting] reports to the interface. *)
Definition modifiedNets (r : ROUTER) : list Z :=
  match m_placer r with
  | Some placer => placer_GetModifiedNets C placer
  | None => []
  end.

End Session.

Arguments HitTest {P D} c.
Arguments CheckColliding {P D} c.
Arguments QueryColliding {P D} c.
Arguments QueryCollidingVia {P D} c.
Arguments GetClearance {P D} c.
Arguments GetHoleClearance {P D} c.
Arguments GetUpdatedItems {P D} c.
Arguments KillChildren {P D} c.
Arguments ClearRanks {P D} c.
Arguments NodeCommit {P D} c.
Arguments Branch {P D} c.
Arguments iface_SyncWorld {P D} c.
Arguments Clearance {P D} c.
Arguments HoleClearance {P D} c.
Arguments MK_VIOLATION {P D} c.
Arguments MK_HOLE {P D} c.
Arguments DM_FREE_ANGLE {P D} c.
Arguments new_placer {P D} c.
Arguments placer_Start {P D} c.
Arguments placer_Move {P D} c.
Arguments placer_FixRoute {P D} c.
Arguments placer_UnfixRoute {P D} c.
Arguments placer_CommitPlacement {P D} c.
Arguments placer_UpdateSizes {P D} c.
Arguments placer_SetLayer {P D} c.
Arguments placer_FlipPosture {P D} c.
Arguments placer_ToggleVia {P D} c.
Arguments placer_SetOrthoMode {P D} c.
Arguments placer_Traces {P D} c.
Arguments placer_CurrentNode {P D} c.
Arguments placer_HasPlacedAnything {P D} c.
Arguments placer_GetModifiedNets {P D} c.
Arguments placer_CurrentNets {P D} c.
Arguments placer_CurrentLayer {P D} c.
Arguments placer_IsPlacingVia {P D} c.
Arguments SplitAdjacentSegments {P D} c.
Arguments new_dragger {P D} c.
Arguments dragger_Start {P D} c.
Arguments dragger_Drag {P D} c.
Arguments dragger_FixRoute {P D} c.
Arguments dragger_Traces {P D} c.
Arguments dragger_CurrentNode {P D} c.
Arguments dragger_CurrentNets {P D} c.
Arguments dragger_CurrentLayer {P D} c.
Arguments m_state {P D} r.
Arguments m_mode {P D} r.
Arguments m_world {P D} r.
Arguments m_placer {P D} r.
Arguments m_dragger {P D} r.
Arguments m_iface {P D} r.
Arguments m_settings {P D} r.
Arguments m_sizes {P D} r.
Arguments m_logger {P D} r.
Arguments m_currentEnd {P D} r.
Arguments m_forceMarkObstaclesMode {P D} r.
Arguments m_failureReason {P D} r.
Arguments new_ROUTER {P D} sizes.
Arguments wellFormed {P D} r.
Arguments wired {P D} r.
Arguments RoutingInProgress {P D} r.
Arguments ClearWorld {P D} r.
Arguments SetMode {P D} r aMode.
Arguments SetInterface {P D} r aIface.
Arguments Log {P D} r e.
Arguments call {P D} r calls.
Arguments callEach {P D} r calls.
Arguments absorb {P D} r e.
Arguments set_state {P D} r s.
Arguments set_mode {P D} r m.
Arguments set_world {P D} r w.
Arguments set_placer {P D} r p.
Arguments set_dragger {P D} r d.
Arguments set_iface {P D} r i.
Arguments set_settings {P D} r s.
Arguments set_sizes {P D} r s.
Arguments set_logger {P D} r l.
Arguments set_currentEnd {P D} r p.
Arguments set_forceMarkObstaclesMode {P D} r b.
Arguments SetFailureReason {P D} r reason.
Arguments SyncWorld {P D} C r.
Arguments QueryHoverItems {P D} C r aP.
Arguments StartDragging {P D} C r aP aStartItems aDragMode.
Arguments StartDraggingItem {P D} C r aP aItem aDragMode.
Arguments isStartingPointRoutable {P D} C r aWhere aStartItem aLayer.
Arguments StartRouting {P D} C r aP aStartItem aLayer.
Arguments updateItem {P D} C aNode currentItem itemToMark.
Arguments markViolation {P D} C i.
Arguments markItem {P D} C aNode item.
Arguments markViolations {P D} C aNode aCurrent.
Arguments updateView {P D} C r aNode aCurrent aDragging.
Arguments shownViaClearance {P D} C via.
Arguments showTrace {P D} C item.
Arguments movePlacing {P D} C r aP aEndItem.
Arguments moveDragging {P D} C r aP aEndItem.
Arguments Move {P D} C r aP endItem.
Arguments UpdateSizes {P D} C r aSizes.
Arguments CommitRoutingNode {P D} C r aNode.
Arguments FixRoute {P D} C r aP aEndItem aForceFinish.
Arguments UndoLastSegment {P D} C r.
Arguments StopRouting {P D} C r.
Arguments CommitRouting {P D} C r.
Arguments FlipPosture {P D} C r.
Arguments SwitchLayer {P D} C r aLayer.
Arguments ToggleViaPlacement {P D} C r.
Arguments GetCurrentNets {P D} C r.
Arguments GetCurrentLayer {P D} C r.
Arguments IsPlacingVia {P D} C r.
Arguments ToggleRounded {P D} r.
Arguments SetOrthoMode {P D} C r aEnable.
Arguments BreakSegment {P D} C r aItem aP.
Arguments perform {P D} C c r.
Arguments session {P D} C calls r.
Arguments asTheToolsCall {P D} C c r.
Arguments usedAsTheToolsDo {P D} C calls r.
Arguments modifiedNets {P D} C r.

End PNS.

(** ** Tracks, vias and the hatch pattern

    [ZONE_FILLER::addHatchFillTypeOnZone], which [Filler] above takes as a
    collaborator, translated.  The getters of the hatch settings of a zone
    and the tracks of the board come with a second record of collaborators,
    as do the operations on [double]: a [double] is the rational it
    denotes, comparisons are exact, and products, quotients and [KiROUND]
    are left to the record, which says nothing about how they round.
    An [int] is an integer, as everywhere in this development: the sums
    and products are taken not to overflow.  The loops of the grid, which
    have no bound of their own, and the loop that deletes while it counts
    run on fuel. *)

Module Hatch.

(** [TRACK] and [VIA], by the getters the filler calls. *)
Record TRACK := {
  track_IsVia : bool;
  track_NetCode : Z;
  track_Layers : list PCB_LAYER_ID;
  track_PadLayers : list PCB_LAYER_ID;
  track_BoundingBox : BOX2I;
  track_Position : VECTOR2I;
  track_DrillValue : Z
}.

Definition track_IsOnLayer (t : TRACK) (l : PCB_LAYER_ID) : bool :=
  bool_decide (l ∈ track_Layers t).

Definition track_IsPadOnLayer (t : TRACK) (l : PCB_LAYER_ID) : bool :=
  bool_decide (l ∈ track_PadLayers t).

Record HATCH_COLLABORATORS := {
  (** [ZONE_CONTAINER] *)
  GetHatchThickness : ZONE_CONTAINER -> Z;
  GetHatchGap : ZONE_CONTAINER -> Z;
  GetHatchOrientation : ZONE_CONTAINER -> Q;
  GetHatchSmoothingLevel : ZONE_CONTAINER -> Z;
  GetHatchSmoothingValue : ZONE_CONTAINER -> Q;
  GetHatchHoleMinArea : ZONE_CONTAINER -> Q;
  GetHatchBorderAlgorithm : ZONE_CONTAINER -> Z;
  (** [BOARD::Tracks()] *)
  Tracks : BOARD -> list TRACK;
  (** arithmetic on [double], and the literal [1.1] *)
  double_mul : Q -> Q -> Q;
  double_div : Q -> Q -> Q;
  KiROUND : Q -> Z;
  double_1_1 : Q;
  (** [Millimeter2iu] of 0.01, 0.02 and 0.04 *)
  Millimeter2iu_0_01 : Z;
  Millimeter2iu_0_02 : Z;
  Millimeter2iu_0_04 : Z;
  ARC_HIGH_DEF : Z;
  (** [SHAPE_POLY_SET]: [Rotate( M_PI/180.0 * degrees, VECTOR2I( 0, 0 ) )],
      [BBox( 0 )], [Chamfer], [Fillet] *)
  RotateDegrees : SHAPE_POLY_SET -> Q -> SHAPE_POLY_SET;
  BBox : SHAPE_POLY_SET -> BOX2I;
  Chamfer : SHAPE_POLY_SET -> Z -> SHAPE_POLY_SET;
  Fillet : SHAPE_POLY_SET -> Z -> Z -> SHAPE_POLY_SET;
  TransformCircleToPolygon : SHAPE_POLY_SET -> VECTOR2I -> Z -> Z -> SHAPE_POLY_SET;
  track_TransformShapeWithClearanceToPolygon :
    TRACK -> SHAPE_POLY_SET -> Z -> Z -> SHAPE_POLY_SET
}.

Definition GetWidth (b : BOX2I) : Z := fst (box_size b).
Definition GetHeight (b : BOX2I) : Z := snd (box_size b).
Definition GetPosition (b : BOX2I) : VECTOR2I := box_pos b.

(** [SHAPE_POLY_SET::Move]: every outline and hole is moved. *)
Definition MovePolySet (s : SHAPE_POLY_SET) (v : VECTOR2I) : SHAPE_POLY_SET :=
  map (map (fun c => Move c v)) s.

Section WithCollaborators.

Variable E : COLLABORATORS.
Variable H : HATCH_COLLABORATORS.
Variable B : BOARD.

(** [std::max( GetHatchThickness(), GetMinThickness() + Millimeter2iu( 0.001 ) )] *)
Definition hatchThickness (aZone : ZONE_CONTAINER) : Z :=
  Z.max (GetHatchThickness H aZone) (GetMinThickness aZone + iu_0_001 E).

Definition hatchLineThickness (aZone : ZONE_CONTAINER) : Z :=
  hatchThickness aZone - GetMinThickness aZone.

Definition hatchGridSize (aZone : ZONE_CONTAINER) : Z :=
  hatchThickness aZone + GetHatchGap H aZone.

(** The square [hole_base] starts as. *)
Definition squareHole (hole_size : Z) : SHAPE_LINE_CHAIN :=
  [ (0, 0); (hole_size, 0); (hole_size, hole_size); (0, hole_size) ].

(** The smoothing of [hole_base]. *)
Definition smoothedHole (aZone : ZONE_CONTAINER) (hole_base : SHAPE_LINE_CHAIN)
  : SHAPE_LINE_CHAIN :=
  if GetHatchSmoothingLevel H aZone >? 0 then
    let smooth_value :=
      KiROUND H (double_div H (double_mul H (inject_Z (GetHatchGap H aZone))
                                            (GetHatchSmoothingValue H aZone))
                            2) in
    if smooth_value >? Millimeter2iu_0_02 H then
      let smooth_hole := AddOutline [] hole_base in
      let smooth_level := GetHatchSmoothingLevel H aZone in
      let smooth_level :=
        if (smooth_value <? Millimeter2iu_0_04 H) && (smooth_level >? 1)
        then 1 else smooth_level in
      let smooth_value := smooth_value + GetMinThickness aZone ÷ 2 in
      let smooth_value := Z.min smooth_value (GetHatchGap H aZone ÷ 2) in
      let error_max := Z.max (Millimeter2iu_0_01 H) (smooth_value ÷ 20) in
      if smooth_level =? 1 then Outline (Chamfer H smooth_hole smooth_value) 0
      else if smooth_level =? 0 then hole_base
      else
        let error_max :=
          if GetHatchSmoothingLevel H aZone >? 2 then error_max ÷ 2 else error_max in
        Outline (Fillet H smooth_hole smooth_value error_max) 0
    else hole_base
  else hole_base.

(** The inner loop of the grid, [for( int yy = 0; ; yy++ )], from [yy] on. *)
Fixpoint gridColumn (fuel : nat) (hole_base : SHAPE_LINE_CHAIN)
    (gridsize height xpos yy : Z) (holes : SHAPE_POLY_SET)
  : option SHAPE_POLY_SET :=
  match fuel with
  | O => None
  | S fuel' =>
    let ypos := yy * gridsize in
    if ypos >? height then Some holes
    else
      let hole := Move hole_base (xpos, ypos) in
      gridColumn fuel' hole_base gridsize height xpos (yy + 1)
                 (AddOutline holes hole)
  end.

(** The outer loop of the grid, [for( int xx = 0; ; xx++ )], from [xx] on;
    each turn of it gives the inner loop the fuel [inner]. *)
Fixpoint gridRows (fuel inner : nat) (hole_base : SHAPE_LINE_CHAIN)
    (gridsize width height xx : Z) (holes : SHAPE_POLY_SET)
  : option SHAPE_POLY_SET :=
  match fuel with
  | O => None
  | S fuel' =>
    let xpos := xx * gridsize in
    if xpos >? width then Some holes
    else
      holes ← gridColumn inner hole_base gridsize height xpos 0 holes;
      gridRows fuel' inner hole_base gridsize width height (xx + 1) holes
  end.

(** The loop that drops the holes that came out too small:
    [for( int ii = 0; ii < holes.OutlineCount(); )]. *)
Fixpoint dropSmallHoles (fuel : nat) (minimal_hole_area : Q) (ii : nat)
    (holes : SHAPE_POLY_SET) : option SHAPE_POLY_SET :=
  match fuel with
  | O => None
  | S fuel' =>
    if negb (ii <? OutlineCount holes)%nat then Some holes
    else
      let area := Area E (Outline holes ii) in
      if negb (Qle_bool minimal_hole_area area)
      then dropSmallHoles fuel' minimal_hole_area ii (DeletePolygon holes ii)
      else dropSmallHoles fuel' minimal_hole_area (S ii) holes
  end.

(** The radius of the apron of a via. *)
Definition viaApronRadius (aZone : ZONE_CONTAINER) (outline_margin : Z)
    (via : TRACK) : Z :=
  let min_apron_radius := (GetHatchGap H aZone * 10) ÷ 19 in
  Z.max min_apron_radius (track_DrillValue via ÷ 2 + outline_margin).

(** The clearance a pad is bulked up by for its apron. *)
Definition padApronClearance (aZone : ZONE_CONTAINER) (outline_margin : Z)
    (pad : D_PAD) : Z :=
  let min_apron_radius := (GetHatchGap H aZone * 10) ÷ 19 in
  let linethickness := hatchLineThickness aZone in
  let pad_width := Z.min (fst (pad_Size pad)) (snd (pad_Size pad)) in
  let slot_width := Z.min (fst (pad_DrillSize pad)) (snd (pad_DrillSize pad)) in
  let min_annulus := (pad_width - slot_width) ÷ 2 in
  let clearance :=
    Z.max (min_apron_radius - pad_width ÷ 2) (outline_margin - min_annulus) in
  Z.max 0 (clearance - linethickness ÷ 2).

(** [KiROUND( GetMinThickness() * 1.1 )], raised to the hatch thickness
    when the border algorithm is set. *)
Definition hatchOutlineMargin (aZone : ZONE_CONTAINER) : Z :=
  let outline_margin :=
    KiROUND H (double_mul H (inject_Z (GetMinThickness aZone)) (double_1_1 H)) in
  if negb (GetHatchBorderAlgorithm H aZone =? 0)
  then Z.max outline_margin (GetHatchThickness H aZone)
  else outline_margin.

(** The aprons of the vias and pads of the zone's net. *)
Definition hatchAprons (aZone : ZONE_CONTAINER) (aLayer : PCB_LAYER_ID)
    (outline_margin : Z) : SHAPE_POLY_SET :=
  let zone_boundingbox := GetBoundingBox aZone in
  let aprons :=
    foldl (fun aprons track =>
             if track_IsVia track
                && (track_NetCode track =? GetNetCode aZone)
                && track_IsOnLayer track aLayer
                && BoxIntersects E (track_BoundingBox track) zone_boundingbox
             then TransformCircleToPolygon H aprons (track_Position track)
                    (viaApronRadius aZone outline_margin track) (ARC_HIGH_DEF H)
             else aprons)
          [] (Tracks H B) in
  foldl (fun aprons pad =>
           if (pad_NetCode pad =? GetNetCode aZone)
              && pad_IsOnLayer pad aLayer
              && BoxIntersects E (pad_GetBoundingBox E pad) zone_boundingbox
           then pad_TransformShapeWithClearanceToPolygon E pad aprons
                  (padApronClearance aZone outline_margin pad) (ARC_HIGH_DEF H)
           else aprons)
        aprons (allPads B).

(** [ZONE_FILLER::addHatchFillTypeOnZone( aZone, aLayer, aRawPolys )]; the
    fuel is for the three loops. *)
Definition addHatchFillTypeOnZone (fuel : nat) (aZone : ZONE_CONTAINER)
    (aLayer : PCB_LAYER_ID) (aRawPolys : SHAPE_POLY_SET) : option SHAPE_POLY_SET :=
  let linethickness := hatchLineThickness aZone in
  let gridsize := hatchGridSize aZone in
  let orientation := GetHatchOrientation H aZone in
  let filledPolys := aRawPolys in
  let filledPolys :=
    if negb (Qeq_bool orientation 0) then RotateDegrees H filledPolys orientation
    else filledPolys in
  let bbox := BBox H filledPolys in
  let hole_size := GetHatchGap H aZone + GetMinThickness aZone in
  let hole_base := squareHole hole_size in
  let minimal_hole_area :=
    double_mul H (Area E hole_base) (GetHatchHoleMinArea H aZone) in
  let hole_base := smoothedHole aZone hole_base in
  holes ← gridRows fuel fuel hole_base gridsize (GetWidth bbox) (GetHeight bbox) 0 [];
  let holes := MovePolySet holes (GetPosition bbox) in
  let outline_margin := hatchOutlineMargin aZone in
  let filledPolys :=
    if outline_margin >? linethickness ÷ 2
    then Deflate E filledPolys (outline_margin - linethickness ÷ 2) 16
                 (DefaultCornerStrategy E)
    else filledPolys in
  let holes := BooleanIntersection E holes filledPolys PM_FAST in
  let holes :=
    if negb (Qeq_bool orientation 0) then RotateDegrees H holes (- orientation)
    else holes in
  let holes :=
    if negb (GetNetCode aZone =? 0)
    then BooleanSubtract E holes (hatchAprons aZone aLayer outline_margin) PM_FAST
    else holes in
  holes ← dropSmallHoles fuel minimal_hole_area 0 holes;
  Some (BooleanSubtract E aRawPolys holes PM_STRICTLY_SIMPLE).

End WithCollaborators.

(** The holes of the grid, column by column: for each [xx] of [columns]
    and each [yy] of [rows], [hole_base] moved to the grid point. *)
Definition gridHoles (hole_base : SHAPE_LINE_CHAIN) (gridsize : Z)
    (columns rows : nat) : SHAPE_POLY_SET :=
  flat_map (fun xx =>
              map (fun yy => [Move hole_base (Z.of_nat xx * gridsize,
                                              Z.of_nat yy * gridsize)])
                  (seq 0 rows))
           (seq 0 columns).

(** How many grid points [0, g, 2g, ...] do not exceed [extent]. *)
Definition gridCount (gridsize extent : Z) : nat :=
  if extent <? 0 then 0%nat else Z.to_nat (extent / gridsize + 1).

End Hatch.

(** ** Clearances of the copper items

    [ZONE_FILLER::buildCopperItemClearances] and the [addKnockout] of a
    graphic item, which [Filler] above takes as a collaborator, translated.
    Tracks and vias are those of [Hatch]; graphic items, the texts and
    graphics of a footprint and the zone list of the board come with a
    third record of collaborators.  The [static DRAWSEGMENT dummyEdge] of
    the function is set up and never read, and is left out. *)

Module Clearances.

Import Hatch.

Inductive KICAD_T :=
  | PCB_LINE_T | PCB_TEXT_T | PCB_MODULE_EDGE_T | PCB_MODULE_TEXT_T
  | PCB_OTHER_T.

(** A [BOARD_ITEM] handed to [doGraphicItem], by the getters it calls. *)
Record BOARD_ITEM := {
  item_Type : KICAD_T;
  item_Layers : list PCB_LAYER_ID;
  item_BoundingBox : BOX2I;
  item_IsVisible : bool
}.

Definition item_IsOnLayer (i : BOARD_ITEM) (l : PCB_LAYER_ID) : bool :=
  bool_decide (l ∈ item_Layers i).

Record CLEARANCE_COLLABORATORS := {
  Edge_Cuts : PCB_LAYER_ID;
  (** [Millimeter2iu( ADVANCED_CFG::GetCfg().m_extraClearance )] *)
  extra_margin : Z;
  (** [D_PAD::IsPadOnLayer] *)
  pad_IsPadOnLayer : D_PAD -> PCB_LAYER_ID -> bool;
  (** [MODULE] and [BOARD] *)
  Reference : MODULE -> BOARD_ITEM;
  Value : MODULE -> BOARD_ITEM;
  GraphicalItems : MODULE -> list BOARD_ITEM;
  Drawings : BOARD -> list BOARD_ITEM;
  (** [BOARD::GetZoneList( true )] *)
  GetZoneList : BOARD -> list ZONE_CONTAINER;
  (** [ZONE_CONTAINER]; [GetClearance( aLayer, item )] by the class of the
      item *)
  GetLocalClearance : ZONE_CONTAINER -> Z;
  GetPriority : ZONE_CONTAINER -> Z;
  GetDoNotAllowCopperPour : ZONE_CONTAINER -> bool;
  GetClearance_pad : ZONE_CONTAINER -> PCB_LAYER_ID -> D_PAD -> Z;
  GetClearance_track : ZONE_CONTAINER -> PCB_LAYER_ID -> TRACK -> Z;
  GetClearance_item : ZONE_CONTAINER -> PCB_LAYER_ID -> BOARD_ITEM -> Z;
  GetClearance_zone : ZONE_CONTAINER -> PCB_LAYER_ID -> ZONE_CONTAINER -> Z;
  TransformOutlinesShapeWithClearanceToPolygon :
    ZONE_CONTAINER -> SHAPE_POLY_SET -> Z -> SHAPE_POLY_SET;
  (** [DRAWSEGMENT] and [EDGE_MODULE]:
      [TransformShapeWithClearanceToPolygon( aHoles, aGap, error, ignoreLineWidth )] *)
  seg_TransformShapeWithClearanceToPolygon :
    BOARD_ITEM -> SHAPE_POLY_SET -> Z -> Z -> bool -> SHAPE_POLY_SET;
  edge_TransformShapeWithClearanceToPolygon :
    BOARD_ITEM -> SHAPE_POLY_SET -> Z -> Z -> bool -> SHAPE_POLY_SET;
  (** [TEXTE_PCB] and [TEXTE_MODULE] *)
  text_TransformBoundingBoxWithClearanceToPolygon :
    BOARD_ITEM -> SHAPE_POLY_SET -> Z -> SHAPE_POLY_SET;
  modtext_TransformBoundingBoxWithClearanceToPolygon :
    BOARD_ITEM -> SHAPE_POLY_SET -> Z -> SHAPE_POLY_SET
}.

#[global] Instance KICAD_T_eq_dec : EqDecision KICAD_T.
Proof. solve_decision. Defined.

Section WithCollaborators.

Variable E : COLLABORATORS.
Variable H : HATCH_COLLABORATORS.
Variable A : CLEARANCE_COLLABORATORS.
Variable B : BOARD.

(** [addKnockout( aItem, aGap, aIgnoreLineWidth, aHoles )] with the
    filler's current [m_high_def]. *)
Definition addKnockoutItem (hi : Z) (aItem : BOARD_ITEM) (aGap : Z)
    (aIgnoreLineWidth : bool) (aHoles : SHAPE_POLY_SET) : SHAPE_POLY_SET :=
  match item_Type aItem with
  | PCB_LINE_T =>
    seg_TransformShapeWithClearanceToPolygon A aItem aHoles aGap hi aIgnoreLineWidth
  | PCB_TEXT_T =>
    text_TransformBoundingBoxWithClearanceToPolygon A aItem aHoles aGap
  | PCB_MODULE_EDGE_T =>
    edge_TransformShapeWithClearanceToPolygon A aItem aHoles aGap hi aIgnoreLineWidth
  | PCB_MODULE_TEXT_T =>
    if item_IsVisible aItem
    then modtext_TransformBoundingBoxWithClearanceToPolygon A aItem aHoles aGap
    else aHoles
  | PCB_OTHER_T => aHoles
  end.

(** The zone's bounding box, inflated by the biggest clearance. *)
Definition inflatedBoundingBox (aZone : ZONE_CONTAINER) : BOX2I :=
  let zone_clearance := GetLocalClearance A aZone in
  let biggest_clearance := Z.max zone_clearance (BiggestClearanceValue B) in
  BoxInflate E (GetBoundingBox aZone) (biggest_clearance + extra_margin A).

(** The body of the pad loop; the state is the dummy pad and the holes
    gathered so far. *)
Definition clearPad (hi lo : Z) (aZone : ZONE_CONTAINER) (aLayer : PCB_LAYER_ID)
    (st : D_PAD * SHAPE_POLY_SET) (pad : D_PAD) : D_PAD * SHAPE_POLY_SET :=
  let '(dummypad, aHoles) := st in
  let zone_clearance := GetLocalClearance A aZone in
  let zone_boundingbox := inflatedBoundingBox aZone in
  if negb (pad_IsPadOnLayer A pad aLayer)
     && ((fst (pad_DrillSize pad) =? 0) && (snd (pad_DrillSize pad) =? 0))
  then st
  else
    let dummypad :=
      if negb (pad_IsPadOnLayer A pad aLayer)
      then setupDummyPadForHole pad dummypad else dummypad in
    let pad := if negb (pad_IsPadOnLayer A pad aLayer) then dummypad else pad in
    if negb (pad_NetCode pad =? GetNetCode aZone) || (pad_NetCode pad <=? 0)
       || bool_decide (GetPadConnection E aZone pad = ZC_NONE)
    then
      if BoxIntersects E (pad_GetBoundingBox E pad) zone_boundingbox then
        let gap :=
          if (pad_NetCode pad >? 0) && (pad_NetCode pad =? GetNetCode aZone)
          then Z.max zone_clearance (GetThermalReliefGap E aZone pad)
          else GetClearance_pad A aZone aLayer pad in
        (dummypad, addKnockout E hi lo pad gap aHoles)
      else (dummypad, aHoles)
    else (dummypad, aHoles).

(** The body of the track loop. *)
Definition clearTrack (lo : Z) (aZone : ZONE_CONTAINER) (aLayer : PCB_LAYER_ID)
    (aHoles : SHAPE_POLY_SET) (track : TRACK) : SHAPE_POLY_SET :=
  let zone_boundingbox := inflatedBoundingBox aZone in
  if negb (track_IsOnLayer track aLayer) then aHoles
  else if (track_NetCode track =? GetNetCode aZone)
          && negb (GetNetCode aZone =? 0) then aHoles
  else if BoxIntersects E (track_BoundingBox track) zone_boundingbox then
    let gap := GetClearance_track A aZone aLayer track + extra_margin A in
    if track_IsVia track then
      if negb (track_IsPadOnLayer track aLayer)
      then TransformCircleToPolygon H aHoles (track_Position track)
             ((track_DrillValue track + 1) ÷ 2 + gap) lo
      else track_TransformShapeWithClearanceToPolygon H track aHoles gap lo
    else track_TransformShapeWithClearanceToPolygon H track aHoles gap lo
  else aHoles.

(** The lambda [doGraphicItem]. *)
Definition doGraphicItem (hi : Z) (aZone : ZONE_CONTAINER) (aLayer : PCB_LAYER_ID)
    (aHoles : SHAPE_POLY_SET) (aItem : BOARD_ITEM) : SHAPE_POLY_SET :=
  let zone_boundingbox := inflatedBoundingBox aZone in
  if negb (item_IsOnLayer aItem aLayer) && negb (item_IsOnLayer aItem (Edge_Cuts A))
  then aHoles
  else if BoxIntersects E (item_BoundingBox aItem) zone_boundingbox then
    let ignoreLineWidth := item_IsOnLayer aItem (Edge_Cuts A) in
    let gap := GetClearance_item A aZone aLayer aItem in
    addKnockoutItem hi aItem gap ignoreLineWidth aHoles
  else aHoles.

(** The graphic items of a footprint, in the order the loop visits them. *)
Definition graphicsOf (module : MODULE) : list BOARD_ITEM :=
  Reference A module :: Value A module :: GraphicalItems A module.

(** The body of the zone loop. *)
Definition clearZone (aZone : ZONE_CONTAINER) (aLayer : PCB_LAYER_ID)
    (aHoles : SHAPE_POLY_SET) (zone : ZONE_CONTAINER) : SHAPE_POLY_SET :=
  let zone_boundingbox := inflatedBoundingBox aZone in
  if negb (bool_decide (aLayer ∈ GetLayerSet zone)) then aHoles
  else if negb (GetIsKeepout zone) && (GetPriority A zone <=? GetPriority A aZone)
  then aHoles
  else if GetIsKeepout zone && negb (GetDoNotAllowCopperPour A zone) then aHoles
  else
    let item_boundingbox := GetBoundingBox zone in
    if BoxIntersects E item_boundingbox zone_boundingbox then
      let gap :=
        if negb (GetIsKeepout zone) && negb (GetNetCode aZone =? GetNetCode zone)
        then GetClearance_zone A aZone aLayer zone else 0 in
      TransformOutlinesShapeWithClearanceToPolygon A zone aHoles gap
    else aHoles.

(** The holes as they are before the closing [Simplify]. *)
Definition gatherClearances (hi lo : Z) (aZone : ZONE_CONTAINER)
    (aLayer : PCB_LAYER_ID) (aHoles : SHAPE_POLY_SET) : SHAPE_POLY_SET :=
  let aHoles :=
    snd (foldl (clearPad hi lo aZone aLayer) (new_D_PAD E, aHoles) (allPads B)) in
  let aHoles := foldl (clearTrack lo aZone aLayer) aHoles (Tracks H B) in
  let aHoles :=
    foldl (doGraphicItem hi aZone aLayer) aHoles
          (concat (map graphicsOf (Modules B))) in
  let aHoles := foldl (doGraphicItem hi aZone aLayer) aHoles (Drawings A B) in
  foldl (clearZone aZone aLayer) aHoles (GetZoneList A B).

(** [ZONE_FILLER::buildCopperItemClearances( aZone, aLayer, aHoles )] with
    the filler's current [m_high_def] and [m_low_def]. *)
Definition buildCopperItemClearances (hi lo : Z) (aZone : ZONE_CONTAINER)
    (aLayer : PCB_LAYER_ID) (aHoles : SHAPE_POLY_SET) : SHAPE_POLY_SET :=
  Simplify E (gatherClearances hi lo aZone aLayer aHoles) PM_FAST.

(** A pad the zone is connected to: of the zone's net, which is not the
    null net, and with a connection other than [ZONE_CONNECTION::NONE]. *)
Definition padConnected (aZone : ZONE_CONTAINER) (pad : D_PAD) : bool :=
  (pad_NetCode pad =? GetNetCode aZone) && (0 <? pad_NetCode pad)
  && negb (bool_decide (GetPadConnection E aZone pad = ZC_NONE)).

(** A track or via of the zone's net, which is not the null net. *)
Definition trackConnected (aZone : ZONE_CONTAINER) (track : TRACK) : bool :=
  (track_NetCode track =? GetNetCode aZone) && negb (GetNetCode aZone =? 0).

(** A zone that takes nothing from [aZone]: a copper zone of the same or
    a lower priority, or a keepout that allows copper pours. *)
Definition zoneYields (aZone zone : ZONE_CONTAINER) : bool :=
  if GetIsKeepout zone then negb (GetDoNotAllowCopperPour A zone)
  else GetPriority A zone <=? GetPriority A aZone.

End WithCollaborators.

End Clearances.
(** ** Further boards and sessions *)

Module Examples2.

Import BoxKernel.

(** The copper zone of net 1 next to a silkscreen zone. *)
Definition copperAndSilk : ZONES :=
  {[ 1%nat := Examples.copperZone;
     3%nat := Examples.silkZone false Examples.square10mm ]}.

(** A copper zone of net 1 that gives up islands below 10 mm2. *)
Definition areaZone : ZONE_CONTAINER :=
  {| GetIsKeepout := false; GetLayerSet := [Examples.F_Cu]; GetNetCode := 1;
     IsOnCopperLayer := true; GetMinThickness := 250000;
     GetZoneClearance := 200000; GetCornerRadius := 0;
     GetFillMode := POLYGONS; GetIslandRemovalMode := IRM_AREA;
     GetMinIslandArea := 10000000000000; GetBoundingBox := Examples.square10mm;
     fill := Examples.notFilled |}.

(** A copper zone of net 1 that is a strip exactly as wide as its minimum
    thickness, 0.25 mm. *)
Definition copperStrip : ZONE_CONTAINER :=
  {| GetIsKeepout := false; GetLayerSet := [Examples.F_Cu]; GetNetCode := 1;
     IsOnCopperLayer := true; GetMinThickness := 250000;
     GetZoneClearance := 200000; GetCornerRadius := 0;
     GetFillMode := POLYGONS; GetIslandRemovalMode := IRM_ALWAYS;
     GetMinIslandArea := 0; GetBoundingBox := Examples.strip;
     fill := Examples.notFilled |}.

(** Three filled regions: 16 mm2, 1 mm2 and 16 mm2. *)
Definition threeRegions : SHAPE_POLY_SET :=
  [ [rect 0 0 4000000 4000000];
    [rect 5000000 0 6000000 1000000];
    [rect 5000000 5000000 9000000 9000000] ].

(** The filler once [Fill] has read the outline of the example board. *)
Definition fillerOnBoard : ZONE_FILLER :=
  with_outline new_ZONE_FILLER (BoardPolygonOutlines Examples.board).

(** *** A router session with stand-in algorithms

    The placer counts the moves it has seen; it places a line that ends
    with a via.  The dragger has no state. *)

Definition noEffect : PNS.EFFECT :=
  {| PNS.eff_world := fun w => w; PNS.eff_calls := []; PNS.eff_reason := None |}.

Definition pad : PNS.ITEM :=
  {| PNS.base := Examples.padOfNet5; PNS.Kind := PNS.SOLID_T; PNS.Marker := 0;
     PNS.Drill := 0; PNS.Diameter := 0 |}.

Definition via : PNS.ITEM :=
  {| PNS.base := {| Router.IsRoutable := true; Router.Layers := (0, 31);
                    Router.Net := 5; Router.Anchor0 := (3000000, 1000000) |};
     PNS.Kind := PNS.VIA_T; PNS.Marker := 0;
     PNS.Drill := 400000; PNS.Diameter := 600000 |}.

Definition lineItem : PNS.ITEM :=
  {| PNS.base := {| Router.IsRoutable := true; Router.Layers := (0, 0);
                    Router.Net := 5; Router.Anchor0 := (1000000, 1000000) |};
     PNS.Kind := PNS.LINE_T; PNS.Marker := 0;
     PNS.Drill := 0; PNS.Diameter := 0 |}.

Definition lineWithVia : PNS.TRACE :=
  {| PNS.trace_item := lineItem; PNS.EndsWithVia := true; PNS.Via := via;
     PNS.GetBlockingObstacle := None |}.

Definition sessionDouble : PNS.COLLABORATORS nat unit :=
  {| PNS.HitTest := fun node p =>
       List.filter (fun i => bool_decide (Router.Anchor0 (PNS.base i) = p)) node;
     PNS.CheckColliding := fun _ _ => false;
     PNS.QueryColliding := fun _ _ => [];
     PNS.QueryCollidingVia := fun _ _ => [];
     PNS.GetClearance := fun _ _ _ => 200000;
     PNS.GetHoleClearance := fun _ _ _ => 250000;
     PNS.GetUpdatedItems := fun node => ([], node);
     PNS.KillChildren := fun w => w;
     PNS.ClearRanks := fun w => w;
     PNS.NodeCommit := fun w node => w ++ node;
     PNS.Branch := fun _ => [];
     PNS.iface_SyncWorld := fun _ => [pad];
     PNS.Clearance := fun _ => 200000;
     PNS.HoleClearance := fun _ => 350000;
     PNS.MK_VIOLATION := 8;
     PNS.MK_HOLE := 32;
     PNS.DM_FREE_ANGLE := 8;
     PNS.new_placer := fun _ _ _ => 0%nat;
     PNS.placer_Start := fun p _ _ _ => (true, p, noEffect);
     PNS.placer_Move := fun p _ _ _ => (true, S p, noEffect);
     PNS.placer_FixRoute := fun p _ _ _ _ => (true, p, noEffect);
     PNS.placer_UnfixRoute := fun p _ => (true, p, noEffect);
     PNS.placer_CommitPlacement := fun p _ => (true, p, noEffect);
     PNS.placer_UpdateSizes := fun p _ => p;
     PNS.placer_SetLayer := fun p _ => (true, p);
     PNS.placer_FlipPosture := fun p => p;
     PNS.placer_ToggleVia := fun p _ => p;
     PNS.placer_SetOrthoMode := fun p _ => p;
     PNS.placer_Traces := fun _ => [lineWithVia];
     PNS.placer_CurrentNode := fun _ _ => Some [via];
     PNS.placer_HasPlacedAnything := fun p => negb (Nat.eqb p 0);
     PNS.placer_GetModifiedNets := fun _ => [5];
     PNS.placer_CurrentNets := fun _ => [5];
     PNS.placer_CurrentLayer := fun _ => 0;
     PNS.placer_IsPlacingVia := fun _ => true;
     PNS.SplitAdjacentSegments := fun node item _ => (true, node ++ [item]);
     PNS.new_dragger := fun _ _ _ => tt;
     PNS.dragger_Start := fun d _ _ _ => (true, d, noEffect);
     PNS.dragger_Drag := fun d _ _ => (true, d, noEffect);
     PNS.dragger_FixRoute := fun d _ => (true, d, noEffect);
     PNS.dragger_Traces := fun _ => [];
     PNS.dragger_CurrentNode := fun _ => None;
     PNS.dragger_CurrentNets := fun _ => [];
     PNS.dragger_CurrentLayer := fun _ => 0 |}.

(** A router with interface, settings and world, idle. *)
Definition readyRouter : PNS.ROUTER nat unit :=
  {| PNS.m_state := Router.IDLE; PNS.m_mode := Router.PNS_MODE_ROUTE_SINGLE;
     PNS.m_world := Some [pad]; PNS.m_placer := None; PNS.m_dragger := None;
     PNS.m_iface := Some [];
     PNS.m_settings :=
       Some {| PNS.CanViolateDRC := false; PNS.Mode := Router.RM_Shove;
               PNS.GetCornerMode := PNS.MITERED_45 |};
     PNS.m_sizes := {| PNS.TrackWidth := 250000; PNS.otherSizes := [] |};
     PNS.m_logger := Some []; PNS.m_currentEnd := (0, 0);
     PNS.m_forceMarkObstaclesMode := false; PNS.m_failureReason := ""%string |}.

(** The same router while it routes, after one move. *)
Definition routingRouter : PNS.ROUTER nat unit :=
  PNS.set_state (PNS.set_placer readyRouter (Some 1%nat)) Router.ROUTE_TRACK.

(** *** Stand-ins for the hatch pattern and the clearances

    [double] arithmetic is that of the rationals, rounded to the nearest
    integer by [KiROUND]; a polygon set is not rotated or smoothed; its
    bounding box is that of its first outline; a circle and a track are
    stood for by the square around them. *)

Definition firstBox (s : SHAPE_POLY_SET) : BOX2I :=
  match chainBox (Outline s 0) with
  | Some (x0, y0, x1, y1) => {| box_pos := (x0, y0); box_size := (x1 - x0, y1 - y0) |}
  | None => {| box_pos := (0, 0); box_size := (0, 0) |}
  end.

Definition hatchDouble (thickness gap : Z) (tracks : list Hatch.TRACK)
  : Hatch.HATCH_COLLABORATORS :=
  {| Hatch.GetHatchThickness := fun _ => thickness;
     Hatch.GetHatchGap := fun _ => gap;
     Hatch.GetHatchOrientation := fun _ => 0%Q;
     Hatch.GetHatchSmoothingLevel := fun _ => 0;
     Hatch.GetHatchSmoothingValue := fun _ => 0%Q;
     Hatch.GetHatchHoleMinArea := fun _ => (3 # 10)%Q;
     Hatch.GetHatchBorderAlgorithm := fun _ => 1;
     Hatch.Tracks := fun _ => tracks;
     Hatch.double_mul := Qmult;
     Hatch.double_div := Qdiv;
     Hatch.KiROUND := fun q =>
       let r := (q + (1 # 2))%Q in Qnum r / Z.pos (Qden r);
     Hatch.double_1_1 := (11 # 10)%Q;
     Hatch.Millimeter2iu_0_01 := 10000;
     Hatch.Millimeter2iu_0_02 := 20000;
     Hatch.Millimeter2iu_0_04 := 40000;
     Hatch.ARC_HIGH_DEF := 5000;
     Hatch.RotateDegrees := fun s _ => s;
     Hatch.BBox := firstBox;
     Hatch.Chamfer := fun s _ => s;
     Hatch.Fillet := fun s _ _ => s;
     Hatch.TransformCircleToPolygon := fun s c r _ =>
       s ++ [[rect (fst c - r) (snd c - r) (fst c + r) (snd c + r)]];
     Hatch.track_TransformShapeWithClearanceToPolygon := fun t s gap _ =>
       let b := Hatch.track_BoundingBox t in
       s ++ [[rect (GetLeft b - gap) (GetTop b - gap)
                   (GetRight b + gap) (GetBottom b + gap)]] |}.

(** A zone of net 1 filled with a hatch pattern. *)
Definition hatchedZone : ZONE_CONTAINER :=
  {| GetIsKeepout := false; GetLayerSet := [Examples.F_Cu]; GetNetCode := 1;
     IsOnCopperLayer := true; GetMinThickness := 250000;
     GetZoneClearance := 200000; GetCornerRadius := 0;
     GetFillMode := HATCH_PATTERN; GetIslandRemovalMode := IRM_ALWAYS;
     GetMinIslandArea := 0; GetBoundingBox := Examples.square10mm;
     fill := Examples.notFilled |}.

(** A raw fill of 4 mm by 4 mm. *)
Definition rawSquare : SHAPE_POLY_SET := [ [rect 0 0 4000000 4000000] ].

(** A footprint carries no text or graphics of its own, the board one
    line on the edge layer, and the zone list the zones handed over;
    every pad is flashed on the layers it is on. *)
Definition Edge : PCB_LAYER_ID := 44%nat.

Definition noGraphic : Clearances.BOARD_ITEM :=
  {| Clearances.item_Type := Clearances.PCB_OTHER_T;
     Clearances.item_Layers := [];
     Clearances.item_BoundingBox := {| box_pos := (0, 0); box_size := (0, 0) |};
     Clearances.item_IsVisible := false |}.

Definition edgeLine : Clearances.BOARD_ITEM :=
  {| Clearances.item_Type := Clearances.PCB_LINE_T;
     Clearances.item_Layers := [Edge];
     Clearances.item_BoundingBox :=
       {| box_pos := (0, 0); box_size := (20000000, 0) |};
     Clearances.item_IsVisible := true |}.

Definition boxOutline (b : BOX2I) (gap : Z) : POLYGON :=
  [rect (GetLeft b - gap) (GetTop b - gap) (GetRight b + gap) (GetBottom b + gap)].

Definition clearanceDouble (zoneList : list ZONE_CONTAINER)
  : Clearances.CLEARANCE_COLLABORATORS :=
  {| Clearances.Edge_Cuts := Edge;
     Clearances.extra_margin := 2000;
     Clearances.pad_IsPadOnLayer := pad_IsOnLayer;
     Clearances.Reference := fun _ => noGraphic;
     Clearances.Value := fun _ => noGraphic;
     Clearances.GraphicalItems := fun _ => [];
     Clearances.Drawings := fun _ => [edgeLine];
     Clearances.GetZoneList := fun _ => zoneList;
     Clearances.GetLocalClearance := GetZoneClearance;
     Clearances.GetPriority := fun _ => 0;
     Clearances.GetDoNotAllowCopperPour := fun _ => true;
     Clearances.GetClearance_pad := fun z _ _ => GetZoneClearance z;
     Clearances.GetClearance_track := fun z _ _ => GetZoneClearance z;
     Clearances.GetClearance_item := fun z _ _ => GetZoneClearance z;
     Clearances.GetClearance_zone := fun z _ _ => GetZoneClearance z;
     Clearances.TransformOutlinesShapeWithClearanceToPolygon := fun z s gap =>
       s ++ [boxOutline (GetBoundingBox z) gap];
     Clearances.seg_TransformShapeWithClearanceToPolygon := fun i s gap _ _ =>
       s ++ [boxOutline (Clearances.item_BoundingBox i) gap];
     Clearances.edge_TransformShapeWithClearanceToPolygon := fun i s gap _ _ =>
       s ++ [boxOutline (Clearances.item_BoundingBox i) gap];
     Clearances.text_TransformBoundingBoxWithClearanceToPolygon := fun i s gap =>
       s ++ [boxOutline (Clearances.item_BoundingBox i) gap];
     Clearances.modtext_TransformBoundingBoxWithClearanceToPolygon := fun i s gap =>
       s ++ [boxOutline (Clearances.item_BoundingBox i) gap] |}.

(** A surface-mount pad of net 2, foreign to the zones of net 1. *)
Definition foreignPad : D_PAD :=
  {| pad_NetCode := 2; pad_Size := (1000000, 1000000); pad_DrillSize := (0, 0);
     pad_Orientation := 0; pad_Shape := PAD_SHAPE_RECT;
     pad_DrillShape := PAD_DRILL_SHAPE_CIRCLE; pad_Position := (2000000, 2000000);
     pad_Attribute := PAD_ATTRIB_SMD; pad_Layers := [Examples.F_Cu];
     pad_CustomShapeInZoneOpt := CUST_PAD_SHAPE_IN_ZONE_OUTLINE;
     pad_RoundRectRadiusRatio := 0%Q |}.

End Examples2.

(** * Properties of [ZONE_FILLER::Fill] *)

Section FillFrame.

Variable E : COLLABORATORS.
Variable B : BOARD.

Lemma onlyTouches_refl ids (zs : ZONES) : onlyTouches ids zs zs.
Proof. by intros id _. Qed.

Lemma onlyTouches_trans ids (zs1 zs2 zs3 : ZONES) :
  onlyTouches ids zs1 zs2 -> onlyTouches ids zs2 zs3 -> onlyTouches ids zs1 zs3.
Proof. intros H12 H23 id Hid. rewrite H23, H12; auto. Qed.

Lemma onlyTouches_mono ids ids' (zs zs' : ZONES) :
  ids ⊆ ids' -> onlyTouches ids zs zs' -> onlyTouches ids' zs zs'.
Proof. intros Hsub H id Hid. apply H. intros Hin. apply Hid, Hsub, Hin. Qed.

Lemma onlyTouches_insert ids id z (zs : ZONES) :
  id ∈ ids -> onlyTouches ids zs (<[id := z]> zs).
Proof.
  intros Hin id' Hid'. apply lookup_insert_ne. intros ->. by apply Hid'.
Qed.

Lemma onlyTouches_alter ids id f (zs : ZONES) :
  id ∈ ids -> onlyTouches ids zs (alter f id zs).
Proof.
  intros Hin id' Hid'. apply lookup_alter_ne. intros ->. by apply Hid'.
Qed.

(** Reverting forgets every change made to a zone the commit holds. *)
Lemma Revert_onlyTouches ids (zs zs' staged : ZONES) :
  onlyTouches ids zs zs' -> covered staged ids ->
  Revert zs' staged = Revert zs staged.
Proof.
  intros Htouch Hcov. apply map_eq. intros id. unfold Revert.
  rewrite !lookup_union.
  destruct (decide (id ∈ ids)) as [Hin | Hout].
  - destruct (Hcov id Hin) as [z ->]. by rewrite !union_Some_l.
  - by rewrite (Htouch id Hout).
Qed.

(** [Modify] alone changes nothing that [Revert] would give back. *)
Lemma Revert_Modify id (zs staged : ZONES) :
  Revert zs (Modify id zs staged) = Revert zs staged.
Proof.
  unfold Modify, Revert.
  destruct (staged !! id) as [z |] eqn:Hst; [done |].
  destruct (zs !! id) as [z |] eqn:Hzs; [| done].
  apply map_eq. intros id'. rewrite !lookup_union.
  destruct (decide (id = id')) as [<- | Hne].
  - rewrite lookup_insert_eq, Hst, Hzs. done.
  - by rewrite lookup_insert_ne.
Qed.

Lemma Modify_covers id z (zs staged : ZONES) :
  zs !! id = Some z -> is_Some (Modify id zs staged !! id).
Proof.
  intros Hz. unfold Modify.
  destruct (staged !! id) as [c |] eqn:Hst; [by rewrite Hst |].
  rewrite Hz, lookup_insert_eq. eauto.
Qed.

Lemma Modify_keeps id id' (zs staged : ZONES) :
  is_Some (staged !! id') -> is_Some (Modify id zs staged !! id').
Proof.
  intros Hsome. unfold Modify.
  destruct (staged !! id) as [c |] eqn:Hst; [done |].
  destruct (zs !! id); [| done].
  destruct (decide (id = id')) as [<- | Hne].
  - rewrite lookup_insert_eq. eauto.
  - by rewrite lookup_insert_ne.
Qed.

Lemma Modify_other id id' (zs staged : ZONES) :
  id ≠ id' -> Modify id zs staged !! id' = staged !! id'.
Proof.
  intros Hne. unfold Modify.
  destruct (staged !! id); [done |].
  destruct (zs !! id); [| done].
  by rewrite lookup_insert_ne.
Qed.

End FillFrame.

Section FillPhases.

Variable E : COLLABORATORS.
Variable B : BOARD.

Lemma elem_of_map_m_zone_app (il : list CN_ZONE_ISOLATED_ISLAND_LIST) zone isl id :
  id ∈ map m_zone (il ++ [ {| m_zone := zone; m_islands := isl |} ]) <->
  id ∈ map m_zone il \/ id = zone.
Proof.
  rewrite map_app, elem_of_app. simpl. rewrite list_elem_of_singleton. tauto.
Qed.

Lemma collectZone_collected zs0 staged0 st zone :
  collected zs0 staged0 st -> collected zs0 staged0 (collectZone E st zone).
Proof.
  destruct st as [[[zs staged] toFill] islandsList].
  intros (Htouch & Hcov & Hframe & Hrev & Hitems & Hzones).
  unfold collectZone.
  destruct (zs !! zone) as [z |] eqn:Hz; [| by repeat split].
  destruct (GetIsKeepout z) eqn:Hkeep; [by repeat split |].
  unfold collected.
  repeat split.
  - intros id Hid. rewrite elem_of_map_m_zone_app in Hid.
    rewrite lookup_insert_ne by (intros ->; tauto).
    apply Htouch. tauto.
  - intros id Hid. rewrite elem_of_map_m_zone_app in Hid.
    destruct Hid as [Hid | ->].
    + apply Modify_keeps, Hcov, Hid.
    + eapply Modify_covers, Hz.
  - intros id Hid. rewrite elem_of_map_m_zone_app in Hid.
    rewrite Modify_other by (intros ->; tauto).
    apply Hframe. tauto.
  - rewrite <- Hrev, <- (Revert_Modify zone zs staged).
    apply (Revert_onlyTouches [zone]).
    + apply onlyTouches_insert. set_solver.
    + intros id Hid. apply list_elem_of_singleton in Hid as ->.
      eapply Modify_covers, Hz.
  - intros id Hid. rewrite elem_of_map_m_zone_app.
    rewrite map_app, elem_of_app in Hid. destruct Hid as [Hid | Hid].
    + left. by apply Hitems.
    + right. rewrite map_map in Hid. simpl in Hid.
      apply list_elem_of_In, in_map_iff in Hid. by destruct Hid as (? & <- & _).
  - intros id Hid. rewrite elem_of_map_m_zone_app in Hid.
    destruct (decide (id ∈ map m_zone islandsList)) as [Hin | Hout];
      [by apply Hzones |].
    destruct Hid as [Hid | ->]; [done |].
    exists z. split; [| done]. by rewrite <- (Htouch zone Hout).
Qed.

Lemma collect_collected zs0 staged0 aZones st :
  collected zs0 staged0 st ->
  collected zs0 staged0 (foldl (collectZone E) st aZones).
Proof.
  revert st. induction aZones as [| zone aZones IH]; intros st Hst; [done |].
  simpl. apply IH, collectZone_collected, Hst.
Qed.

Lemma collected_start zs0 staged0 : collected zs0 staged0 (zs0, staged0, [], []).
Proof.
  repeat split; try done; intros id Hid; by apply elem_of_nil in Hid.
Qed.

(** A worker of the fill phase changes only zones of the items it is given,
    and gives back some of those items. *)
Lemma fill_lambda_touches fp items F zs :
  let r := fill_lambda E B fp items (F, zs) in
  onlyTouches (map fst items) zs (snd (snd r))
  /\ (forall x, x ∈ fst r -> x ∈ items).
Proof.
  revert F zs. induction items as [| [zone layer] rest IH]; intros F zs; simpl.
  - split; [apply onlyTouches_refl | done].
  - assert (Hhere : zone ∈ zone :: map fst rest) by (apply elem_of_cons; by left).
    assert (Hsub : map fst rest ⊆ zone :: map fst rest)
      by (by apply list_subseteq_cons).
    destruct (zs !! zone) as [z |] eqn:Hz.
    + destruct (fillSingleZone E B F (SetFilledPolysUseThickness z fp) layer [] [])
        as [[[[ok F1] z1] raw] final].
      destruct (cancelled (m_progressReporter F1)) as [c r].
      destruct c; simpl.
      * split; [by apply onlyTouches_insert |].
        intros x Hx. apply elem_of_cons. by right.
      * match goal with
        | |- context [fill_lambda E B fp rest (?F', ?zs')] =>
          destruct (IH F' zs') as [IH1 IH2]
        end.
        split.
        -- eapply onlyTouches_trans; [by apply onlyTouches_insert |].
           eapply onlyTouches_mono; [apply Hsub | apply IH1].
        -- intros x Hx. apply elem_of_cons. right. by apply IH2.
    + destruct (IH F zs) as [IH1 IH2]. split.
      * eapply onlyTouches_mono; [apply Hsub | apply IH1].
      * intros x Hx. apply elem_of_cons. right. by apply IH2.
Qed.

Lemma tri_lambda_touches items F zs :
  let r := tri_lambda items (F, zs) in
  onlyTouches (map m_zone items) zs (snd (snd r))
  /\ (forall x, x ∈ fst r -> x ∈ items).
Proof.
  revert F zs. induction items as [| il rest IH]; intros F zs; simpl.
  - split; [apply onlyTouches_refl | done].
  - assert (Hhere : m_zone il ∈ m_zone il :: map m_zone rest)
      by (apply elem_of_cons; by left).
    assert (Hsub : map m_zone rest ⊆ m_zone il :: map m_zone rest)
      by (by apply list_subseteq_cons).
    destruct (cancelled (m_progressReporter F)) as [c r].
    destruct c; simpl.
    + split; [by apply onlyTouches_alter |].
      intros x Hx. apply elem_of_cons. by right.
    + match goal with
      | |- context [tri_lambda rest (?F', ?zs')] =>
        destruct (IH F' zs') as [IH1 IH2]
      end.
      split.
      * eapply onlyTouches_trans; [by apply onlyTouches_alter |].
        eapply onlyTouches_mono; [apply Hsub | apply IH1].
      * intros x Hx. apply elem_of_cons. right. by apply IH2.
Qed.

Lemma elem_of_map_mono {A} (f : A -> nat) (l l' : list A) :
  (forall x, x ∈ l -> x ∈ l') -> map f l ⊆ map f l'.
Proof.
  intros Hsub y Hy. apply list_elem_of_In, in_map_iff in Hy.
  destruct Hy as (x & <- & Hx). apply list_elem_of_In, in_map.
  apply list_elem_of_In, Hsub, list_elem_of_In, Hx.
Qed.

(** The workers of a phase, one after the other. *)
Lemma runWorkers_touches {A} (ids : A -> nat)
    (worker : list A -> ZONE_FILLER * ZONES -> list A * (ZONE_FILLER * ZONES)) :
  (forall items F zs,
      let r := worker items (F, zs) in
      onlyTouches (map ids items) zs (snd (snd r))
      /\ (forall x, x ∈ fst r -> x ∈ items)) ->
  forall runs items F zs,
    onlyTouches (map ids items) zs (snd (runWorkers worker runs items (F, zs))).
Proof.
  intros Hworker. induction runs as [| runs IH]; intros items F zs; simpl.
  - apply onlyTouches_refl.
  - destruct (Hworker items F zs) as [H1 H2].
    destruct (worker items (F, zs)) as [items' [F' zs']]. simpl in *.
    eapply onlyTouches_trans; [apply H1 |].
    eapply onlyTouches_mono; [| apply IH]. by apply elem_of_map_mono.
Qed.

End FillPhases.

Section FillWhole.

Variable E : COLLABORATORS.
Variable B : BOARD.

Lemma forEach_state {A S : Type} (R : S -> S -> Prop) (body : S -> A -> flow S)
    (l : list A) :
  (forall s, R s s) -> (forall s1 s2 s3, R s1 s2 -> R s2 s3 -> R s1 s3) ->
  (forall s a, a ∈ l -> R s (flowState (body s a))) ->
  forall s, R s (flowState (forEach body l s)).
Proof.
  intros Hrefl Htrans. induction l as [| a l IH]; intros Hbody s; simpl.
  - apply Hrefl.
  - assert (Ha : R s (flowState (body s a)))
      by (apply Hbody, elem_of_cons; by left).
    destruct (body s a) as [s' | o s']; simpl in *; [| done].
    eapply Htrans; [apply Ha |]. apply IH.
    intros s0 a0 Ha0. apply Hbody, elem_of_cons. by right.
Qed.

Lemma postLayer_touches ids aCheck il st layer :
  m_zone il ∈ ids ->
  onlyTouches ids (snd (fst st))
              (snd (fst (flowState (postLayer E aCheck il st layer)))).
Proof.
  intros Hin. destruct st as [[F zs] outOfDate]. unfold postLayer.
  destruct (m_islands il !! layer) as [islands |]; [| apply onlyTouches_refl].
  destruct (zs !! m_zone il) as [z |]; [| apply onlyTouches_refl].
  destruct (m_FilledPolysList (fill z) !! layer) as [poly |];
    [| apply onlyTouches_refl].
  destruct (pruneLayer E F layer islands z poly) as [z' poly'].
  destruct (cancelled (m_progressReporter F)) as [c r].
  destruct c; simpl; by apply onlyTouches_insert.
Qed.

Lemma postZone_touches ids aCheck st il :
  m_zone il ∈ ids ->
  onlyTouches ids (snd (fst st))
              (snd (fst (flowState (postZone E aCheck st il)))).
Proof.
  intros Hin. unfold postZone. destruct st as [[F zs] outOfDate].
  destruct (zs !! m_zone il) as [z |]; [| apply onlyTouches_refl].
  apply (forEach_state
           (fun s s' => onlyTouches ids (snd (fst s)) (snd (fst s')))).
  - intros s. apply onlyTouches_refl.
  - intros s1 s2 s3. apply onlyTouches_trans.
  - intros s layer _. by apply postLayer_touches.
Qed.

Lemma postProcessing_touches aCheck islandsList st :
  onlyTouches (map m_zone islandsList) (snd (fst st))
              (snd (fst (flowState (forEach (postZone E aCheck) islandsList st)))).
Proof.
  apply (forEach_state
           (fun s s' => onlyTouches (map m_zone islandsList)
                                    (snd (fst s)) (snd (fst s')))).
  - intros s. apply onlyTouches_refl.
  - intros s1 s2 s3. apply onlyTouches_trans.
  - intros s il Hil. apply postZone_touches.
    apply list_elem_of_In, in_map, list_elem_of_In, Hil.
Qed.

Lemma map_m_zone_imap (f : nat -> gmap PCB_LAYER_ID (list nat))
    (l : list CN_ZONE_ISOLATED_ISLAND_LIST) :
  map m_zone (imap (fun i il => {| m_zone := m_zone il; m_islands := f i |}) l)
  = map m_zone l.
Proof.
  revert f. induction l as [| il l IH]; intros f; [done |].
  simpl. f_equal. apply (IH (f ∘ S)).
Qed.

End FillWhole.

Section FillResult.

Variable E : COLLABORATORS.
Variable B : BOARD.

(** Whatever [Fill] returns, it has changed only zones that are no keepouts
    and that its commit holds a copy of, and reverting the commit gives the
    zones it started from. *)
Lemma Fill_frame lockFree F zs staged aZones aCheck :
  let r := Fill E B lockFree F zs staged aZones aCheck in
  exists ids,
    onlyTouches ids zs (zonesOf r)
    /\ covered (commitOf r) ids
    /\ (forall id, id ∉ ids -> commitOf r !! id = staged !! id)
    /\ Revert (zonesOf r) (commitOf r) = Revert zs staged
    /\ (forall id, id ∈ ids -> exists z, zs !! id = Some z /\ GetIsKeepout z = false).
Proof.
  unfold Fill. destruct lockFree; simpl.
  2:{ exists []. repeat split; try done; intros id Hid; by apply elem_of_nil in Hid. }
  pose proof (collect_collected E zs staged aZones _ (collected_start zs staged)) as Hc.
  destruct (foldl (collectZone E) (zs, staged, [], []) aZones)
    as [[[zs1 staged1] toFill] il].
  destruct Hc as (Htouch & Hcov & Hframe & Hrev & Hitems & Hzones).
  exists (map m_zone il).
  assert (Hall : forall zs', onlyTouches (map m_zone il) zs1 zs' ->
     onlyTouches (map m_zone il) zs zs' /\ covered staged1 (map m_zone il)
     /\ (forall id, id ∉ map m_zone il -> staged1 !! id = staged !! id)
     /\ Revert zs' staged1 = Revert zs staged
     /\ (forall id, id ∈ map m_zone il ->
                    exists z, zs !! id = Some z /\ GetIsKeepout z = false)).
  { intros zs' Hzs'. repeat split; try done.
    - eapply onlyTouches_trans; eauto.
    - rewrite <- Hrev. eapply Revert_onlyTouches; eauto. }
  pose proof (runWorkers_touches fst (fill_lambda E B (negb (m_ZoneUseNoOutlineInFill B)))
               (fill_lambda_touches E B _)
               (workerRuns (parallelThreadCount (hardware_concurrency E) aZones))
               toFill (with_outline F (BoardPolygonOutlines B)) zs1) as Hfill.
  destruct (runWorkers _ _ toFill _) as [F2 zs2]. simpl in Hfill.
  assert (Hfill' : onlyTouches (map m_zone il) zs1 zs2).
  { eapply onlyTouches_mono; [| apply Hfill]. intros id. apply Hitems. }
  destruct (cancelled (m_progressReporter F2)) as [c r].
  destruct c; [by apply Hall |]. simpl.
  destruct (cancelled r) as [c' r'].
  destruct c'; [by apply Hall |].
  match goal with
  | |- context [forEach (postZone E aCheck) ?l ?st] =>
    pose proof (postProcessing_touches E aCheck l st) as Hpost;
    destruct (forEach (postZone E aCheck) l st) as [[[F3 zs3] ood] | o [[F3 zs3] ood]]
  end; simpl in Hpost; rewrite map_m_zone_imap in Hpost.
  2:{ apply Hall. eapply onlyTouches_trans; eauto. }
  assert (Hpost' : onlyTouches (map m_zone il) zs1 zs3)
    by (eapply onlyTouches_trans; eauto).
  destruct (if aCheck && ood then _ else _) as [o |]; [by apply Hall |].
  match goal with
  | |- context [runWorkers tri_lambda ?n ?l (F3, zs3)] =>
    pose proof (runWorkers_touches m_zone tri_lambda tri_lambda_touches n l F3 zs3)
      as Htri;
    destruct (runWorkers tri_lambda n l (F3, zs3)) as [F4 zs4]
  end; simpl in Htri; rewrite map_m_zone_imap in Htri.
  assert (Htri' : onlyTouches (map m_zone il) zs1 zs4)
    by (eapply onlyTouches_trans; eauto).
  destruct (cancelled (m_progressReporter F4)) as [c4 r4].
  destruct c4; by apply Hall.
Qed.

Lemma Revert_empty (zs : ZONES) : Revert zs ∅ = zs.
Proof. unfold Revert. apply (left_id_L ∅ (∪)). Qed.

End FillResult.

(** C1.  When [Fill] returns false, nothing it computed is committed and
    everything it changed can be taken back: started on an empty commit (as
    the tool starts it), [Fill] has put a copy of the zone as it was into
    the commit before it changed the zone, so reverting the commit gives
    every zone its previous state, over the whole zone set; and the tool
    function [ZoneFill], which reverts when [Fill] fails, ends with the
    zones it began with and has pushed nothing. *)
Theorem Fill_failure_is_revertible :
  forall (E : COLLABORATORS) (B : BOARD) (lockFree : bool) (F : ZONE_FILLER)
         (zs : ZONES) (aZones : list nat) (aCheck : bool),
    let r := Fill E B lockFree F zs ∅ aZones aCheck in
    outcomeOf r = Returns false ->
    Revert (zonesOf r) (commitOf r) = zs
    /\ (forall id, zonesOf r !! id <> zs !! id -> commitOf r !! id = zs !! id)
    /\ (forall script pushes,
           fst (fst (ZoneFill E B lockFree script zs pushes aZones)) = Returns false ->
           ZoneFill E B lockFree script zs pushes aZones = (Returns false, zs, pushes)).
Proof.
  intros E B lockFree F zs aZones aCheck r Hfalse.
  assert (Hrev : forall F' aCheck',
             let r' := Fill E B lockFree F' zs ∅ aZones aCheck' in
             Revert (zonesOf r') (commitOf r') = zs).
  { intros F' aCheck' r'.
    destruct (Fill_frame E B lockFree F' zs ∅ aZones aCheck')
      as (ids & _ & _ & _ & Hrev & _).
    fold r' in Hrev. by rewrite Hrev, Revert_empty. }
  split; [apply Hrev | split].
  - intros id Hchanged.
    pose proof (Hrev F aCheck) as Heq. fold r in Heq.
    apply (f_equal (fun m => m !! id)) in Heq.
    unfold Revert in Heq. rewrite lookup_union in Heq.
    destruct (commitOf r !! id) as [c |] eqn:Hc.
    + rewrite <- Heq. by destruct (zonesOf r !! id).
    + rewrite (left_id_L None _) in Heq. done.
  - intros script pushes. unfold ZoneFill.
    pose proof (Hrev (with_reporter new_ZONE_FILLER
                       (Some {| cancelScript := script; polls := 0 |})) false) as Heq.
    simpl in Heq. unfold zonesOf, commitOf in Heq.
    destruct (Fill E B lockFree _ zs ∅ aZones false) as [[[o F'] zs'] staged'].
    simpl in Heq.
    destruct o as [[|] |]; simpl; intros Ho; try discriminate.
    by rewrite Heq.
Qed.

(** A fill of the copper zone that the user cancels during the triangulation (at the fifteenth poll):
    [Fill] returns false, the zone has lost its earlier fill, and reverting
    brings it back. *)
Lemma Fill_failure_is_revertible_witness :
  let r := Fill Examples.K Examples.board true (Examples.fillerCancelledAfter 14)
                Examples.zones ∅ [1%nat] false in
  outcomeOf r = Returns false
  /\ zonesOf r !! 1%nat <> Examples.zones !! 1%nat
  /\ Revert (zonesOf r) (commitOf r) = Examples.zones.
Proof.
  intros r.
  assert (Hfalse : outcomeOf r = Returns false) by (vm_compute; reflexivity).
  split; [exact Hfalse | split].
  - vm_compute. intros Heq. discriminate Heq.
  - exact (proj1 (Fill_failure_is_revertible
                    Examples.K Examples.board true
                    (Examples.fillerCancelledAfter 14)
                    Examples.zones [1%nat] false Hfalse)).
Defined.

(** C3.  [Fill] tries the connectivity lock without waiting for it; when
    the lock is not to be had it returns false at once: the filler, the
    zones and the commit are as they were, nothing was polled, and the tool
    function [ZoneFill] leaves the zones as they were and pushes nothing. *)
Theorem Fill_returns_at_once_without_the_lock :
  forall (E : COLLABORATORS) (B : BOARD) (F : ZONE_FILLER) (zs staged : ZONES)
         (aZones : list nat) (aCheck : bool) (script : nat -> bool)
         (pushes : list (string * bool)),
    Fill E B false F zs staged aZones aCheck = (Returns false, F, zs, staged)
    /\ ZoneFill E B false script zs pushes aZones = (Returns false, zs, pushes).
Proof.
  intros. split; [reflexivity |].
  unfold ZoneFill. simpl. by rewrite Revert_empty.
Qed.

(** C10.  A zone whose keepout flag is set is never changed by [Fill]: it
    is on neither the work list nor the island list, the commit is not told
    of it, and the zone (its hash, its fill, its flags) is the same when
    [Fill] returns, whatever [Fill] returns. *)
Theorem Fill_leaves_keepout_zones_alone :
  forall (E : COLLABORATORS) (B : BOARD) (lockFree : bool) (F : ZONE_FILLER)
         (zs staged : ZONES) (aZones : list nat) (aCheck : bool)
         (id : nat) (z : ZONE_CONTAINER),
    zs !! id = Some z ->
    GetIsKeepout z = true ->
    let r := Fill E B lockFree F zs staged aZones aCheck in
    zonesOf r !! id = Some z
    /\ commitOf r !! id = staged !! id
    /\ (forall layer, (id, layer) ∉ toFillOf E zs aZones)
    /\ id ∉ map m_zone (islandsListOf E zs aZones).
Proof.
  intros E B lockFree F zs staged aZones aCheck id z Hz Hkeep r.
  destruct (Fill_frame E B lockFree F zs staged aZones aCheck)
    as (ids & Htouch & _ & Hframe & _ & Hzones).
  fold r in Htouch, Hframe.
  assert (Hout : id ∉ ids).
  { intros Hin. destruct (Hzones id Hin) as (z' & Hz' & Hno).
    rewrite Hz in Hz'. injection Hz' as <-. congruence. }
  split; [by rewrite (Htouch id Hout) | split; [by apply Hframe |]].
  pose proof (collect_collected E zs ∅ aZones _ (collected_start zs ∅)) as Hc.
  unfold toFillOf, islandsListOf.
  destruct (foldl (collectZone E) (zs, ∅, [], []) aZones)
    as [[[zs1 staged1] toFill] il].
  destruct Hc as (_ & _ & _ & _ & Hitems & Hzones').
  assert (Hil : id ∉ map m_zone il).
  { intros Hin. destruct (Hzones' id Hin) as (z' & Hz' & Hno).
    rewrite Hz in Hz'. injection Hz' as <-. congruence. }
  split; [| exact Hil].
  intros layer Hin. apply Hil, Hitems. simpl.
  apply list_elem_of_In, in_map_iff. exists (id, layer).
  split; [done | by apply list_elem_of_In].
Qed.

(** Both zones of the example board handed to [Fill]: the keepout area
    keeps its earlier polygons while the copper zone is filled anew. *)
Lemma Fill_leaves_keepout_zones_alone_witness :
  let r := Fill Examples.K Examples.board true new_ZONE_FILLER
                Examples.zones ∅ [1%nat; 2%nat] false in
  Examples.zones !! 2%nat = Some Examples.keepoutZone
  /\ GetIsKeepout Examples.keepoutZone = true
  /\ outcomeOf r = Returns true
  /\ zonesOf r !! 2%nat = Some Examples.keepoutZone.
Proof.
  intros r.
  assert (Hz : Examples.zones !! 2%nat = Some Examples.keepoutZone)
    by (vm_compute; reflexivity).
  assert (Hk : GetIsKeepout Examples.keepoutZone = true) by reflexivity.
  split; [exact Hz | split; [exact Hk | split]].
  - vm_compute. reflexivity.
  - exact (proj1 (Fill_leaves_keepout_zones_alone
                    Examples.K Examples.board true new_ZONE_FILLER
                    Examples.zones ∅ [1%nat; 2%nat] false 2%nat
                    Examples.keepoutZone Hz Hk)).
Defined.

(** * The worker pool of [Fill] *)

Section Pool.

Variable size : nat.
Variable stops : nat -> bool.

Lemma fetch_invariant p w :
  poolInvariant size p -> poolInvariant size (fetch size stops p w).
Proof.
  intros [Hnodup Hbound]. unfold fetch.
  case_bool_decide; [done |].
  destruct (nextItem p <? size)%nat eqn:Hlt; unfold poolInvariant; cbn [taken nextItem].
  - apply Nat.ltb_lt in Hlt. split.
    + rewrite map_app. simpl. apply NoDup_app. split; [done |]. split.
      * intros i Hi Hin. apply list_elem_of_singleton in Hin as ->.
        apply Hbound in Hi. lia.
      * apply NoDup_singleton.
    + intros i Hi. rewrite map_app, elem_of_app in Hi. simpl in Hi.
      destruct Hi as [Hi | Hi].
      * apply Hbound in Hi. lia.
      * apply list_elem_of_singleton in Hi as ->. lia.
  - split; [done |]. intros i Hi. apply Hbound in Hi. lia.
Qed.

Lemma run_invariant schedule p :
  poolInvariant size p -> poolInvariant size (foldl (fetch size stops) p schedule).
Proof.
  revert p. induction schedule as [| w schedule IH]; intros p Hp; [done |].
  simpl. apply IH, fetch_invariant, Hp.
Qed.

End Pool.

(** The claim of C8 fails as it stands: for one zone on two layers and four
    hardware threads there are two units of work and one worker. *)
Lemma pool_size_counts_zones_not_units :
  length (toFillOf Examples.K {[ 1%nat := Examples.twoLayerZone ]} [1%nat]) = 2%nat
  /\ parallelThreadCount 4 [1%nat] = 1%nat
  /\ parallelThreadCount 4 [1%nat]
     <> Nat.min 4 (length (toFillOf Examples.K
                                    {[ 1%nat := Examples.twoLayerZone ]} [1%nat])).
Proof. vm_compute. repeat split. intros H. discriminate H. Qed.

(** C8, amended.  [Fill] sizes its worker pool to the minimum of the
    hardware concurrency and the number of zones handed to it; every worker
    obtains the index of its next unit from the one shared counter, so
    that, whatever the order in which the workers take their turns, every
    index handed out is inside the work list and none is handed out twice. *)
Theorem worker_pool_hands_out_each_unit_once :
  forall (hw : nat) (aZones : list nat) (size : nat) (stops : nat -> bool)
         (schedule : list nat),
    parallelThreadCount hw aZones = Nat.min hw (length aZones)
    /\ NoDup (map snd (taken (run size stops schedule)))
    /\ (forall w i, (w, i) ∈ taken (run size stops schedule) -> (i < size)%nat).
Proof.
  intros hw aZones size stops schedule. split; [reflexivity |].
  assert (Hinv : poolInvariant size (run size stops schedule)).
  { apply run_invariant. split; [constructor |].
    intros i Hi. by apply elem_of_nil in Hi. }
  destruct Hinv as [Hnodup Hbound]. split; [exact Hnodup |].
  intros w i Hin. apply (Hbound i).
  apply list_elem_of_In, in_map_iff. exists (w, i).
  split; [done | by apply list_elem_of_In].
Qed.

(** * [ROUTER::StartRouting] *)

Section StartRoutingFacts.

Import Router.

Variable C : ROUTER_COLLABORATORS.

(** The pre-check, spelled out. *)
Lemma isStartingPointRoutable_spec r aWhere aStartItem aLayer :
  isStartingPointRoutable C r aWhere aStartItem aLayer = true <->
  (CanViolateDRC r = true /\ Mode r = RM_MarkObstacles)
  \/ ((forall item, item ∈ QueryHoverItems C r aWhere ->
                    IsRoutable item = false -> Overlaps (Layers item) aLayer = false)
      /\ (forall startItem,
             m_mode r = PNS_MODE_ROUTE_SINGLE -> aStartItem = Some startItem ->
             CheckColliding C (m_world r)
               {| seg_A := Anchor0 startItem; seg_B := Anchor0 startItem;
                  seg_Net := Net startItem; seg_Width := TrackWidth r;
                  seg_Layer := aLayer |} = false)).
Proof.
  unfold isStartingPointRoutable.
  destruct (CanViolateDRC r && bool_decide (Mode r = RM_MarkObstacles)) eqn:Htol.
  { apply andb_true_iff in Htol as [Hv Hm]. apply bool_decide_eq_true in Hm.
    split; [intros _; by left | done]. }
  assert (Hnot : ~ (CanViolateDRC r = true /\ Mode r = RM_MarkObstacles)).
  { intros [Hv Hm]. rewrite Hv in Htol. simpl in Htol.
    by apply bool_decide_eq_false in Htol. }
  destruct (existsb _ (QueryHoverItems C r aWhere)) eqn:Hex.
  { apply existsb_exists in Hex as (item & Hin & Hbad).
    apply andb_true_iff in Hbad as [Hroute Hover].
    apply negb_true_iff in Hroute.
    split; [done |]. intros [Htol' | [Hitems _]]; [done |].
    apply list_elem_of_In in Hin. specialize (Hitems item Hin Hroute). congruence. }
  assert (Hitems : forall item, item ∈ QueryHoverItems C r aWhere ->
             IsRoutable item = false -> Overlaps (Layers item) aLayer = false).
  { intros item Hin Hroute.
    destruct (Overlaps (Layers item) aLayer) eqn:Hover; [| done].
    assert (Hex' : existsb (fun item => negb (IsRoutable item)
                                        && Overlaps (Layers item) aLayer)
                           (QueryHoverItems C r aWhere) = true).
    { apply existsb_exists. exists item. split; [by apply list_elem_of_In |].
      by rewrite Hroute, Hover. }
    congruence. }
  destruct (m_mode r) eqn:Hmode; destruct aStartItem as [startItem |];
    try (split; [intros _; right; split; [exact Hitems | intros; congruence] | done]).
  destruct (CheckColliding C (m_world r) _) eqn:Hcol.
  - split; [done |]. intros [Htol' | [_ Hseg]]; [done |].
    specialize (Hseg startItem eq_refl eq_refl). congruence.
  - split; [| done]. intros _. right. split; [exact Hitems |].
    intros s _ [= <-]. exact Hcol.
Qed.

End StartRoutingFacts.

Section StartRoutingClaims.

Import Router.

Lemma routerDouble_asSpecified : placersAsSpecified Examples.routerDouble.
Proof.
  split.
  - intros placer world aP [item |]; simpl; [| discriminate].
    destruct (Net item <=? 0); simpl; [by eexists | discriminate].
  - reflexivity.
Qed.



End StartRoutingClaims.

(** * Thermal spokes *)

Section ThermalSpokes.

Variable E : COLLABORATORS.
Variable B : BOARD.

(** A pad that [hasThermalConnection] accepts has passed its proximity
    test. *)
Lemma hasThermalConnection_near (pad : D_PAD) (aZone : ZONE_CONTAINER) :
  hasThermalConnection E pad aZone = true ->
  BoxIntersects E
    (BoxInflate E (pad_GetBoundingBox E pad) (GetThermalReliefGap E aZone pad))
    (GetBoundingBox aZone) = true.
Proof.
  unfold hasThermalConnection.
  destruct (bool_decide (GetPadConnection E aZone pad = ZC_THT_THERMAL)
            && negb (bool_decide (pad_Attribute pad = PAD_ATTRIB_STANDARD)));
    [done |].
  destruct (negb (bool_decide (GetPadConnection E aZone pad = ZC_THERMAL))
            && negb (bool_decide (GetPadConnection E aZone pad = ZC_THT_THERMAL)));
    [done |].
  by destruct (negb (pad_NetCode pad =? GetNetCode aZone) || (pad_NetCode pad <=? 0)).
Qed.

(** The quick test of [buildThermalSpokes] passes every pad that
    [hasThermalConnection] accepts. *)
Lemma quick_test_passes (pad : D_PAD) (aZone : ZONE_CONTAINER) :
  inflationKeepsContact E ->
  0 <= iu_0_04 E ->
  0 <= Z.max (BiggestClearanceValue B) (GetZoneClearance aZone) ->
  hasThermalConnection E pad aZone = true ->
  BoxIntersects E
    (BoxInflate E (pad_GetBoundingBox E pad)
                (GetThermalReliefGap E aZone pad + iu_0_04 E))
    (spokeZoneBB E B aZone) = true.
Proof.
  intros Hlaw Heps Hclear Hconn. unfold spokeZoneBB.
  apply Hlaw; [exact Heps | exact Hclear |].
  by apply hasThermalConnection_near.
Qed.

(** The body of the pad loop: no spoke, or the four stubs. *)
Lemma padSpokes_stubs (aZone : ZONE_CONTAINER) (aLayer : PCB_LAYER_ID) (pad : D_PAD) :
  inflationKeepsContact E ->
  0 <= iu_0_04 E ->
  0 <= Z.max (BiggestClearanceValue B) (GetZoneClearance aZone) ->
  padSpokes E B aZone aLayer pad
  = if hasThermalConnection E pad aZone && pad_IsOnLayer pad aLayer
       && (GetMinThickness aZone <? spokeWidth E aZone pad)
    then padStubs E aZone pad else [].
Proof.
  intros Hlaw Heps Hclear. unfold padSpokes.
  destruct (hasThermalConnection E pad aZone) eqn:Hconn; simpl; [| done].
  destruct (pad_IsOnLayer pad aLayer); simpl; [| done].
  rewrite (Z.leb_antisym (GetMinThickness aZone) (spokeWidth E aZone pad)).
  destruct (GetMinThickness aZone <? spokeWidth E aZone pad); simpl; [| done].
  by rewrite (quick_test_passes pad aZone Hlaw Heps Hclear Hconn).
Qed.

Lemma length_padStubs (aZone : ZONE_CONTAINER) (pad : D_PAD) :
  length (padStubs E aZone pad) = 4%nat.
Proof. reflexivity. Qed.

Lemma length_flat_map_stubs (aZone : ZONE_CONTAINER) (served : D_PAD -> bool)
    (pads : list D_PAD) :
  length (flat_map (fun pad => if served pad then padStubs E aZone pad else []) pads)
  = (4 * length (List.filter served pads))%nat.
Proof.
  induction pads as [| pad pads IH]; [done |].
  cbn [flat_map List.filter]. rewrite length_app, IH.
  destruct (served pad); [rewrite length_padStubs |]; simpl; lia.
Qed.

End ThermalSpokes.

(** The boxes of the rectilinear kernel keep contact under inflation. *)
Lemma kernel_inflationKeepsContact (cfg : BoxKernel.CONFIG) :
  inflationKeepsContact (BoxKernel.kernel cfg).
Proof.
  intros [[ax ay] [aw ah]] [[bx by'] [bw bh]] gap epsilon clearance Heps Hclear.
  simpl. unfold BoxKernel.boxIntersects, BoxKernel.boxInflate,
    GetLeft, GetRight, GetTop, GetBottom. simpl.
  destruct (Z.ltb_spec aw (- 2 * gap)), (Z.ltb_spec ah (- 2 * gap)),
    (Z.ltb_spec aw (- 2 * (gap + epsilon))), (Z.ltb_spec ah (- 2 * (gap + epsilon)));
    simpl; rewrite !andb_true_iff, !Z.leb_le; intros [Hx Hy];
    destruct (Z.ltb_spec bw (- 2 * clearance)), (Z.ltb_spec bh (- 2 * clearance));
    simpl; rewrite ?andb_true_iff, ?Z.leb_le;
    try (pose proof (Z.div_mod aw 2 ltac:(lia));
         pose proof (Z.mod_pos_bound aw 2 ltac:(lia)));
    try (pose proof (Z.div_mod ah 2 ltac:(lia));
         pose proof (Z.mod_pos_bound ah 2 ltac:(lia)));
    lia.
Qed.



(** ** The quick rejection in the rectilinear kernel *)

(** For boxes of non-negative size and non-negative clearances, a pad box
    that meets the zone box when inflated by the thermal gap meets the
    inflated zone box when inflated by the gap and epsilon: the quick
    rejection of [buildThermalSpokes] never drops a pad that
    [hasThermalConnection] accepts. *)
Lemma boxIntersects_inflated (a b : BOX2I) (gap epsilon clearance : Z) :
  0 <= fst (box_size a) -> 0 <= snd (box_size a) ->
  0 <= fst (box_size b) -> 0 <= snd (box_size b) ->
  0 <= gap -> 0 <= epsilon -> 0 <= clearance ->
  BoxKernel.boxIntersects (BoxKernel.boxInflate a gap) b = true ->
  BoxKernel.boxIntersects (BoxKernel.boxInflate a (gap + epsilon))
                          (BoxKernel.boxInflate b clearance) = true.
Proof.
  destruct a as [[ax ay] [aw ah]], b as [[bx by'] [bw bh]]. simpl.
  intros Haw Hah Hbw Hbh Hgap Heps Hclear.
  unfold BoxKernel.boxIntersects, BoxKernel.boxInflate,
    GetLeft, GetRight, GetTop, GetBottom. simpl.
  rewrite !(proj2 (Z.ltb_ge _ _)) by lia. simpl.
  rewrite !andb_true_iff, !Z.leb_le. lia.
Qed.

(** * The spoke loop of [computeRawFilledArea] *)

Section SpokeLoop.

Variable E : COLLABORATORS.

Lemma cancelled_never r :
  neverCancelled r ->
  exists r', cancelled r = (false, r') /\ neverCancelled r'.
Proof.
  destruct r as [p |]; simpl; intros Hnever.
  - rewrite Hnever. eexists. split; [reflexivity |]. exact Hnever.
  - by exists None.
Qed.

(** Without cancellation the loop runs to its end and has added, in order,
    the spokes that pass the hit-test. *)
Lemma spokeLoop_survivors testAreas thermalSpokes rest :
  forall i interval r aRawPolys,
    neverCancelled r ->
    exists r',
      neverCancelled r'
      /\ spokeLoop E testAreas thermalSpokes i rest interval r aRawPolys
         = (false, r',
            foldl AddOutline aRawPolys
                  (survivorsFrom E testAreas thermalSpokes i rest)).
Proof.
  induction rest as [| spoke rest IH]; intros i interval r aRawPolys Hnever.
  - exists r. by split.
  - simpl. unfold spokeSurvives.
    destruct (Contains E testAreas (CPoint spoke 3) 1) eqn:Hbody; simpl.
    + apply IH, Hnever.
    + assert (Hpoll : exists r',
                 neverCancelled r'
                 /\ (if interval >? 400 then cancelled r else (false, r))
                    = (false, r')).
      { destruct (interval >? 400).
        - destruct (cancelled_never r Hnever) as (r' & Heq & Hr'). eauto.
        - eauto. }
      destruct Hpoll as (r' & Hr' & ->).
      destruct (hitsOtherSpoke E thermalSpokes i (CPoint spoke 3)); simpl;
        apply IH, Hr'.
Qed.

(** The hit-test against the other spokes: some spoke at another place of
    the deque has the point inside. *)
Lemma hitsOtherSpoke_spec thermalSpokes i testPt :
  hitsOtherSpoke E thermalSpokes i testPt = true <->
  exists j other,
    j <> i /\ thermalSpokes !! j = Some other
    /\ PointInside E other testPt 1 = true.
Proof.
  unfold hitsOtherSpoke. rewrite existsb_exists. split.
  - intros ([j other] & Hin & Htest). simpl in Htest.
    apply andb_true_iff in Htest as [Hne Hinside].
    apply negb_true_iff, Nat.eqb_neq in Hne.
    apply list_elem_of_In, elem_of_lookup_imap in Hin
      as (j' & other' & [= -> ->] & Hlook).
    eauto.
  - intros (j & other & Hne & Hlook & Hinside).
    exists (j, other). split.
    + apply list_elem_of_In, elem_of_lookup_imap. eauto.
    + simpl. rewrite Hinside, andb_true_r.
      by apply negb_true_iff, Nat.eqb_neq.
Qed.

(** The survivors are the spokes whose number passes the hit-test. *)
Lemma survivorsFrom_spec testAreas thermalSpokes rest i spoke :
  spoke ∈ survivorsFrom E testAreas thermalSpokes i rest <->
  exists k, rest !! k = Some spoke
            /\ spokeSurvives E testAreas thermalSpokes (i + k) spoke = true.
Proof.
  revert i. induction rest as [| s rest IH]; intros i; simpl.
  - split; [intros H; by apply elem_of_nil in H | by intros (k & H & _)].
  - destruct (spokeSurvives E testAreas thermalSpokes i s) eqn:Hs.
    + rewrite elem_of_cons, IH. split.
      * intros [-> | (k & Hk & Hsurv)].
        -- exists 0%nat. by rewrite Nat.add_0_r.
        -- exists (S k). by rewrite Nat.add_succ_r.
      * intros ([| k] & Hk & Hsurv); simpl in Hk.
        -- left. congruence.
        -- right. exists k. by rewrite Nat.add_succ_r in Hsurv.
    + rewrite IH. split.
      * intros (k & Hk & Hsurv). exists (S k). by rewrite Nat.add_succ_r.
      * intros ([| k] & Hk & Hsurv); simpl in Hk.
        -- rewrite Nat.add_0_r in Hsurv. congruence.
        -- exists k. by rewrite Nat.add_succ_r in Hsurv.
Qed.

End SpokeLoop.

Section CopperFill.

Variable E : COLLABORATORS.
Variable B : BOARD.

(** Without cancellation [computeRawFilledArea] computes [copperFill]: raw
    and final polygons are a function of the zone, the layer, the board
    and the smoothed outline, whatever the arc settings the filler came
    with, and the filler leaves with the board's arc settings. *)
Lemma computeRawFilledArea_never_cancelled F aZone aLayer aSmoothedOutline
    aRawPolys aFinalPolys :
  neverCancelled (m_progressReporter F) ->
  exists r',
    neverCancelled r'
    /\ computeRawFilledArea E B F aZone aLayer aSmoothedOutline aRawPolys aFinalPolys
       = (with_reporter (with_defs F (copperHighDef B) (copperLowDef E B)) r',
          copperFill E B aZone aLayer aSmoothedOutline,
          copperFill E B aZone aLayer aSmoothedOutline).
Proof.
  intros Hnever. unfold computeRawFilledArea. cbn [m_progressReporter with_defs].
  destruct (cancelled_never _ Hnever) as (r1 & -> & H1).
  destruct (cancelled_never _ H1) as (r2 & -> & H2).
  destruct (cancelled_never _ H2) as (r3 & -> & H3).
  destruct (cancelled_never _ H3) as (r4 & -> & H4).
  destruct (cancelled_never _ H4) as (r5 & -> & H5).
  match goal with
  | |- context [spokeLoop E ?ta ?sp 0 ?sp 0 r5 ?raw] =>
    destruct (spokeLoop_survivors E ta sp sp 0%nat 0 r5 raw H5) as (r6 & H6 & ->)
  end.
  destruct (cancelled_never _ H6) as (r7 & -> & H7).
  destruct (cancelled_never _ H7) as (r8 & -> & H8).
  destruct (cancelled_never _ H8) as (r9 & -> & H9).
  destruct (cancelled_never _ H9) as (r10 & -> & H10).
  exists r10. split; [exact H10 |]. reflexivity.
Qed.

End CopperFill.

(** The claim of C4 fails as it stands.  Two pads of the zone's net sit
    side by side, the second a little lower: the test point of the first
    pad's right spoke is in the smoothed outline (there are no clearance
    holes), in no other spoke, and in the thermal relief of the second pad.
    The code tests against the outline with the reliefs knocked out and
    leaves the spoke out. *)
Lemma spoke_in_a_neighbours_relief_is_dropped :
  let B := Examples.boardWith
             [ Examples.smdPad (3000000, 5000000) (1000000, 1000000) PAD_SHAPE_RECT 0;
               Examples.smdPad (4900000, 5700000) (1000000, 1000000) PAD_SHAPE_RECT 0 ] in
  let zone := Examples.copperZone in
  let outline := [[BoxKernel.boxChain Examples.square10mm]] in
  let spokes := copperSpokes Examples.K B zone Examples.F_Cu in
  let spoke := [ (2750000, 5250000); (2750000, 4750000); (4040000, 4750000);
                 (4040000, 5000000); (4040000, 5250000) ] in
  spokes !! 2%nat = Some spoke
  /\ Contains Examples.K (claimedTestAreas Examples.K B zone Examples.F_Cu outline)
              (CPoint spoke 3) 1 = true
  /\ hitsOtherSpoke Examples.K spokes 2 (CPoint spoke 3) = false
  /\ Contains Examples.K (copperTestAreas Examples.K B zone Examples.F_Cu outline)
              (CPoint spoke 3) 1 = false
  /\ (spoke ∉ survivingSpokes Examples.K
                (copperTestAreas Examples.K B zone Examples.F_Cu outline) spokes)
  /\ length (survivingSpokes Examples.K
               (copperTestAreas Examples.K B zone Examples.F_Cu outline) spokes)
     = 6%nat.
Proof.
  vm_compute. repeat split.
  intros Hin. repeat (apply elem_of_cons in Hin as [Heq | Hin]; [discriminate Heq |]).
  by apply elem_of_nil in Hin.
Qed.

(** C4, amended.  In the copper-layer pipeline, when the fill is not
    cancelled, the spoke loop adds to the raw polygons, in order, exactly
    the candidate spokes that pass the hit-test, and the raw polygons with
    these spokes go on through the rest of the pipeline.  A spoke passes
    if and only if its designated test point, the fourth point of its
    outline, lies inside the test area or inside the closed shape of a
    candidate spoke at another place of the list.  The test area is the
    smoothed outline with the thermal reliefs knocked out, less the
    clearance holes, pruned to the minimum width when half the minimum
    thickness less epsilon exceeds epsilon. *)
Theorem spokes_are_added_by_their_test_point :
  forall (E : COLLABORATORS) (B : BOARD) (F : ZONE_FILLER)
         (aZone : ZONE_CONTAINER) (aLayer : PCB_LAYER_ID)
         (aSmoothedOutline aRawPolys aFinalPolys : SHAPE_POLY_SET),
    neverCancelled (m_progressReporter F) ->
    let spokes := copperSpokes E B aZone aLayer in
    let knockedOut := copperKnockedOut E B aZone aLayer aSmoothedOutline in
    let testAreas := copperTestAreas E B aZone aLayer aSmoothedOutline in
    testAreas
    = spokeTestAreas E aZone (copperNumSegs E B aZone) knockedOut
                     (copperClearanceHoles E B aZone aLayer)
    /\ (forall interval r raw,
           neverCancelled r ->
           exists r',
             spokeLoop E testAreas spokes 0 spokes interval r raw
             = (false, r', foldl AddOutline raw (survivingSpokes E testAreas spokes)))
    /\ snd (computeRawFilledArea E B F aZone aLayer aSmoothedOutline
                                 aRawPolys aFinalPolys)
       = finishCopperFill E B aZone aLayer aSmoothedOutline
           (foldl AddOutline knockedOut (survivingSpokes E testAreas spokes))
    /\ (forall spoke,
           spoke ∈ survivingSpokes E testAreas spokes <->
           exists i, spokes !! i = Some spoke
                     /\ spokeSurvives E testAreas spokes i spoke = true)
    /\ (forall i spoke,
           spokeSurvives E testAreas spokes i spoke = true <->
           Contains E testAreas (CPoint spoke 3) 1 = true
           \/ exists j other,
               j <> i /\ spokes !! j = Some other
               /\ PointInside E other (CPoint spoke 3) 1 = true).
Proof.
  intros E B F aZone aLayer aSmoothedOutline aRawPolys aFinalPolys Hnever
         spokes knockedOut testAreas.
  split; [reflexivity |].
  split.
  { intros interval r raw Hr.
    destruct (spokeLoop_survivors E testAreas spokes spokes 0%nat interval r raw Hr)
      as (r' & _ & Heq).
    by exists r'. }
  split.
  { destruct (computeRawFilledArea_never_cancelled
                E B F aZone aLayer aSmoothedOutline aRawPolys aFinalPolys Hnever)
      as (r' & _ & ->).
    reflexivity. }
  split.
  { intros spoke. unfold survivingSpokes. apply survivorsFrom_spec. }
  intros i spoke. unfold spokeSurvives.
  rewrite orb_true_iff, hitsOtherSpoke_spec. reflexivity.
Qed.

(** The board with the one pad in the middle of the zone, filled without a
    reporter: all four spokes of the pad are added. *)
Lemma spokes_are_added_by_their_test_point_witness :
  let outline := [[BoxKernel.boxChain Examples.square10mm]] in
  neverCancelled (m_progressReporter new_ZONE_FILLER)
  /\ snd (computeRawFilledArea Examples.K Examples.board new_ZONE_FILLER
            Examples.copperZone Examples.F_Cu outline [] [])
     = finishCopperFill Examples.K Examples.board Examples.copperZone
         Examples.F_Cu outline
         (foldl AddOutline
            (copperKnockedOut Examples.K Examples.board Examples.copperZone
                              Examples.F_Cu outline)
            (copperSpokes Examples.K Examples.board Examples.copperZone
                          Examples.F_Cu)).
Proof.
  intros outline.
  assert (Hnever : neverCancelled (m_progressReporter new_ZONE_FILLER))
    by exact I.
  split; [exact Hnever |].
  pose proof (spokes_are_added_by_their_test_point
                Examples.K Examples.board new_ZONE_FILLER Examples.copperZone
                Examples.F_Cu outline [] [] Hnever) as (_ & _ & Hfill & _).
  rewrite Hfill. vm_compute. reflexivity.
Defined.

(** ** The copper fill as a function of its inputs *)

(** On a copper layer, when the outline can be smoothed and the fill is not
    cancelled, the polygons [fillSingleZone] gives are [copperFill] of the
    zone, the layer, the board and the smoothed outline: the arc settings
    the filler came with play no part, and the filler leaves with the
    board's. *)
Lemma fillSingleZone_on_a_copper_layer (E : COLLABORATORS) (B : BOARD)
    (F : ZONE_FILLER) (aZone : ZONE_CONTAINER) (aLayer : PCB_LAYER_ID)
    (smoothedPoly aRawPolys aFinalPolys : SHAPE_POLY_SET) :
  IsOnCopperLayer aZone = true ->
  BuildSmoothedPoly E aZone aLayer = (true, smoothedPoly) ->
  neverCancelled (m_progressReporter F) ->
  exists F',
    fillSingleZone E B F aZone aLayer aRawPolys aFinalPolys
    = (true, F', SetNeedRefill aZone false,
       copperFill E B aZone aLayer smoothedPoly,
       copperFill E B aZone aLayer smoothedPoly)
    /\ m_high_def F' = m_MaxError B.
Proof.
  intros Hcopper Hsmooth Hnever. unfold fillSingleZone.
  rewrite Hsmooth. simpl.
  destruct (cancelled_never _ Hnever) as (r1 & -> & H1).
  rewrite Hcopper.
  destruct (computeRawFilledArea_never_cancelled
              E B (with_reporter F r1) aZone aLayer smoothedPoly
              aRawPolys aFinalPolys H1) as (r' & _ & ->).
  eexists. split; reflexivity.
Qed.

(** * Zones on non-copper layers *)

(** C7, at the input where the code misses the claim.  A silkscreen zone
    that is a strip exactly as wide as its minimum thickness, 0.25 mm, is
    pruned away by [fillSingleZone]: the non-copper branch deflates by half
    the minimum thickness, the epsilon not subtracted, so nothing of the
    strip is left to grow again.  The claim has such a feature survive (as
    worded, the fill is not empty), and so has the copper branch, which
    deflates by epsilon less: the same strip as a copper zone keeps its
    fill.  (A silkscreen zone drawn with the outline thickness is not grown
    again after the deflation; that is the stroke's part.) *)
Lemma non_copper_fill_is_not_as_claimed :
  let final (z : ZONE_CONTAINER) :=
    snd (fillSingleZone Examples.K Examples.board new_ZONE_FILLER z
                        Examples.F_SilkS [] []) in
  let claimed (z : ZONE_CONTAINER) :=
    nonCopperAsClaimed Examples.K Examples.board new_ZONE_FILLER z Examples.F_SilkS
                       [[BoxKernel.boxChain (GetBoundingBox z)]] in
  GetMinThickness (Examples.silkZone false Examples.strip)
  = snd (box_size Examples.strip)
  /\ final (Examples.silkZone false Examples.strip) = []
  /\ claimed (Examples.silkZone false Examples.strip) <> []
  /\ snd (fillSingleZone Examples.K Examples.board new_ZONE_FILLER
                         Examples2.copperStrip Examples.F_Cu [] [])
     = [[BoxKernel.rect 0 0 10000000 250000]]
  /\ final (Examples.silkZone true Examples.square10mm)
     = [[BoxKernel.rect 125000 125000 9875000 9875000]]
  /\ final (Examples.silkZone true Examples.square10mm)
     <> claimed (Examples.silkZone true Examples.square10mm).
Proof.
  vm_compute. repeat split; intros Heq; discriminate Heq.
Qed.

(** The non-copper branch, step by step.  For a zone on a non-copper layer
    whose outline can be smoothed, and when the fill is not cancelled,
    [fillSingleZone] clips the smoothed outline to the board outline when
    that is valid, deflates it by half the zone's minimum thickness (the
    epsilon is commented out in the source), applies the hatch pattern when
    the fill mode asks for it, grows the result again by half the minimum
    thickness less epsilon unless the fill is drawn with the outline
    thickness or that amount does not exceed epsilon, and gives this as
    the raw polygons and its fracture into strictly simple polygons as the
    final polygons.  No copper-layer stage runs: no relief, clearance hole
    or spoke enters, and the filler keeps its arc settings. *)
Theorem fillSingleZone_on_a_non_copper_layer :
  forall (E : COLLABORATORS) (B : BOARD) (F : ZONE_FILLER) (aZone : ZONE_CONTAINER)
         (aLayer : PCB_LAYER_ID) (smoothedPoly aRawPolys aFinalPolys : SHAPE_POLY_SET),
    IsOnCopperLayer aZone = false ->
    BuildSmoothedPoly E aZone aLayer = (true, smoothedPoly) ->
    fst (cancelled (m_progressReporter F)) = false ->
    let half_min_width := GetMinThickness aZone ÷ 2 in
    let epsilon := iu_0_001 E in
    let numSegs := Z.max (GetArcToSegmentCount E half_min_width (m_high_def F)) 6 in
    let clipped :=
      if m_brdOutlinesValid F
      then BooleanIntersection E smoothedPoly (m_boardOutline F) PM_STRICTLY_SIMPLE
      else smoothedPoly in
    let pruned :=
      Deflate E clipped half_min_width numSegs (DefaultCornerStrategy E) in
    let hatched :=
      if bool_decide (GetFillMode aZone = HATCH_PATTERN)
      then addHatchFillTypeOnZone E B (m_high_def F) (m_low_def F) aZone aLayer pruned
      else pruned in
    let regrown :=
      if GetFilledPolysUseThickness aZone then hatched
      else if half_min_width - epsilon >? epsilon
           then Deflate E hatched (- (half_min_width - epsilon)) numSegs
                        (DefaultCornerStrategy E)
           else hatched in
    fillSingleZone E B F aZone aLayer aRawPolys aFinalPolys
    = (true, with_reporter F (snd (cancelled (m_progressReporter F))),
       SetNeedRefill aZone false, regrown, Fracture E regrown PM_STRICTLY_SIMPLE).
Proof.
  intros E B F aZone aLayer smoothedPoly aRawPolys aFinalPolys
         Hlayer Hsmooth Hgo.
  unfold fillSingleZone. rewrite Hsmooth. simpl.
  destruct (cancelled (m_progressReporter F)) as [c r]. simpl in Hgo.
  subst c. rewrite Hlayer. reflexivity.
Qed.

(** The silkscreen square filled by a new filler: it is deflated by
    0.125 mm and, its fill not being drawn with the outline thickness,
    grown again by 0.124 mm. *)
Lemma fillSingleZone_on_a_non_copper_layer_witness :
  let z := Examples.silkZone false Examples.square10mm in
  let outline := [[BoxKernel.boxChain Examples.square10mm]] in
  IsOnCopperLayer z = false
  /\ BuildSmoothedPoly Examples.K z Examples.F_SilkS = (true, outline)
  /\ fst (cancelled (m_progressReporter new_ZONE_FILLER)) = false
  /\ snd (fst (fillSingleZone Examples.K Examples.board new_ZONE_FILLER z
                              Examples.F_SilkS [] []))
     = Deflate Examples.K (Deflate Examples.K outline 125000 261 ROUND_ALL_CORNERS)
               (-124000) 261 ROUND_ALL_CORNERS.
Proof.
  intros z outline.
  assert (H1 : IsOnCopperLayer z = false) by reflexivity.
  assert (H2 : BuildSmoothedPoly Examples.K z Examples.F_SilkS = (true, outline))
    by reflexivity.
  assert (H3 : fst (cancelled (m_progressReporter new_ZONE_FILLER)) = false)
    by reflexivity.
  split; [exact H1 | split; [exact H2 | split; [exact H3 |]]].
  rewrite (fillSingleZone_on_a_non_copper_layer
             Examples.K Examples.board new_ZONE_FILLER z Examples.F_SilkS
             outline [] [] H1 H2 H3).
  vm_compute. reflexivity.
Defined.

(** * Determinism of the fill *)

(** C9, at the input where the code misses the claim.  On the same board
    and with the same zones, a silkscreen zone is filled once alone and once
    after the copper zone, each time by a new filler.  Both fills succeed.
    Filled alone, the zone is offset with the 261 segments per circle that
    the filler's initial arc setting of 9 gives; filled after the copper
    zone, with the 11 segments that the board's maximum error (5000),
    left in the filler by the copper fill, gives.  The two outlines have 264
    and 12 points, and their hashes differ. *)
Lemma non_copper_fill_depends_on_an_earlier_copper_fill :
  let zs : ZONES :=
    {[ 1%nat := Examples.copperZone;
       3%nat := Examples.silkZone false Examples.square10mm ]} in
  let alone := Fill Examples.K Examples.board true new_ZONE_FILLER zs ∅
                    [3%nat] false in
  let after := Fill Examples.K Examples.board true new_ZONE_FILLER zs ∅
                    [1%nat; 3%nat] false in
  let points (r : outcome * ZONE_FILLER * ZONES * ZONES) :=
    length (concat (concat (default [] (Examples.filledPolys r 3 Examples.F_SilkS)))) in
  outcomeOf alone = Returns true
  /\ outcomeOf after = Returns true
  /\ m_high_def (fillerOf alone) = 9
  /\ m_high_def (fillerOf after) = 5000
  /\ points alone = 264%nat
  /\ points after = 12%nat
  /\ (GetHash Examples.K <$> Examples.filledPolys alone 3 Examples.F_SilkS)
     <> (GetHash Examples.K <$> Examples.filledPolys after 3 Examples.F_SilkS).
Proof.
  vm_compute. repeat split. intros Heq. discriminate Heq.
Qed.

(** * Island removal *)

Section Islands.

Variable E : COLLABORATORS.
Variable F : ZONE_FILLER.
Variable layer : PCB_LAYER_ID.
Variable mode : ISLAND_REMOVAL_MODE.
Variable minArea : Z.
Variable poly0 : SHAPE_POLY_SET.
Variable keep : nat -> bool.

Lemma keptPolygons_all_kept (a : nat) (l : list POLYGON) :
  (forall k, (a <= k < a + length l)%nat -> keep k = true) ->
  forall rest, keptPolygons keep a (l ++ rest) = l ++ keptPolygons keep (a + length l) rest.
Proof.
  revert a. induction l as [| p l IH]; intros a Hkeep rest; simpl.
  - by rewrite Nat.add_0_r.
  - rewrite Hkeep by (simpl; lia). f_equal.
    rewrite IH by (intros k Hk; apply Hkeep; simpl; lia).
    f_equal. f_equal. lia.
Qed.

Lemma Outline_prefix (cur : SHAPE_POLY_SET) idx j R :
  (idx < j)%nat -> (j <= length poly0)%nat ->
  cur = take j poly0 ++ R -> Outline cur idx = Outline poly0 idx.
Proof.
  intros Hidx Hj ->. unfold Outline.
  rewrite lookup_app_l by (rewrite length_take; lia).
  by rewrite lookup_take_lt.
Qed.

Lemma deleteIsland_Outline (p q : SHAPE_POLY_SET) idx :
  Outline p idx = Outline q idx ->
  deleteIsland E F mode minArea p idx = deleteIsland E F mode minArea q idx.
Proof. intros Heq. unfold deleteIsland. by rewrite Heq. Qed.

(** Deleting or keeping the polygon at [idx], the last island below [j]. *)
Lemma prefix_step idx j :
  (idx < j)%nat -> (j <= length poly0)%nat ->
  (forall k, (idx < k < j)%nat -> keep k = true) ->
  take idx poly0 ++ keptPolygons keep idx (drop idx poly0)
  = if keep idx
    then take j poly0 ++ keptPolygons keep j (drop j poly0)
    else DeletePolygon (take j poly0 ++ keptPolygons keep j (drop j poly0)) idx.
Proof.
  intros Hidx Hj Hmid.
  destruct (lookup_lt_is_Some_2 poly0 idx ltac:(lia)) as [p Hp].
  set (M := drop (S idx) (take j poly0)).
  set (R := keptPolygons keep j (drop j poly0)).
  assert (Hlen : length (take idx poly0) = idx) by (rewrite length_take; lia).
  assert (HM : length M = (j - S idx)%nat).
  { unfold M. rewrite length_drop, length_take. lia. }
  assert (Htake : take j poly0 = take idx poly0 ++ p :: M).
  { rewrite <- (take_drop idx (take j poly0)) at 1.
    rewrite take_take, Nat.min_l by lia. f_equal.
    unfold M. apply drop_S. rewrite lookup_take_lt by lia. exact Hp. }
  assert (Hskip : forall X : SHAPE_POLY_SET,
             drop (S idx) (take idx poly0 ++ p :: X) = X).
  { intros X. rewrite cons_middle, app_assoc.
    apply drop_app_length'. rewrite length_app, Hlen. simpl. lia. }
  assert (Hdrop : drop (S idx) poly0 = M ++ drop j poly0).
  { rewrite <- (take_drop j poly0) at 1. rewrite Htake.
    rewrite <- app_assoc. simpl. apply Hskip. }
  assert (Hkept : keptPolygons keep (S idx) (M ++ drop j poly0) = M ++ R).
  { rewrite keptPolygons_all_kept by (intros k Hk; apply Hmid; lia).
    unfold R. do 2 f_equal. lia. }
  rewrite (drop_S _ _ _ Hp), Hdrop. simpl. rewrite Hkept.
  destruct (keep idx).
  - rewrite Htake. by rewrite <- app_assoc.
  - unfold DeletePolygon. rewrite delete_take_drop, Htake.
    rewrite <- app_assoc. simpl.
    rewrite (take_app_length' _ _ idx) by done.
    by rewrite Hskip.
Qed.

Lemma foldl_removeIsland l :
  forall j z,
    StronglySorted (flip Nat.lt) l ->
    (forall i, i ∈ l -> (i < j)%nat) ->
    (j <= length poly0)%nat ->
    (forall k, (k < j)%nat -> k ∉ l -> keep k = true) ->
    (forall i, i ∈ l -> keep i = negb (deleteIsland E F mode minArea poly0 i)) ->
    snd (foldl (removeIsland E F layer mode minArea)
               (z, take j poly0 ++ keptPolygons keep j (drop j poly0)) l)
    = keptPolygons keep 0 poly0.
Proof.
  induction l as [| idx l IH]; intros j z Hsorted Hbound Hj Hrest Hisl.
  - simpl. rewrite <- (take_drop j poly0) at 3.
    rewrite keptPolygons_all_kept.
    + rewrite length_take. simpl. f_equal. f_equal. lia.
    + intros k Hk. rewrite length_take in Hk. apply Hrest; [lia |].
      intros Hin. by apply elem_of_nil in Hin.
  - apply StronglySorted_inv in Hsorted as [Hsorted Hall].
    rewrite Forall_forall in Hall.
    assert (Hidx : (idx < j)%nat) by (apply Hbound, elem_of_cons; by left).
    assert (Hmid : forall k, (idx < k < j)%nat -> keep k = true).
    { intros k Hk. apply Hrest; [lia |]. intros Hin.
      apply elem_of_cons in Hin as [-> | Hin]; [lia |].
      specialize (Hall k Hin). unfold flip in Hall. lia. }
    pose proof (prefix_step idx j Hidx Hj Hmid) as Hstep.
    simpl.
    rewrite (deleteIsland_Outline _ poly0 idx)
      by (eapply Outline_prefix; [apply Hidx | apply Hj | reflexivity]).
    rewrite (Hisl idx) in Hstep by (apply elem_of_cons; by left).
    destruct (deleteIsland E F mode minArea poly0 idx); simpl in Hstep;
      rewrite <- Hstep; apply IH; try done.
    all: try (intros i Hi; apply Hall, Hi).
    all: try lia.
    all: try (intros k Hk Hout; apply Hrest; [lia |];
              intros Hin; apply elem_of_cons in Hin as [-> | Hin]; [lia | done]).
    all: intros i Hi; apply Hisl, elem_of_cons; by right.
Qed.
End Islands.

#[local] Instance flip_le_total : Total (flip Nat.le).
Proof. intros x y. unfold flip. lia. Qed.

#[local] Instance flip_le_transitive : Transitive (flip Nat.le).
Proof. intros x y z. unfold flip. lia. Qed.

Lemma keptPolygons_ext (keep1 keep2 : nat -> bool) (poly : SHAPE_POLY_SET) :
  (forall k, keep1 k = keep2 k) ->
  forall j, keptPolygons keep1 j poly = keptPolygons keep2 j poly.
Proof.
  intros Hext. induction poly as [| p rest IH]; intros j; [done |].
  simpl. by rewrite Hext, IH.
Qed.

Lemma StronglySorted_descending (l : list nat) :
  NoDup l -> StronglySorted (flip Nat.le) l -> StronglySorted (flip Nat.lt) l.
Proof.
  intros Hnodup Hsorted. induction Hsorted as [| x l Hsorted IH Hall].
  - constructor.
  - apply NoDup_cons in Hnodup as [Hx Hnodup].
    constructor; [by apply IH |].
    rewrite Forall_forall in *. intros y Hy. specialize (Hall y Hy).
    unfold flip in *. assert (y <> x) by (intros ->; done). lia.
Qed.

(** For a zone with a net, the post-processing of a layer deletes exactly
    the polygons that the connectivity search lists as islands and that
    the test of the island loop condemns: removal mode [ALWAYS], or mode
    [AREA] and an outline area below the zone's minimum island area, or a
    first outline point that the board outline does not contain.  The other
    polygons stay, in their order.  The indices listed are taken to be
    those of polygons of the layer, each listed once. *)
Lemma pruneLayer_removes_condemned_islands (E : COLLABORATORS) (F : ZONE_FILLER)
    (layer : PCB_LAYER_ID) (islands : list nat) (z : ZONE_CONTAINER)
    (poly : SHAPE_POLY_SET) :
  0 < GetNetCode z ->
  NoDup islands ->
  (forall i, i ∈ islands -> (i < length poly)%nat) ->
  snd (pruneLayer E F layer islands z poly)
  = keptPolygons
      (fun k => negb (bool_decide (k ∈ islands)
                      && deleteIsland E F (GetIslandRemovalMode z)
                                      (GetMinIslandArea z) poly k))
      0 poly.
Proof.
  intros Hnet Hnodup Hrange. unfold pruneLayer.
  rewrite (proj2 (Z.gtb_gt _ _)) by lia.
  set (keep := fun k => negb (bool_decide (k ∈ islands)
                               && deleteIsland E F (GetIslandRemovalMode z)
                                               (GetMinIslandArea z) poly k)).
  assert (Hperm : sortDescending islands ≡ₚ islands)
    by apply merge_sort_Permutation.
  assert (Hin : forall i, i ∈ sortDescending islands <-> i ∈ islands)
    by (intros i; by rewrite Hperm).
  assert (Hstart : poly = take (length poly) poly
                          ++ keptPolygons keep (length poly) (drop (length poly) poly)).
  { rewrite take_ge, drop_ge by lia. simpl. by rewrite app_nil_r. }
  rewrite Hstart at 1.
  apply foldl_removeIsland.
  - apply StronglySorted_descending.
    + by rewrite Hperm.
    + apply (StronglySorted_merge_sort (flip Nat.le)).
  - intros i Hi. apply Hrange, Hin, Hi.
  - lia.
  - intros k _ Hout. unfold keep.
    rewrite bool_decide_eq_false_2; [done |]. intros Hk. by apply Hout, Hin.
  - intros i Hi. unfold keep.
    rewrite bool_decide_eq_true_2; [done |]. by apply Hin.
Qed.

(** With removal mode [ALWAYS], the polygons that stay are those that are
    not listed as islands. *)
Lemma pruneLayer_always (E : COLLABORATORS) (F : ZONE_FILLER)
    (layer : PCB_LAYER_ID) (islands : list nat) (z : ZONE_CONTAINER)
    (poly : SHAPE_POLY_SET) :
  0 < GetNetCode z ->
  GetIslandRemovalMode z = IRM_ALWAYS ->
  NoDup islands ->
  (forall i, i ∈ islands -> (i < length poly)%nat) ->
  snd (pruneLayer E F layer islands z poly)
  = keptPolygons (fun k => negb (bool_decide (k ∈ islands))) 0 poly.
Proof.
  intros Hnet Hmode Hnodup Hrange.
  rewrite pruneLayer_removes_condemned_islands by done.
  apply keptPolygons_ext. intros k.
  unfold deleteIsland. rewrite Hmode. simpl. by rewrite andb_true_r.
Qed.

(** Two filled regions of a zone with a net, the second listed as an
    island, removal mode [ALWAYS]: the first region alone stays. *)
Example pruneLayer_two_regions :
  let regions := [ [BoxKernel.rect 0 0 4000000 10000000];
                   [BoxKernel.rect 6000000 0 10000000 10000000] ] in
  snd (pruneLayer Examples.K (with_outline new_ZONE_FILLER
                                           (BoardPolygonOutlines Examples.board))
                  Examples.F_Cu [1%nat] Examples.copperZone regions)
  = [ [BoxKernel.rect 0 0 4000000 10000000] ].
Proof. vm_compute. reflexivity. Qed.

(** A layer for which the island list has no entry is left as it is,
    whatever the zone's net: the polygons of a zone without net are then
    not tested against the board outline. *)
Lemma postLayer_skips_layer_without_entry (E : COLLABORATORS) (aCheck : bool)
    (il : CN_ZONE_ISOLATED_ISLAND_LIST) (st : ZONE_FILLER * ZONES * bool)
    (layer : PCB_LAYER_ID) :
  m_islands il !! layer = None ->
  postLayer E aCheck il st layer = Continue st.
Proof.
  intros Hnone. unfold postLayer. destruct st as [[F zs] outOfDate].
  by rewrite Hnone.
Qed.

(** Where the island list has an entry for the layer, the polygons of a
    copper zone without net on a board with a valid outline that stay are
    those that are not empty and whose first outline point the board
    outline contains. *)
Lemma pruneLayer_netless_zone (E : COLLABORATORS) (F : ZONE_FILLER)
    (layer : PCB_LAYER_ID) (islands : list nat) (z : ZONE_CONTAINER)
    (poly : SHAPE_POLY_SET) :
  GetNetCode z <= 0 ->
  m_brdOutlinesValid F = true ->
  IsOnCopperLayer z = true ->
  snd (pruneLayer E F layer islands z poly) = removeOutside E F poly
  /\ forall p,
      p ∈ removeOutside E F poly <->
      p ∈ poly
      /\ exists front holes,
          p = front :: holes
          /\ Contains E (m_boardOutline F) (CPoint front 0) (DefaultAccuracy E) = true.
Proof.
  intros Hnet Hvalid Hcopper. split.
  - unfold pruneLayer.
    destruct (GetNetCode z >? 0) eqn:Hgt; [apply Z.gtb_gt in Hgt; lia |].
    by rewrite Hvalid, Hcopper.
  - intros p. induction poly as [| q rest IH]; simpl.
    + split; [intros H; by apply elem_of_nil in H |].
      intros [H _]. by apply elem_of_nil in H.
    + destruct q as [| front holes]; simpl.
      * rewrite IH, elem_of_cons. split; [intros [Hin Hok]; by auto |].
        intros [[-> | Hin] Hok]; [| by auto].
        by destruct Hok as (? & ? & ? & _).
      * destruct (Contains E (m_boardOutline F) (CPoint front 0)
                           (DefaultAccuracy E)) eqn:Hc; simpl.
        -- rewrite !elem_of_cons, IH. split.
           ++ intros [-> | [Hin Hok]]; [| by auto].
              split; [by left | eauto].
           ++ intros [[-> | Hin] Hok]; [by left | by auto].
        -- rewrite IH, elem_of_cons. split; [intros [Hin Hok]; by auto |].
           intros [[-> | Hin] Hok]; [| by auto].
           destruct Hok as (front' & holes' & [= <- <-] & Hc'). congruence.
Qed.

(** ** Zones without net *)


(** C6, at the input where the code misses the claim.  A copper zone
    without net lies outside the valid board outline, and the connectivity
    search has no entry for its layer.  [Fill] succeeds and the zone keeps
    its polygon, although the polygon's sample point is outside the board
    outline: the layer is skipped before the test for zones without net is
    reached.  With an entry for the layer, even an empty one, the same
    polygon is deleted. *)
Lemma Fill_keeps_outside_polygon_of_netless_zone :
  let zs : ZONES := {[ 5%nat := Examples.netlessZone ]} in
  let polygon := [BoxKernel.rect 30000000 30000000 40000000 40000000] in
  let r := Fill Examples.K Examples.board true new_ZONE_FILLER zs ∅ [5%nat] false in
  let r' := Fill (Examples.KwithIslands []) Examples.board true new_ZONE_FILLER
                 zs ∅ [5%nat] false in
  outcomeOf r = Returns true
  /\ m_brdOutlinesValid (fillerOf r) = true
  /\ Contains Examples.K (m_boardOutline (fillerOf r)) (CPoint (hd [] polygon) 0)
              (DefaultAccuracy Examples.K) = false
  /\ Examples.filledPolys r 5 Examples.F_Cu = Some [polygon]
  /\ outcomeOf r' = Returns true
  /\ Examples.filledPolys r' 5 Examples.F_Cu = Some [].
Proof. vm_compute. repeat split. Qed.
(** * Further properties of [ZONE_FILLER::Fill] *)

Section FillListed.

Variable E : COLLABORATORS.
Variable B : BOARD.

Lemma collectZone_listed st zone id :
  id ∈ map m_zone (snd (collectZone E st zone)) ->
  id ∈ map m_zone (snd st) \/ id = zone.
Proof.
  destruct st as [[[zs staged] toFill] il]. unfold collectZone.
  destruct (zs !! zone) as [z |]; [| by left].
  destruct (GetIsKeepout z); [by left |]. simpl.
  by rewrite elem_of_map_m_zone_app.
Qed.

Lemma collect_listed aZones :
  forall st id,
    id ∈ map m_zone (snd (foldl (collectZone E) st aZones)) ->
    id ∈ map m_zone (snd st) \/ id ∈ aZones.
Proof.
  induction aZones as [| zone aZones IH]; intros st id Hid; simpl in *.
  - by left.
  - destruct (IH _ _ Hid) as [Hin | Hin].
    + destruct (collectZone_listed _ _ _ Hin) as [H | ->].
      * by left.
      * right. apply elem_of_cons. by left.
    + right. apply elem_of_cons. by right.
Qed.

Lemma Fill_frame_listed lockFree F zs staged aZones aCheck :
  let r := Fill E B lockFree F zs staged aZones aCheck in
  onlyTouches aZones zs (zonesOf r)
  /\ (forall id, id ∉ aZones -> commitOf r !! id = staged !! id).
Proof.
  unfold Fill. destruct lockFree; simpl.
  2:{ split; [apply onlyTouches_refl | done]. }
  pose proof (collect_collected E zs staged aZones _ (collected_start zs staged)) as Hc.
  pose proof (collect_listed aZones (zs, staged, [], [])) as Hl.
  destruct (foldl (collectZone E) (zs, staged, [], []) aZones)
    as [[[zs1 staged1] toFill] il].
  destruct Hc as (Htouch & Hcov & Hframe & Hrev & Hitems & Hzones).
  simpl in Hl.
  assert (Hsub : map m_zone il ⊆ aZones).
  { intros id Hid. destruct (Hl id Hid) as [H | H]; [| done].
    by apply elem_of_nil in H. }
  assert (Hall : forall zs', onlyTouches (map m_zone il) zs1 zs' ->
     onlyTouches aZones zs zs'
     /\ (forall id, id ∉ aZones -> staged1 !! id = staged !! id)).
  { intros zs' Hzs'. split.
    - eapply onlyTouches_mono; [apply Hsub |].
      eapply onlyTouches_trans; eauto.
    - intros id Hid. apply Hframe. intros Hin. apply Hid, Hsub, Hin. }
  pose proof (runWorkers_touches fst (fill_lambda E B (negb (m_ZoneUseNoOutlineInFill B)))
               (fill_lambda_touches E B _)
               (workerRuns (parallelThreadCount (hardware_concurrency E) aZones))
               toFill (with_outline F (BoardPolygonOutlines B)) zs1) as Hfill.
  destruct (runWorkers _ _ toFill _) as [F2 zs2]. simpl in Hfill.
  assert (Hfill' : onlyTouches (map m_zone il) zs1 zs2).
  { eapply onlyTouches_mono; [| apply Hfill]. intros id. apply Hitems. }
  destruct (cancelled (m_progressReporter F2)) as [c r].
  destruct c; [by apply Hall |]. simpl.
  destruct (cancelled r) as [c' r'].
  destruct c'; [by apply Hall |].
  match goal with
  | |- context [forEach (postZone E aCheck) ?l ?st] =>
    pose proof (postProcessing_touches E aCheck l st) as Hpost;
    destruct (forEach (postZone E aCheck) l st) as [[[F3 zs3] ood] | o [[F3 zs3] ood]]
  end; simpl in Hpost; rewrite map_m_zone_imap in Hpost.
  2:{ apply Hall. eapply onlyTouches_trans; eauto. }
  assert (Hpost' : onlyTouches (map m_zone il) zs1 zs3)
    by (eapply onlyTouches_trans; eauto).
  destruct (if aCheck && ood then _ else _) as [o |]; [by apply Hall |].
  match goal with
  | |- context [runWorkers tri_lambda ?n ?l (F3, zs3)] =>
    pose proof (runWorkers_touches m_zone tri_lambda tri_lambda_touches n l F3 zs3)
      as Htri;
    destruct (runWorkers tri_lambda n l (F3, zs3)) as [F4 zs4]
  end; simpl in Htri; rewrite map_m_zone_imap in Htri.
  assert (Htri' : onlyTouches (map m_zone il) zs1 zs4)
    by (eapply onlyTouches_trans; eauto).
  destruct (cancelled (m_progressReporter F4)) as [c4 r4].
  destruct c4; by apply Hall.
Qed.

End FillListed.

(** ** What [Fill] writes into a zone *)

Section Refilling.

Lemma refilled_refl z : refilled z z.
Proof. by destruct z. Qed.

Lemma refilled_trans z1 z2 z3 : refilled z1 z2 -> refilled z2 z3 -> refilled z1 z3.
Proof. unfold refilled. intros H12 H23. rewrite H23 at 1. by rewrite H12. Qed.

Lemma refilled_with_fill z f : refilled z (with_fill z f).
Proof. reflexivity. Qed.

Lemma keepsFill_refl z : keepsFill z z.
Proof. by repeat split. Qed.

Lemma keepsFill_trans z1 z2 z3 : keepsFill z1 z2 -> keepsFill z2 z3 -> keepsFill z1 z3.
Proof.
  intros (A1 & B1 & C1 & D1) (A2 & B2 & C2 & D2). repeat split; auto.
Qed.

Lemma refills_refl zs : refills zs zs.
Proof. intros id. destruct (zs !! id) as [z |]; [apply refilled_refl | done]. Qed.

Lemma refills_trans zs1 zs2 zs3 : refills zs1 zs2 -> refills zs2 zs3 -> refills zs1 zs3.
Proof.
  intros H12 H23 id. specialize (H12 id). specialize (H23 id).
  destruct (zs1 !! id) as [z1 |], (zs2 !! id) as [z2 |], (zs3 !! id) as [z3 |];
    try done.
  eapply refilled_trans; eauto.
Qed.

Lemma refills_insert zs id z z' :
  zs !! id = Some z -> refilled z z' -> refills zs (<[id := z']> zs).
Proof.
  intros Hz Hr id'. destruct (decide (id = id')) as [<- | Hne].
  - by rewrite lookup_insert_eq, Hz.
  - rewrite lookup_insert_ne by done.
    destruct (zs !! id') as [z0 |]; [apply refilled_refl | done].
Qed.

Lemma grows_refl zs : grows zs zs.
Proof.
  split; [apply refills_refl |].
  intros id z z' Hz Hz'. rewrite Hz in Hz'. injection Hz' as <-.
  apply keepsFill_refl.
Qed.

Lemma grows_trans zs1 zs2 zs3 : grows zs1 zs2 -> grows zs2 zs3 -> grows zs1 zs3.
Proof.
  intros [R12 K12] [R23 K23]. split; [eapply refills_trans; eauto |].
  intros id z1 z3 H1 H3. specialize (R12 id). rewrite H1 in R12.
  destruct (zs2 !! id) as [z2 |] eqn:H2; [| done].
  eapply keepsFill_trans; eauto.
Qed.

Lemma grows_insert zs id z z' :
  zs !! id = Some z -> refilled z z' -> keepsFill z z' ->
  grows zs (<[id := z']> zs).
Proof.
  intros Hz Hr Hk. split; [by eapply refills_insert |].
  intros id' z0 z0' H0 H0'. destruct (decide (id = id')) as [<- | Hne].
  - rewrite lookup_insert_eq in H0'. injection H0' as <-.
    rewrite Hz in H0. by injection H0 as <-.
  - rewrite lookup_insert_ne in H0' by done. rewrite H0 in H0'.
    injection H0' as <-. apply keepsFill_refl.
Qed.

Lemma grows_alter zs id (f : ZONE_CONTAINER -> ZONE_CONTAINER) :
  (forall z, refilled z (f z) /\ keepsFill z (f z)) ->
  grows zs (alter f id zs).
Proof.
  intros Hf. destruct (zs !! id) as [z |] eqn:Hz.
  - replace (alter f id zs) with (<[id := f z]> zs).
    + destruct (Hf z). by eapply grows_insert.
    + apply map_eq. intros id'. destruct (decide (id = id')) as [<- | Hne].
      * by rewrite lookup_insert_eq, lookup_alter_eq, Hz.
      * by rewrite lookup_insert_ne, lookup_alter_ne.
  - replace (alter f id zs) with zs; [apply grows_refl |].
    apply map_eq. intros id'. destruct (decide (id = id')) as [<- | Hne].
    + by rewrite lookup_alter_eq, Hz.
    + by rewrite lookup_alter_ne.
Qed.

End Refilling.

Section RefillingPhases.

Variable E : COLLABORATORS.
Variable B : BOARD.

Ltac keeps_by_insert :=
  repeat split; simpl; try done;
  let l' := fresh "l" in
  let Hp := fresh "Hp" in
  intros l' Hp;
  match goal with
  | |- is_Some (<[?k := _]> _ !! l') =>
    destruct (decide (k = l')) as [<- | Hne];
    [rewrite lookup_insert_eq | rewrite lookup_insert_ne by done]; eauto
  end.

Lemma SetFilledPolysList_keeps z l p :
  refilled z (SetFilledPolysList z l p) /\ keepsFill z (SetFilledPolysList z l p).
Proof. split; [reflexivity | keeps_by_insert]. Qed.

Lemma SetRawPolysList_keeps z l p :
  refilled z (SetRawPolysList z l p) /\ keepsFill z (SetRawPolysList z l p).
Proof. split; [reflexivity | keeps_by_insert]. Qed.

Lemma SetIsFilled_true_keeps z :
  refilled z (SetIsFilled z true) /\ keepsFill z (SetIsFilled z true).
Proof. split; [reflexivity | by repeat split]. Qed.

Lemma SetNeedRefill_keeps z b :
  refilled z (SetNeedRefill z b) /\ keepsFill z (SetNeedRefill z b).
Proof. split; [reflexivity | by repeat split]. Qed.

Lemma SetFilledPolysUseThickness_keeps z b :
  refilled z (SetFilledPolysUseThickness z b)
  /\ keepsFill z (SetFilledPolysUseThickness z b).
Proof. split; [reflexivity | by repeat split]. Qed.

Lemma SetFilledArea_keeps z a :
  refilled z (SetFilledArea z a) /\ keepsFill z (SetFilledArea z a).
Proof. split; [reflexivity | by repeat split]. Qed.

Lemma SetIsIsland_keeps z l idx :
  refilled z (SetIsIsland z l idx) /\ keepsFill z (SetIsIsland z l idx).
Proof. split; [reflexivity | by repeat split]. Qed.

Lemma SetHashValue_keeps z l h :
  refilled z (SetHashValue z l h) /\ keepsFill z (SetHashValue z l h).
Proof. split; [reflexivity | by repeat split]. Qed.

Lemma CacheTriangulation_keeps z :
  refilled z (CacheTriangulation z) /\ keepsFill z (CacheTriangulation z).
Proof. split; [reflexivity | by repeat split]. Qed.

Lemma both_trans z1 z2 z3 :
  refilled z1 z2 /\ keepsFill z1 z2 -> refilled z2 z3 /\ keepsFill z2 z3 ->
  refilled z1 z3 /\ keepsFill z1 z3.
Proof.
  intros [R1 K1] [R2 K2].
  split; [eapply refilled_trans | eapply keepsFill_trans]; eauto.
Qed.

Lemma both_refl z : refilled z z /\ keepsFill z z.
Proof. split; [apply refilled_refl | apply keepsFill_refl]. Qed.

(** The zone that [fillSingleZone] gives back is the zone it was given,
    with at most the refill flag cleared. *)
Lemma fillSingleZone_zone F aZone aLayer raw final :
  let z' := snd (fst (fst (fillSingleZone E B F aZone aLayer raw final))) in
  z' = aZone \/ z' = SetNeedRefill aZone false.
Proof.
  unfold fillSingleZone.
  destruct (BuildSmoothedPoly E aZone aLayer) as [[|] smoothed]; [| by left].
  destruct (cancelled (m_progressReporter F)) as [[|] r]; [by left |].
  destruct (IsOnCopperLayer aZone).
  - destruct (computeRawFilledArea E B (with_reporter F r) aZone aLayer smoothed
                                   raw final) as [[F' x] y]. by right.
  - destruct (fillNonCopper E B (with_reporter F r) aZone aLayer smoothed)
      as [x y]. by right.
Qed.

Lemma fillSingleZone_keeps F aZone aLayer raw final :
  let z' := snd (fst (fst (fillSingleZone E B F aZone aLayer raw final))) in
  refilled aZone z' /\ keepsFill aZone z'.
Proof.
  intros z'. destruct (fillSingleZone_zone F aZone aLayer raw final) as [H | H];
    fold z' in H; rewrite H; [apply both_refl | apply SetNeedRefill_keeps].
Qed.

Lemma BuildHashValue_refilled z l : refilled z (BuildHashValue E z l).
Proof.
  unfold BuildHashValue.
  destruct (m_FilledPolysList (fill z) !! l); [reflexivity | apply refilled_refl].
Qed.

Lemma foldl_BuildHashValue_refilled layers :
  forall z, refilled z (foldl (BuildHashValue E) z layers).
Proof.
  induction layers as [| l layers IH]; intros z; simpl; [apply refilled_refl |].
  eapply refilled_trans; [apply BuildHashValue_refilled | apply IH].
Qed.

Lemma collectZone_refills st zone :
  refills (fst (fst (fst st))) (fst (fst (fst (collectZone E st zone)))).
Proof.
  destruct st as [[[zs staged] toFill] il]. unfold collectZone. simpl.
  destruct (zs !! zone) as [z |] eqn:Hz; [| apply refills_refl].
  destruct (GetIsKeepout z); [apply refills_refl |]. simpl.
  eapply refills_insert; [exact Hz |].
  eapply refilled_trans; [apply foldl_BuildHashValue_refilled | reflexivity].
Qed.

Lemma collect_refills aZones :
  forall st, refills (fst (fst (fst st)))
                     (fst (fst (fst (foldl (collectZone E) st aZones)))).
Proof.
  induction aZones as [| zone aZones IH]; intros st; simpl; [apply refills_refl |].
  eapply refills_trans; [apply collectZone_refills | apply IH].
Qed.

(** The zone a fill worker stores for a work item. *)
Lemma fill_item_keeps fp F z layer :
  let '(_, _, z1, rawPolys, finalPolys) :=
    fillSingleZone E B F (SetFilledPolysUseThickness z fp) layer [] [] in
  let z' := SetIsFilled (SetFilledPolysList (SetRawPolysList z1 layer rawPolys)
                                            layer finalPolys) true in
  refilled z z' /\ keepsFill z z'
  /\ m_IsFilled (fill z') = true
  /\ is_Some (m_FilledPolysList (fill z') !! layer)
  /\ is_Some (m_RawPolysList (fill z') !! layer).
Proof.
  pose proof (fillSingleZone_keeps F (SetFilledPolysUseThickness z fp) layer [] [])
    as Hk.
  destruct (fillSingleZone E B F (SetFilledPolysUseThickness z fp) layer [] [])
    as [[[[ok F1] z1] raw] final]. simpl in Hk.
  assert (H : refilled z
                (SetIsFilled (SetFilledPolysList (SetRawPolysList z1 layer raw)
                                                 layer final) true)
              /\ keepsFill z
                   (SetIsFilled (SetFilledPolysList (SetRawPolysList z1 layer raw)
                                                    layer final) true)).
  { eapply both_trans; [apply SetFilledPolysUseThickness_keeps |].
    eapply both_trans; [apply Hk |].
    eapply both_trans; [apply SetRawPolysList_keeps |].
    eapply both_trans; [apply SetFilledPolysList_keeps |].
    apply SetIsFilled_true_keeps. }
  destruct H as [H1 H2].
  split; [exact H1 | split; [exact H2 | split; [reflexivity |]]].
  unfold SetIsFilled, SetFilledPolysList, SetRawPolysList; simpl.
  rewrite !lookup_insert_eq. eauto.
Qed.

Lemma fill_lambda_grows fp items :
  forall F zs, grows zs (snd (snd (fill_lambda E B fp items (F, zs)))).
Proof.
  induction items as [| [zone layer] rest IH]; intros F zs; simpl.
  - apply grows_refl.
  - destruct (zs !! zone) as [z |] eqn:Hz; [| apply IH].
    pose proof (fill_item_keeps fp F z layer) as Hitem.
    destruct (fillSingleZone E B F (SetFilledPolysUseThickness z fp) layer [] [])
      as [[[[ok F1] z1] raw] final].
    destruct Hitem as (Hr & Hk & _).
    destruct (cancelled (m_progressReporter F1)) as [c r].
    destruct c; simpl.
    + by eapply grows_insert.
    + eapply grows_trans; [by eapply grows_insert | apply IH].
Qed.

Lemma tri_lambda_grows items :
  forall F zs, grows zs (snd (snd (tri_lambda items (F, zs)))).
Proof.
  induction items as [| il rest IH]; intros F zs; simpl.
  - apply grows_refl.
  - destruct (cancelled (m_progressReporter F)) as [c r].
    destruct c; simpl.
    + apply grows_alter. apply CacheTriangulation_keeps.
    + eapply grows_trans; [| apply IH].
      apply grows_alter. apply CacheTriangulation_keeps.
Qed.

Lemma runWorkers_rel {A} (R : ZONES -> ZONES -> Prop)
    (worker : list A -> ZONE_FILLER * ZONES -> list A * (ZONE_FILLER * ZONES)) :
  (forall zs, R zs zs) ->
  (forall zs1 zs2 zs3, R zs1 zs2 -> R zs2 zs3 -> R zs1 zs3) ->
  (forall items F zs, R zs (snd (snd (worker items (F, zs))))) ->
  forall runs items F zs, R zs (snd (runWorkers worker runs items (F, zs))).
Proof.
  intros Hrefl Htrans Hworker. induction runs as [| runs IH]; intros items F zs.
  - apply Hrefl.
  - simpl. pose proof (Hworker items F zs) as H.
    destruct (worker items (F, zs)) as [items' [F' zs']]. simpl in H.
    eapply Htrans; [apply H | apply IH].
Qed.

Lemma removeIsland_keeps F layer mode minArea st idx :
  refilled (fst st) (fst (removeIsland E F layer mode minArea st idx))
  /\ keepsFill (fst st) (fst (removeIsland E F layer mode minArea st idx)).
Proof.
  destruct st as [z poly]. unfold removeIsland.
  destruct (deleteIsland E F mode minArea poly idx); simpl;
    [apply both_refl | apply SetIsIsland_keeps].
Qed.

Lemma foldl_removeIsland_keeps F layer mode minArea islands :
  forall st,
    refilled (fst st) (fst (foldl (removeIsland E F layer mode minArea) st islands))
    /\ keepsFill (fst st)
                 (fst (foldl (removeIsland E F layer mode minArea) st islands)).
Proof.
  induction islands as [| idx islands IH]; intros st; simpl; [apply both_refl |].
  eapply both_trans; [apply removeIsland_keeps | apply IH].
Qed.

Lemma pruneLayer_keeps F layer islands z poly :
  refilled z (fst (pruneLayer E F layer islands z poly))
  /\ keepsFill z (fst (pruneLayer E F layer islands z poly)).
Proof.
  unfold pruneLayer. destruct (GetNetCode z >? 0).
  - apply (foldl_removeIsland_keeps F layer _ _ _ (z, poly)).
  - destruct (m_brdOutlinesValid F && IsOnCopperLayer z); apply both_refl.
Qed.

Lemma postLayer_grows aCheck il st layer :
  grows (snd (fst st)) (snd (fst (flowState (postLayer E aCheck il st layer)))).
Proof.
  destruct st as [[F zs] outOfDate]. unfold postLayer.
  destruct (m_islands il !! layer) as [islands |]; [| apply grows_refl].
  destruct (zs !! m_zone il) as [z |] eqn:Hz; [| apply grows_refl].
  destruct (m_FilledPolysList (fill z) !! layer) as [poly |];
    [| apply grows_refl].
  pose proof (pruneLayer_keeps F layer islands z poly) as Hp.
  destruct (pruneLayer E F layer islands z poly) as [z' poly']. simpl in Hp.
  assert (Hk : refilled z (SetFilledArea (SetFilledPolysList z' layer poly')
                             (CalculateFilledArea E (SetFilledPolysList z' layer poly')))
               /\ keepsFill z (SetFilledArea (SetFilledPolysList z' layer poly')
                             (CalculateFilledArea E (SetFilledPolysList z' layer poly')))).
  { eapply both_trans; [apply Hp |].
    eapply both_trans; [apply SetFilledPolysList_keeps | apply SetFilledArea_keeps]. }
  destruct Hk as [Hk1 Hk2].
  destruct (cancelled (m_progressReporter F)) as [c r].
  destruct c; simpl; by eapply grows_insert.
Qed.

Lemma postZone_grows aCheck st il :
  grows (snd (fst st)) (snd (fst (flowState (postZone E aCheck st il)))).
Proof.
  unfold postZone. destruct st as [[F zs] outOfDate].
  destruct (zs !! m_zone il) as [z |]; [| apply grows_refl].
  apply (forEach_state (fun s s' => grows (snd (fst s)) (snd (fst s')))).
  - intros s. apply grows_refl.
  - intros s1 s2 s3. apply grows_trans.
  - intros s layer _. apply postLayer_grows.
Qed.

Lemma postProcessing_grows aCheck islandsList st :
  grows (snd (fst st))
        (snd (fst (flowState (forEach (postZone E aCheck) islandsList st)))).
Proof.
  apply (forEach_state (fun s s' => grows (snd (fst s)) (snd (fst s')))).
  - intros s. apply grows_refl.
  - intros s1 s2 s3. apply grows_trans.
  - intros s il _. apply postZone_grows.
Qed.

End RefillingPhases.

Section FillRefills.

Variable E : COLLABORATORS.
Variable B : BOARD.

(** Once the zones are collected, [Fill] only adds to what they hold, and
    the commit is what the first loop left. *)
Lemma Fill_grows F zs staged aZones aCheck :
  let r := Fill E B true F zs staged aZones aCheck in
  let st := foldl (collectZone E) (zs, staged, [], []) aZones in
  grows (fst (fst (fst st))) (zonesOf r) /\ commitOf r = snd (fst (fst st)).
Proof.
  unfold Fill. simpl.
  destruct (foldl (collectZone E) (zs, staged, [], []) aZones)
    as [[[zs1 staged1] toFill] il]. simpl.
  pose proof (runWorkers_rel grows (fill_lambda E B (negb (m_ZoneUseNoOutlineInFill B)))
               grows_refl grows_trans (fill_lambda_grows E B _)
               (workerRuns (parallelThreadCount (hardware_concurrency E) aZones))
               toFill (with_outline F (BoardPolygonOutlines B)) zs1) as Hfill.
  destruct (runWorkers _ _ toFill _) as [F2 zs2]. simpl in Hfill.
  destruct (cancelled (m_progressReporter F2)) as [c r].
  destruct c; [done |]. simpl.
  destruct (cancelled r) as [c' r'].
  destruct c'; [done |].
  match goal with
  | |- context [forEach (postZone E aCheck) ?l ?st] =>
    pose proof (postProcessing_grows E aCheck l st) as Hpost;
    destruct (forEach (postZone E aCheck) l st) as [[[F3 zs3] ood] | o [[F3 zs3] ood]]
  end; simpl in Hpost.
  2:{ split; [eapply grows_trans; eauto | done]. }
  assert (Hpost' : grows zs1 zs3) by (eapply grows_trans; eauto).
  destruct (if aCheck && ood then _ else _) as [o |]; [done |].
  match goal with
  | |- context [runWorkers tri_lambda ?n ?l (F3, zs3)] =>
    pose proof (runWorkers_rel grows tri_lambda grows_refl grows_trans
                  tri_lambda_grows n l F3 zs3) as Htri;
    destruct (runWorkers tri_lambda n l (F3, zs3)) as [F4 zs4]
  end; simpl in Htri.
  assert (Htri' : grows zs1 zs4) by (eapply grows_trans; eauto).
  destruct (cancelled (m_progressReporter F4)) as [c4 r4].
  destruct c4; done.
Qed.

Lemma Fill_refills lockFree F zs staged aZones aCheck :
  refills zs (zonesOf (Fill E B lockFree F zs staged aZones aCheck)).
Proof.
  destruct lockFree; [| apply refills_refl].
  destruct (Fill_grows F zs staged aZones aCheck) as [[Hr _] _].
  eapply refills_trans; [| apply Hr].
  apply (collect_refills E aZones (zs, staged, [], [])).
Qed.

End FillRefills.

(** ** A fill that nobody cancels *)

Section FillCompletes.

Variable E : COLLABORATORS.
Variable B : BOARD.

Lemma fillSingleZone_reporter F aZone aLayer raw final :
  neverCancelled (m_progressReporter F) ->
  neverCancelled
    (m_progressReporter
       (snd (fst (fst (fst (fillSingleZone E B F aZone aLayer raw final)))))).
Proof.
  intros Hn. unfold fillSingleZone.
  destruct (BuildSmoothedPoly E aZone aLayer) as [[|] smoothed]; [| done].
  destruct (cancelled_never _ Hn) as (r & -> & Hr). simpl.
  destruct (IsOnCopperLayer aZone).
  - destruct (computeRawFilledArea_never_cancelled
                E B (with_reporter F r) aZone aLayer smoothed raw final Hr)
      as (r' & Hr' & ->). done.
  - destruct (fillNonCopper E B (with_reporter F r) aZone aLayer smoothed)
      as [x y]. done.
Qed.

(** A worker that is not cancelled takes every item that is left. *)
Lemma fill_lambda_all fp items :
  forall F zs,
    neverCancelled (m_progressReporter F) ->
    exists F' zs',
      fill_lambda E B fp items (F, zs) = ([], (F', zs'))
      /\ neverCancelled (m_progressReporter F')
      /\ forall zone layer z,
          (zone, layer) ∈ items -> zs !! zone = Some z ->
          exists z', zs' !! zone = Some z'
                     /\ m_IsFilled (fill z') = true
                     /\ is_Some (m_FilledPolysList (fill z') !! layer)
                     /\ is_Some (m_RawPolysList (fill z') !! layer).
Proof.
  induction items as [| [zone layer] rest IH]; intros F zs Hn.
  - exists F, zs. repeat split; try done.
    intros zone layer z Hin. by apply elem_of_nil in Hin.
  - simpl. destruct (zs !! zone) as [z |] eqn:Hz.
    + pose proof (fill_item_keeps E B fp F z layer) as Hitem.
      pose proof (fillSingleZone_reporter F (SetFilledPolysUseThickness z fp)
                                          layer [] [] Hn) as Hrep.
      destruct (fillSingleZone E B F (SetFilledPolysUseThickness z fp) layer [] [])
        as [[[[ok F1] z1] raw] final]. simpl in Hrep.
      destruct Hitem as (Hr & Hk & Hfilled & Hf & Hw).
      destruct (cancelled_never _ Hrep) as (r & -> & Hr').
      set (znew := SetIsFilled (SetFilledPolysList (SetRawPolysList z1 layer raw)
                                                   layer final) true) in *.
      destruct (IH (with_reporter F1 r) (<[zone := znew]> zs) Hr')
        as (F' & zs' & Heq & Hn' & Hall).
      exists F', zs'. split; [exact Heq | split; [exact Hn' |]].
      pose proof (fill_lambda_grows E B fp rest (with_reporter F1 r)
                                    (<[zone := znew]> zs)) as Hg.
      rewrite Heq in Hg. simpl in Hg.
      intros zone' layer' z' Hin Hz'.
      apply elem_of_cons in Hin as [Hin | Hin].
      * injection Hin as -> ->.
        destruct Hg as [Hg1 Hg2]. specialize (Hg1 zone).
        rewrite lookup_insert_eq in Hg1.
        destruct (zs' !! zone) as [z'' |] eqn:Hz''; [| done].
        exists z''. split; [done |].
        destruct (Hg2 zone znew z'' (lookup_insert_eq _ _ _) Hz'')
          as (K1 & K2 & K3 & _).
        auto.
      * destruct (decide (zone = zone')) as [<- | Hne].
        -- apply (Hall zone layer' znew Hin). apply lookup_insert_eq.
        -- apply (Hall zone' layer' z' Hin). by rewrite lookup_insert_ne.
    + destruct (IH F zs Hn) as (F' & zs' & Heq & Hn' & Hall).
      exists F', zs'. split; [exact Heq | split; [exact Hn' |]].
      intros zone' layer' z' Hin Hz'.
      apply elem_of_cons in Hin as [Hin | Hin].
      * injection Hin as -> ->. congruence.
      * by apply (Hall zone' layer' z').
Qed.

Lemma tri_lambda_all items :
  forall F zs,
    neverCancelled (m_progressReporter F) ->
    exists F' zs',
      tri_lambda items (F, zs) = ([], (F', zs'))
      /\ neverCancelled (m_progressReporter F')
      /\ forall il z,
          il ∈ items -> zs !! m_zone il = Some z ->
          exists z', zs' !! m_zone il = Some z'
                     /\ m_triangulationValid (fill z') = true.
Proof.
  induction items as [| il rest IH]; intros F zs Hn.
  - exists F, zs. repeat split; try done.
    intros il z Hin. by apply elem_of_nil in Hin.
  - simpl. destruct (cancelled_never _ Hn) as (r & -> & Hr).
    destruct (IH (with_reporter F r) (alter CacheTriangulation (m_zone il) zs) Hr)
      as (F' & zs' & Heq & Hn' & Hall).
    exists F', zs'. split; [exact Heq | split; [exact Hn' |]].
    pose proof (tri_lambda_grows rest (with_reporter F r)
                  (alter CacheTriangulation (m_zone il) zs)) as Hg.
    rewrite Heq in Hg. simpl in Hg.
    intros il' z Hin Hz.
    apply elem_of_cons in Hin as [-> | Hin].
    + destruct Hg as [Hg1 Hg2]. specialize (Hg1 (m_zone il)).
      rewrite lookup_alter_eq, Hz in Hg1. simpl in Hg1.
      destruct (zs' !! m_zone il) as [z'' |] eqn:Hz''; [| done].
      exists z''. split; [done |].
      assert (Ha : alter CacheTriangulation (m_zone il) zs !! m_zone il
                   = Some (CacheTriangulation z))
        by (by rewrite lookup_alter_eq, Hz).
      destruct (Hg2 _ _ _ Ha Hz'') as (_ & _ & _ & K). by apply K.
    + destruct (decide (m_zone il = m_zone il')) as [Heq' | Hne].
      * apply (Hall il' (CacheTriangulation z) Hin).
        by rewrite <- Heq', lookup_alter_eq, Heq', Hz.
      * apply (Hall il' z Hin). by rewrite lookup_alter_ne.
Qed.

Lemma workerRuns_pos threads : exists n, workerRuns threads = S n.
Proof.
  unfold workerRuns. destruct (threads <=? 1)%nat eqn:Hle; [by exists 0%nat |].
  destruct threads as [| n]; [done | by exists n].
Qed.

Lemma runWorkers_done {A S : Type} (worker : list A -> S -> list A * S) :
  (forall s, worker [] s = ([], s)) ->
  forall runs s, runWorkers worker runs [] s = s.
Proof.
  intros Hnil. induction runs as [| runs IH]; intros s; simpl; [done |].
  by rewrite Hnil.
Qed.

Lemma forEach_continue {A S : Type} (Inv : S -> Prop) (body : S -> A -> flow S)
    (l : list A) :
  (forall s a, a ∈ l -> Inv s -> exists s', body s a = Continue s' /\ Inv s') ->
  forall s, Inv s -> exists s', forEach body l s = Continue s' /\ Inv s'.
Proof.
  induction l as [| a l IH]; intros Hbody s Hs; simpl.
  - by exists s.
  - destruct (Hbody s a) as (s1 & -> & Hs1); [apply elem_of_cons; by left | done |].
    apply IH; [| done].
    intros s0 a0 Ha0. apply Hbody, elem_of_cons. by right.
Qed.

(** The layer loop of the post-processing runs to its end when the zone
    holds polygons for the layer and nobody cancels. *)
Lemma postLayer_continues il zs0 z0 st layer :
  zs0 !! m_zone il = Some z0 ->
  is_Some (m_FilledPolysList (fill z0) !! layer) ->
  neverCancelled (m_progressReporter (fst (fst st))) ->
  grows zs0 (snd (fst st)) ->
  exists st',
    postLayer E false il st layer = Continue st'
    /\ neverCancelled (m_progressReporter (fst (fst st')))
    /\ grows zs0 (snd (fst st'))
    /\ snd st' = snd st.
Proof.
  intros Hz0 Hl Hn Hg. destruct st as [[F zs] ood]. simpl in *.
  pose proof (postLayer_grows E false il (F, zs, ood) layer) as Hstep.
  unfold postLayer in *.
  destruct (m_islands il !! layer) as [islands |]; [| by exists (F, zs, ood)].
  destruct Hg as [Hg1 Hg2]. pose proof (Hg1 (m_zone il)) as Hzz.
  rewrite Hz0 in Hzz.
  destruct (zs !! m_zone il) as [z |] eqn:Hz; [| done].
  destruct (Hg2 _ _ _ Hz0 Hz) as (K1 & _).
  destruct (K1 layer Hl) as [poly Hpoly]. rewrite Hpoly in *.
  destruct (pruneLayer E F layer islands z poly) as [z' poly'].
  destruct (cancelled_never _ Hn) as (r & Hc & Hr). rewrite Hc in *.
  simpl in *.
  eexists. split; [reflexivity |]. simpl.
  split; [done | split; [| done]].
  eapply grows_trans; [split; [exact Hg1 | exact Hg2] | exact Hstep].
Qed.

Lemma postZone_continues zs0 (islandsList : list CN_ZONE_ISOLATED_ISLAND_LIST) st il :
  (forall il z, il ∈ islandsList -> zs0 !! m_zone il = Some z ->
                filledOn (GetLayerSet z) z) ->
  il ∈ islandsList ->
  neverCancelled (m_progressReporter (fst (fst st))) ->
  grows zs0 (snd (fst st)) ->
  exists st',
    postZone E false st il = Continue st'
    /\ neverCancelled (m_progressReporter (fst (fst st')))
    /\ grows zs0 (snd (fst st'))
    /\ snd st' = snd st.
Proof.
  intros Hfilled Hil Hn Hg. destruct st as [[F zs] ood]. simpl in Hn, Hg.
  unfold postZone.
  destruct (zs !! m_zone il) as [z |] eqn:Hz; [| by exists (F, zs, ood)].
  pose proof (proj1 Hg (m_zone il)) as Hzz. rewrite Hz in Hzz.
  destruct (zs0 !! m_zone il) as [z0 |] eqn:Hz0; [| done].
  assert (Hlayers : GetLayerSet z = GetLayerSet z0) by (by rewrite Hzz).
  destruct (forEach_continue
              (fun s => neverCancelled (m_progressReporter (fst (fst s)))
                        /\ grows zs0 (snd (fst s)) /\ snd s = ood)
              (postLayer E false il) (GetLayerSet z)) with (s := (F, zs, ood))
    as (st' & Heq & H1 & H2 & H3).
  - intros s layer Hlayer (Hs1 & Hs2 & Hs3).
    destruct (postLayer_continues il zs0 z0 s layer Hz0) as (s' & Hs' & A & C & D);
      try done.
    + apply (Hfilled il z0 Hil Hz0). by rewrite <- Hlayers.
    + exists s'. split; [exact Hs' |]. split; [exact A |].
      split; [exact C | by rewrite D].
  - done.
  - exists st'. done.
Qed.

Lemma postProcessing_continues zs0 (islandsList : list CN_ZONE_ISOLATED_ISLAND_LIST) F :
  (forall il z, il ∈ islandsList -> zs0 !! m_zone il = Some z ->
                filledOn (GetLayerSet z) z) ->
  neverCancelled (m_progressReporter F) ->
  exists F' zs',
    forEach (postZone E false) islandsList (F, zs0, false) = Continue (F', zs', false)
    /\ neverCancelled (m_progressReporter F')
    /\ grows zs0 zs'.
Proof.
  intros Hfilled Hn.
  destruct (forEach_continue
              (fun s => neverCancelled (m_progressReporter (fst (fst s)))
                        /\ grows zs0 (snd (fst s)) /\ snd s = false)
              (postZone E false) islandsList) with (s := (F, zs0, false))
    as (st' & Heq & H1 & H2 & H3).
  - intros s il Hil (Hs1 & Hs2 & Hs3).
    destruct (postZone_continues zs0 islandsList s il Hfilled Hil Hs1 Hs2)
      as (s' & Hs' & A & C & D).
    exists s'. split; [exact Hs' |]. split; [exact A |].
    split; [exact C | by rewrite D].
  - split; [exact Hn | split; [apply grows_refl | reflexivity]].
  - destruct st' as [[F' zs'] ood']. simpl in *. subst ood'.
    by exists F', zs'.
Qed.

End FillCompletes.

Section FillCollects.

Variable E : COLLABORATORS.

Lemma collectZone_itemised st zone : itemised st -> itemised (collectZone E st zone).
Proof.
  destruct st as [[[zs staged] toFill] il]. intros HJ. unfold collectZone.
  destruct (zs !! zone) as [z |] eqn:Hz; [| done].
  destruct (GetIsKeepout z); [done |].
  assert (Hlayers : GetLayerSet (UnFill (foldl (BuildHashValue E) z (GetLayerSet z)))
                    = GetLayerSet z).
  { pose proof (foldl_BuildHashValue_refilled E (GetLayerSet z) z) as Hr.
    unfold UnFill. simpl. by rewrite Hr. }
  intros id Hid. rewrite elem_of_map_m_zone_app in Hid.
  destruct (decide (id = zone)) as [-> | Hne].
  - eexists. split; [apply lookup_insert_eq |].
    intros l Hl. rewrite Hlayers in Hl. apply elem_of_app. right.
    apply list_elem_of_In, in_map, list_elem_of_In, Hl.
  - destruct Hid as [Hid | Hid]; [| done].
    destruct (HJ id Hid) as (z0 & Hz0 & Hitems).
    exists z0. split; [by rewrite lookup_insert_ne |].
    intros l Hl. apply elem_of_app. left. by apply Hitems.
Qed.

Lemma collect_itemised aZones :
  forall st, itemised st -> itemised (foldl (collectZone E) st aZones).
Proof.
  induction aZones as [| zone aZones IH]; intros st Hst; [done |].
  simpl. apply IH, collectZone_itemised, Hst.
Qed.

Lemma collectZone_mono st zone id :
  id ∈ map m_zone (snd st) -> id ∈ map m_zone (snd (collectZone E st zone)).
Proof.
  destruct st as [[[zs staged] toFill] il]. unfold collectZone. simpl.
  destruct (zs !! zone) as [z |]; [| done].
  destruct (GetIsKeepout z); [done |]. simpl.
  rewrite elem_of_map_m_zone_app. by left.
Qed.

Lemma collect_mono aZones :
  forall st id,
    id ∈ map m_zone (snd st) ->
    id ∈ map m_zone (snd (foldl (collectZone E) st aZones)).
Proof.
  induction aZones as [| zone aZones IH]; intros st id Hid; [done |].
  simpl. apply IH, collectZone_mono, Hid.
Qed.

(** A zone of the list that is no keepout gets onto the island list. *)
Lemma collect_lists aZones :
  forall st id z,
    id ∈ aZones -> fst (fst (fst st)) !! id = Some z -> GetIsKeepout z = false ->
    id ∈ map m_zone (snd (foldl (collectZone E) st aZones)).
Proof.
  induction aZones as [| zone aZones IH]; intros st id z Hin Hz Hkeep.
  - by apply elem_of_nil in Hin.
  - simpl. apply elem_of_cons in Hin as [-> | Hin].
    + apply collect_mono.
      destruct st as [[[zs staged] toFill] il]. simpl in Hz.
      unfold collectZone. rewrite Hz, Hkeep. simpl.
      rewrite elem_of_map_m_zone_app. by right.
    + pose proof (collectZone_refills E st zone id) as Hr. rewrite Hz in Hr.
      destruct (fst (fst (fst (collectZone E st zone))) !! id) as [z' |] eqn:Hz';
        [| done].
      apply (IH _ id z' Hin Hz'). by rewrite Hr.
Qed.

End FillCollects.

(** * The hatch step and the zones that are not hatched *)

Section PlainZones.

Variable E : COLLABORATORS.
Variable hatch : BOARD -> Z -> Z -> ZONE_CONTAINER -> PCB_LAYER_ID -> SHAPE_POLY_SET
                 -> SHAPE_POLY_SET.
Variable B : BOARD.

Lemma fillSingleZone_plain F z l raw fin :
  GetFillMode z <> HATCH_PATTERN ->
  fillSingleZone (withHatch E hatch) B F z l raw fin = fillSingleZone E B F z l raw fin.
Proof.
  intros Hplain.
  unfold fillSingleZone, computeRawFilledArea, fillNonCopper.
  rewrite !(bool_decide_eq_false_2 _ Hplain).
  reflexivity.
Qed.


Lemma plainOn_refills ids zs zs' : refills zs zs' -> plainOn ids zs -> plainOn ids zs'.
Proof.
  intros Hr Hp id z' Hid Hz'. specialize (Hr id). rewrite Hz' in Hr.
  destruct (zs !! id) as [z |] eqn:Hz; [| done].
  rewrite Hr. simpl. by apply (Hp id z).
Qed.

Lemma fill_lambda_plain fp ids items :
  forall F zs,
    (forall x, x ∈ items -> fst x ∈ ids) ->
    plainOn ids zs ->
    fill_lambda (withHatch E hatch) B fp items (F, zs)
    = fill_lambda E B fp items (F, zs).
Proof.
  induction items as [| [zone layer] rest IH]; intros F zs Hids Hplain; [done |].
  assert (Hrest : forall x, x ∈ rest -> fst x ∈ ids)
    by (intros x Hx; apply Hids, elem_of_cons; by right).
  cbn [fill_lambda].
  destruct (zs !! zone) as [z |] eqn:Hz; [| by apply IH].
  assert (Hmode : GetFillMode (SetFilledPolysUseThickness z fp) <> HATCH_PATTERN).
  { apply (Hplain zone z); [| done]. apply (Hids (zone, layer)), elem_of_cons. by left. }
  rewrite (fillSingleZone_plain F _ layer [] [] Hmode).
  pose proof (fill_item_keeps E B fp F z layer) as Hitem.
  destruct (fillSingleZone E B F (SetFilledPolysUseThickness z fp) layer [] [])
    as [[[[ok F1] z1] raw] final].
  destruct Hitem as (Hr & _).
  destruct (cancelled (m_progressReporter F1)) as [c r].
  destruct c; [done |].
  apply IH; [exact Hrest |].
  intros id z0 Hid Hz0.
  destruct (decide (id = zone)) as [-> | Hne].
  - rewrite lookup_insert_eq in Hz0. injection Hz0 as <-.
    rewrite Hr. simpl. by apply (Hplain zone z).
  - rewrite lookup_insert_ne in Hz0 by done. by apply (Hplain id z0).
Qed.

Lemma runWorkers_plain fp ids runs :
  forall items F zs,
    (forall x, x ∈ items -> fst x ∈ ids) ->
    plainOn ids zs ->
    runWorkers (fill_lambda (withHatch E hatch) B fp) runs items (F, zs)
    = runWorkers (fill_lambda E B fp) runs items (F, zs).
Proof.
  induction runs as [| runs IH]; intros items F zs Hids Hplain; [done |].
  cbn [runWorkers]. rewrite (fill_lambda_plain fp ids items F zs Hids Hplain).
  pose proof (fill_lambda_touches E B fp items F zs) as [_ Hsub].
  pose proof (fill_lambda_grows E B fp items F zs) as [Hr _].
  destruct (fill_lambda E B fp items (F, zs)) as [items' [F' zs']].
  simpl in Hsub, Hr.
  apply IH.
  - intros x Hx. by apply Hids, Hsub.
  - by eapply plainOn_refills.
Qed.

(** [Fill] takes the hatch step for hatched zones only. *)
Lemma Fill_plain lockFree F zs staged aZones aCheck :
  plainOn aZones zs ->
  Fill (withHatch E hatch) B lockFree F zs staged aZones aCheck
  = Fill E B lockFree F zs staged aZones aCheck.
Proof.
  intros Hplain. unfold Fill.
  destruct lockFree; [| done]. cbn [negb].
  change (foldl (collectZone (withHatch E hatch)) (zs, staged, [], []) aZones)
    with (foldl (collectZone E) (zs, staged, [], []) aZones).
  pose proof (collect_collected E zs staged aZones _ (collected_start zs staged)) as Hc.
  pose proof (collect_listed E aZones (zs, staged, [], [])) as Hl.
  pose proof (collect_refills E aZones (zs, staged, [], [])) as Hr.
  destruct (foldl (collectZone E) (zs, staged, [], []) aZones)
    as [[[zs1 staged1] toFill] il].
  destruct Hc as (_ & _ & _ & _ & Hitems & _).
  simpl in Hl, Hr.
  rewrite (runWorkers_plain _ aZones).
  - reflexivity.
  - intros x Hx. destruct (Hl (fst x)) as [Hin | Hin]; [| by apply elem_of_nil in Hin | done].
    apply Hitems. apply list_elem_of_In, in_map, list_elem_of_In, Hx.
  - by eapply plainOn_refills.
Qed.

End PlainZones.

(** In the embedding, where the hatch step is a function that always
    gives a result: with the lock free, no check asked for and a user who
    never cancels, [Fill] returns true and has filled every zone of the
    list that is no keepout. *)
Lemma Fill_runs_when_nobody_cancels :
  forall (E : COLLABORATORS) (B : BOARD) (F : ZONE_FILLER) (zs staged : ZONES)
         (aZones : list nat),
    neverCancelled (m_progressReporter F) ->
    islandsInRange E ->
    let r := Fill E B true F zs staged aZones false in
    outcomeOf r = Returns true
    /\ forall id z,
        id ∈ aZones -> zs !! id = Some z -> GetIsKeepout z = false ->
        exists z',
          zonesOf r !! id = Some z'
          /\ refilled z z'
          /\ filledOn (GetLayerSet z) z'
          /\ (GetLayerSet z <> [] -> m_IsFilled (fill z') = true)
          /\ m_triangulationValid (fill z') = true.
Proof.
  intros E B F zs staged aZones Hn _.
  pose proof (collect_itemised E aZones (zs, staged, [], [])) as HJ.
  pose proof (collect_lists E aZones (zs, staged, [], [])) as HL.
  pose proof (collect_refills E aZones (zs, staged, [], [])) as HR.
  unfold Fill. simpl negb. cbv iota.
  destruct (foldl (collectZone E) (zs, staged, [], []) aZones)
    as [[[zs1 staged1] toFill] il].
  simpl in HJ, HL, HR.
  assert (HJ' : forall id, id ∈ map m_zone il ->
                  exists z, zs1 !! id = Some z
                            /\ forall l, l ∈ GetLayerSet z -> (id, l) ∈ toFill).
  { apply HJ. intros id Hid. by apply elem_of_nil in Hid. }
  clear HJ.
  destruct (workerRuns_pos (parallelThreadCount (hardware_concurrency E) aZones))
    as (n & ->).
  assert (Hn0 : neverCancelled
                  (m_progressReporter (with_outline F (BoardPolygonOutlines B))))
    by done.
  destruct (fill_lambda_all E B (negb (m_ZoneUseNoOutlineInFill B)) toFill
              (with_outline F (BoardPolygonOutlines B)) zs1 Hn0)
    as (F2 & zs2 & Hfill & Hn2 & Hall2).
  pose proof (fill_lambda_grows E B (negb (m_ZoneUseNoOutlineInFill B)) toFill
                (with_outline F (BoardPolygonOutlines B)) zs1) as Hg12.
  rewrite Hfill in Hg12. simpl in Hg12.
  cbn [runWorkers]. rewrite Hfill.
  rewrite runWorkers_done by done.
  destruct (cancelled_never _ Hn2) as (r2 & -> & Hr2). cbn [m_progressReporter with_reporter].
  destruct (cancelled_never _ Hr2) as (r3 & -> & Hr3).
  set (il' := imap _ il).
  assert (Hids : map m_zone il' = map m_zone il) by apply map_m_zone_imap.
  assert (Hfilled : forall il0 z, il0 ∈ il' -> zs2 !! m_zone il0 = Some z ->
                                  filledOn (GetLayerSet z) z).
  { intros il0 z Hil0 Hz l Hl.
    assert (Hid : m_zone il0 ∈ map m_zone il).
    { rewrite <- Hids. apply list_elem_of_In, in_map, list_elem_of_In, Hil0. }
    destruct (HJ' _ Hid) as (z1 & Hz1 & Hitems).
    assert (Hsame : GetLayerSet z = GetLayerSet z1).
    { pose proof (proj1 Hg12 (m_zone il0)) as Hr. rewrite Hz1, Hz in Hr.
      by rewrite Hr. }
    rewrite Hsame in Hl.
    destruct (Hall2 _ _ _ (Hitems l Hl) Hz1) as (z' & Hz' & _ & Hf & Hw).
    rewrite Hz in Hz'. injection Hz' as <-. done. }
  destruct (postProcessing_continues E zs2 il' (with_reporter (with_reporter F2 r2) r3)
              Hfilled Hr3) as (F3 & zs3 & -> & Hn3 & Hg23).
  cbn [andb].
  destruct (tri_lambda_all il' F3 zs3 Hn3) as (F4 & zs4 & Htri & Hn4 & Hall4).
  pose proof (tri_lambda_grows il' F3 zs3) as Hg34.
  rewrite Htri in Hg34. simpl in Hg34.
  rewrite Htri. rewrite runWorkers_done by done.
  destruct (cancelled_never _ Hn4) as (r4 & -> & Hr4).
  split; [reflexivity |].
  unfold zonesOf. simpl.
  intros id z Hin Hz Hkeep.
  assert (Hid : id ∈ map m_zone il) by (by eapply HL).
  destruct (HJ' _ Hid) as (z1 & Hz1 & Hitems).
  assert (Hg14 : grows zs1 zs4)
    by (eapply grows_trans; [exact Hg12 | eapply grows_trans; eauto]).
  assert (Hg24 : grows zs2 zs4) by (eapply grows_trans; eauto).
  pose proof (HR id) as Hr01. rewrite Hz, Hz1 in Hr01.
  pose proof (proj1 Hg14 id) as Hr14. rewrite Hz1 in Hr14.
  destruct (zs4 !! id) as [z4 |] eqn:Hz4; [| done].
  pose proof (proj1 Hg12 id) as Hr12. rewrite Hz1 in Hr12.
  destruct (zs2 !! id) as [z2 |] eqn:Hz2; [| done].
  pose proof (proj1 Hg23 id) as Hr23. rewrite Hz2 in Hr23.
  destruct (zs3 !! id) as [z3 |] eqn:Hz3; [| done].
  destruct (proj2 Hg24 id z2 z4 Hz2 Hz4) as (K1 & K2 & K3 & K4).
  assert (Hlayers : GetLayerSet z = GetLayerSet z1) by (by rewrite Hr01).
  exists z4. split; [done |].
  split; [eapply refilled_trans; eauto |].
  split; [| split].
  - intros l Hl. rewrite Hlayers in Hl.
    destruct (Hall2 _ _ _ (Hitems l Hl) Hz1) as (z' & Hz' & _ & Hf & Hw).
    rewrite Hz2 in Hz'. injection Hz' as <-. split; auto.
  - intros Hne. rewrite Hlayers in Hne.
    destruct (GetLayerSet z1) as [| l ls] eqn:Hls; [done |].
    destruct (Hall2 id l z1) as (z' & Hz' & Hf & _); [| done |].
    { apply Hitems. apply elem_of_cons. by left. }
    rewrite Hz2 in Hz'. injection Hz' as <-. auto.
  - assert (Hex : exists il0, il0 ∈ il' /\ m_zone il0 = id).
    { rewrite <- Hids in Hid. apply list_elem_of_In, in_map_iff in Hid.
      destruct Hid as (il0 & Heq & Hil0). exists il0.
      split; [by apply list_elem_of_In | done]. }
    destruct Hex as (il0 & Hil0 & <-).
    destruct (Hall4 il0 z3 Hil0 Hz3) as (z' & Hz' & Ht).
    rewrite Hz4 in Hz'. by injection Hz' as <-.
Qed.

(** X1.  With the lock free, no check asked for, a user who never cancels
    and no zone of the list filled with a hatch pattern, [Fill] returns
    true, and every zone of the list that is no keepout has kept its
    settings, holds raw and filled polygons for each of its layers (empty
    ones where the outline could not be smoothed: the status of
    [fillSingleZone] is not looked at), is marked filled when it has a layer
    at all, and has its triangulation cached.  The hatch step, which need
    not return, is not taken for such zones: whatever it would give, the
    result of [Fill] is the same.  The island indices are taken to lie
    inside the polygon sets, which is what the deletion by index relies
    on. *)
Theorem Fill_completes_when_nobody_cancels :
  forall (E : COLLABORATORS) (B : BOARD) (F : ZONE_FILLER) (zs staged : ZONES)
         (aZones : list nat),
    neverCancelled (m_progressReporter F) ->
    islandsInRange E ->
    plainOn aZones zs ->
    let r := Fill E B true F zs staged aZones false in
    outcomeOf r = Returns true
    /\ (forall hatch,
           Fill (withHatch E hatch) B true F zs staged aZones false = r)
    /\ forall id z,
        id ∈ aZones -> zs !! id = Some z -> GetIsKeepout z = false ->
        exists z',
          zonesOf r !! id = Some z'
          /\ refilled z z'
          /\ filledOn (GetLayerSet z) z'
          /\ (GetLayerSet z <> [] -> m_IsFilled (fill z') = true)
          /\ m_triangulationValid (fill z') = true.
Proof.
  intros E B F zs staged aZones Hn Hi Hplain r.
  destruct (Fill_runs_when_nobody_cancels E B F zs staged aZones Hn Hi)
    as [Htrue Hfilled].
  split; [exact Htrue |]. split; [| exact Hfilled].
  intros hatch. by apply Fill_plain.
Qed.

(** The two zones of the example board, neither of them hatched, with no
    reporter installed: the fill goes through. *)
Lemma Fill_completes_when_nobody_cancels_witness :
  let r := Fill Examples.K Examples.board true new_ZONE_FILLER
                Examples.zones ∅ [1%nat; 2%nat] false in
  neverCancelled (m_progressReporter new_ZONE_FILLER)
  /\ islandsInRange Examples.K
  /\ plainOn [1%nat; 2%nat] Examples.zones
  /\ outcomeOf r = Returns true.
Proof.
  intros r.
  assert (Hn : neverCancelled (m_progressReporter new_ZONE_FILLER)) by exact I.
  assert (Hi : islandsInRange Examples.K).
  { intros zs ids i id z layer islands idx _ _ Hl. simpl in Hl.
    rewrite lookup_empty in Hl. discriminate Hl. }
  assert (Hplain : plainOn [1%nat; 2%nat] Examples.zones).
  { intros id z Hid Hz.
    apply elem_of_cons in Hid as [-> | Hid];
      [| apply elem_of_cons in Hid as [-> | Hid];
         [| by apply elem_of_nil in Hid]];
      vm_compute in Hz; injection Hz as <-; discriminate. }
  split; [exact Hn | split; [exact Hi | split; [exact Hplain |]]].
  exact (proj1 (Fill_completes_when_nobody_cancels
                  Examples.K Examples.board new_ZONE_FILLER Examples.zones ∅
                  [1%nat; 2%nat] Hn Hi Hplain)).
Defined.

(** X2.  [Fill] works on the zones of its list only: whatever it returns, a
    zone that is not on the list is as it was, and the commit has learnt
    nothing about it. *)
Theorem Fill_changes_only_the_zones_it_is_given :
  forall (E : COLLABORATORS) (B : BOARD) (lockFree : bool) (F : ZONE_FILLER)
         (zs staged : ZONES) (aZones : list nat) (aCheck : bool) (id : nat),
    id ∉ aZones ->
    let r := Fill E B lockFree F zs staged aZones aCheck in
    zonesOf r !! id = zs !! id /\ commitOf r !! id = staged !! id.
Proof.
  intros E B lockFree F zs staged aZones aCheck id Hid r.
  destruct (Fill_frame_listed E B lockFree F zs staged aZones aCheck) as [H1 H2].
  split; [by apply H1 | by apply H2].
Qed.

(** The copper zone is filled while the silkscreen zone, which is not on
    the list, keeps its state. *)
Lemma Fill_changes_only_the_zones_it_is_given_witness :
  let r := Fill Examples.K Examples.board true new_ZONE_FILLER
                Examples2.copperAndSilk ∅ [1%nat] false in
  (3%nat ∉ [1%nat])
  /\ zonesOf r !! 1%nat <> Examples2.copperAndSilk !! 1%nat
  /\ zonesOf r !! 3%nat = Examples2.copperAndSilk !! 3%nat
  /\ commitOf r !! 3%nat = None.
Proof.
  intros r.
  assert (Hout : 3%nat ∉ [1%nat]).
  { intros Hin. apply list_elem_of_singleton in Hin. discriminate Hin. }
  pose proof (Fill_changes_only_the_zones_it_is_given
                Examples.K Examples.board true new_ZONE_FILLER
                Examples2.copperAndSilk ∅ [1%nat] false 3%nat Hout) as [H1 H2].
  split; [exact Hout | split; [| split; [exact H1 | exact H2]]].
  vm_compute. intros Heq. discriminate Heq.
Defined.

(** X3.  [Fill] neither adds nor removes a zone, and of a zone it changes
    nothing but the fill state: layer set, net, keepout flag and the other
    settings are what they were, whatever [Fill] returns.  What the commit
    holds for a zone is what it held before or, if it held nothing, the
    zone as it was when [Fill] was called. *)
Theorem Fill_rewrites_only_the_fill_state :
  forall (E : COLLABORATORS) (B : BOARD) (lockFree : bool) (F : ZONE_FILLER)
         (zs staged : ZONES) (aZones : list nat) (aCheck : bool) (id : nat),
    let r := Fill E B lockFree F zs staged aZones aCheck in
    match zs !! id, zonesOf r !! id with
    | Some z, Some z' => z' = with_fill z (fill z')
    | None, None => True
    | _, _ => False
    end
    /\ (commitOf r !! id = staged !! id
        \/ (staged !! id = None /\ commitOf r !! id = zs !! id)).
Proof.
  intros E B lockFree F zs staged aZones aCheck id r. split.
  - apply (Fill_refills E B lockFree F zs staged aZones aCheck id).
  - destruct (Fill_frame E B lockFree F zs staged aZones aCheck)
      as (ids & _ & Hcov & Hframe & Hrev & _).
    fold r in Hcov, Hframe, Hrev.
    destruct (decide (id ∈ ids)) as [Hin | Hout]; [| left; by apply Hframe].
    destruct (Hcov id Hin) as [c Hc].
    apply (f_equal (fun m => m !! id)) in Hrev. unfold Revert in Hrev.
    rewrite !lookup_union, Hc in Hrev. rewrite union_Some_l in Hrev.
    destruct (staged !! id) as [s |] eqn:Hs.
    + left. rewrite union_Some_l in Hrev. by rewrite Hc.
    + right. split; [done |]. rewrite (left_id_L None _) in Hrev.
      by rewrite Hc.
Qed.

(** * Islands: which polygons go, and what the flags say *)

Section IslandFlags.

Variable E : COLLABORATORS.
Variable F : ZONE_FILLER.
Variable layer : PCB_LAYER_ID.
Variable mode : ISLAND_REMOVAL_MODE.
Variable minArea : Z.
Variable poly0 : SHAPE_POLY_SET.
Variable keep : nat -> bool.

(** The island loop, on zone and polygons together. *)
Lemma foldl_removeIsland_pair l :
  forall j z,
    StronglySorted (flip Nat.lt) l ->
    (forall i, i ∈ l -> (i < j)%nat) ->
    (j <= length poly0)%nat ->
    (forall k, (k < j)%nat -> k ∉ l -> keep k = true) ->
    (forall i, i ∈ l -> keep i = negb (deleteIsland E F mode minArea poly0 i)) ->
    foldl (removeIsland E F layer mode minArea)
          (z, take j poly0 ++ keptPolygons keep j (drop j poly0)) l
    = (flagIslands z layer (List.filter keep l), keptPolygons keep 0 poly0).
Proof.
  induction l as [| idx l IH]; intros j z Hsorted Hbound Hj Hrest Hisl.
  - simpl. f_equal. rewrite <- (take_drop j poly0) at 3.
    rewrite keptPolygons_all_kept.
    + rewrite length_take. simpl. f_equal. f_equal. lia.
    + intros k Hk. rewrite length_take in Hk. apply Hrest; [lia |].
      intros Hin. by apply elem_of_nil in Hin.
  - apply StronglySorted_inv in Hsorted as [Hsorted Hall].
    rewrite Forall_forall in Hall.
    assert (Hidx : (idx < j)%nat) by (apply Hbound, elem_of_cons; by left).
    assert (Hmid : forall k, (idx < k < j)%nat -> keep k = true).
    { intros k Hk. apply Hrest; [lia |]. intros Hin.
      apply elem_of_cons in Hin as [-> | Hin]; [lia |].
      specialize (Hall k Hin). unfold flip in Hall. lia. }
    pose proof (prefix_step poly0 keep idx j Hidx Hj Hmid) as Hstep.
    simpl.
    rewrite (deleteIsland_Outline E F mode minArea _ poly0 idx)
      by (eapply Outline_prefix; [apply Hidx | apply Hj | reflexivity]).
    pose proof (Hisl idx ltac:(apply elem_of_cons; by left)) as Hk.
    rewrite Hk in Hstep. rewrite Hk.
    destruct (deleteIsland E F mode minArea poly0 idx); simpl in Hstep |- *;
      rewrite <- Hstep; apply IH; try done.
    all: try (intros i Hi; apply Hall, Hi).
    all: try lia.
    all: try (intros k Hk' Hout; apply Hrest; [lia |];
              intros Hin; apply elem_of_cons in Hin as [-> | Hin]; [lia | done]).
    all: intros i Hi; apply Hisl, elem_of_cons; by right.
Qed.

End IslandFlags.

Lemma flagIslands_flags (layer : PCB_LAYER_ID) (kept : list nat) :
  forall z k,
    k ∈ islandFlags (flagIslands z layer kept) layer
    <-> k ∈ islandFlags z layer \/ k ∈ kept.
Proof.
  induction kept as [| idx kept IH]; intros z k; simpl.
  - split; [by left | intros [H | H]; [done | by apply elem_of_nil in H]].
  - unfold flagIslands in *. simpl. rewrite IH.
    unfold islandFlags, SetIsIsland. simpl. rewrite lookup_insert_eq. simpl.
    rewrite elem_of_union, elem_of_singleton, elem_of_cons. tauto.
Qed.

Lemma flagIslands_elsewhere (layer : PCB_LAYER_ID) (kept : list nat) :
  forall z,
    (forall l, l <> layer ->
               m_insulatedIslands (fill (flagIslands z layer kept)) !! l
               = m_insulatedIslands (fill z) !! l)
    /\ m_FilledPolysList (fill (flagIslands z layer kept)) = m_FilledPolysList (fill z)
    /\ m_IsFilled (fill (flagIslands z layer kept)) = m_IsFilled (fill z).
Proof.
  induction kept as [| idx kept IH]; intros z; simpl; [done |].
  unfold flagIslands in *. simpl.
  destruct (IH (SetIsIsland z layer idx)) as (H1 & H2 & H3).
  split; [| split].
  - intros l Hl. rewrite H1 by done. unfold SetIsIsland. simpl.
    by rewrite lookup_insert_ne.
  - by rewrite H2.
  - by rewrite H3.
Qed.

Lemma keptPolygons_lookup (keep : nat -> bool) :
  forall (poly : SHAPE_POLY_SET) j k p,
    poly !! k = Some p -> keep (j + k)%nat = true ->
    keptPolygons keep j poly !! countFrom keep j k = Some p.
Proof.
  induction poly as [| q rest IH]; intros j k p Hp Hk; [done |].
  destruct k as [| k]; simpl in *.
  - rewrite Nat.add_0_r in Hk. rewrite Hk. simpl. done.
  - replace (j + S k)%nat with (S j + k)%nat in Hk by lia.
    destruct (keep j); simpl; by apply IH.
Qed.

Lemma countFrom_split (P : nat -> bool) :
  forall n j, (countFrom P j n + countFrom (fun i => negb (P i)) j n = n)%nat.
Proof.
  induction n as [| n IH]; intros j; simpl; [done |].
  specialize (IH (S j)). destruct (P j); simpl; lia.
Qed.

Lemma keptPolygons_elem (keep : nat -> bool) :
  forall (poly : SHAPE_POLY_SET) j p,
    p ∈ keptPolygons keep j poly ->
    exists k, poly !! k = Some p /\ keep (j + k)%nat = true.
Proof.
  induction poly as [| q rest IH]; intros j p Hp; simpl in Hp.
  - by apply elem_of_nil in Hp.
  - destruct (keep j) eqn:Hj.
    + apply elem_of_cons in Hp as [-> | Hp].
      * exists 0%nat. by rewrite Nat.add_0_r.
      * destruct (IH _ _ Hp) as (k & Hk & Hkeep). exists (S k).
        split; [done |]. by replace (j + S k)%nat with (S j + k)%nat by lia.
    + destruct (IH _ _ Hp) as (k & Hk & Hkeep). exists (S k).
      split; [done |]. by replace (j + S k)%nat with (S j + k)%nat by lia.
Qed.

Section IslandPruning.

Variable E : COLLABORATORS.
Variable F : ZONE_FILLER.
Variable layer : PCB_LAYER_ID.

Lemma length_keptPolygons (keep : nat -> bool) :
  forall (poly : SHAPE_POLY_SET) j,
    length (keptPolygons keep j poly) = countFrom keep j (length poly).
Proof.
  induction poly as [| q rest IH]; intros j; simpl; [done |].
  destruct (keep j); simpl; by rewrite IH.
Qed.

(** Zone and polygons after the island loop of a zone with a net. *)
Lemma pruneLayer_pair (islands : list nat) (z : ZONE_CONTAINER) (poly : SHAPE_POLY_SET) :
  0 < GetNetCode z ->
  NoDup islands ->
  (forall i, i ∈ islands -> (i < length poly)%nat) ->
  let keep := fun k =>
    negb (bool_decide (k ∈ islands)
          && deleteIsland E F (GetIslandRemovalMode z) (GetMinIslandArea z) poly k) in
  pruneLayer E F layer islands z poly
  = (flagIslands z layer (List.filter keep (sortDescending islands)),
     keptPolygons keep 0 poly).
Proof.
  intros Hnet Hnodup Hrange keep. unfold pruneLayer.
  rewrite (proj2 (Z.gtb_gt _ _)) by lia.
  assert (Hperm : sortDescending islands ≡ₚ islands)
    by apply merge_sort_Permutation.
  assert (Hin : forall i, i ∈ sortDescending islands <-> i ∈ islands)
    by (intros i; by rewrite Hperm).
  assert (Hstart : poly = take (length poly) poly
                          ++ keptPolygons keep (length poly) (drop (length poly) poly)).
  { rewrite take_ge, drop_ge by lia. simpl. by rewrite app_nil_r. }
  rewrite Hstart at 1.
  apply foldl_removeIsland_pair.
  - apply StronglySorted_descending.
    + by rewrite Hperm.
    + apply (StronglySorted_merge_sort (flip Nat.le)).
  - intros i Hi. apply Hrange, Hin, Hi.
  - lia.
  - intros k _ Hout. unfold keep.
    rewrite bool_decide_eq_false_2; [done |]. intros Hk. by apply Hout, Hin.
  - intros i Hi. unfold keep.
    rewrite bool_decide_eq_true_2; [done |]. by apply Hin.
Qed.

Lemma countFrom_negb_negb (P : nat -> bool) :
  forall n j, countFrom (fun i => negb (negb (P i))) j n = countFrom P j n.
Proof.
  induction n as [| n IH]; intros j; simpl; [done |].
  by rewrite negb_involutive, IH.
Qed.

(** Where a polygon that stays is found. *)
Lemma keptPolygons_position (condemned : nat -> bool) (poly : SHAPE_POLY_SET) k p :
  poly !! k = Some p -> condemned k = false ->
  keptPolygons (fun i => negb (condemned i)) 0 poly
    !! (k - countFrom condemned 0 k)%nat = Some p.
Proof.
  intros Hk Hc.
  pose proof (countFrom_split (fun i => negb (condemned i)) k 0) as Hsplit.
  cbv beta in Hsplit. rewrite countFrom_negb_negb in Hsplit.
  replace (k - countFrom condemned 0 k)%nat
    with (countFrom (fun i => negb (condemned i)) 0 k) by lia.
  apply keptPolygons_lookup; [done |]. simpl. by rewrite Hc.
Qed.

End IslandPruning.

(** X4.  For a zone with a net, the island loop judges every listed polygon
    as it stood before the loop began and deletes exactly the listed
    polygons that the test condemns (removal mode [ALWAYS]; mode [AREA] and
    an outline area below the minimum island area; a first outline point
    outside the board outline).  Deleting from the highest index down leaves
    the indices still to come untouched: what stays are the other polygons,
    in their order, each moved down by the number of polygons deleted before
    it.  The island indices are those of polygons of the layer, each listed
    once. *)
Theorem island_loop_deletes_the_condemned_polygons :
  forall (E : COLLABORATORS) (F : ZONE_FILLER) (layer : PCB_LAYER_ID)
         (islands : list nat) (z : ZONE_CONTAINER) (poly : SHAPE_POLY_SET),
    0 < GetNetCode z ->
    NoDup islands ->
    (forall i, i ∈ islands -> (i < length poly)%nat) ->
    let condemned := fun k =>
      bool_decide (k ∈ islands)
      && deleteIsland E F (GetIslandRemovalMode z) (GetMinIslandArea z) poly k in
    let result := snd (pruneLayer E F layer islands z poly) in
    result = keptPolygons (fun k => negb (condemned k)) 0 poly
    /\ (forall p, p ∈ result ->
                  exists k, poly !! k = Some p /\ condemned k = false)
    /\ (forall k p, poly !! k = Some p -> condemned k = false ->
                    result !! (k - countFrom condemned 0 k)%nat = Some p)
    /\ length result = (length poly - countFrom condemned 0 (length poly))%nat.
Proof.
  intros E F layer islands z poly Hnet Hnodup Hrange condemned result.
  assert (Hres : result = keptPolygons (fun k => negb (condemned k)) 0 poly).
  { unfold result.
    by rewrite (pruneLayer_pair E F layer islands z poly Hnet Hnodup Hrange). }
  split; [exact Hres | split; [| split]].
  - intros p Hp. rewrite Hres in Hp.
    destruct (keptPolygons_elem _ _ _ _ Hp) as (k & Hk & Hkeep).
    exists k. split; [done |]. simpl in Hkeep. by apply negb_true_iff.
  - intros k p Hk Hc. rewrite Hres. by apply keptPolygons_position.
  - rewrite Hres, length_keptPolygons.
    pose proof (countFrom_split (fun i => negb (condemned i)) (length poly) 0)
      as Hsplit.
    cbv beta in Hsplit. rewrite countFrom_negb_negb in Hsplit. lia.
Qed.

(** Three regions, the second and the third listed as islands, the second
    below the minimum island area: it alone is deleted, and the third
    region is found at index 1. *)
Lemma island_loop_deletes_the_condemned_polygons_witness :
  let result := snd (pruneLayer Examples.K Examples2.fillerOnBoard Examples.F_Cu
                                [1%nat; 2%nat] Examples2.areaZone
                                Examples2.threeRegions) in
  0 < GetNetCode Examples2.areaZone
  /\ NoDup [1%nat; 2%nat]
  /\ result = [ [BoxKernel.rect 0 0 4000000 4000000];
                [BoxKernel.rect 5000000 5000000 9000000 9000000] ]
  /\ length result = 2%nat.
Proof.
  intros result.
  assert (Hnet : 0 < GetNetCode Examples2.areaZone) by reflexivity.
  assert (Hnodup : NoDup [1%nat; 2%nat]).
  { apply (bool_decide_unpack _). vm_compute. exact I. }
  assert (Hrange : forall i, i ∈ [1%nat; 2%nat] ->
                             (i < length Examples2.threeRegions)%nat).
  { intros i Hi. apply elem_of_cons in Hi as [-> | Hi]; [simpl; lia |].
    apply list_elem_of_singleton in Hi as ->. simpl. lia. }
  destruct (island_loop_deletes_the_condemned_polygons
              Examples.K Examples2.fillerOnBoard Examples.F_Cu [1%nat; 2%nat]
              Examples2.areaZone Examples2.threeRegions Hnet Hnodup Hrange)
    as (H1 & _ & _ & H4).
  split; [exact Hnet | split; [exact Hnodup | split]].
  - vm_compute. reflexivity.
  - vm_compute. reflexivity.
Defined.

(** X5.  An island that stays is flagged under the index it had when the
    loop began ([SetIsIsland( layer, idx )]); the flags of other layers are
    not touched.  The polygon itself is found lower by the number of
    polygons deleted before it, so after a deletion below it the flag and
    the polygon no longer meet. *)
Theorem islands_that_stay_are_flagged_by_their_old_index :
  forall (E : COLLABORATORS) (F : ZONE_FILLER) (layer : PCB_LAYER_ID)
         (islands : list nat) (z : ZONE_CONTAINER) (poly : SHAPE_POLY_SET),
    0 < GetNetCode z ->
    NoDup islands ->
    (forall i, i ∈ islands -> (i < length poly)%nat) ->
    let condemned := fun k =>
      bool_decide (k ∈ islands)
      && deleteIsland E F (GetIslandRemovalMode z) (GetMinIslandArea z) poly k in
    let z' := fst (pruneLayer E F layer islands z poly) in
    let result := snd (pruneLayer E F layer islands z poly) in
    (forall k, k ∈ islandFlags z' layer
               <-> k ∈ islandFlags z layer \/ (k ∈ islands /\ condemned k = false))
    /\ (forall l, l <> layer -> islandFlags z' l = islandFlags z l)
    /\ (forall k p, k ∈ islands -> condemned k = false -> poly !! k = Some p ->
                    k ∈ islandFlags z' layer
                    /\ result !! (k - countFrom condemned 0 k)%nat = Some p).
Proof.
  intros E F layer islands z poly Hnet Hnodup Hrange condemned z' result.
  pose proof (pruneLayer_pair E F layer islands z poly Hnet Hnodup Hrange) as Hpair.
  simpl in Hpair.
  assert (Hflags : forall k, k ∈ islandFlags z' layer
             <-> k ∈ islandFlags z layer \/ (k ∈ islands /\ condemned k = false)).
  { intros k. unfold z'. rewrite Hpair. simpl. rewrite flagIslands_flags.
    rewrite list_elem_of_In, filter_In, <- list_elem_of_In.
    assert (Hperm : sortDescending islands ≡ₚ islands)
      by apply merge_sort_Permutation.
    rewrite Hperm. fold (condemned k). rewrite negb_true_iff. tauto. }
  split; [exact Hflags | split].
  - intros l Hl. unfold z', islandFlags. rewrite Hpair. simpl.
    by rewrite (proj1 (flagIslands_elsewhere layer _ z) l Hl).
  - intros k p Hk Hc Hp. split; [apply Hflags; by right |].
    unfold result. rewrite Hpair. simpl. by apply keptPolygons_position.
Qed.

(** The same three regions: the third is flagged as island number 2 and is
    the polygon at index 1 of what stays; there is no polygon at index 2. *)
Lemma islands_that_stay_are_flagged_by_their_old_index_witness :
  let z' := fst (pruneLayer Examples.K Examples2.fillerOnBoard Examples.F_Cu
                            [1%nat; 2%nat] Examples2.areaZone
                            Examples2.threeRegions) in
  let result := snd (pruneLayer Examples.K Examples2.fillerOnBoard Examples.F_Cu
                                [1%nat; 2%nat] Examples2.areaZone
                                Examples2.threeRegions) in
  0 < GetNetCode Examples2.areaZone
  /\ NoDup [1%nat; 2%nat]
  /\ 2%nat ∈ islandFlags z' Examples.F_Cu
  /\ result !! 1%nat = Some [BoxKernel.rect 5000000 5000000 9000000 9000000]
  /\ result !! 2%nat = None.
Proof.
  intros z' result.
  assert (Hnet : 0 < GetNetCode Examples2.areaZone) by reflexivity.
  assert (Hnodup : NoDup [1%nat; 2%nat]).
  { apply (bool_decide_unpack _). vm_compute. exact I. }
  assert (Hrange : forall i, i ∈ [1%nat; 2%nat] ->
                             (i < length Examples2.threeRegions)%nat).
  { intros i Hi. apply elem_of_cons in Hi as [-> | Hi]; [simpl; lia |].
    apply list_elem_of_singleton in Hi as ->. simpl. lia. }
  destruct (islands_that_stay_are_flagged_by_their_old_index
              Examples.K Examples2.fillerOnBoard Examples.F_Cu [1%nat; 2%nat]
              Examples2.areaZone Examples2.threeRegions Hnet Hnodup Hrange)
    as (_ & _ & H3).
  assert (Hin : 2%nat ∈ [1%nat; 2%nat]).
  { apply elem_of_cons. right. apply elem_of_cons. by left. }
  destruct (H3 2%nat [BoxKernel.rect 5000000 5000000 9000000 9000000] Hin)
    as [Hflag Hpos]; [vm_compute; reflexivity | reflexivity |].
  split; [exact Hnet | split; [exact Hnodup | split; [exact Hflag | split]]].
  - exact Hpos.
  - vm_compute. reflexivity.
Defined.

(** * The tool actions that fill all zones *)

Section ToolActions.

Variable E : COLLABORATORS.
Variable B : BOARD.

Lemma with_zones_same (fr : Tool.PCB_EDIT_FRAME) :
  Tool.with_zones fr (Tool.zoneStore fr) = fr.
Proof. by destruct fr. Qed.

(** What [Fill] on a fresh commit leaves to a caller that pushes on
    success and reverts on failure. *)
Lemma Fill_then_push_or_revert lockFree F zs aZones aCheck :
  let r := Fill E B lockFree F zs ∅ aZones aCheck in
  Revert (zonesOf r) (commitOf r) = zs /\ refills zs (zonesOf r).
Proof.
  intros r. split.
  - destruct (Fill_frame E B lockFree F zs ∅ aZones aCheck)
      as (ids & _ & _ & _ & Hrev & _).
    fold r in Hrev. by rewrite Hrev, Revert_empty.
  - apply Fill_refills.
Qed.

(** [Fill] on an empty list: nothing is filled; the reporter is asked three
    times whether the user has cancelled. *)
Lemma Fill_of_no_zone F zs staged aCheck :
  zonesOf (Fill E B true F zs staged [] aCheck) = zs
  /\ commitOf (Fill E B true F zs staged [] aCheck) = staged.
Proof.
  destruct (Fill_frame_listed E B true F zs staged [] aCheck) as [H1 H2].
  split.
  - apply map_eq. intros id. apply H1. intros Hin. by apply elem_of_nil in Hin.
  - apply map_eq. intros id. apply H2. intros Hin. by apply elem_of_nil in Hin.
Qed.

End ToolActions.

(** X6.  [CheckAllZones] and [FillAllZones] are all or nothing over the
    zones of the board: when [Fill] returns true the commit is pushed once,
    by [commit.Push( "Fill Zone(s)", false )], the dirty flag is cleared and
    the zones differ from before in their fill state only; when [Fill]
    returns false nothing is pushed and the frame is exactly what it was,
    zones and dirty flag.  [CheckAllZones] on a frame whose fills are not
    dirty does nothing at all. *)
Theorem filling_all_zones_is_all_or_nothing :
  forall (E : COLLABORATORS) (B : BOARD) (lockFree : bool) (script : nat -> bool)
         (aReporter : option PROGRESS_REPORTER) (fr : Tool.PCB_EDIT_FRAME),
    let settled (r : option outcome * Tool.PCB_EDIT_FRAME) :=
      match fst r with
      | Some (Returns true) =>
        Tool.pushes (snd r) = ("Fill Zone(s)"%string, false) :: Tool.pushes fr
        /\ Tool.m_ZoneFillsDirty (snd r) = false
        /\ Tool.Zones (snd r) = Tool.Zones fr
        /\ refills (Tool.zoneStore fr) (Tool.zoneStore (snd r))
      | Some (Returns false) => snd r = fr
      | Some Throws =>
        Tool.pushes (snd r) = Tool.pushes fr
        /\ Tool.m_ZoneFillsDirty (snd r) = Tool.m_ZoneFillsDirty fr
      | None => False
      end in
    (if Tool.m_ZoneFillsDirty fr
     then settled (Tool.CheckAllZones E B lockFree script aReporter fr)
     else Tool.CheckAllZones E B lockFree script aReporter fr = (None, fr))
    /\ settled (Tool.FillAllZones E B lockFree script aReporter fr)
    /\ Tool.ZoneFillAll E B lockFree script fr
       = Tool.FillAllZones E B lockFree script None fr.
Proof.
  intros E B lockFree script aReporter fr settled.
  assert (Hgen : forall aCheck,
    let '(o, _, zs, commit) :=
      Fill E B lockFree (Tool.fillerFor aReporter script) (Tool.zoneStore fr) ∅
           (Tool.Zones fr) aCheck in
    settled (match o with
          | Returns true => (Some o, Tool.pushed fr zs "Fill Zone(s)" false false)
          | Returns false => (Some o, Tool.with_zones fr (Revert zs commit))
          | Throws => (Some o, Tool.with_zones fr zs)
          end)).
  { intros aCheck.
    pose proof (Fill_then_push_or_revert E B lockFree (Tool.fillerFor aReporter script)
                  (Tool.zoneStore fr) (Tool.Zones fr) aCheck) as [Hrev Href].
    destruct (Fill E B lockFree _ (Tool.zoneStore fr) ∅ (Tool.Zones fr) aCheck)
      as [[[o F'] zs'] staged'].
    unfold zonesOf, commitOf in Hrev, Href. simpl in Hrev, Href.
    destruct o as [[|] |]; unfold settled; simpl.
    - done.
    - rewrite Hrev. apply with_zones_same.
    - done. }
  split; [| split; [| reflexivity]].
  - unfold Tool.CheckAllZones. destruct (Tool.m_ZoneFillsDirty fr); simpl; [| done].
    specialize (Hgen true).
    by destruct (Fill E B lockFree _ (Tool.zoneStore fr) ∅ (Tool.Zones fr) true)
      as [[[o F'] zs'] staged'].
  - unfold Tool.FillAllZones. specialize (Hgen false).
    by destruct (Fill E B lockFree _ (Tool.zoneStore fr) ∅ (Tool.Zones fr) false)
      as [[[o F'] zs'] staged'].
Qed.

(** X7.  When the event of [ZoneFill] carries an item, the selection is not
    looked at; and when that item is no zone area, [Fill] is called on an
    empty list: no zone changes, and unless the lock is taken or the user
    cancels at one of the three polls, the empty commit is pushed all the
    same, by [commit.Push( "Fill Zone(s)", false )]. *)
Theorem ZoneFill_of_an_item_that_is_no_zone :
  forall (E : COLLABORATORS) (B : BOARD) (lockFree : bool) (script : nat -> bool)
         (zone : nat) (type : Tool.KICAD_T) (selection selection' : list (nat * bool))
         (fr : Tool.PCB_EDIT_FRAME),
    Tool.ZoneFillEvent E B lockFree script (Some (zone, type)) selection fr
    = Tool.ZoneFillEvent E B lockFree script (Some (zone, type)) selection' fr
    /\ let r := Tool.ZoneFillEvent E B lockFree script
                                   (Some (zone, Tool.PCB_OTHER_T)) selection fr in
       Tool.zoneStore (snd r) = Tool.zoneStore fr
       /\ (fst r = Returns true \/ fst r = Returns false)
       /\ (fst r = Returns true <->
           lockFree = true /\ script 0%nat = false /\ script 1%nat = false
           /\ script 2%nat = false)
       /\ (fst r = Returns true ->
           Tool.pushes (snd r) = ("Fill Zone(s)"%string, false) :: Tool.pushes fr)
       /\ (fst r = Returns false -> snd r = fr).
Proof.
  intros E B lockFree script zone type selection selection' fr.
  split; [reflexivity |].
  unfold Tool.ZoneFillEvent, Tool.zoneFillList, ZoneFill.
  rewrite bool_decide_eq_false_2 by discriminate.
  destruct lockFree.
  2:{ simpl. rewrite Revert_empty. destruct fr. simpl.
      repeat split; try done; try (by right); intros H; try discriminate H.
      by destruct H. }
  unfold Fill. simpl.
  unfold parallelThreadCount. simpl length. rewrite Nat.min_0_r. simpl.
  destruct (script 0%nat) eqn:H0; simpl.
  { rewrite Revert_empty. destruct fr. simpl.
    repeat split; try done; try (by right); intros H; try discriminate H.
    destruct H as (_ & H & _). discriminate H. }
  destruct (script 1%nat) eqn:H1; simpl.
  { rewrite Revert_empty. destruct fr. simpl.
    repeat split; try done; try (by right); intros H; try discriminate H.
    destruct H as (_ & _ & H & _). discriminate H. }
  destruct (script 2%nat) eqn:H2; simpl.
  { rewrite Revert_empty. destruct fr. simpl.
    repeat split; try done; try (by right); intros H; try discriminate H.
    destruct H as (_ & _ & _ & H). discriminate H. }
  repeat split; try done; by left.
Qed.

(** * The copper fill and the filler it runs in *)

(** X8.  On a copper layer the fill of a zone does not depend on the filler
    it runs in: two fillers that differ in their arc settings, their board
    outline or their reporter give the same status, the same zone and the
    same raw and final polygons, as long as neither user cancels.
    [computeRawFilledArea] sets both arc settings from the board before it
    uses them; after a fill that got that far the filler carries the
    board's maximum error as [m_high_def]. *)
Theorem copper_fill_does_not_depend_on_the_filler :
  forall (E : COLLABORATORS) (B : BOARD) (F1 F2 : ZONE_FILLER)
         (aZone : ZONE_CONTAINER) (aLayer : PCB_LAYER_ID)
         (aRawPolys aFinalPolys : SHAPE_POLY_SET),
    IsOnCopperLayer aZone = true ->
    neverCancelled (m_progressReporter F1) ->
    neverCancelled (m_progressReporter F2) ->
    let r1 := fillSingleZone E B F1 aZone aLayer aRawPolys aFinalPolys in
    let r2 := fillSingleZone E B F2 aZone aLayer aRawPolys aFinalPolys in
    fst (fst (fst (fst r1))) = fst (fst (fst (fst r2)))
    /\ snd (fst (fst r1)) = snd (fst (fst r2))
    /\ snd (fst r1) = snd (fst r2)
    /\ snd r1 = snd r2
    /\ (fst (fst (fst (fst r1))) = true ->
        m_high_def (snd (fst (fst (fst r1)))) = m_MaxError B
        /\ m_high_def (snd (fst (fst (fst r2)))) = m_MaxError B).
Proof.
  intros E B F1 F2 aZone aLayer raw final Hcopper Hn1 Hn2 r1 r2.
  destruct (BuildSmoothedPoly E aZone aLayer) as [ok smoothed] eqn:Hsmooth.
  destruct ok.
  - destruct (fillSingleZone_on_a_copper_layer E B F1 aZone aLayer smoothed raw final
                Hcopper Hsmooth Hn1) as (F1' & Heq1 & Hdef1).
    destruct (fillSingleZone_on_a_copper_layer E B F2 aZone aLayer smoothed raw final
                Hcopper Hsmooth Hn2) as (F2' & Heq2 & Hdef2).
    unfold r1, r2. rewrite Heq1, Heq2. simpl. done.
  - unfold r1, r2, fillSingleZone. rewrite Hsmooth. simpl.
    repeat split; done.
Qed.

(** The copper zone of the example board, filled by a new filler and by one
    that carries other arc settings. *)
Lemma copper_fill_does_not_depend_on_the_filler_witness :
  let r1 := fillSingleZone Examples.K Examples.board new_ZONE_FILLER
                           Examples.copperZone Examples.F_Cu [] [] in
  let r2 := fillSingleZone Examples.K Examples.board
                           (with_defs new_ZONE_FILLER 123 45)
                           Examples.copperZone Examples.F_Cu [] [] in
  IsOnCopperLayer Examples.copperZone = true
  /\ m_high_def (with_defs new_ZONE_FILLER 123 45) <> m_high_def new_ZONE_FILLER
  /\ snd r1 = snd r2.
Proof.
  intros r1 r2.
  assert (Hc : IsOnCopperLayer Examples.copperZone = true) by reflexivity.
  split; [exact Hc | split; [by vm_compute |]].
  exact (proj1 (proj2 (proj2 (proj2
           (copper_fill_does_not_depend_on_the_filler
              Examples.K Examples.board new_ZONE_FILLER
              (with_defs new_ZONE_FILLER 123 45)
              Examples.copperZone Examples.F_Cu [] [] Hc I I))))).
Defined.

(** * The router session *)

Section RouterSession.

Import PNS.

Variables P D : Type.
Variable C : COLLABORATORS P D.

Implicit Types r : ROUTER P D.

Ltac open_router r :=
  let Hw := fresh "Hw" in let Hi := fresh "Hi" in let Hs := fresh "Hs" in
  let Hp := fresh "Hp" in let Hd := fresh "Hd" in
  intros (Hw & Hi & Hs & Hp & Hd);
  destruct r as [state mode world placer dragger iface settings sizes logger
                 currentEnd force reason];
  simpl in Hw, Hi, Hs, Hp, Hd;
  destruct Hw as [w ->], Hi as [trace ->], Hs as [s ->].

Ltac close_router :=
  eexists; split; [reflexivity |];
  unfold wellFormed; simpl;
  repeat split; eauto; try (intros; discriminate); try done.

(** What the steps of an operation keep of the router. *)
Lemma call_wellFormed r calls :
  wellFormed r ->
  exists r', call r calls = Some r' /\ wellFormed r'
             /\ m_state r' = m_state r /\ m_placer r' = m_placer r
             /\ m_dragger r' = m_dragger r /\ m_world r' = m_world r.
Proof. open_router r. unfold call. simpl. close_router. Qed.

Lemma absorb_wellFormed r e :
  wellFormed r ->
  exists r', absorb r e = Some r' /\ wellFormed r'
             /\ m_state r' = m_state r /\ m_placer r' = m_placer r
             /\ m_dragger r' = m_dragger r.
Proof.
  open_router r. unfold absorb, callEach, call. simpl.
  destruct (eff_reason e), (eff_calls e); simpl;
    eexists; (split; [reflexivity |]); unfold wellFormed; simpl;
    repeat split; eauto.
Qed.

Lemma callEach_wellFormed r calls :
  wellFormed r ->
  exists r', callEach r calls = Some r' /\ wellFormed r'
             /\ m_state r' = m_state r /\ m_placer r' = m_placer r
             /\ m_dragger r' = m_dragger r /\ m_world r' = m_world r.
Proof.
  intros Hwf. destruct calls; [by exists r | by apply call_wellFormed].
Qed.

Lemma updateView_wellFormed r aNode aCurrent aDragging :
  wellFormed r ->
  exists r', updateView C r aNode aCurrent aDragging = Some r' /\ wellFormed r'
             /\ m_state r' = m_state r /\ m_placer r' = m_placer r
             /\ m_dragger r' = m_dragger r.
Proof.
  open_router r. unfold updateView, callEach, call. simpl.
  destruct aNode as [node |]; [| close_router].
  destruct (bool_decide (Mode s = Router.RM_MarkObstacles) || force);
    [destruct (markViolations C node aCurrent) as [calls removed] |];
    destruct (GetUpdatedItems C node) as [removed' added]; simpl.
  - destruct calls, added, (removed ++ removed'); simpl; close_router.
  - destruct added, removed'; simpl; close_router.
Qed.

Lemma set_placer_wellFormed r p :
  wellFormed r -> wellFormed (set_placer r (Some p)).
Proof. intros (?&?&?&?&?). repeat split; simpl; eauto. Qed.

Lemma set_dragger_wellFormed r d :
  wellFormed r -> wellFormed (set_dragger r (Some d)).
Proof. intros (?&?&?&?&?). repeat split; simpl; eauto. Qed.

Lemma StopRouting_wellFormed r :
  wellFormed r ->
  exists r', StopRouting C r = Some r' /\ wellFormed r' /\ m_state r' = Router.IDLE.
Proof.
  open_router r. unfold StopRouting, RoutingInProgress, callEach, call. simpl.
  destruct placer as [p |]; simpl;
    [destruct (placer_GetModifiedNets C p); simpl |];
    destruct state; simpl; close_router.
Qed.

Lemma Move_wellFormed r aP endItem :
  wellFormed r ->
  exists r', Move C r aP endItem = Some r' /\ wellFormed r'.
Proof.
  intros Hwf. unfold Move.
  set (r0 := Log (set_currentEnd r aP) (EVT_MOVE aP endItem)).
  assert (Hwf0 : wellFormed r0) by (destruct Hwf as (?&?&?&?&?); by repeat split).
  clearbody r0. clear Hwf.
  destruct (m_state r0) eqn:Hstate.
  - by exists r0.
  - unfold moveDragging.
    destruct (call_wellFormed r0 [EraseView] Hwf0)
      as (r1 & -> & Hwf1 & Hst1 & Hpl1 & Hdr1 & Hw1).
    cbn [mbind option_bind].
    destruct (proj2 (proj2 (proj2 (proj2 Hwf1)))) as [d Hd]; [congruence |].
    rewrite Hd. cbn [mbind option_bind].
    destruct (dragger_Drag C d (m_world r1) aP) as [[ok d'] e].
    destruct (absorb_wellFormed _ e (set_dragger_wellFormed r1 d' Hwf1))
      as (r2 & -> & Hwf2 & _).
    cbn [mbind option_bind].
    destruct (updateView_wellFormed r2 (dragger_CurrentNode C d') (dragger_Traces C d')
                true Hwf2) as (r3 & -> & Hwf3 & _).
    by exists r3.
  - unfold movePlacing.
    destruct (call_wellFormed r0 [EraseView] Hwf0)
      as (r1 & -> & Hwf1 & Hst1 & Hpl1 & Hdr1 & Hw1).
    cbn [mbind option_bind].
    destruct (proj1 (proj2 (proj2 (proj2 Hwf1)))) as [p Hp]; [congruence |].
    rewrite Hp. cbn [mbind option_bind].
    destruct (placer_Move C p (m_world r1) aP endItem) as [[ok p'] e].
    destruct (absorb_wellFormed _ e (set_placer_wellFormed r1 p' Hwf1))
      as (r2 & -> & Hwf2 & _).
    cbn [mbind option_bind].
    destruct (callEach_wellFormed r2 (concat (map (showTrace C) (placer_Traces C p'))) Hwf2)
      as (r3 & -> & Hwf3 & _).
    cbn [mbind option_bind].
    destruct (updateView_wellFormed r3 (placer_CurrentNode C p' true)
                (placer_Traces C p') false Hwf3) as (r4 & -> & Hwf4 & _).
    by exists r4.
Qed.

Lemma StartRouting_wellFormed r aP aStartItem aLayer :
  wellFormed r -> m_state r = Router.IDLE ->
  exists res, StartRouting C r aP aStartItem aLayer = Some res
              /\ wellFormed (snd res).
Proof.
  intros Hwf Hidle. unfold StartRouting.
  assert (Hq : exists b, isStartingPointRoutable C r aP aStartItem aLayer = Some b).
  { revert Hwf Hidle. open_router r. intros Hidle. simpl in Hidle. subst state.
    unfold isStartingPointRoutable. simpl.
    destruct (CanViolateDRC s && bool_decide (Mode s = Router.RM_MarkObstacles));
      [by eexists |].
    unfold QueryHoverItems. simpl.
    assert (Hq : (match placer with
                  | Some _ => Some (HitTest C w aP)
                  | None => Some (HitTest C w aP)
                  end) = Some (HitTest C w aP)) by (by destruct placer).
    rewrite Hq. simpl.
    destruct (existsb _ (HitTest C w aP)); [by eexists |].
    destruct mode, aStartItem; by eexists. }
  destruct Hq as [routable ->]. cbn [mbind option_bind].
  destruct routable; simpl.
  2:{ eexists. split; [reflexivity |]. destruct Hwf as (?&?&?&?&?).
      by repeat split. }
  destruct (Router.placerFor (m_mode r)) as [kind |].
  2:{ eexists. split; [reflexivity |]. destruct Hwf as (?&?&?&?&?).
      by repeat split. }
  destruct Hwf as (Hw & Hi & Hs & Hp & Hd).
  destruct Hi as [trace Hi]. rewrite Hi. cbn [mbind option_bind].
  match goal with
  | |- context [placer_Start C ?p ?w ?a ?b] =>
    destruct (placer_Start C p w a b) as [[rv p'] e]
  end.
  match goal with
  | |- context [absorb ?r0 e] =>
    assert (Hwf0 : wellFormed r0);
      [| destruct (absorb_wellFormed r0 e Hwf0) as (r1 & -> & Hwf1 & Hst1 & Hpl1 & _)]
  end.
  { repeat split; simpl; eauto. }
  cbn [mbind option_bind].
  destruct rv; simpl; eexists; (split; [reflexivity |]); [| done].
  destruct Hwf1 as (?&?&?&?&?). repeat split; simpl; try done.
  - intros _. rewrite Hpl1. simpl. eauto.
Qed.

Lemma StartDragging_wellFormed r aP aStartItems aDragMode :
  wellFormed r ->
  exists res, StartDragging C r aP aStartItems aDragMode = Some res
              /\ wellFormed (snd res).
Proof.
  intros Hwf. unfold StartDragging.
  destruct aStartItems as [| i items]; [by eexists |].
  set (solid := (_ =? _)%nat). clearbody solid.
  set (free := negb (Z.land aDragMode (DM_FREE_ANGLE C) =? 0)). clearbody free.
  assert (Hgen : forall kind b,
    exists res,
      (_ ← m_iface (set_forceMarkObstaclesMode r b);
       let '(ok, dragger, e) :=
         dragger_Start C (new_dragger C kind aDragMode
                            (m_world (set_forceMarkObstaclesMode r b)))
                       (m_world (set_forceMarkObstaclesMode r b)) aP (i :: items) in
       r0 ← absorb (set_forceMarkObstaclesMode r b) e;
       if ok
       then Some (true, set_state (set_dragger r0 (Some dragger)) Router.DRAG_SEGMENT)
       else Some (false, set_state (set_dragger r0 None) Router.IDLE))
      = Some res /\ wellFormed (snd res)).
  { intros kind b.
    assert (Hwf0 : wellFormed (set_forceMarkObstaclesMode r b))
      by (destruct Hwf as (?&?&?&?&?); by repeat split).
    destruct (proj1 (proj2 Hwf0)) as [trace ->]. cbn [mbind option_bind].
    destruct (dragger_Start C _ _ aP (i :: items)) as [[ok d] e].
    destruct (absorb_wellFormed _ e Hwf0) as (r1 & -> & Hwf1 & _).
    cbn [mbind option_bind].
    destruct Hwf1 as (?&?&?&?&?).
    destruct ok; eexists; (split; [reflexivity |]); repeat split; simpl; eauto;
      intros; discriminate. }
  destruct solid; apply Hgen.
Qed.

Lemma FixRoute_wellFormed r aP aEndItem aForceFinish :
  wellFormed r ->
  exists res, FixRoute C r aP aEndItem aForceFinish = Some res
              /\ wellFormed (snd res).
Proof.
  intros Hwf. unfold FixRoute.
  set (r0 := Log r (EVT_FIX aP aEndItem)).
  assert (Hwf0 : wellFormed r0) by (destruct Hwf as (?&?&?&?&?); by repeat split).
  clearbody r0. clear Hwf.
  destruct (m_state r0) eqn:Hstate.
  - by eexists.
  - destruct (proj2 (proj2 (proj2 (proj2 Hwf0))) Hstate) as [d ->].
    cbn [mbind option_bind].
    destruct (dragger_FixRoute C d (m_world r0)) as [[rv d'] e].
    destruct (absorb_wellFormed _ e (set_dragger_wellFormed r0 d' Hwf0))
      as (r1 & -> & Hwf1 & _).
    by eexists.
  - destruct (proj1 (proj2 (proj2 (proj2 Hwf0))) Hstate) as [p ->].
    cbn [mbind option_bind].
    destruct (placer_FixRoute C p (m_world r0) aP aEndItem aForceFinish)
      as [[rv p'] e].
    destruct (absorb_wellFormed _ e (set_placer_wellFormed r0 p' Hwf0))
      as (r1 & -> & Hwf1 & _).
    by eexists.
Qed.

Lemma UndoLastSegment_wellFormed r :
  wellFormed r -> m_state r <> Router.DRAG_SEGMENT ->
  exists r', UndoLastSegment C r = Some r' /\ wellFormed r'.
Proof.
  intros Hwf Hnodrag. unfold UndoLastSegment, RoutingInProgress.
  destruct (m_state r) eqn:Hstate; simpl; [by eexists | done |].
  destruct (proj1 (proj2 (proj2 (proj2 Hwf))) Hstate) as [p ->].
  cbn [mbind option_bind].
  destruct (placer_UnfixRoute C p (m_world r)) as [[rv p'] e].
  destruct (absorb_wellFormed _ e (set_placer_wellFormed r p' Hwf))
    as (r1 & -> & Hwf1 & _).
  by eexists.
Qed.

Lemma CommitRouting_wellFormed r :
  wellFormed r ->
  exists r', CommitRouting C r = Some r' /\ wellFormed r'
             /\ m_state r' = Router.IDLE.
Proof.
  intros Hwf. unfold CommitRouting.
  destruct (m_state r) eqn:Hstate; simpl.
  - apply StopRouting_wellFormed, Hwf.
  - apply StopRouting_wellFormed, Hwf.
  - destruct (proj1 (proj2 (proj2 (proj2 Hwf))) Hstate) as [p ->].
    cbn [mbind option_bind].
    destruct (placer_CommitPlacement C p (m_world r)) as [[rv p'] e].
    destruct (absorb_wellFormed _ e (set_placer_wellFormed r p' Hwf))
      as (r1 & -> & Hwf1 & _).
    cbn [mbind option_bind].
    apply StopRouting_wellFormed, Hwf1.
Qed.

Lemma CommitRoutingNode_wellFormed r aNode :
  wellFormed r ->
  exists r', CommitRoutingNode C r aNode = Some r' /\ wellFormed r'.
Proof.
  open_router r. unfold CommitRoutingNode, call. simpl.
  destruct state; simpl.
  - destruct (GetUpdatedItems C aNode) as [removed added]. simpl. close_router.
  - destruct (GetUpdatedItems C aNode) as [removed added]. simpl. close_router.
  - destruct (Hp eq_refl) as [p ->]. simpl.
    destruct (placer_HasPlacedAnything C p); simpl.
    + destruct (GetUpdatedItems C aNode) as [removed added]. simpl. close_router.
    + close_router.
Qed.

Lemma simple_calls_wellFormed r :
  wellFormed r ->
  (exists r', FlipPosture C r = Some r' /\ wellFormed r')
  /\ (forall aLayer, exists res, SwitchLayer C r aLayer = Some res
                                 /\ wellFormed (snd res))
  /\ (exists r', ToggleViaPlacement C r = Some r' /\ wellFormed r')
  /\ (exists r', ToggleRounded r = Some r' /\ wellFormed r')
  /\ (forall aSizes, exists r', UpdateSizes C r aSizes = Some r' /\ wellFormed r')
  /\ (forall aEnable, wellFormed (SetOrthoMode C r aEnable))
  /\ (forall aMode, wellFormed (SetMode r aMode)).
Proof.
  open_router r.
  unfold FlipPosture, SwitchLayer, ToggleViaPlacement, ToggleRounded, UpdateSizes,
    SetOrthoMode, SetMode.
  simpl. split; [| split; [| split; [| split; [| split; [| split]]]]].
  - destruct state; simpl; try close_router.
    destruct (Hp eq_refl) as [p ->]. simpl. close_router.
  - intros aLayer. destruct state; simpl; try close_router.
    destruct (Hp eq_refl) as [p ->]. simpl.
    destruct (placer_SetLayer C p aLayer). close_router.
  - destruct state; simpl; try close_router.
    destruct (Hp eq_refl) as [p ->]. simpl. close_router.
  - close_router.
  - intros aSizes. destruct state; simpl; try close_router.
    destruct (Hp eq_refl) as [p ->]. simpl. close_router.
  - intros aEnable. destruct placer; repeat split; simpl; eauto.
  - intros aMode. repeat split; simpl; eauto.
Qed.

Lemma BreakSegment_wellFormed r aItem aP :
  wellFormed r ->
  exists r', BreakSegment C r aItem aP = Some r' /\ wellFormed r'.
Proof.
  intros Hwf. unfold BreakSegment.
  destruct (proj1 Hwf) as [w ->]. cbn [mbind option_bind].
  destruct (SplitAdjacentSegments C (Branch C w) aItem aP) as [[|] node].
  - by apply CommitRoutingNode_wellFormed.
  - by exists r.
Qed.

Lemma wellFormed_wired r : wellFormed r -> wired r.
Proof. intros (Hw & Hi & Hs & Hp & Hd). by repeat split. Qed.

Lemma wired_wellFormed r : wired r -> is_Some (m_world r) -> wellFormed r.
Proof. intros (Hi & Hs & Hw & Hp & Hd) Hworld. by repeat split. Qed.

Lemma QueryHoverItems_answers r aP :
  is_Some (m_world r) ->
  (m_state r <> Router.IDLE ->
   forall placer, m_placer r = Some placer ->
                  is_Some (placer_CurrentNode C placer false)) ->
  is_Some (QueryHoverItems C r aP).
Proof.
  intros [w Hw] Hnode. unfold QueryHoverItems. rewrite Hw.
  destruct (m_placer r) as [placer |]; [| by eexists].
  destruct (bool_decide_reflect (m_state r = Router.IDLE)) as [Hidle | Hbusy];
    [by eexists |].
  destruct (Hnode Hbusy placer eq_refl) as [node ->]. by eexists.
Qed.

Lemma SyncWorld_wired r :
  wired r -> m_state r = Router.IDLE ->
  exists r', SyncWorld C r = Some r' /\ wellFormed r'.
Proof.
  intros (Hi & Hs & Hw & Hp & Hd) Hidle.
  destruct r as [state mode world placer dragger iface settings sizes logger
                 currentEnd force reason].
  simpl in *. subst state. destruct Hi as [trace ->].
  unfold SyncWorld, ClearWorld, call.
  destruct world; simpl; eexists; (split; [reflexivity |]);
    repeat split; simpl; eauto; intros H; discriminate H.
Qed.

(** What an idle router without a world can be asked. *)
Lemma perform_without_world c r :
  wired r -> m_world r = None -> asTheToolsCall C c r ->
  exists r', perform C c r = Some r' /\ wired r'.
Proof.
  intros (Hi & Hs & Hw & Hp & Hd) Hnone Hok.
  assert (Hidle : m_state r = Router.IDLE).
  { destruct (m_state r) eqn:Hstate; [done | |];
      (destruct Hw as [w Hw]; [done |]; congruence). }
  destruct r as [state mode world placer dragger iface settings sizes logger
                 currentEnd force reason].
  simpl in *. subst state world.
  destruct Hi as [trace ->], Hs as [s ->].
  destruct c; simpl in Hok |- *.
  - (* StartRouting *) destruct Hok as [_ [w Hwo]]. discriminate Hwo.
  - (* StartDragging *) destruct Hok as [w Hwo]. discriminate Hwo.
  - (* Move *) eexists. split; [reflexivity |]. by repeat split; simpl; eauto.
  - (* FixRoute *) eexists. split; [reflexivity |]. by repeat split; simpl; eauto.
  - (* UndoLastSegment *) eexists. split; [reflexivity |].
    by repeat split; simpl; eauto.
  - (* CommitRouting *)
    unfold CommitRouting, StopRouting, RoutingInProgress, callEach, call. simpl.
    destruct placer as [p |]; simpl;
      [destruct (placer_GetModifiedNets C p); simpl |];
      eexists; (split; [reflexivity |]); by repeat split; simpl; eauto.
  - (* StopRouting *)
    unfold StopRouting, RoutingInProgress, callEach, call. simpl.
    destruct placer as [p |]; simpl;
      [destruct (placer_GetModifiedNets C p); simpl |];
      eexists; (split; [reflexivity |]); by repeat split; simpl; eauto.
  - (* FlipPosture *) eexists. split; [reflexivity |].
    by repeat split; simpl; eauto.
  - (* SwitchLayer *) eexists. split; [reflexivity |].
    by repeat split; simpl; eauto.
  - (* ToggleViaPlacement *) eexists. split; [reflexivity |].
    by repeat split; simpl; eauto.
  - (* ToggleRounded *) eexists. split; [reflexivity |].
    by repeat split; simpl; eauto.
  - (* UpdateSizes *) eexists. split; [reflexivity |].
    by repeat split; simpl; eauto.
  - (* SetOrthoMode *) eexists. split; [reflexivity |]. unfold SetOrthoMode. simpl.
    destruct placer; by repeat split; simpl; eauto.
  - (* SetMode *) eexists. split; [reflexivity |]. by repeat split; simpl; eauto.
  - (* BreakSegment *) destruct Hok as [w Hwo]. discriminate Hwo.
  - (* SyncWorld *)
    unfold SyncWorld, ClearWorld, call. simpl.
    eexists. split; [reflexivity |]. by repeat split; simpl; eauto.
  - (* ClearWorld *) eexists. split; [reflexivity |]. by repeat split; simpl; eauto.
  - (* SetInterface *) eexists. split; [reflexivity |].
    by repeat split; simpl; eauto.
  - (* QueryHoverItems *) destruct Hok as [[w Hwo] _]. discriminate Hwo.
  - (* StartDraggingItem *) destruct Hok as [w Hwo]. discriminate Hwo.
  - (* CommitRoutingNode *) destruct Hok as [w Hwo]. discriminate Hwo.
  - eexists. split; [reflexivity |]. by repeat split; simpl; eauto.
  - eexists. split; [reflexivity |]. by repeat split; simpl; eauto.
  - eexists. split; [reflexivity |]. by repeat split; simpl; eauto.
  - eexists. split; [reflexivity |]. by repeat split; simpl; eauto.
  - eexists. split; [reflexivity |]. by repeat split; simpl; eauto.
Qed.

(** One operation, called as the tools call it, on a router with a
    world. *)
Lemma perform_wellFormed c r :
  wellFormed r -> asTheToolsCall C c r ->
  exists r', perform C c r = Some r' /\ wired r'.
Proof.
  intros Hwf Hok.
  destruct (simple_calls_wellFormed r Hwf)
    as (Hflip & Hswitch & Hvia & Hrounded & Hsizes & Hortho & Hmode).
  destruct c; simpl in *.
  - destruct (StartRouting_wellFormed r aP aStartItem aLayer Hwf (proj1 Hok))
      as (res & -> & Hres). eexists. split; [reflexivity |].
    by apply wellFormed_wired.
  - destruct (StartDragging_wellFormed r aP aStartItems aDragMode Hwf)
      as (res & -> & Hres). eexists. split; [reflexivity |].
    by apply wellFormed_wired.
  - destruct (Move_wellFormed r aP endItem Hwf) as (r' & ? & ?).
    eauto using wellFormed_wired.
  - destruct (FixRoute_wellFormed r aP aEndItem aForceFinish Hwf)
      as (res & -> & Hres). eexists. split; [reflexivity |].
    by apply wellFormed_wired.
  - destruct (UndoLastSegment_wellFormed r Hwf Hok) as (r' & ? & ?).
    eauto using wellFormed_wired.
  - destruct (CommitRouting_wellFormed r Hwf) as (r' & ? & ? & _).
    eauto using wellFormed_wired.
  - destruct (StopRouting_wellFormed r Hwf) as (r' & ? & ? & _).
    eauto using wellFormed_wired.
  - destruct Hflip as (r' & ? & ?). eauto using wellFormed_wired.
  - destruct (Hswitch aLayer) as (res & -> & Hres). eexists.
    split; [reflexivity |]. by apply wellFormed_wired.
  - destruct Hvia as (r' & ? & ?). eauto using wellFormed_wired.
  - destruct Hrounded as (r' & ? & ?). eauto using wellFormed_wired.
  - destruct (Hsizes aSizes) as (r' & ? & ?). eauto using wellFormed_wired.
  - eexists. split; [reflexivity |]. apply wellFormed_wired, Hortho.
  - eexists. split; [reflexivity |]. apply wellFormed_wired, Hmode.
  - destruct (BreakSegment_wellFormed r aItem aP Hwf) as (r' & ? & ?).
    eauto using wellFormed_wired.
  - destruct (SyncWorld_wired r (wellFormed_wired r Hwf) Hok) as (r' & ? & ?).
    eauto using wellFormed_wired.
  - eexists. split; [reflexivity |].
    destruct Hwf as (Hw & Hi & Hs & Hp & Hd).
    unfold ClearWorld. destruct (m_world r); repeat split; simpl; eauto;
      intros H; congruence.
  - eexists. split; [reflexivity |].
    destruct Hwf as (Hw & Hi & Hs & Hp & Hd). by repeat split; simpl; eauto.
  - destruct (QueryHoverItems_answers r aP (proj1 Hok) (proj2 Hok)) as [items ->].
    eexists. split; [reflexivity |]. by apply wellFormed_wired.
  - unfold StartDraggingItem.
    destruct (StartDragging_wellFormed r aP
                (match aItem with Some i => [i] | None => [] end) aDragMode Hwf)
      as (res & -> & Hres). eexists. split; [reflexivity |].
    by apply wellFormed_wired.
  - destruct (CommitRoutingNode_wellFormed r aNode Hwf) as (r' & ? & ?).
    eauto using wellFormed_wired.
  - eauto using wellFormed_wired.
  - eauto using wellFormed_wired.
  - eauto using wellFormed_wired.
  - eauto using wellFormed_wired.
  - eauto using wellFormed_wired.
Qed.

Lemma perform_wired c r :
  wired r -> asTheToolsCall C c r ->
  exists r', perform C c r = Some r' /\ wired r'.
Proof.
  intros Hw Hok. destruct (m_world r) as [w |] eqn:Hworld.
  - apply perform_wellFormed; [| exact Hok].
    apply wired_wellFormed; [exact Hw | by rewrite Hworld].
  - by apply perform_without_world.
Qed.

End RouterSession.



Section RouterFacts.

Import PNS.

Variables P D : Type.
Variable C : COLLABORATORS P D.

Implicit Types r : ROUTER P D.

Lemma callEach_trace r calls trace :
  m_iface r = Some trace ->
  callEach r calls = Some (set_iface r (Some (trace ++ calls))).
Proof.
  intros Ht. destruct calls as [| c calls].
  - simpl. rewrite app_nil_r. destruct r. simpl in *. by subst.
  - unfold callEach, call. by rewrite Ht.
Qed.

End RouterFacts.

(** X10.  [SyncWorld] needs the interface: on a new router it calls through
    the null pointer.  With an interface it leaves the world the interface
    loads into an empty node, and the router has no placer; state and
    dragger are not touched.  Called while a route is being placed it
    therefore leaves a router in state [ROUTE_TRACK] without placer, on
    which the next [Move] calls through a null pointer. *)
Theorem SyncWorld_drops_the_placer_and_keeps_the_state :
  forall (P D : Type) (C : PNS.COLLABORATORS P D) (r : PNS.ROUTER P D)
         (sizes : PNS.SIZES_SETTINGS),
    PNS.SyncWorld C (PNS.new_ROUTER sizes) = None
    /\ (PNS.m_iface r = None -> PNS.SyncWorld C r = None)
    /\ (forall trace,
           PNS.m_iface r = Some trace ->
           exists r',
             PNS.SyncWorld C r = Some r'
             /\ PNS.m_world r' = Some (PNS.iface_SyncWorld C [])
             /\ PNS.m_iface r' = Some (trace ++ [PNS.SyncWorldCall])
             /\ PNS.m_placer r' = None
             /\ PNS.m_state r' = PNS.m_state r
             /\ PNS.m_dragger r' = PNS.m_dragger r
             /\ (PNS.m_state r = Router.ROUTE_TRACK ->
                 forall aP endItem, PNS.Move C r' aP endItem = None)).
Proof.
  intros P D C r sizes. split; [reflexivity | split].
  - intros Hi. unfold PNS.SyncWorld, PNS.call, PNS.ClearWorld.
    destruct r. simpl in *. subst. by destruct m_world.
  - intros trace Hi. unfold PNS.SyncWorld, PNS.call, PNS.ClearWorld.
    destruct r as [state mode world placer dragger iface settings sizes' logger
                   currentEnd force reason]. simpl in *. subst.
    destruct world; simpl; eexists; (split; [reflexivity |]); simpl;
      repeat split; intros ->; intros aP endItem;
      unfold PNS.Move, PNS.movePlacing, PNS.call; simpl; done.
Qed.

(** X11.  [StopRouting] always leaves the router idle, after telling the
    interface of every net the placer has modified, in the placer's order.
    Called while routing or dragging it then drops placer and dragger,
    erases the view and prunes the world.  Called on an idle router it
    stops there: a placer left over from a start that failed stays. *)
Theorem StopRouting_returns_the_router_to_idle :
  forall (P D : Type) (C : PNS.COLLABORATORS P D) (r : PNS.ROUTER P D)
         (trace : list PNS.IFACE_CALL) (world : PNS.NODE),
    PNS.m_iface r = Some trace ->
    PNS.m_world r = Some world ->
    exists r',
      PNS.StopRouting C r = Some r'
      /\ PNS.m_state r' = Router.IDLE
      /\ (PNS.m_state r = Router.IDLE ->
          PNS.m_placer r' = PNS.m_placer r
          /\ PNS.m_dragger r' = PNS.m_dragger r
          /\ PNS.m_world r' = Some world
          /\ PNS.m_iface r'
             = Some (trace ++ map PNS.UpdateNet (PNS.modifiedNets C r)))
      /\ (PNS.m_state r <> Router.IDLE ->
          PNS.m_placer r' = None
          /\ PNS.m_dragger r' = None
          /\ PNS.m_world r' = Some (PNS.ClearRanks C (PNS.KillChildren C world))
          /\ PNS.m_iface r'
             = Some (trace ++ map PNS.UpdateNet (PNS.modifiedNets C r)
                           ++ [PNS.EraseView])).
Proof.
  intros P D C r trace world Hi Hw.
  unfold PNS.StopRouting, PNS.modifiedNets, PNS.RoutingInProgress.
  destruct r as [state mode world' placer dragger iface settings sizes logger
                 currentEnd force reason]. simpl in *. subst.
  destruct placer as [p |]; simpl.
  - rewrite (callEach_trace P D _ _ trace) by done. simpl.
    destruct state; simpl; unfold PNS.call; simpl;
      eexists; (split; [reflexivity |]); simpl; repeat split; try done;
      try (by rewrite <- app_assoc).
  - destruct state; simpl; unfold PNS.call; simpl;
      eexists; (split; [reflexivity |]); simpl; repeat split; try done;
      by rewrite ?app_nil_r.
Qed.

(** A router that routes, whose placer reports net 5 as modified. *)
Lemma StopRouting_returns_the_router_to_idle_witness :
  PNS.m_iface Examples2.routingRouter = Some []
  /\ PNS.m_world Examples2.routingRouter = Some [Examples2.pad]
  /\ exists r',
      PNS.StopRouting Examples2.sessionDouble Examples2.routingRouter = Some r'
      /\ PNS.m_state r' = Router.IDLE
      /\ PNS.m_placer r' = None
      /\ PNS.m_iface r' = Some [PNS.UpdateNet 5; PNS.EraseView].
Proof.
  assert (Hi : PNS.m_iface Examples2.routingRouter = Some []) by reflexivity.
  assert (Hw : PNS.m_world Examples2.routingRouter = Some [Examples2.pad])
    by reflexivity.
  split; [exact Hi | split; [exact Hw |]].
  destruct (StopRouting_returns_the_router_to_idle
              nat unit Examples2.sessionDouble Examples2.routingRouter
              [] [Examples2.pad] Hi Hw) as (r' & Heq & Hidle & _ & Hbusy).
  exists r'. split; [exact Heq | split; [exact Hidle |]].
  destruct Hbusy as (Hp & _ & _ & Ht); [intros H; discriminate H |].
  split; [exact Hp | exact Ht].
Defined.

(** X12.  [StartDragging] on an empty item set returns false and leaves the
    router as it is.  Otherwise it makes a component dragger when every item
    is a solid and a plain dragger when not, and returns what the dragger's
    [Start] returns: on true the router drags with that dragger, on false it
    is idle with no dragger, also when a route was being placed, whose
    placer stays.  Obstacles are marked by force when all items are solids
    or the drag mode has the free-angle bit. *)
Theorem StartDragging_follows_the_dragger :
  forall (P D : Type) (C : PNS.COLLABORATORS P D) (r : PNS.ROUTER P D)
         (aP : VECTOR2I) (aStartItems : list PNS.ITEM) (aDragMode : Z),
    is_Some (PNS.m_iface r) ->
    let allSolids :=
      forallb (fun i => bool_decide (PNS.Kind i = PNS.SOLID_T)) aStartItems in
    let kind := if allSolids then PNS.COMPONENT_DRAGGER else PNS.DRAGGER in
    let started :=
      fst (fst (PNS.dragger_Start C
                  (PNS.new_dragger C kind aDragMode (PNS.m_world r))
                  (PNS.m_world r) aP aStartItems)) in
    exists res,
      PNS.StartDragging C r aP aStartItems aDragMode = Some res
      /\ (aStartItems = [] -> res = (false, r))
      /\ (aStartItems <> [] ->
          fst res = started
          /\ PNS.m_state (snd res)
             = (if started then Router.DRAG_SEGMENT else Router.IDLE)
          /\ (if started then is_Some (PNS.m_dragger (snd res))
              else PNS.m_dragger (snd res) = None)
          /\ PNS.m_placer (snd res) = PNS.m_placer r
          /\ PNS.m_forceMarkObstaclesMode (snd res)
             = (allSolids || negb (Z.land aDragMode (PNS.DM_FREE_ANGLE C) =? 0))).
Proof.
  intros P D C r aP aStartItems aDragMode [trace Hi] allSolids kind started.
  unfold PNS.StartDragging.
  destruct aStartItems as [| i items]; [by eexists |].
  assert (Hcount : (length (List.filter (fun i0 => bool_decide (PNS.Kind i0 = PNS.SOLID_T))
                                        (i :: items)) =? length (i :: items))%nat
                   = allSolids).
  { unfold allSolids. clear. generalize (i :: items). intros l.
    induction l as [| x l IH]; [done |].
    simpl. destruct (bool_decide (PNS.Kind x = PNS.SOLID_T)); simpl.
    - exact IH.
    - apply Nat.eqb_neq.
      pose proof (List.filter_length_le
                    (fun i0 => bool_decide (PNS.Kind i0 = PNS.SOLID_T)) l). lia. }
  rewrite Hcount. unfold started, kind. clear started kind Hcount.
  destruct r as [state mode world placer dragger iface settings sizes logger
                 currentEnd force reason]. simpl in *. subst.
  destruct allSolids; simpl;
    match goal with
    | |- context [PNS.dragger_Start C ?d ?w ?a ?b] =>
      destruct (PNS.dragger_Start C d w a b) as [[ok d'] e]
    end;
    unfold PNS.absorb, PNS.callEach, PNS.call; simpl;
    destruct (PNS.eff_reason e), (PNS.eff_calls e), ok; simpl;
    eexists; (split; [reflexivity |]); (split; [intros H; discriminate H |]);
    intros _; simpl; repeat split; eauto.
Qed.

(** The pad of the example board is dragged: a component dragger starts,
    and obstacles are marked by force. *)
Lemma StartDragging_follows_the_dragger_witness :
  is_Some (PNS.m_iface Examples2.readyRouter)
  /\ exists res,
      PNS.StartDragging Examples2.sessionDouble Examples2.readyRouter
                        (1000000, 1000000) [Examples2.pad] 2 = Some res
      /\ fst res = true
      /\ PNS.m_state (snd res) = Router.DRAG_SEGMENT
      /\ PNS.m_forceMarkObstaclesMode (snd res) = true.
Proof.
  assert (Hi : is_Some (PNS.m_iface Examples2.readyRouter)) by (simpl; eauto).
  split; [exact Hi |].
  destruct (StartDragging_follows_the_dragger
              nat unit Examples2.sessionDouble Examples2.readyRouter
              (1000000, 1000000) [Examples2.pad] 2 Hi) as (res & Heq & _ & Hrest).
  destruct Hrest as (H1 & H2 & _ & _ & H5); [intros H; discriminate H |].
  exists res. split; [exact Heq | split; [exact H1 | split; [exact H2 | exact H5]]].
Defined.

Section MoveFacts.

Import PNS.

Variables P D : Type.
Variable C : COLLABORATORS P D.

Implicit Types r : ROUTER P D.

Lemma updateView_trace r aNode aCurrent aDragging trace :
  m_iface r = Some trace -> is_Some (m_settings r) ->
  exists after,
    updateView C r aNode aCurrent aDragging
    = Some (set_iface r (Some (trace ++ after))).
Proof.
  intros Hi [s Hs]. unfold updateView.
  destruct aNode as [node |].
  2:{ exists []. rewrite app_nil_r. destruct r. simpl in *. by subst. }
  rewrite Hs. cbn [mbind option_bind].
  destruct (bool_decide (Mode s = Router.RM_MarkObstacles) || m_forceMarkObstaclesMode r).
  - destruct (markViolations C node aCurrent) as [calls removed].
    rewrite (callEach_trace P D r calls trace Hi). cbn [mbind option_bind].
    destruct (GetUpdatedItems C node) as [removed' added].
    erewrite callEach_trace by reflexivity. cbn [mbind option_bind].
    erewrite callEach_trace by reflexivity.
    eexists. f_equal. unfold set_iface. simpl. f_equal. f_equal.
    rewrite <- !app_assoc. reflexivity.
  - rewrite (callEach_trace P D r [] trace Hi). cbn [mbind option_bind].
    destruct (GetUpdatedItems C node) as [removed' added].
    erewrite callEach_trace by reflexivity. cbn [mbind option_bind].
    erewrite callEach_trace by reflexivity.
    eexists. f_equal. unfold set_iface. simpl. f_equal. f_equal.
    rewrite <- !app_assoc. reflexivity.
Qed.

End MoveFacts.

(** X13.  While a route is placed, [Move] records the point, erases the view
    and has the placer move; then it shows every line among the placer's
    traces with the clearance of the rules and, where the line ends with a
    via, the via as well, after whatever the placer itself showed and before
    the update of the view.  The clearance shown around a via is the one of
    the rules, widened where the clearance of the hole reaches further: the
    via's radius and the clearance shown together equal the larger of
    radius plus clearance and drill radius plus hole clearance. *)
Theorem Move_shows_each_line_and_its_via :
  forall (P D : Type) (C : PNS.COLLABORATORS P D) (r : PNS.ROUTER P D)
         (aP : VECTOR2I) (endItem : option PNS.ITEM),
    PNS.wellFormed r ->
    PNS.m_state r = Router.ROUTE_TRACK ->
    exists r' trace placer' before after,
      PNS.Move C r aP endItem = Some r'
      /\ PNS.m_iface r = Some trace
      /\ PNS.m_placer r' = Some placer'
      /\ PNS.m_state r' = Router.ROUTE_TRACK
      /\ PNS.m_currentEnd r' = aP
      /\ PNS.m_iface r'
         = Some (trace ++ PNS.EraseView :: before
                       ++ concat (map (PNS.showTrace C) (PNS.placer_Traces C placer'))
                       ++ after)
      /\ (forall t,
             PNS.Kind (PNS.trace_item t) = PNS.LINE_T ->
             PNS.EndsWithVia t = true ->
             PNS.showTrace C t
             = [ PNS.DisplayItem (PNS.trace_item t)
                                 (PNS.Clearance C (PNS.trace_item t)) false;
                 PNS.DisplayItem (PNS.Via t)
                                 (PNS.shownViaClearance C (PNS.Via t)) false ])
      /\ (forall via,
             PNS.shownViaClearance C via + PNS.Diameter via ÷ 2
             = Z.max (PNS.Clearance C via + PNS.Diameter via ÷ 2)
                     (PNS.HoleClearance C via + PNS.Drill via ÷ 2)).
Proof.
  intros P D C r aP endItem (Hw & Hi & Hs & Hp & Hd) Hstate.
  destruct (Hp Hstate) as [p Hplacer]. destruct Hi as [trace Hi].
  destruct Hs as [s Hs].
  unfold PNS.Move. simpl. rewrite Hstate. unfold PNS.movePlacing.
  unfold PNS.call at 1. simpl. rewrite Hi. cbn [mbind option_bind]. simpl.
  rewrite Hplacer. cbn [mbind option_bind].
  destruct (PNS.placer_Move C p (PNS.m_world r) aP endItem) as [[ok p'] e].
  unfold PNS.absorb.
  erewrite callEach_trace by (destruct (PNS.eff_reason e); reflexivity).
  cbn [mbind option_bind].
  erewrite callEach_trace by (destruct (PNS.eff_reason e); reflexivity).
  cbn [mbind option_bind].
  match goal with
  | |- context [PNS.updateView C ?r0 ?n ?c ?d] =>
    destruct (updateView_trace P D C r0 n c d
                ((trace ++ [PNS.EraseView]) ++ PNS.eff_calls e
                 ++ concat (map (PNS.showTrace C) (PNS.placer_Traces C p'))))
      as (after & ->)
  end.
  { destruct (PNS.eff_reason e); simpl; by rewrite <- !app_assoc. }
  { destruct (PNS.eff_reason e); simpl; rewrite Hs; eauto. }
  eexists. exists trace, p', (PNS.eff_calls e), after.
  split; [reflexivity |].
  split; [reflexivity |].
  split; [by destruct (PNS.eff_reason e) |].
  split; [by destruct (PNS.eff_reason e) |].
  split; [by destruct (PNS.eff_reason e) |].
  split.
  { simpl. f_equal. rewrite <- !app_assoc. reflexivity. }
  split.
  - intros t Hkind Hvia. unfold PNS.showTrace. rewrite Hkind, Hvia.
    by rewrite bool_decide_eq_true_2.
  - intros via. unfold PNS.shownViaClearance.
    destruct (_ >? _) eqn:Hgt.
    + apply Z.gtb_gt in Hgt. lia.
    + rewrite Z.gtb_ltb in Hgt. apply Z.ltb_ge in Hgt. lia.
Qed.

(** The router of the example session after one move: the line is shown
    with the clearance of the rules, its via with the clearance that covers
    the clearance of the hole. *)
Lemma Move_shows_each_line_and_its_via_witness :
  PNS.wellFormed Examples2.routingRouter
  /\ PNS.m_state Examples2.routingRouter = Router.ROUTE_TRACK
  /\ PNS.shownViaClearance Examples2.sessionDouble Examples2.via = 250000
  /\ exists r',
      PNS.Move Examples2.sessionDouble Examples2.routingRouter
               (2000000, 1000000) None = Some r'
      /\ PNS.m_iface r'
         = Some [ PNS.EraseView;
                  PNS.DisplayItem Examples2.lineItem 200000 false;
                  PNS.DisplayItem Examples2.via 250000 false;
                  PNS.DisplayItem Examples2.via 200000 false ].
Proof.
  assert (Hwf : PNS.wellFormed Examples2.routingRouter).
  { repeat split; simpl; eauto. intros H. discriminate H. }
  assert (Hst : PNS.m_state Examples2.routingRouter = Router.ROUTE_TRACK)
    by reflexivity.
  split; [exact Hwf | split; [exact Hst | split; [reflexivity |]]].
  destruct (Move_shows_each_line_and_its_via
              nat unit Examples2.sessionDouble Examples2.routingRouter
              (2000000, 1000000) None Hwf Hst)
    as (r' & trace & placer' & before & after & Heq & _).
  exists r'. split; [exact Heq |].
  vm_compute in Heq. injection Heq as <-. reflexivity.
Defined.

(** X14.  [BreakSegment] works on a branch of the world and changes the
    router only when the split succeeded: it then has the interface remove
    what the branch removed and add what it added, commits once, in this
    order, and commits the branch into the world.  When the split failed,
    and also when a route is being placed of which nothing is placed yet
    (the test [CommitRouting( aNode )] begins with), the router is left as
    it was. *)
Theorem BreakSegment_commits_a_split_and_nothing_else :
  forall (P D : Type) (C : PNS.COLLABORATORS P D) (r : PNS.ROUTER P D)
         (aItem : PNS.ITEM) (aP : VECTOR2I) (world : PNS.NODE)
         (trace : list PNS.IFACE_CALL),
    PNS.m_world r = Some world ->
    PNS.m_iface r = Some trace ->
    (PNS.m_state r = Router.ROUTE_TRACK -> is_Some (PNS.m_placer r)) ->
    let split := fst (PNS.SplitAdjacentSegments C (PNS.Branch C world) aItem aP) in
    let node := snd (PNS.SplitAdjacentSegments C (PNS.Branch C world) aItem aP) in
    let nothingPlaced :=
      match PNS.m_state r, PNS.m_placer r with
      | Router.ROUTE_TRACK, Some placer => negb (PNS.placer_HasPlacedAnything C placer)
      | _, _ => false
      end in
    exists r',
      PNS.BreakSegment C r aItem aP = Some r'
      /\ if split && negb nothingPlaced
         then PNS.m_iface r'
              = Some (trace ++ map PNS.RemoveItem (fst (PNS.GetUpdatedItems C node))
                            ++ map PNS.AddItem (snd (PNS.GetUpdatedItems C node))
                            ++ [PNS.Commit])
              /\ PNS.m_world r' = Some (PNS.NodeCommit C world node)
              /\ PNS.m_state r' = PNS.m_state r
              /\ PNS.m_placer r' = PNS.m_placer r
              /\ PNS.m_dragger r' = PNS.m_dragger r
         else r' = r.
Proof.
  intros P D C r aItem aP world trace Hw Hi Hp split node nothingPlaced.
  unfold PNS.BreakSegment. rewrite Hw. cbn [mbind option_bind].
  unfold split, node, nothingPlaced. clear split node nothingPlaced.
  destruct (PNS.SplitAdjacentSegments C (PNS.Branch C world) aItem aP)
    as [split node]. simpl fst. simpl snd.
  destruct split; [| by exists r].
  unfold PNS.CommitRoutingNode, PNS.call.
  destruct r as [state mode world' placer dragger iface settings sizes logger
                 currentEnd force reason]. simpl in *. subst.
  destruct state; simpl.
  - destruct (PNS.GetUpdatedItems C node) as [removed added]. simpl.
    eexists. split; [reflexivity |]. simpl. repeat split.
  - destruct (PNS.GetUpdatedItems C node) as [removed added]. simpl.
    eexists. split; [reflexivity |]. simpl. repeat split.
  - destruct (Hp eq_refl) as [p ->]. simpl.
    destruct (PNS.placer_HasPlacedAnything C p); simpl.
    + destruct (PNS.GetUpdatedItems C node) as [removed added]. simpl.
      eexists. split; [reflexivity |]. simpl. repeat split.
    + by eexists.
Qed.

(** A track of the idle example router is broken: the new item is added,
    the change committed. *)
Lemma BreakSegment_commits_a_split_and_nothing_else_witness :
  PNS.m_world Examples2.readyRouter = Some [Examples2.pad]
  /\ PNS.m_iface Examples2.readyRouter = Some []
  /\ exists r',
      PNS.BreakSegment Examples2.sessionDouble Examples2.readyRouter
                       Examples2.lineItem (1500000, 1000000) = Some r'
      /\ PNS.m_iface r' = Some [PNS.AddItem Examples2.lineItem; PNS.Commit]
      /\ PNS.m_world r' = Some [Examples2.pad; Examples2.lineItem].
Proof.
  assert (Hw : PNS.m_world Examples2.readyRouter = Some [Examples2.pad])
    by reflexivity.
  assert (Hi : PNS.m_iface Examples2.readyRouter = Some []) by reflexivity.
  assert (Hp : PNS.m_state Examples2.readyRouter = Router.ROUTE_TRACK ->
               is_Some (PNS.m_placer Examples2.readyRouter))
    by (intros H; discriminate H).
  split; [exact Hw | split; [exact Hi |]].
  destruct (BreakSegment_commits_a_split_and_nothing_else
              nat unit Examples2.sessionDouble Examples2.readyRouter
              Examples2.lineItem (1500000, 1000000) [Examples2.pad] [] Hw Hi Hp)
    as (r' & Heq & Hres).
  exists r'. split; [exact Heq |].
  vm_compute in Heq. injection Heq as <-. split; reflexivity.
Defined.

(** ** The hatch pattern *)

Section HatchGrid.

Import Hatch.

Lemma grid_test (g extent : Z) (k : nat) :
  0 < g ->
  (Z.of_nat k * g >? extent) = negb (k <? gridCount g extent)%nat.
Proof.
  intros Hg. unfold gridCount.
  destruct (Z.ltb_spec extent 0) as [Hneg | Hpos].
  - replace (k <? 0)%nat with false by (symmetry; apply Nat.ltb_ge; lia).
    simpl. apply Z.gtb_lt. nia.
  - assert (Hdiv : 0 <= extent / g) by (apply Z.div_pos; lia).
    destruct (Nat.ltb_spec k (Z.to_nat (extent / g + 1))) as [Hlt | Hge]; simpl.
    + rewrite Z.gtb_ltb. apply Z.ltb_ge.
      assert (Hk : Z.of_nat k <= extent / g) by lia.
      pose proof (Z.mul_div_le extent g Hg). nia.
    + apply Z.gtb_lt.
      assert (Hk : extent / g + 1 <= Z.of_nat k) by lia.
      pose proof (Z.mod_pos_bound extent g Hg).
      pose proof (Z.div_mod extent g ltac:(lia)). nia.
Qed.

Lemma gridColumn_holes (hole_base : SHAPE_LINE_CHAIN) (g height xpos : Z)
    (n k fuel : nat) (holes : SHAPE_POLY_SET) :
  0 < g ->
  (k + n = gridCount g height)%nat ->
  (n < fuel)%nat ->
  gridColumn fuel hole_base g height xpos (Z.of_nat k) holes
  = Some (holes ++ map (fun yy => [Move hole_base (xpos, Z.of_nat yy * g)])
                       (seq k n)).
Proof.
  intros Hg. revert k fuel holes.
  induction n as [|n IH]; intros k fuel holes Hk Hfuel;
    (destruct fuel as [|fuel]; [lia|]); simpl.
  - rewrite grid_test by exact Hg.
    replace (k <? gridCount g height)%nat with false
      by (symmetry; apply Nat.ltb_ge; lia).
    simpl. by rewrite app_nil_r.
  - rewrite grid_test by exact Hg.
    replace (k <? gridCount g height)%nat with true
      by (symmetry; apply Nat.ltb_lt; lia).
    simpl.
    replace (Z.of_nat k + 1) with (Z.of_nat (S k)) by lia.
    rewrite IH by lia.
    unfold AddOutline. by rewrite <- app_assoc.
Qed.

Lemma gridRows_holes (hole_base : SHAPE_LINE_CHAIN) (g width height : Z)
    (n k fuel inner : nat) (holes : SHAPE_POLY_SET) :
  0 < g ->
  (k + n = gridCount g width)%nat ->
  (n < fuel)%nat ->
  (gridCount g height < inner)%nat ->
  gridRows fuel inner hole_base g width height (Z.of_nat k) holes
  = Some (holes ++
          flat_map (fun xx =>
                      map (fun yy => [Move hole_base (Z.of_nat xx * g,
                                                      Z.of_nat yy * g)])
                          (seq 0 (gridCount g height)))
                   (seq k n)).
Proof.
  intros Hg. revert k fuel holes.
  induction n as [|n IH]; intros k fuel holes Hk Hfuel Hinner;
    (destruct fuel as [|fuel]; [lia|]); simpl.
  - rewrite grid_test by exact Hg.
    replace (k <? gridCount g width)%nat with false
      by (symmetry; apply Nat.ltb_ge; lia).
    simpl. by rewrite app_nil_r.
  - rewrite grid_test by exact Hg.
    replace (k <? gridCount g width)%nat with true
      by (symmetry; apply Nat.ltb_lt; lia).
    simpl.
    pose proof (gridColumn_holes hole_base g height (Z.of_nat k * g)
                  (gridCount g height) 0 inner holes Hg eq_refl Hinner) as Hcol.
    change (Z.of_nat 0) with 0 in Hcol. rewrite Hcol.
    cbn [mbind option_bind].
    replace (Z.of_nat k + 1) with (Z.of_nat (S k)) by lia.
    rewrite IH by lia.
    by rewrite <- app_assoc.
Qed.

Lemma gridRows_grid (hole_base : SHAPE_LINE_CHAIN) (g width height : Z)
    (fuel inner : nat) (holes : SHAPE_POLY_SET) :
  0 < g ->
  (gridCount g width < fuel)%nat ->
  (gridCount g height < inner)%nat ->
  gridRows fuel inner hole_base g width height 0 holes
  = Some (holes ++ gridHoles hole_base g (gridCount g width) (gridCount g height)).
Proof.
  intros Hg Hfuel Hinner.
  apply (gridRows_holes hole_base g width height (gridCount g width) 0 fuel
           inner holes Hg eq_refl Hfuel Hinner).
Qed.

Lemma gridRows_of_size_zero (hole_base : SHAPE_LINE_CHAIN) (width height xx : Z)
    (fuel inner : nat) (holes : SHAPE_POLY_SET) :
  0 <= width ->
  gridRows fuel inner hole_base 0 width height xx holes = None.
Proof.
  intros Hw. revert xx holes.
  induction fuel as [|fuel IH]; intros xx holes; simpl; [done|].
  rewrite Z.mul_0_r.
  replace (0 >? width) with false by (symmetry; rewrite Z.gtb_ltb; apply Z.ltb_ge; lia).
  destruct (gridColumn inner hole_base 0 height 0 0 holes) as [holes'|];
    cbn [mbind option_bind]; [apply IH | done].
Qed.

Lemma dropSmallHoles_filter (E : COLLABORATORS) (minimal : Q)
    (kept rest : SHAPE_POLY_SET) (fuel : nat) :
  (length rest < fuel)%nat ->
  Forall (fun poly => Qle_bool minimal (Area E (hd [] poly)) = true) kept ->
  dropSmallHoles E fuel minimal (length kept) (kept ++ rest)
  = Some (kept ++ filter (fun poly => Qle_bool minimal (Area E (hd [] poly)) = true)
                         rest).
Proof.
  revert kept fuel.
  induction rest as [|poly rest IH]; intros kept fuel Hfuel Hkept;
    (destruct fuel as [|fuel]; [simpl in Hfuel; lia|]); simpl.
  - unfold OutlineCount. rewrite app_nil_r.
    replace (length kept <? length kept)%nat with false
      by (symmetry; apply Nat.ltb_ge; lia).
    simpl. rewrite filter_nil. by rewrite app_nil_r.
  - unfold OutlineCount.
    replace (length kept <? length (kept ++ poly :: rest))%nat with true
      by (symmetry; apply Nat.ltb_lt; rewrite length_app; simpl; lia).
    simpl.
    assert (Hout : Outline (kept ++ poly :: rest) (length kept) = hd [] poly).
    { unfold Outline. rewrite lookup_app_r by lia.
      rewrite Nat.sub_diag. simpl. by destruct poly. }
    rewrite Hout.
    destruct (Qle_bool minimal (Area E (hd [] poly))) eqn:Hbig; simpl.
    + replace (kept ++ poly :: rest) with ((kept ++ [poly]) ++ rest)
        by (by rewrite <- app_assoc).
      replace (S (length kept)) with (length (kept ++ [poly]))
        by (rewrite length_app; simpl; lia).
      rewrite IH.
      * rewrite filter_cons, decide_True by exact Hbig. by rewrite <- app_assoc.
      * simpl in Hfuel. lia.
      * apply Forall_app. split; [exact Hkept|]. by constructor.
    + unfold DeletePolygon.
      assert (Hdel : delete (length kept) (kept ++ poly :: rest) = kept ++ rest).
      { clear. induction kept as [|x kept IHk]; simpl; [done|]. by rewrite IHk. }
      rewrite Hdel. rewrite IH.
      * rewrite filter_cons, decide_False; [done|]. by rewrite Hbig.
      * simpl in Hfuel. lia.
      * exact Hkept.
Qed.

Lemma dropSmallHoles_all (E : COLLABORATORS) (minimal : Q)
    (holes : SHAPE_POLY_SET) (fuel : nat) :
  (length holes < fuel)%nat ->
  dropSmallHoles E fuel minimal 0 holes
  = Some (filter (fun poly => Qle_bool minimal (Area E (hd [] poly)) = true)
                 holes).
Proof.
  intros Hfuel.
  apply (dropSmallHoles_filter E minimal [] holes fuel Hfuel). constructor.
Qed.

End HatchGrid.

(** X15. The two loops that lay the holes of a hatch pattern end when the
    grid size is positive, and add to the holes one copy of the base hole
    for every grid point [(xx * gridsize, yy * gridsize)] that lies within
    the width and the height of the bounding box, column by column and in
    each column from the top; there are [extent / gridsize + 1] grid
    points along an extent that is not negative, and none along a negative
    one. *)
Theorem hatch_grid_covers_the_bounding_box
    (hole_base : SHAPE_LINE_CHAIN) (gridsize width height : Z)
    (fuel inner : nat) (holes : SHAPE_POLY_SET) :
  0 < gridsize ->
  (Hatch.gridCount gridsize width < fuel)%nat ->
  (Hatch.gridCount gridsize height < inner)%nat ->
  Hatch.gridRows fuel inner hole_base gridsize width height 0 holes
  = Some (holes ++ Hatch.gridHoles hole_base gridsize
                     (Hatch.gridCount gridsize width)
                     (Hatch.gridCount gridsize height))
  /\ length (Hatch.gridHoles hole_base gridsize
               (Hatch.gridCount gridsize width)
               (Hatch.gridCount gridsize height))
     = (Hatch.gridCount gridsize width * Hatch.gridCount gridsize height)%nat
  /\ (forall poly : POLYGON,
        poly ∈ Hatch.gridHoles hole_base gridsize
                 (Hatch.gridCount gridsize width)
                 (Hatch.gridCount gridsize height)
        <-> (exists xx yy : Z,
               0 <= xx /\ 0 <= yy
               /\ xx * gridsize <= width /\ yy * gridsize <= height
               /\ poly = [Move hole_base (xx * gridsize, yy * gridsize)])).
Proof.
  intros Hg Hfuel Hinner.
  split; [|split].
  - by apply gridRows_grid.
  - unfold Hatch.gridHoles.
    generalize (Hatch.gridCount gridsize height) as rows. intros rows.
    assert (Hlen : forall columns : list nat,
               length (flat_map
                         (fun xx =>
                            map (fun yy => [Move hole_base
                                              (Z.of_nat xx * gridsize,
                                               Z.of_nat yy * gridsize)])
                                (seq 0 rows))
                         columns)
               = (length columns * rows)%nat).
    { induction columns as [|xx columns IH]; simpl; [done|].
      rewrite length_app, length_map, length_seq, IH. lia. }
    by rewrite Hlen, length_seq.
  - intros poly. unfold Hatch.gridHoles.
    rewrite list_elem_of_In, in_flat_map. split.
    + intros (i & Hi & Hin).
      apply in_map_iff in Hin as (j & Heq & Hj).
      apply in_seq in Hi. apply in_seq in Hj.
      exists (Z.of_nat i), (Z.of_nat j).
      pose proof (grid_test gridsize width i Hg) as Hti.
      pose proof (grid_test gridsize height j Hg) as Htj.
      replace (i <? Hatch.gridCount gridsize width)%nat with true in Hti
        by (symmetry; apply Nat.ltb_lt; lia).
      replace (j <? Hatch.gridCount gridsize height)%nat with true in Htj
        by (symmetry; apply Nat.ltb_lt; lia).
      simpl in Hti, Htj.
      rewrite Z.gtb_ltb in Hti. apply Z.ltb_ge in Hti.
      rewrite Z.gtb_ltb in Htj. apply Z.ltb_ge in Htj.
      repeat split; try lia. by rewrite Heq.
    + intros (xx' & yy' & Hxx' & Hyy' & Hw & Hh & Heq).
      exists (Z.to_nat xx'). split.
      * apply in_seq.
        pose proof (grid_test gridsize width (Z.to_nat xx') Hg) as Hti.
        rewrite Z2Nat.id in Hti by lia.
        replace (xx' * gridsize >? width) with false in Hti
          by (symmetry; rewrite Z.gtb_ltb; apply Z.ltb_ge; lia).
        symmetry in Hti. apply negb_false_iff, Nat.ltb_lt in Hti. lia.
      * apply in_map_iff. exists (Z.to_nat yy'). split.
        -- rewrite !Z2Nat.id by lia. by rewrite Heq.
        -- apply in_seq.
           pose proof (grid_test gridsize height (Z.to_nat yy') Hg) as Htj.
           rewrite Z2Nat.id in Htj by lia.
           replace (yy' * gridsize >? height) with false in Htj
             by (symmetry; rewrite Z.gtb_ltb; apply Z.ltb_ge; lia).
           symmetry in Htj. apply negb_false_iff, Nat.ltb_lt in Htj. lia.
Qed.

(** The grid at a hole of 1 mm on a grid of 2 mm over a box of 4.5 mm by 2 mm:
    three columns of two holes. *)
Lemma hatch_grid_covers_the_bounding_box_witness :
  Hatch.gridRows 4 3 (Hatch.squareHole 1000000) 2000000 4500000 2000000 0 []
  = Some [ [Move (Hatch.squareHole 1000000) (0, 0)];
           [Move (Hatch.squareHole 1000000) (0, 2000000)];
           [Move (Hatch.squareHole 1000000) (2000000, 0)];
           [Move (Hatch.squareHole 1000000) (2000000, 2000000)];
           [Move (Hatch.squareHole 1000000) (4000000, 0)];
           [Move (Hatch.squareHole 1000000) (4000000, 2000000)] ].
Proof.
  destruct (hatch_grid_covers_the_bounding_box
              (Hatch.squareHole 1000000) 2000000 4500000 2000000 4 3 [])
    as (Heq & _).
  - lia.
  - vm_compute. lia.
  - vm_compute. lia.
  - rewrite Heq. reflexivity.
Defined.

(** X16. The loop that filters the truncated holes ends, and keeps, in
    their order, exactly the polygons whose outline has an area that is
    not below the threshold: the index is not advanced past a polygon that
    moved up into the place of a deleted one. *)
Theorem small_holes_are_dropped_and_no_other
    (E : COLLABORATORS) (minimal_hole_area : Q) (holes : SHAPE_POLY_SET)
    (fuel : nat) :
  (length holes < fuel)%nat ->
  Hatch.dropSmallHoles E fuel minimal_hole_area 0 holes
  = Some (filter (fun poly =>
                    Qle_bool minimal_hole_area (Area E (hd [] poly)) = true)
                 holes)
  /\ (forall poly : POLYGON,
        poly ∈ filter (fun poly =>
                         Qle_bool minimal_hole_area (Area E (hd [] poly)) = true)
                      holes
        <-> poly ∈ holes /\ (minimal_hole_area <= Area E (hd [] poly))%Q).
Proof.
  intros Hfuel. split.
  - by apply dropSmallHoles_all.
  - intros poly. rewrite list_elem_of_filter, Qle_bool_iff. tauto.
Qed.

Lemma small_holes_are_dropped_and_no_other_witness :
  Hatch.dropSmallHoles Examples.K 4 (2000000000000 # 1) 0 Examples2.threeRegions
  = Some [ [BoxKernel.rect 0 0 4000000 4000000];
           [BoxKernel.rect 5000000 5000000 9000000 9000000] ].
Proof.
  destruct (small_holes_are_dropped_and_no_other
              Examples.K (2000000000000 # 1) Examples2.threeRegions 4)
    as (Heq & _).
  - simpl. lia.
  - rewrite Heq. vm_compute. reflexivity.
Defined.

(** X17. With a minimum thickness and a hatch gap that are not negative,
    the hatch fill returns: the lines of the pattern are at least one
    micron wide, the grid size is positive, and the result is the raw fill
    less a set of holes none of which has an outline smaller than the
    given part of the area of the square base hole. *)
Theorem hatch_fill_returns_on_sane_settings
    (E : COLLABORATORS) (H : Hatch.HATCH_COLLABORATORS) (B : BOARD)
    (aZone : ZONE_CONTAINER) (aLayer : PCB_LAYER_ID) (aRawPolys : SHAPE_POLY_SET) :
  0 <= GetMinThickness aZone ->
  0 <= Hatch.GetHatchGap H aZone ->
  0 < iu_0_001 E ->
  iu_0_001 E <= Hatch.hatchLineThickness E H aZone
  /\ 0 < Hatch.hatchGridSize E H aZone
  /\ exists (n : nat) (holes : SHAPE_POLY_SET),
       (forall fuel : nat,
          (n <= fuel)%nat ->
          Hatch.addHatchFillTypeOnZone E H B fuel aZone aLayer aRawPolys
          = Some (BooleanSubtract E aRawPolys holes PM_STRICTLY_SIMPLE))
       /\ Forall (fun poly =>
                    (Hatch.double_mul H
                       (Area E (Hatch.squareHole
                                  (Hatch.GetHatchGap H aZone + GetMinThickness aZone)))
                       (Hatch.GetHatchHoleMinArea H aZone)
                     <= Area E (hd [] poly))%Q)
                 holes.
Proof.
  intros Hmin Hgap Hiu.
  assert (Hline : iu_0_001 E <= Hatch.hatchLineThickness E H aZone).
  { unfold Hatch.hatchLineThickness, Hatch.hatchThickness. lia. }
  assert (Hgrid : 0 < Hatch.hatchGridSize E H aZone).
  { unfold Hatch.hatchGridSize, Hatch.hatchThickness. lia. }
  split; [exact Hline|]. split; [exact Hgrid|].
  pose (orientation := Hatch.GetHatchOrientation H aZone).
  pose (filledPolys := if negb (Qeq_bool orientation 0)
                       then Hatch.RotateDegrees H aRawPolys orientation
                       else aRawPolys).
  pose (bbox := Hatch.BBox H filledPolys).
  pose (hole_base :=
          Hatch.smoothedHole H aZone
            (Hatch.squareHole (Hatch.GetHatchGap H aZone + GetMinThickness aZone))).
  pose (minimal :=
          Hatch.double_mul H
            (Area E (Hatch.squareHole
                       (Hatch.GetHatchGap H aZone + GetMinThickness aZone)))
            (Hatch.GetHatchHoleMinArea H aZone)).
  pose (g := Hatch.hatchGridSize E H aZone).
  pose (columns := Hatch.gridCount g (Hatch.GetWidth bbox)).
  pose (rows := Hatch.gridCount g (Hatch.GetHeight bbox)).
  pose (outline_margin := Hatch.hatchOutlineMargin H aZone).
  pose (linethickness := Hatch.hatchLineThickness E H aZone).
  pose (clip := fun holes : SHAPE_POLY_SET =>
          let holes := Hatch.MovePolySet holes (Hatch.GetPosition bbox) in
          let filledPolys :=
            if outline_margin >? linethickness ÷ 2
            then Deflate E filledPolys (outline_margin - linethickness ÷ 2) 16
                         (DefaultCornerStrategy E)
            else filledPolys in
          let holes := BooleanIntersection E holes filledPolys PM_FAST in
          let holes :=
            if negb (Qeq_bool orientation 0)
            then Hatch.RotateDegrees H holes (- orientation) else holes in
          if negb (GetNetCode aZone =? 0)
          then BooleanSubtract E holes
                 (Hatch.hatchAprons E H B aZone aLayer outline_margin) PM_FAST
          else holes).
  pose (clipped := clip (Hatch.gridHoles hole_base g columns rows)).
  exists (S (Nat.max (Nat.max columns rows) (length clipped))).
  exists (filter (fun poly => Qle_bool minimal (Area E (hd [] poly)) = true) clipped).
  split.
  - intros fuel Hfuel.
    change (Hatch.addHatchFillTypeOnZone E H B fuel aZone aLayer aRawPolys)
      with (holes ← Hatch.gridRows fuel fuel hole_base g (Hatch.GetWidth bbox)
                      (Hatch.GetHeight bbox) 0 [];
            holes ← Hatch.dropSmallHoles E fuel minimal 0 (clip holes);
            Some (BooleanSubtract E aRawPolys holes PM_STRICTLY_SIMPLE)).
    rewrite (gridRows_grid hole_base g (Hatch.GetWidth bbox) (Hatch.GetHeight bbox)
               fuel fuel [] Hgrid) by (fold columns rows; lia).
    cbn [mbind option_bind]. rewrite app_nil_l.
    fold columns rows clipped.
    rewrite (dropSmallHoles_all E minimal clipped fuel) by lia.
    reflexivity.
  - apply Forall_forall. intros poly Hin.
    apply list_elem_of_filter in Hin as [Hbig _].
    by apply Qle_bool_iff.
Qed.

Lemma hatch_fill_returns_on_sane_settings_witness :
  exists (n : nat) (holes : SHAPE_POLY_SET),
    forall fuel : nat,
      (n <= fuel)%nat ->
      Hatch.addHatchFillTypeOnZone Examples.K (Examples2.hatchDouble 1000000 1500000 [])
        Examples.board fuel Examples2.hatchedZone Examples.F_Cu Examples2.rawSquare
      = Some (BooleanSubtract Examples.K Examples2.rawSquare holes PM_STRICTLY_SIMPLE).
Proof.
  destruct (hatch_fill_returns_on_sane_settings
              Examples.K (Examples2.hatchDouble 1000000 1500000 []) Examples.board
              Examples2.hatchedZone Examples.F_Cu Examples2.rawSquare)
    as (_ & _ & n & holes & Hret & _).
  - vm_compute. discriminate.
  - vm_compute. discriminate.
  - vm_compute. reflexivity.
  - exists n, holes. exact Hret.
Defined.

(** X18. A hatch gap that cancels the thickness of the lines gives a grid
    of size zero, and then the loop over the columns of the grid never
    reaches its [break]: whatever the fuel, the hatch fill does not
    return. *)
Theorem hatch_fill_hangs_on_a_grid_of_size_zero
    (E : COLLABORATORS) (H : Hatch.HATCH_COLLABORATORS) (B : BOARD)
    (aZone : ZONE_CONTAINER) (aLayer : PCB_LAYER_ID) (aRawPolys : SHAPE_POLY_SET)
    (fuel : nat) :
  Hatch.hatchGridSize E H aZone = 0 ->
  0 <= Hatch.GetWidth
         (Hatch.BBox H
            (if negb (Qeq_bool (Hatch.GetHatchOrientation H aZone) 0)
             then Hatch.RotateDegrees H aRawPolys (Hatch.GetHatchOrientation H aZone)
             else aRawPolys)) ->
  Hatch.addHatchFillTypeOnZone E H B fuel aZone aLayer aRawPolys = None.
Proof.
  intros Hzero Hwidth.
  unfold Hatch.addHatchFillTypeOnZone. cbv zeta.
  rewrite Hzero.
  by rewrite gridRows_of_size_zero by exact Hwidth.
Qed.

Lemma hatch_fill_hangs_on_a_grid_of_size_zero_witness :
  Hatch.addHatchFillTypeOnZone Examples.K (Examples2.hatchDouble 1000000 (-1000000) [])
    Examples.board 1000 Examples2.hatchedZone Examples.F_Cu Examples2.rawSquare
  = None.
Proof.
  apply (hatch_fill_hangs_on_a_grid_of_size_zero
           Examples.K (Examples2.hatchDouble 1000000 (-1000000) []) Examples.board
           Examples2.hatchedZone Examples.F_Cu Examples2.rawSquare 1000).
  - vm_compute. reflexivity.
  - vm_compute. discriminate.
Defined.

(** ** Clearances of the copper items *)

Section ClearanceFacts.

Import Hatch Clearances.

Lemma foldl_filter_skipped {S X : Type} (f : S -> X -> S) (skipped : X -> bool)
    (l : list X) (s : S) :
  (forall s x, skipped x = true -> f s x = s) ->
  foldl f s (List.filter (fun x => negb (skipped x)) l) = foldl f s l.
Proof.
  intros Hskip. revert s.
  induction l as [|x l IH]; intros s; simpl; [done|].
  destruct (skipped x) eqn:Hx; simpl.
  - by rewrite (Hskip s x Hx).
  - apply IH.
Qed.

Variable E : COLLABORATORS.
Variable H : HATCH_COLLABORATORS.
Variable A : CLEARANCE_COLLABORATORS.

Lemma inflatedBoundingBox_board (B B' : BOARD) (aZone : ZONE_CONTAINER) :
  BiggestClearanceValue B' = BiggestClearanceValue B ->
  inflatedBoundingBox E A B' aZone = inflatedBoundingBox E A B aZone.
Proof. intros Hbig. unfold inflatedBoundingBox. by rewrite Hbig. Qed.

Lemma clearPad_connected (B : BOARD) (hi lo : Z) (aZone : ZONE_CONTAINER)
    (aLayer : PCB_LAYER_ID) (st : D_PAD * SHAPE_POLY_SET) (pad : D_PAD) :
  pad_IsPadOnLayer A pad aLayer && padConnected E aZone pad = true ->
  clearPad E A B hi lo aZone aLayer st pad = st.
Proof.
  intros Hc. apply andb_true_iff in Hc as [Hon Hc].
  unfold padConnected in Hc.
  apply andb_true_iff in Hc as [Hc Hconn].
  apply andb_true_iff in Hc as [Hnet Hpos].
  destruct st as [dummypad aHoles].
  unfold clearPad. rewrite Hon. simpl.
  rewrite Hnet. apply negb_true_iff in Hconn. rewrite Hconn.
  replace (pad_NetCode pad <=? 0) with false
    by (symmetry; apply Z.leb_gt; by apply Z.ltb_lt).
  reflexivity.
Qed.

Lemma clearTrack_connected (B : BOARD) (lo : Z) (aZone : ZONE_CONTAINER)
    (aLayer : PCB_LAYER_ID) (aHoles : SHAPE_POLY_SET) (track : TRACK) :
  trackConnected aZone track = true ->
  clearTrack E H A B lo aZone aLayer aHoles track = aHoles.
Proof.
  intros Hc. unfold trackConnected in Hc. unfold clearTrack. rewrite Hc.
  by destruct (track_IsOnLayer track aLayer).
Qed.

Lemma clearZone_yields (B : BOARD) (aZone : ZONE_CONTAINER) (aLayer : PCB_LAYER_ID)
    (aHoles : SHAPE_POLY_SET) (zone : ZONE_CONTAINER) :
  zoneYields A aZone zone = true ->
  clearZone E A B aZone aLayer aHoles zone = aHoles.
Proof.
  intros Hy. unfold zoneYields in Hy. unfold clearZone.
  destruct (bool_decide (aLayer ∈ GetLayerSet zone)); simpl; [|done].
  destruct (GetIsKeepout zone); simpl.
  - by rewrite Hy.
  - by rewrite Hy.
Qed.

End ClearanceFacts.

(** X19. Copper the zone is connected to gets no clearance hole: the
    holes [buildCopperItemClearances] gathers stay the same when the pads
    flashed on the layer that are of the zone's net (not the null net) and
    have a connection other than none, the tracks and vias of the zone's
    net (not the null net), the copper zones of the same or a lower
    priority and the keepouts that allow copper pours are taken off the
    board. *)
Theorem connected_copper_gets_no_clearance_hole
    (E : COLLABORATORS) (H : Hatch.HATCH_COLLABORATORS)
    (A : Clearances.CLEARANCE_COLLABORATORS) (B B' : BOARD) (hi lo : Z)
    (aZone : ZONE_CONTAINER) (aLayer : PCB_LAYER_ID) (aHoles : SHAPE_POLY_SET) :
  BiggestClearanceValue B' = BiggestClearanceValue B ->
  allPads B'
  = List.filter (fun pad => negb (Clearances.pad_IsPadOnLayer A pad aLayer
                                  && Clearances.padConnected E aZone pad))
                (allPads B) ->
  Hatch.Tracks H B'
  = List.filter (fun track => negb (Clearances.trackConnected aZone track))
                (Hatch.Tracks H B) ->
  concat (map (Clearances.graphicsOf A) (Modules B'))
  = concat (map (Clearances.graphicsOf A) (Modules B)) ->
  Clearances.Drawings A B' = Clearances.Drawings A B ->
  Clearances.GetZoneList A B'
  = List.filter (fun zone => negb (Clearances.zoneYields A aZone zone))
                (Clearances.GetZoneList A B) ->
  Clearances.buildCopperItemClearances E H A B' hi lo aZone aLayer aHoles
  = Clearances.buildCopperItemClearances E H A B hi lo aZone aLayer aHoles.
Proof.
  intros Hbig Hpads Htracks Hgraphics Hdrawings Hzones.
  unfold Clearances.buildCopperItemClearances, Clearances.gatherClearances.
  rewrite Hpads, Htracks, Hgraphics, Hdrawings, Hzones.
  pose proof (inflatedBoundingBox_board E A B B' aZone Hbig) as Hbox.
  assert (HclearPad : Clearances.clearPad E A B' hi lo aZone aLayer
                      = Clearances.clearPad E A B hi lo aZone aLayer).
  { unfold Clearances.clearPad. by rewrite Hbox. }
  assert (HclearTrack : Clearances.clearTrack E H A B' lo aZone aLayer
                        = Clearances.clearTrack E H A B lo aZone aLayer).
  { unfold Clearances.clearTrack. by rewrite Hbox. }
  assert (Hgraphic : Clearances.doGraphicItem E A B' hi aZone aLayer
                     = Clearances.doGraphicItem E A B hi aZone aLayer).
  { unfold Clearances.doGraphicItem. by rewrite Hbox. }
  assert (HclearZone : Clearances.clearZone E A B' aZone aLayer
                       = Clearances.clearZone E A B aZone aLayer).
  { unfold Clearances.clearZone. by rewrite Hbox. }
  rewrite HclearPad, HclearTrack, Hgraphic, HclearZone.
  rewrite (foldl_filter_skipped (Clearances.clearPad E A B hi lo aZone aLayer))
    by (intros st pad; apply clearPad_connected).
  rewrite (foldl_filter_skipped (Clearances.clearTrack E H A B lo aZone aLayer))
    by (intros st track; apply clearTrack_connected).
  rewrite (foldl_filter_skipped (Clearances.clearZone E A B aZone aLayer))
    by (intros st zone; apply clearZone_yields).
  reflexivity.
Qed.

(** Example: a board with a pad of net 2 and the pad of net 1 in the middle
    of the copper zone of net 1: with or without the pad of net 1, the
    holes are the clearance of the pad of net 2, that of the board edge
    and the keepout. *)
Lemma connected_copper_gets_no_clearance_hole_witness :
  Clearances.buildCopperItemClearances Examples.K
    (Examples2.hatchDouble 1000000 1500000 [])
    (Examples2.clearanceDouble [Examples.keepoutZone])
    (Examples.boardWith [Examples2.foreignPad]) 9 6
    Examples.copperZone Examples.F_Cu []
  = Clearances.buildCopperItemClearances Examples.K
      (Examples2.hatchDouble 1000000 1500000 [])
      (Examples2.clearanceDouble [Examples.keepoutZone])
      (Examples.boardWith [Examples2.foreignPad; Examples.centrePad]) 9 6
      Examples.copperZone Examples.F_Cu []
  /\ length (Clearances.buildCopperItemClearances Examples.K
               (Examples2.hatchDouble 1000000 1500000 [])
               (Examples2.clearanceDouble [Examples.keepoutZone])
               (Examples.boardWith [Examples2.foreignPad; Examples.centrePad]) 9 6
               Examples.copperZone Examples.F_Cu [])
     = 3%nat.
Proof.
  split.
  - apply (connected_copper_gets_no_clearance_hole Examples.K
             (Examples2.hatchDouble 1000000 1500000 [])
             (Examples2.clearanceDouble [Examples.keepoutZone])
             (Examples.boardWith [Examples2.foreignPad; Examples.centrePad])
             (Examples.boardWith [Examples2.foreignPad]) 9 6
             Examples.copperZone Examples.F_Cu []);
      vm_compute; reflexivity.
  - vm_compute. reflexivity.
Defined.

(** X20.  A pad that is on the layer ([IsOnLayer], which the pad loop of
    [knockoutThermalReliefs] asks) and flashed on it ([IsPadOnLayer], which
    the pad loop of [buildCopperItemClearances] asks) does not get both a
    thermal relief and a clearance hole: if the first loop adds a knockout
    for it, the second passes it by; and such a pad of the zone's net with
    a solid connection is passed by in both.  The two loops ask different
    questions, and nothing is said here of a pad that is on the layer
    without being flashed on it, for whose hole both loops may use the
    dummy pad. *)
Theorem no_pad_gets_both_a_relief_and_a_clearance
    (E : COLLABORATORS) (A : Clearances.CLEARANCE_COLLABORATORS) (B : BOARD)
    (hi lo : Z) (aZone : ZONE_CONTAINER) (aLayer : PCB_LAYER_ID) (pad : D_PAD) :
  pad_IsOnLayer pad aLayer = true ->
  Clearances.pad_IsPadOnLayer A pad aLayer = true ->
  ((forall st, knockoutPad E hi lo aZone aLayer st pad = st)
   \/ (forall st, Clearances.clearPad E A B hi lo aZone aLayer st pad = st))
  /\ (GetPadConnection E aZone pad = ZC_FULL ->
      pad_NetCode pad = GetNetCode aZone ->
      0 < pad_NetCode pad ->
      (forall st, knockoutPad E hi lo aZone aLayer st pad = st)
      /\ (forall st, Clearances.clearPad E A B hi lo aZone aLayer st pad = st))
  /\ (hasThermalConnection E pad aZone = true ->
      forall dummypad holes,
        knockoutPad E hi lo aZone aLayer (dummypad, holes) pad
        = (dummypad,
           addKnockout E hi lo pad (GetThermalReliefGap E aZone pad) holes)).
Proof.
  intros Hon Hflashed.
  assert (Hthermal : hasThermalConnection E pad aZone = true ->
                     Clearances.padConnected E aZone pad = true).
  { unfold hasThermalConnection.
    destruct (bool_decide (GetPadConnection E aZone pad = ZC_THT_THERMAL)
              && negb (bool_decide (pad_Attribute pad = PAD_ATTRIB_STANDARD)));
      [done|].
    destruct (negb (bool_decide (GetPadConnection E aZone pad = ZC_THERMAL))
              && negb (bool_decide (GetPadConnection E aZone pad = ZC_THT_THERMAL)))
      eqn:Hconn; [done|].
    destruct (negb (pad_NetCode pad =? GetNetCode aZone) || (pad_NetCode pad <=? 0))
      eqn:Hnet; [done|].
    intros _.
    apply orb_false_iff in Hnet as [Hsame Hpos].
    apply negb_false_iff in Hsame. apply Z.leb_gt in Hpos.
    unfold Clearances.padConnected. rewrite Hsame.
    replace (0 <? pad_NetCode pad) with true by (symmetry; by apply Z.ltb_lt).
    simpl. apply negb_true_iff, bool_decide_eq_false. intros Hnone.
    rewrite Hnone in Hconn. vm_compute in Hconn. discriminate Hconn. }
  split; [|split].
  - destruct (hasThermalConnection E pad aZone) eqn:Hh.
    + right. intros st. apply clearPad_connected.
      by rewrite Hflashed, Hthermal.
    + left. intros [dummypad holes]. unfold knockoutPad. by rewrite Hh.
  - intros Hfull Hnet Hpos. split.
    + intros [dummypad holes]. unfold knockoutPad, hasThermalConnection.
      rewrite Hfull. reflexivity.
    + intros st. apply clearPad_connected.
      rewrite Hflashed. unfold Clearances.padConnected.
      rewrite Hfull, Hnet, Z.eqb_refl. simpl.
      rewrite <- Hnet. apply andb_true_iff. split; [by apply Z.ltb_lt | done].
  - intros Hh dummypad holes. unfold knockoutPad. by rewrite Hh, Hon.
Qed.

Lemma no_pad_gets_both_a_relief_and_a_clearance_witness :
  knockoutPad Examples.K 9 6 Examples.copperZone Examples.F_Cu
    (new_D_PAD Examples.K, []) Examples.centrePad
  <> (new_D_PAD Examples.K, [])
  /\ Clearances.clearPad Examples.K (Examples2.clearanceDouble [])
       Examples.board 9 6 Examples.copperZone Examples.F_Cu
       (new_D_PAD Examples.K, []) Examples.centrePad
     = (new_D_PAD Examples.K, []).
Proof.
  destruct (no_pad_gets_both_a_relief_and_a_clearance Examples.K
              (Examples2.clearanceDouble []) Examples.board 9 6
              Examples.copperZone Examples.F_Cu Examples.centrePad)
    as ([Hk | Hc] & _ & _).
  - vm_compute. reflexivity.
  - vm_compute. reflexivity.
  - specialize (Hk (new_D_PAD Examples.K, [])). vm_compute in Hk. discriminate Hk.
  - split; [vm_compute; discriminate | apply Hc].
Defined.
